(* ===== verification/_CoqProject ===== *)
-Q . S2P
Prelude.v
Types.v
Protobuf.v
Codec.v
Timer.v
Validator.v
Config.v
Cache.v
Processor.v
LogSync.v
Engine.v
Impl.v
Blocks.v
StateMachine.v
Storage.v
Quorum.v
BlockValidator.v
ConfigFacts.v
CacheFacts.v
CodecFacts.v
StorageFacts.v
Steps.v
Node.v
Growth.v
Refine.v
Behaviour.v
Invariants.v
Votes.v
Safety.v
Agreement.v
Certificates.v
FastView.v
Sane.v
SaneNode.v
FaultFree.v
Boot.v
NoCrash.v
Malformed.v
Network.v
Restart.v
PrePrepare.v
NewView.v
Progress.v
Scenario.v
NetworkScenario.v
Equivocation.v
Forgery.v
