(* ===== verification/Prelude.v ===== *)
(** * bcos-pbft: the PBFT consensus module of FISCO BCOS

    A node of the network runs one [PBFTEngine].  Other services of the node call it
    through [PBFTImpl]: the sealer submits proposals, the front service delivers the
    messages of the other consensus nodes, the synchronisation module announces
    blocks.  The engine checks each message and keeps what it collects in the
    [PBFTCacheProcessor], which has one [PBFTCache] per block number; a proposal goes
    through pre-prepare, prepare (a quorum of prepare messages precommits it), commit
    (a quorum of commit messages submits it to the execution queue), execution and
    checkpoint (a quorum of checkpoint messages makes the executed block stable, and
    it is handed to the ledger).  Time-outs move the node to a new view, whose leader
    re-proposes what had been prepared.  [PBFTConfig] holds the state all of them
    share: node list and quorum, view, water marks, timer, sealing window.

    ** The files

    - [Prelude] (this file): 64-bit integers, ordered iteration of maps, the effect
      monad [Eff] (state, emitted events, exceptions, faults) with its weakest
      precondition [wp], relations respected by a computation ([respects]), invariants
      kept by it ([keeps]) and the tactics [eff_auto], [nothrow_auto], [keep_auto] that
      decompose a handler.
    - [Types] (core/Proposal.h, pbft/protocol/PB, pbft/interfaces/PBFTMessageFactory.h,
      pbft/utilities/Common.h): proposals, the packets, the message factory, as the
      engine works with them; the class [Externals] of what is not in the repository;
      the [Event]s a node emits; [Demo], a concrete instance of [Externals].
    - [Protobuf], [Codec]: the packets as they are sent.  [Protobuf] has the messages of
      the .proto files and the class of the generated serialization, [Codec] the message
      objects of core/Proposal.h and pbft/protocol/PB - the protobuf message an object
      owns next to the fields it caches -, the factory and [PBFTCodec].  [contents] maps
      an object to the message of [Types] it stands for.
    - [Timer] (pbft/engine/PBFTTimer.h), [Validator] (pbft/engine/Validator.h/.cpp),
      [Config] (core/ConsensusConfig, pbft/config/PBFTConfig), [Cache]
      (pbft/cache/PBFTCache), [Processor] (pbft/cache/PBFTCacheProcessor), [LogSync]
      (pbft/engine/PBFTLogSync), [Engine] (pbft/engine/PBFTEngine,
      core/ConsensusEngine.h), [Impl] (pbft/PBFTImpl): one Module per class, its
      fields as the record [t], one definition per method under the method's name.  A
      method that changes state is a computation in [Eff]; a method of a member object
      runs on it through [zoom].
    - [Blocks]: the interface of the framework's blocks and headers that the following
      components use, with a concrete instance.  [StateMachine] (core/StateMachine),
      [Storage] (pbft/storage/LedgerStorage), [BlockValidator]
      (pbft/engine/BlockValidator): the components around the engine, each with the calls
      it makes and the answers it gets, and the state machine's and the validator's
      theorems.  [Boot]: the rest of pbft/PBFTImpl and pbft/PBFTFactory.
    - [Quorum], [ConfigFacts], [CacheFacts], [CodecFacts], [StorageFacts]: theorems about
      single components: quorum arithmetic and intersection; node list, leader, sealing
      window; vote collections; the wire format; the table of committed proposals.
    - [Steps], [Node]: the abstract specification: [fstep] and [step] are the
      elementary guarded steps of one cache and of the node.  [Growth], [Refine],
      [Behaviour]: every handler, hence every run, is a sequence of these steps.
    - [Invariants], [Votes], [Safety], [Agreement], [Certificates]: what follows for every
      run by induction on the steps: order of execution, quorums, the commit lock,
      agreement between nodes, the signatures of committed blocks.
    - [FastView], [Boot], [Restart], [PrePrepare]: the behaviour of whole handlers: the
      loop of fast view changes, start and restart of a node, admission of a proposal.
    - [Sane], [SaneNode], [FaultFree], [NoCrash]: no fault: the invariant of the
      configuration and the caches, then of the cache processor, the engine's handlers
      and the whole node, under which none of them reaches a fault and every packet it
      sends is one the others can handle.  [PrePrepare] is proved from them: it also says what
      the caches and the broadcasts are after a pre-prepare has been taken up.  [Network]: nodes that send to each other.
      [Malformed]: what the codec guarantees of a decoded packet, and a packet that does
      stop a node.
    - [NewView]: the change of view: what its leader proposes, what the others check.
    - [Progress]: the votes for one proposal as one cache counts them, in any order.
    - [Scenario], [NetworkScenario]: a concrete node and its run, and four nodes
      that commit a block by what they send each other, on which the theorems are applied.
      [Equivocation], [Forgery]: what the protocol does not prevent, for any node in the
      states described, and the packets that bring it about.

    ** How the code is modelled

    A shared object ([m_config], reached from every class) is part of the state of its
    user: [PBFTCacheProcessor.t] contains the configuration, [PBFTEngine.t] the cache
    processor, and a cache runs on a [frame] of itself and the configuration.  Two
    pointers to one message that the code mutates through ([m_prePrepare] and
    [m_precommit], the message being handled and the cached one) are kept equal by the
    operations that mutate it ([intoPrecommit], [Engine.encodeHandled]).

    A null dereference, an out-of-range access, a division by zero and a failed assert
    are [Crashed]; a C++ exception is [Threw] with the state reached.  Integers are [Z];
    [uint64_t] arithmetic wraps through [u64].  Iteration over a [std::map] is by
    ascending key ([in_order]).  Node keys, hashes and signatures are opaque numbers
    and byte strings with equality; hashing, signing and verifying are functions of
    [Externals], as are the block factory - which throws on data that are no block -, the base
    timer and the log levels: a log statement evaluates its arguments only when its level is on,
    and some of them insert into a map ([log_access]) or dereference a pointer ([log_deref]).

    A call to another service (front, ledger, scheduler, transaction pool, sealer) is
    an [Event]; its callback is an input of its own, which may come at any later point
    or never.  [Impl.PBFTImpl.input] lists everything that can happen to a running node
    and [Impl.PBFTImpl.run] handles a sequence of inputs.  Threads are thereby modelled
    as interleavings of whole handlers: the engine's mutex makes message handling
    atomic, callbacks run between handlers.  Packets arrive decoded ([Wire]): a packet
    that the codec rejects is [Undecodable].

    The only loop without a structural bound, in [tryTriggerFastViewChange], has two
    more units of fuel than twice the number of consensus nodes; that this is enough is
    [FastView.fast_view_change_terminates]: every iteration moves the lead on by one and
    the loop stops at the node itself at the latest, in the second turn only where the
    64-bit sum that the leader is computed from wraps.  The retries of the storage are
    bounded by the code ([StorageFacts.writes_settle]).

    The engine's messages are the records of [Types], not the objects of [Codec].  This
    is justified by [CodecFacts.codec_roundtrip] - decoding what a node encodes gives
    the message back, but for the messages inside it, whose base is read from the hash
    fields encoded when they were made; [Network.as_received] does the same to the
    records - and by [CodecFacts.objects_stay_synced] - the two copies that an
    object keeps of a field do not diverge.

    ** What the theorems show

    [Behaviour.node_refines_steps] is the refinement: each handler is a sequence of the
    guarded steps of [Node].  From it follow, for runs of any length: views, committed
    blocks and water marks only grow; proposals are executed and committed in the order
    of block numbers; a quorum that a node reports is a set of distinct nodes, and its
    weight tables are what a recount gives; a node commits to one proposal per block
    number ([Safety.commit_lock]); correct nodes agree ([Agreement.agreement]); a block
    handed to the ledger passes the block validator of every other node
    ([Certificates.committed_blocks_are_accepted]).  [Quorum.update_quorum_bounds] is
    the arithmetic they rest on.  A [Policy] lists what a theorem assumes of the received
    messages and of the ledger; [any_policy] assumes nothing, [consistent_policy] that a message
    names the index and hash of its proposal, [safe_policy] moreover that executed blocks are not
    given up.

    [Agreement.agreement] assumes that a commit request that names a correct node was
    sent by it.  The signatures are meant to give this, but do not: the packet type is
    not signed, and [Forgery.replayed_prepares_commit] makes a commit quorum out of any
    quorum of prepare requests.  [Equivocation.equivocating_leader_prepared_twice]: a
    leader that puts a higher view into its second pre-prepare gets two prepare requests of one
    view from a correct node; the run after it has two correct nodes locked on
    different proposals, after which neither can be decided.

    [NoCrash.started_node_never_faults]: from [init] on, no sequence of sane inputs
    reaches a fault.  What a sane input is, [NoCrash.sane_input] lists: most inputs are
    free; packets come with a sender, which handlers and log statements dereference;
    pre-prepares must carry the proposal that they name, and prepared proposals the
    signers and senders that the code takes for granted, while
    [Malformed.decoded_packets_are_typed] gives the rest for any bytes the codec decodes;
    the node list keeps its length.  [Network.network_never_faults] discharges the
    assumptions on packets and callbacks: among nodes that run this code, on a network
    that may do anything but invent packets, they hold by invariant.
    [Malformed.malformed_view_change_stops_node] is the invented packet that shows why
    they are there: its handler reads past the end of a list before any signature is
    checked.

    [NewView.new_view_verdict] says when the leader of a new view announces it and what it
    proposes for every index between the numbers recorded of the view changes.  Its limits are
    theorems too: [NewView.reset_forgets_prepared_proposals], where these numbers have been
    cleared while the view changes stay,
    [NewView.older_proposal_replaces_newer], where a certificate of a higher view loses, and
    [NewView.lone_leader_enters_view], where one view change, repeated, counts as a quorum.
    Neither breaks [Agreement.agreement], which rests on the lock of a precommitted
    proposal and not on the change of view.

    [Progress.votes_decide_once] is the liveness side of one round: votes that overtake
    the pre-prepare, come twice or from strangers change nothing, and a quorum of prepare
    and one of commit requests decide a proposal once, in whatever order they come in.
    That the network delivers the votes, and that a correct leader is reached in time, is
    not stated: packets may be lost for ever.

    [PrePrepare.prePrepare_verdict] covers the admission of a pre-prepare for every caller of
    [handlePrePrepareMsg].

    Around the engine: a node that restarts resumes what it had committed, if no index of it
    was lost ([Restart.restart_resumes], on [StorageFacts.recovery_exact]); [init] gives the state
    the theorems about runs start from ([Boot.init_establishes]); what the state machine
    is given is executed on the right parent and answered; a synchronised block is
    accepted exactly when its header carries node list, weights and quorum.  The component
    theorems give the behaviour of node list, leader choice, sealing window, timer and
    reset records, error branches included.

    ** What is not modelled

    The pure virtual declarations of framework/ and pbft/interfaces/ have no content of
    their own.  The framework's blocks, the generated serialization, hashing and
    signing, the base class of the timer, the ledger fetcher and the other services are
    parameters or events.  Logging is left out where it changes no state.  Handlers are
    atomic: data races between threads and the lock discipline are not modelled, and
    the idle wait of the worker loop is not.  JSON formatting of the status is not. *)
From Stdlib Require Export ZArith Lia.
From stdpp Require Export base gmap sorting list option numbers.
#[global] Set Default Goal Selector "!".

Declare Scope pbft_scope.
Delimit Scope pbft_scope with pbft.
#[global] Open Scope Z_scope.

(** * Machine integers

    [IndexType], [ViewType] and the quorum weights are [uint64_t]; block
    numbers are [int64_t].  A 64-bit unsigned value is a [Z] in [0, 2^64) and
    every arithmetic operation on it wraps explicitly through [u64]. *)
Definition two64 : Z := 2 ^ 64.
Definition u64 (z : Z) : Z := z mod two64.
(** The conversion of an out-of-range value to [int64_t]. *)
Definition i64 (z : Z) : Z := (z + 2 ^ 63) mod two64 - 2 ^ 63.

Definition is_u64 (z : Z) : Prop := 0 <= z < two64.

Lemma u64_is_u64 z : is_u64 (u64 z).
Proof. apply Z.mod_pos_bound. reflexivity. Qed.

Lemma u64_id z : is_u64 z -> u64 z = z.
Proof. intros H. by apply Z.mod_small. Qed.

Lemma u64_add_l a b : u64 (u64 a + b) = u64 (a + b).
Proof. unfold u64. by rewrite Zplus_mod_idemp_l. Qed.

Lemma u64_add_r a b : u64 (a + u64 b) = u64 (a + b).
Proof. unfold u64. by rewrite Zplus_mod_idemp_r. Qed.

Lemma i64_id z : - 2 ^ 63 <= z < 2 ^ 63 -> i64 z = z.
Proof. intros H. unfold i64, two64. rewrite Z.mod_small; lia. Qed.

(** A conversion to [int64_t] and back. *)
Lemma u64_i64 z : u64 (i64 z) = u64 z.
Proof.
  unfold u64, i64. rewrite <- (Z_mod_plus_full (_ - 2 ^ 63) 1 two64).
  replace ((z + 2 ^ 63) mod two64 - 2 ^ 63 + 1 * two64)
    with ((z + 2 ^ 63) mod two64 + 2 ^ 63) by (unfold two64; lia).
  rewrite Zplus_mod_idemp_l.
  replace (z + 2 ^ 63 + 2 ^ 63) with (z + 1 * two64) by (unfold two64; lia).
  apply Z_mod_plus_full.
Qed.

Create HintDb word.
#[export] Hint Resolve u64_is_u64 : word.
Create Rewrite HintDb word_rw.
#[export] Hint Rewrite u64_add_l u64_add_r : word_rw.

(** * Record update

    [r <| f := v |>] is the record [r] with field [f] replaced: an assignment
    to a member variable.  A record type provides its eta expansion; the setter
    of a projection is computed from it. *)
Class Eta (R : Type) := eta : R -> R.
Class Settable {R T : Type} (proj : R -> T) := update : (T -> T) -> R -> R.
#[global] Hint Mode Settable + + + : typeclass_instances.

Ltac build_setter proj :=
  match type of proj with
  | ?R -> _ =>
      let e := constr:(_ : Eta R) in
      let e := eval cbv [eta] in e in
      let e := match e with
               | ?c => let c' := eval hnf in c in c'
               end in
      let t := eval pattern proj in e in
      match t with
      | ?F _ => exact (fun f r => F (fun r' => f (proj r')) r)
      end
  end.
#[global] Hint Extern 0 (Settable ?p) => build_setter p : typeclass_instances.

#[warnings="-postfix-notation-not-level-1"]
Notation "r <| proj := v |>" := (update (proj := proj) (fun _ => v) r)
  (at level 12, left associativity, proj constr, v at level 200) : pbft_scope.
#[global] Open Scope pbft_scope.

(** * Stateful, fallible, event-emitting code

    A C++ member function is a function from the object's state to an
    [outcome]: it returns, throws an exception (which keeps the mutations made
    so far, as C++ does) or reaches undefined behaviour/aborts. *)
Inductive exn : Type :=
  | InitConsensusException
  | UnknownPBFTMsgType
  | InitPBFTException
  | DecodeException.

Inductive fault : Type :=
  | NullDeref
  | DivByZero
  | OutOfRange
  | AssertFailed
  | OutOfFuel.

Inductive outcome (E S A : Type) : Type :=
  | Done (a : A) (s : S) (es : list E)
  | Threw (x : exn) (s : S) (es : list E)
  | Crashed (f : fault).
Arguments Done {E S A} a s es.
Arguments Threw {E S A} x s es.
Arguments Crashed {E S A} f.

Definition Eff (E S A : Type) : Type := S -> outcome E S A.

#[global] Instance eff_ret {E S} : MRet (Eff E S) :=
  fun A a s => Done a s [].
#[global] Instance eff_bind {E S} : MBind (Eff E S) :=
  fun A B k m s =>
    match m s with
    | Done a s1 e1 =>
        match k a s1 with
        | Done b s2 e2 => Done b s2 (e1 ++ e2)
        | Threw x s2 e2 => Threw x s2 (e1 ++ e2)
        | Crashed f => Crashed f
        end
    | Threw x s1 e1 => Threw x s1 e1
    | Crashed f => Crashed f
    end.

Section Operations.
Context {E S : Type}.

Definition get : Eff E S S := fun s => Done s s [].
Definition asks {A} (f : S -> A) : Eff E S A := fun s => Done (f s) s [].
Definition modify (f : S -> S) : Eff E S unit := fun s => Done tt (f s) [].
Definition emit (e : E) : Eff E S unit := fun s => Done tt s [e].
Definition throw {A} (x : exn) : Eff E S A := fun s => Threw x s [].
Definition crash {A} (f : fault) : Eff E S A := fun _ => Crashed f.

(** [p->m()] for a pointer [p] that may be null. *)
Definition deref {A} (p : option A) : Eff E S A :=
  match p with Some a => mret a | None => crash NullDeref end.

Definition assert_ (b : bool) : Eff E S unit :=
  if b then mret tt else crash AssertFailed.

Definition when (b : bool) (m : Eff E S unit) : Eff E S unit :=
  if b then m else mret tt.

(** [try { m } catch (...) { h }]: the mutations made by [m] stay. *)
Definition try_catch {A} (m : Eff E S A) (h : exn -> Eff E S A) : Eff E S A :=
  fun s =>
    match m s with
    | Threw x s1 e1 =>
        match h x s1 with
        | Done b s2 e2 => Done b s2 (e1 ++ e2)
        | Threw x s2 e2 => Threw x s2 (e1 ++ e2)
        | Crashed f => Crashed f
        end
    | o => o
    end.

(** A range-based [for] loop over a container that the body does not change. *)
Fixpoint for_each {A} (l : list A) (f : A -> Eff E S unit) : Eff E S unit :=
  match l with
  | [] => mret tt
  | a :: l => f a ;; for_each l f
  end.

(** A loop that [return]s [Some r] from its body, or falls through. *)
Fixpoint for_until {A R} (l : list A) (f : A -> Eff E S (option R)) : Eff E S (option R) :=
  match l with
  | [] => mret None
  | a :: l => r ← f a; match r with Some r => mret (Some r) | None => for_until l f end
  end.
End Operations.

(** Run code of a sub-object [proj s] inside the object [s]. *)
Definition zoom {E S T A} (proj : S -> T) `{!Settable proj} (m : Eff E T A) : Eff E S A :=
  fun s =>
    match m (proj s) with
    | Done a t es => Done a (s <| proj := t |>) es
    | Threw x t es => Threw x (s <| proj := t |>) es
    | Crashed f => Crashed f
    end.
Arguments zoom {E S T A} proj {_} m.

(** The observers used in statements. *)
Definition final {E S A} (o : outcome E S A) : option S :=
  match o with Done _ s _ | Threw _ s _ => Some s | Crashed _ => None end.
Definition value {E S A} (o : outcome E S A) : option A :=
  match o with Done a _ _ => Some a | _ => None end.
Definition events {E S A} (o : outcome E S A) : list E :=
  match o with Done _ _ es | Threw _ _ es => es | Crashed _ => [] end.

(** ** A weakest precondition, and the relations a computation respects

    [wp C o Q]: the result (a value or an exception), the final state and the
    events of the outcome [o] satisfy [Q]; if [o] is a crash, its fault
    satisfies [C].  [C] is [any_fault] for partial statements and a stronger
    predicate where the absence of a fault is the claim. *)
Definition any_fault (f : fault) : Prop := True.
Definition not_fuel (f : fault) : Prop := f <> OutOfFuel.

Definition wp {E S A} (C : fault -> Prop) (o : outcome E S A)
    (Q : A + exn -> S -> list E -> Prop) : Prop :=
  match o with
  | Done a s es => Q (inl a) s es
  | Threw x s es => Q (inr x) s es
  | Crashed f => C f
  end.

(** [respects C R m]: [R] relates the initial state, the final state and the
    emitted events of every run of [m]. *)
Definition respects {E S A} (C : fault -> Prop) (R : S -> S -> list E -> Prop)
    (m : Eff E S A) : Prop :=
  forall s, wp C (m s) (fun _ s' es => R s s' es).

Class Transition {E S} (R : S -> S -> list E -> Prop) : Prop := {
  transition_refl : forall s, R s s [];
  transition_trans : forall s1 s2 s3 e1 e2, R s1 s2 e1 -> R s2 s3 e2 -> R s1 s3 (e1 ++ e2)
}.

Section WpRules.
Context {E S : Type} {C : fault -> Prop}.

Lemma wp_mono {A} (o : outcome E S A) (Q Q' : A + exn -> S -> list E -> Prop) :
  wp C o Q -> (forall r s es, Q r s es -> Q' r s es) -> wp C o Q'.
Proof. destruct o; simpl; auto. Qed.

(** What does not fault and what holds when it does not. *)
Lemma wp_both {A} (o : outcome E S A) (Q Q' : A + exn -> S -> list E -> Prop) :
  wp C o Q -> wp any_fault o Q' -> wp C o (fun r s es => Q r s es /\ Q' r s es).
Proof. destruct o; simpl; auto. Qed.

Lemma wp_bind {A B} (m : Eff E S A) (k : A -> Eff E S B) s Q :
  wp C (m s) (fun r s1 e1 =>
    match r with
    | inl a => wp C (k a s1) (fun r2 s2 e2 => Q r2 s2 (e1 ++ e2))
    | inr x => Q (inr x) s1 e1
    end) ->
  wp C ((m ≫= k) s) Q.
Proof.
  unfold mbind, eff_bind. destruct (m s) as [a s1 e1|x s1 e1|f]; simpl; auto.
  by destruct (k a s1).
Qed.

Lemma bind_get {B} (k : S -> Eff E S B) s : (get ≫= k) s = k s s.
Proof. unfold mbind, eff_bind, get. by destruct (k s s). Qed.

(** Sequencing is associative. *)
Lemma bind_assoc {A B D} (m : Eff E S A) (k : A -> Eff E S B) (h : B -> Eff E S D) s :
  (m ≫= (fun a => k a ≫= h)) s = ((m ≫= k) ≫= h) s.
Proof.
  unfold mbind, eff_bind. destruct (m s) as [a s1 e1| |]; [|done..].
  destruct (k a s1) as [b s2 e2| |]; [|done..].
  destruct (h b s2); by rewrite ?(assoc_L (++)).
Qed.

Lemma wp_respects {A} R (m : Eff E S A) s (Q : A + exn -> S -> list E -> Prop) :
  respects C R m -> (forall r s' es, R s s' es -> Q r s' es) -> wp C (m s) Q.
Proof. intros Hm HQ. eapply wp_mono; [apply Hm|]. auto. Qed.

(** A hypothesis on the initial state. *)
Lemma wp_impl {A} (o : outcome E S A) (P : Prop) (Q : A + exn -> S -> list E -> Prop) :
  (forall f, C f) -> (P -> wp C o Q) -> wp C o (fun r s es => P -> Q r s es).
Proof. intros HC H. destruct o; simpl in *; auto. Qed.

Lemma respects_weaken {A} (R R' : S -> S -> list E -> Prop) (m : Eff E S A) :
  respects C R m -> (forall s s' es, R s s' es -> R' s s' es) -> respects C R' m.
Proof. intros Hm HR s. eapply wp_mono; [apply Hm|]. auto. Qed.

Context (R : S -> S -> list E -> Prop) `{!Transition R}.

Lemma respects_ret {A} (a : A) : respects C R (mret a).
Proof. intros s. apply transition_refl. Qed.

Lemma respects_get : respects C R get.
Proof. intros s. apply transition_refl. Qed.

Lemma respects_asks {A} (f : S -> A) : respects C R (asks f).
Proof. intros s. apply transition_refl. Qed.

Lemma respects_throw {A} x : respects C R (throw (A := A) x).
Proof. intros s. apply transition_refl. Qed.

Lemma respects_crash {A} f : C f -> respects C R (crash (A := A) f).
Proof. intros Hf s. exact Hf. Qed.

Lemma respects_deref {A} (p : option A) : (p = None -> C NullDeref) -> respects C R (deref p).
Proof. destruct p; intros H; [apply respects_ret | by apply respects_crash, H]. Qed.

Lemma respects_assert b : (b = false -> C AssertFailed) -> respects C R (assert_ b).
Proof. destruct b; intros H; [apply respects_ret | by apply respects_crash, H]. Qed.

Lemma respects_bind {A B} (m : Eff E S A) (k : A -> Eff E S B) :
  respects C R m -> (forall a, respects C R (k a)) -> respects C R (m ≫= k).
Proof.
  intros Hm Hk s. apply wp_bind. eapply wp_respects; [exact Hm|].
  intros [a|x] s1 e1 H1; simpl; [|exact H1].
  eapply wp_respects; [apply Hk|]. intros _ s2 e2 H2. by eapply transition_trans.
Qed.

(** A continuation that inspects the state it was given. *)
Lemma respects_bind_get {B} (k : S -> Eff E S B) :
  (forall s, wp C (k s s) (fun _ s' es => R s s' es)) -> respects C R (get ≫= k).
Proof. intros Hk s. apply wp_bind. simpl. apply Hk. Qed.

Lemma respects_bind_asks {A B} (f : S -> A) (k : A -> Eff E S B) :
  (forall s, wp C (k (f s) s) (fun _ s' es => R s s' es)) -> respects C R (asks f ≫= k).
Proof. intros Hk s. apply wp_bind. simpl. apply Hk. Qed.

Lemma respects_when b (m : Eff E S unit) :
  (b = true -> respects C R m) -> respects C R (when b m).
Proof. destruct b; simpl; intros H; [by apply H | apply respects_ret]. Qed.

Lemma respects_try_catch {A} (m : Eff E S A) h :
  respects C R m -> (forall x, respects C R (h x)) -> respects C R (try_catch m h).
Proof.
  intros Hm Hh s. specialize (Hm s). unfold try_catch.
  destruct (m s) as [a s1 e1|x s1 e1|f]; simpl in *; auto.
  specialize (Hh x s1). destruct (h x s1); simpl in *; auto;
    by eapply transition_trans.
Qed.

Lemma respects_for_each {A} (l : list A) f :
  (forall a, a ∈ l -> respects C R (f a)) -> respects C R (for_each l f).
Proof.
  induction l as [|a l IH]; simpl; intros H; [apply respects_ret|].
  apply respects_bind; [apply H; constructor|].
  intros _. apply IH. intros b Hb. apply H. by constructor.
Qed.

Lemma respects_for_until {A T} (l : list A) (f : A -> Eff E S (option T)) :
  (forall a, a ∈ l -> respects C R (f a)) -> respects C R (for_until l f).
Proof.
  induction l as [|a l IH]; simpl; intros H; [apply respects_ret|].
  apply respects_bind; [apply H; constructor|].
  intros [r|]; [apply respects_ret|]. apply IH. intros b Hb. apply H. by constructor.
Qed.
End WpRules.

(** Code of a sub-object lifts along any relation the embedding transports. *)
Lemma respects_zoom {E S T A C} (proj : S -> T) `{!Settable proj}
    (RT : T -> T -> list E -> Prop) (R : S -> S -> list E -> Prop) (m : Eff E T A) :
  respects C RT m ->
  (forall s t es, RT (proj s) t es -> R s (s <| proj := t |>) es) ->
  respects C R (zoom proj m).
Proof.
  intros Hm HR s. specialize (Hm (proj s)). unfold zoom.
  destruct (m (proj s)); simpl in *; auto.
Qed.

(** Side conditions on faults: trivial for partial statements, by [discriminate]
    for [not_fuel]. *)
Ltac solve_fault := solve [ intros; first [exact I | discriminate | congruence | auto] ].

(** [eff_step] applies one structural rule; [eff_auto] walks a whole body and
    leaves the state changes of its own statements. *)
Create HintDb eff.
Ltac eff_step :=
  match goal with
  | |- respects _ _ (mret _) => apply respects_ret; typeclasses eauto
  | |- respects _ _ get => apply respects_get; typeclasses eauto
  | |- respects _ _ (asks _) => apply respects_asks; typeclasses eauto
  | |- respects _ _ (throw _) => apply respects_throw; typeclasses eauto
  | |- respects _ _ (crash _) => apply respects_crash; solve_fault
  | |- respects _ _ (deref _) => apply respects_deref; [typeclasses eauto|solve_fault]
  | |- respects _ _ (assert_ _) => apply respects_assert; [typeclasses eauto|solve_fault]
  | |- respects _ _ (_ ≫= _) => apply respects_bind; [typeclasses eauto| |intros ?]
  | |- respects _ _ (when _ _) => apply respects_when; [typeclasses eauto|intros ?]
  | |- respects _ _ (if ?b then _ else _) => destruct b eqn:?
  | |- respects _ _ (match ?x with _ => _ end) => destruct x eqn:?
  | |- respects _ _ (for_each _ _) => apply respects_for_each; [typeclasses eauto|intros ? ?]
  | |- respects _ _ (for_until _ _) => apply respects_for_until; [typeclasses eauto|intros ? ?]
  | |- respects _ _ (try_catch _ _) => apply respects_try_catch; [typeclasses eauto| |intros ?]
  end.
Ltac eff_auto := repeat first [solve [eauto with eff] | eff_step].

(** ** Computations that do not throw *)
Definition nothrow {E S A} (m : Eff E S A) : Prop :=
  forall s, match m s with Threw _ _ _ => False | _ => True end.

Section NoThrow.
Context {E S : Type}.

Lemma nothrow_bind {A B} (m : Eff E S A) (k : A -> Eff E S B) :
  nothrow m -> (forall a, nothrow (k a)) -> nothrow (m ≫= k).
Proof.
  intros Hm Hk s. specialize (Hm s). unfold mbind, eff_bind.
  destruct (m s) as [a s1 e1| |]; [|done|done]. specialize (Hk a s1). by destruct (k a s1).
Qed.

Lemma nothrow_when b (m : Eff E S unit) : nothrow m -> nothrow (when b m).
Proof. destruct b; [done|]. by intros _ s. Qed.

Lemma nothrow_deref {A} (p : option A) : nothrow (E := E) (S := S) (deref p).
Proof. by destruct p. Qed.

Lemma nothrow_zoom {T A} (proj : S -> T) `{!Settable proj} (m : Eff E T A) :
  nothrow m -> nothrow (zoom proj m).
Proof. intros Hm s. specialize (Hm (proj s)). unfold zoom. by destruct (m (proj s)). Qed.

Lemma wp_nothrow {A} C (m : Eff E S A) s (Q : A + exn -> S -> list E -> Prop) :
  nothrow m -> wp C (m s) (fun r s' es => match r with inl _ => Q r s' es | inr _ => True end) ->
  wp C (m s) Q.
Proof. intros Hm H. specialize (Hm s). by destruct (m s). Qed.
End NoThrow.

Ltac nothrow_auto :=
  repeat match goal with
  | |- nothrow (_ ≫= _) => apply nothrow_bind; [|intros ?]
  | |- nothrow (when _ _) => apply nothrow_when
  | |- nothrow (deref _) => apply nothrow_deref
  | |- nothrow (zoom _ _) => apply nothrow_zoom
  | |- nothrow (if ?b then _ else _) => destruct b
  | |- nothrow (match ?x with _ => _ end) => destruct x
  | |- nothrow _ => by intros ?
  end.

(** ** The values that a computation returns *)
Definition returns {E S A} (m : Eff E S A) (P : A -> Prop) : Prop :=
  forall s, match m s with Done a _ _ => P a | _ => True end.

Section Returns.
Context {E S : Type}.

Lemma returns_ret {A} (a : A) P : P a -> returns (E := E) (S := S) (mret a) P.
Proof. by intros H s. Qed.

Lemma returns_bind {A B} (m : Eff E S A) (k : A -> Eff E S B) P Q :
  returns m P -> (forall a, P a -> returns (k a) Q) -> returns (m ≫= k) Q.
Proof.
  intros Hm Hk s. specialize (Hm s). unfold mbind, eff_bind.
  destruct (m s) as [a s1 e1| |]; [|done|done]. specialize (Hk a Hm s1). by destruct (k a s1).
Qed.

Lemma returns_any {A} (m : Eff E S A) : returns m (fun _ => True).
Proof. intros s. by destruct (m s). Qed.

Lemma returns_crash {A} f (P : A -> Prop) : returns (E := E) (S := S) (crash f) P.
Proof. by intros s. Qed.

Lemma returns_deref {A} (p : option A) (P : A -> Prop) :
  (forall a, p = Some a -> P a) -> returns (E := E) (S := S) (deref p) P.
Proof. destruct p; intros H s; [by apply H|done]. Qed.

Lemma respects_bind_returns {A B} C R `{!Transition R} (m : Eff E S A) (k : A -> Eff E S B) P :
  respects C R m -> returns m P -> (forall a, P a -> respects C R (k a)) ->
  respects C R (m ≫= k).
Proof.
  intros Hm HP Hk s. apply wp_bind. specialize (HP s). specialize (Hm s).
  destruct (m s) as [a s1 e1|x s1 e1|f]; simpl in *; [|exact Hm|exact Hm].
  eapply wp_respects; [by apply Hk|]. intros _ s2 e2 H2. by eapply transition_trans.
Qed.
End Returns.

(** ** Invariants that a computation keeps

    [keeps C V I m]: from a state with [I], [m] ends in one with [I], by a value or by an
    exception; the events it emits satisfy [V] and its faults are in [C].  [yields I m P]:
    its values satisfy [P]. *)
Definition no_fault (f : fault) : Prop := False.

Definition kept {E S A} (V : E -> Prop) (I : S -> Prop) (_ : A + exn) (s : S) (es : list E) : Prop :=
  I s /\ Forall V es.
Definition keeps {E S A} (C : fault -> Prop) (V : E -> Prop) (I : S -> Prop) (m : Eff E S A) : Prop :=
  forall s, I s -> wp C (m s) (kept V I).
Definition yields {E S A} (I : S -> Prop) (m : Eff E S A) (P : A -> Prop) : Prop :=
  forall s, I s -> match m s with Done a _ _ => P a | _ => True end.

Section Keeps.
Context {E S : Type} {C : fault -> Prop} {V : E -> Prop} {I : S -> Prop}.
Notation M := (Eff E S).

(** One step of a computation, whose result may be more than [kept]. *)
Lemma wp_bind_kept {A B} (m : M A) (k : A -> M B) s :
  wp C (m s) (fun r s1 e1 => Forall V e1 /\
    match r with inl a => wp C (k a s1) (kept V I) | inr _ => I s1 end) ->
  wp C ((m ≫= k) s) (kept V I).
Proof.
  intros H. apply wp_bind. eapply wp_mono; [exact H|]. intros [a|x] s1 e1 [H1 H2]; [|by split].
  eapply wp_mono; [exact H2|]. intros r s2 e2 [Hs Hv]. split; [done|]. by apply Forall_app.
Qed.

(** The same where the first step keeps a part of what it promises. *)
Lemma wp_bind_post {A B} (m : M A) (k : A -> M B) s (Q : A + exn -> S -> Prop) (Q' : B + exn -> S -> Prop) :
  wp C (m s) (fun r s1 e1 => Q r s1 /\ Forall V e1) ->
  (forall x s1, Q (inr x) s1 -> Q' (inr x) s1) ->
  (forall a s1, Q (inl a) s1 -> wp C (k a s1) (fun r s2 e2 => Q' r s2 /\ Forall V e2)) ->
  wp C ((m ≫= k) s) (fun r s2 e2 => Q' r s2 /\ Forall V e2).
Proof.
  intros Hm Hx Hk. apply wp_bind. eapply wp_mono; [exact Hm|].
  intros [a|x] s1 e1 [H1 H2]; [|split; auto].
  eapply wp_mono; [by apply Hk|]. intros r s2 e2 [Hs Hv]. split; [done|]. by apply Forall_app.
Qed.

Lemma keeps_ret {A} (a : A) : keeps (E := E) C V I (mret a).
Proof. intros s H. by repeat constructor. Qed.

Lemma keeps_emit (e : E) : V e -> keeps C V I (emit e).
Proof. intros He s H. by repeat constructor. Qed.

Lemma keeps_get : keeps (E := E) C V I get.
Proof. intros s H. by repeat constructor. Qed.

Lemma keeps_asks {A} (f : S -> A) : keeps (E := E) C V I (asks f).
Proof. intros s H. by repeat constructor. Qed.

Lemma keeps_throw {A} x : keeps (E := E) C V I (throw (A := A) x).
Proof. intros s H. by repeat constructor. Qed.

Lemma keeps_modify f : (forall s, I s -> I (f s)) -> keeps (E := E) C V I (modify f).
Proof. intros H s Hs. split; [by apply H|constructor]. Qed.

(** Two changes that keep the invariant together. *)
Lemma keeps_modify_twice f g :
  (forall s, I s -> I (g (f s))) -> keeps (E := E) C V I (modify f ;; modify g).
Proof. intros H s Hs. split; [by apply H|constructor]. Qed.

Lemma keeps_deref {A} (p : option A) : is_Some p -> keeps (E := E) C V I (deref p).
Proof. intros [a ->]. apply keeps_ret. Qed.

Lemma keeps_assert b : b = true -> keeps (E := E) C V I (assert_ b).
Proof. intros ->. apply keeps_ret. Qed.

Lemma keeps_bind {A B} (m : M A) (k : A -> M B) :
  keeps C V I m -> (forall a, keeps C V I (k a)) -> keeps C V I (m ≫= k).
Proof.
  intros Hm Hk s Hs. apply wp_bind_kept. eapply wp_mono; [by apply Hm|].
  intros [a|x] s1 e1 [H1 H2]; (split; [done|]); [by apply Hk|done].
Qed.

Lemma keeps_bind_yields {A B} (m : M A) (k : A -> M B) P :
  keeps C V I m -> yields I m P -> (forall a, P a -> keeps C V I (k a)) -> keeps C V I (m ≫= k).
Proof.
  intros Hm HP Hk s Hs. apply wp_bind_kept. specialize (Hm s Hs). specialize (HP s Hs).
  destruct (m s) as [a s1 e1|x s1 e1|f]; [..|exact Hm]; destruct Hm as [H1 H2];
    (split; [done|]); [by apply Hk|done].
Qed.

Lemma keeps_bind_get {B} (k : S -> M B) :
  (forall s, I s -> keeps C V I (k s)) -> keeps C V I (get ≫= k).
Proof. intros Hk s Hs. apply wp_bind_kept. split; [constructor|]. by apply Hk. Qed.

Lemma keeps_bind_asks {A B} (f : S -> A) (k : A -> M B) :
  (forall s, I s -> keeps C V I (k (f s))) -> keeps C V I (asks f ≫= k).
Proof. intros Hk s Hs. apply wp_bind_kept. split; [constructor|]. by apply Hk. Qed.

Lemma keeps_bind_deref {A B} (p : option A) (k : A -> M B) :
  is_Some p -> (forall a, p = Some a -> keeps C V I (k a)) -> keeps C V I (deref p ≫= k).
Proof. intros [a ->] Hk s Hs. apply wp_bind_kept. split; [constructor|]. by apply Hk. Qed.

Lemma keeps_when b (m : M unit) : (b = true -> keeps C V I m) -> keeps C V I (when b m).
Proof. destruct b; simpl; intros H; [by apply H|apply keeps_ret]. Qed.

Lemma keeps_try_catch {A} (m : M A) h :
  keeps C V I m -> (forall x, keeps C V I (h x)) -> keeps C V I (try_catch m h).
Proof.
  intros Hm Hh s Hs. specialize (Hm s Hs). unfold try_catch.
  destruct (m s) as [a s1 e1|x s1 e1|f]; simpl in *; auto.
  destruct Hm as [H1 H2]. specialize (Hh x s1 H1).
  destruct (h x s1); simpl in *; auto; destruct Hh; (split; [done|by apply Forall_app]).
Qed.

Lemma keeps_for_each {A} (l : list A) (f : A -> M unit) :
  (forall a, a ∈ l -> keeps C V I (f a)) -> keeps C V I (for_each l f).
Proof.
  induction l as [|a l IH]; simpl; intros H; [apply keeps_ret|].
  apply keeps_bind; [apply H; constructor|].
  intros _. apply IH. intros b Hb. apply H. by constructor.
Qed.

Lemma keeps_zoom {T A} (proj : S -> T) `{!Settable proj} (J : T -> Prop) (m : Eff E T A) :
  keeps C V J m -> (forall s, I s -> J (proj s)) ->
  (forall s t, I s -> J t -> I (s <| proj := t |>)) -> keeps C V I (zoom proj m).
Proof.
  intros Hm Hin Hout s Hs. specialize (Hm (proj s) (Hin s Hs)). unfold zoom.
  destruct (m (proj s)); simpl in *; auto; destruct Hm; split; auto.
Qed.

(** A stronger invariant for a part of the code. *)
Lemma keeps_impl {A} (J : S -> Prop) (m : M A) s :
  keeps C V J m -> J s -> (forall s', J s' -> I s') -> wp C (m s) (kept V I).
Proof. intros Hm Hs H. eapply wp_mono; [by apply Hm|]. intros r s' es []. split; auto. Qed.

Lemma yields_ret {A} (a : A) (P : A -> Prop) : P a -> yields (E := E) I (mret a) P.
Proof. by intros H s Hs. Qed.

Lemma yields_any {A} (m : M A) : yields I m (fun _ => True).
Proof. intros s _. by destruct (m s). Qed.

Lemma yields_mono {A} (m : M A) (P Q : A -> Prop) :
  yields I m P -> (forall a, P a -> Q a) -> yields I m Q.
Proof. intros H HQ s Hs. specialize (H s Hs). destruct (m s); auto. Qed.

Lemma yields_bind {A B} (m : M A) (k : A -> M B) P Q :
  keeps any_fault V I m -> yields I m P -> (forall a, P a -> yields I (k a) Q) ->
  yields I (m ≫= k) Q.
Proof.
  intros Hm HP Hk s Hs. specialize (Hm s Hs). specialize (HP s Hs).
  unfold mbind, eff_bind. destruct (m s) as [a s1 e1| |]; [|done|done]. destruct Hm as [Hm _].
  specialize (Hk a HP s1 Hm). by destruct (k a s1).
Qed.

Lemma yields_bind_get {B} (k : S -> M B) Q :
  (forall s, I s -> yields I (k s) Q) -> yields I (get ≫= k) Q.
Proof.
  intros Hk s Hs. specialize (Hk s Hs s Hs). unfold mbind, eff_bind. simpl. by destruct (k s s).
Qed.

Lemma yields_bind_deref {A B} (p : option A) (k : A -> M B) Q :
  (forall a, p = Some a -> yields I (k a) Q) -> yields I (deref p ≫= k) Q.
Proof.
  intros Hk s Hs. destruct p as [a|]; [|done]. specialize (Hk a eq_refl s Hs).
  unfold mbind, eff_bind. simpl. by destruct (k a s).
Qed.

Lemma yields_crash {A} f (P : A -> Prop) : yields (E := E) I (crash f) P.
Proof. by intros s Hs. Qed.

Lemma keeps_faultless {A} (m : M A) : keeps no_fault V I m -> keeps C V I m.
Proof. intros H s Hs. specialize (H s Hs). by destruct (m s). Qed.
End Keeps.

(** [keep_step] applies one structural rule; [keep_auto] walks a whole body and leaves
    the state changes and the dereferences of its own statements. *)
Create HintDb keep.
Ltac keep_step :=
  match goal with
  | |- keeps _ _ _ (mret _) => apply keeps_ret
  | |- keeps _ _ _ (emit _) => apply keeps_emit; try exact I
  | |- keeps _ _ _ get => apply keeps_get
  | |- keeps _ _ _ (asks _) => apply keeps_asks
  | |- keeps _ _ _ (throw _) => apply keeps_throw
  | |- keeps _ _ _ (get ≫= _) => apply keeps_bind_get; intros ? ?
  | |- keeps _ _ _ (asks _ ≫= _) => apply keeps_bind_asks; intros ? ?
  | |- keeps _ _ _ (deref _ ≫= _) => apply keeps_bind_deref; [|intros ? ?]
  | |- keeps _ _ _ (_ ≫= _) => apply keeps_bind; [|intros ?]
  | |- keeps _ _ _ (when _ _) => apply keeps_when; intros ?
  | |- keeps _ _ _ (if ?b then _ else _) => destruct b eqn:?
  | |- keeps _ _ _ (match ?x with _ => _ end) => destruct x eqn:?
  | |- keeps _ _ _ (for_each _ _) => apply keeps_for_each; intros ? ?
  | |- keeps _ _ _ (try_catch _ _) => apply keeps_try_catch; [|intros ?]
  end.
Ltac keep_auto := repeat first [solve [eauto with keep] | keep_step].

(** * Ordered containers

    A [std::map] is a [gmap]; a loop over it visits the keys in increasing
    order.  [in_order m] is that sequence. *)
Definition key_le {A} (x y : Z * A) : Prop := x.1 <= y.1.
#[global] Instance key_le_dec {A} : RelDecision (@key_le A).
Proof. intros x y. unfold key_le. apply _. Defined.

Definition in_order {A} (m : gmap Z A) : list (Z * A) := merge_sort key_le (map_to_list m).

Lemma in_order_perm {A} (m : gmap Z A) : in_order m ≡ₚ map_to_list m.
Proof. apply merge_sort_Permutation. Qed.

Lemma elem_of_in_order {A} (m : gmap Z A) k x : (k, x) ∈ in_order m <-> m !! k = Some x.
Proof. by rewrite in_order_perm, elem_of_map_to_list. Qed.

Lemma in_order_sorted {A} (m : gmap Z A) : Sorted key_le (in_order m).
Proof. apply Sorted_merge_sort. intros x y. unfold key_le. lia. Qed.

Lemma NoDup_in_order {A} (m : gmap Z A) : NoDup (in_order m).*1.
Proof.
  rewrite (fmap_Permutation fst _ _ (in_order_perm m)). apply NoDup_fst_map_to_list.
Qed.

(** A [std::priority_queue] ordered by a key, smallest first: the queue is the
    list of its elements in the order they are popped. *)
Section PriorityQueue.
Context {A : Type} (key : A -> Z).

Fixpoint pq_push (x : A) (q : list A) : list A :=
  match q with
  | [] => [x]
  | y :: q' => if key x <? key y then x :: q else y :: pq_push x q'
  end.

Definition pq_ordered (q : list A) : Prop := StronglySorted (fun x y => key x <= key y) q.

Lemma pq_push_perm x q : pq_push x q ≡ₚ x :: q.
Proof.
  induction q as [|y q IH]; simpl; [done|]. destruct (_ <? _); [done|].
  rewrite IH. constructor.
Qed.

Lemma elem_of_pq_push x y q : x ∈ pq_push y q <-> x = y \/ x ∈ q.
Proof. by rewrite pq_push_perm, elem_of_cons. Qed.

Lemma pq_push_ordered x q : pq_ordered q -> pq_ordered (pq_push x q).
Proof.
  unfold pq_ordered.
  induction 1 as [|y q Hq IH Hy]; simpl; [repeat constructor|].
  destruct (Z.ltb_spec (key x) (key y)).
  - constructor; [by constructor|]. constructor; [lia|].
    eapply List.Forall_impl; [|exact Hy]. simpl. lia.
  - constructor; [exact IH|]. rewrite pq_push_perm. by constructor.
Qed.

Lemma pq_top_least x q y : pq_ordered (x :: q) -> y ∈ x :: q -> key x <= key y.
Proof.
  intros [_ HF]%StronglySorted_inv. rewrite elem_of_cons. intros [->|Hy]; [lia|].
  rewrite list.Forall_forall in HF. exact (HF y Hy).
Qed.
End PriorityQueue.
