(* ===== verification/Types.v ===== *)
(** Types: the data that the consensus components exchange - proposals, the
    PBFT messages and their codec, blocks, ledger configurations - with the
    external services (hash, signature, block factory, timer) as a class of
    parameters, and the events that the components emit towards the network,
    the transaction pool, the sealer, the storage and the scheduler. *)
From Stdlib.Strings Require Import Byte.
From S2P Require Import Prelude.

(** A 32-byte hash and a public key are identified with the number they encode;
    the all-zero hash is the default-constructed [HashType]. *)
Notation HashType := Z (only parsing).
Notation NodeID := Z (only parsing).
Definition bytes := list byte.
#[global] Instance byte_eq_dec : EqDecision byte := Byte.byte_eq_dec.

(** [uint64_t] indices and views, [int64_t] block numbers. *)
Notation IndexType := Z (only parsing).
Notation ViewType := Z (only parsing).
Notation BlockNumber := Z (only parsing).

Definition NON_CONSENSUS_NODE : IndexType := 2 ^ 64 - 1.

(** [pbft/utilities/Common.h]: [enum PacketType : uint32_t]. *)
Inductive PacketType : Type :=
  | PrePreparePacket
  | PreparePacket
  | CommitPacket
  | ViewChangePacket
  | NewViewPacket
  | CommittedProposalRequest
  | CommittedProposalResponse
  | PreparedProposalRequest
  | PreparedProposalResponse
  | CheckPoint
  | RecoverRequest
  | RecoverResponse.
#[global] Instance PacketType_eq_dec : EqDecision PacketType.
Proof. solve_decision. Defined.

(** [PBFTEngine.h]: [enum CheckResult]. *)
Inductive CheckResult : Type := VALID | INVALID.

(** A consensus node as [bcos::consensus::ConsensusNodeInterface] exposes it. *)
Module ConsensusNode.
Record t : Type := mk { nodeID : NodeID; weight : Z }.
#[global] Instance eta_t : Eta t := fun r => mk (nodeID r) (weight r).
End ConsensusNode.

(** [core/Proposal.h] and [pbft/protocol/PB/PBFTProposal.h]: the fields of
    [RawProposal] and [PBFTRawProposal].  [nodeList] and [signatureList] are two
    repeated fields whose lengths are independent on the wire. *)
Module PBFTProposal.
Record t : Type := mk {
  index : BlockNumber;
  hash : HashType;
  data : bytes;
  extraData : bytes;
  signature : bytes;
  sealerId : Z;
  systemProposal : bool;
  nodeList : list Z;
  signatureList : list bytes
}.
#[global] Instance eta_t : Eta t := fun r =>
  mk (index r) (hash r) (data r) (extraData r) (signature r) (sealerId r)
     (systemProposal r) (nodeList r) (signatureList r).

(** [PBFTMessageFactory::createPBFTProposal]. *)
Definition create : t := mk 0 0 [] [] [] 0 false [] [].

Definition signatureProofSize (p : t) : nat := length (signatureList p).

(** [signatureProof(i)] reads [signaturelist(i)] and [nodelist(i)]; the accessor
    of a protobuf repeated field is undefined out of range. *)
Definition signatureProof (p : t) (i : nat) : option (Z * bytes) :=
  match signatureList p !! i, nodeList p !! i with
  | Some sig, Some node => Some (node, sig)
  | _, _ => None
  end.

(** [appendSignatureProof]: the node index is stored as an [int64]. *)
Definition appendSignatureProof (p : t) (nodeIdx : Z) (sig : bytes) : t :=
  p <| nodeList := nodeList p ++ [i64 nodeIdx] |>
    <| signatureList := signatureList p ++ [sig] |>.

Definition clearSignatureProof (p : t) : t :=
  p <| nodeList := [] |> <| signatureList := [] |>.

(** The proofs a well-formed proposal carries. *)
Definition signatureProofs (p : t) : list (Z * bytes) := combine (nodeList p) (signatureList p).
End PBFTProposal.

(** [pbft/protocol/proto]: the [BaseMessage] shared by every PBFT packet;
    [view] and [generatedFrom] are [int64] on the wire. *)
Module BaseMessage.
Record t : Type := mk {
  version : Z;
  index : BlockNumber;
  hash : HashType;
  raw_view : Z;
  timestamp : Z;
  raw_generatedFrom : Z;
  signatureHash : HashType;
  signatureData : bytes
}.
#[global] Instance eta_t : Eta t := fun r =>
  mk (version r) (index r) (hash r) (raw_view r) (timestamp r)
     (raw_generatedFrom r) (signatureHash r) (signatureData r).

Definition empty : t := mk 0 0 0 0 0 0 0 [].

Definition view (m : t) : ViewType := u64 (raw_view m).
Definition setView (v : ViewType) (m : t) : t := m <| raw_view := i64 v |>.
Definition generatedFrom (m : t) : IndexType := u64 (raw_generatedFrom m).
Definition setGeneratedFrom (i : IndexType) (m : t) : t := m <| raw_generatedFrom := i64 i |>.

Definition create (_version : Z) (_index : BlockNumber) (_hash : HashType)
    (_view : ViewType) (_timestamp : Z) (_generatedFrom : IndexType) : t :=
  mk _version _index _hash (i64 _view) _timestamp (i64 _generatedFrom) 0 [].
End BaseMessage.

(** [pbft/protocol/PB/PBFTMessage.h]: pre-prepare, prepare, commit, checkpoint,
    recover and committed-proposal packets.  [hashFieldsData] is the serialized
    base message, empty ([None]) until [encodeHashFields] runs; the signature
    covers it. *)
Module PBFTMessage.
Record t : Type := mk {
  base : BaseMessage.t;
  packetType : PacketType;
  from : option NodeID;
  hashFieldsData : option BaseMessage.t;
  signatureData : bytes;
  signatureDataHash : HashType;
  consensusProposal : option PBFTProposal.t;
  proposals : list PBFTProposal.t
}.
#[global] Instance eta_t : Eta t := fun r =>
  mk (base r) (packetType r) (from r) (hashFieldsData r) (signatureData r)
     (signatureDataHash r) (consensusProposal r) (proposals r).

Definition create : t := mk BaseMessage.empty PrePreparePacket None None [] 0 None [].

Definition index (m : t) : BlockNumber := BaseMessage.index (base m).
Definition hash (m : t) : HashType := BaseMessage.hash (base m).
Definition view (m : t) : ViewType := BaseMessage.view (base m).
Definition generatedFrom (m : t) : IndexType := BaseMessage.generatedFrom (base m).

Definition setIndex (i : BlockNumber) (m : t) : t :=
  m <| base := (base m) <| BaseMessage.index := i |> |>.
Definition setGeneratedFrom (i : IndexType) (m : t) : t :=
  m <| base := BaseMessage.setGeneratedFrom i (base m) |>.

(** [encodeHashFields]. *)
Definition encodeHashFields (m : t) : t := m <| hashFieldsData := Some (base m) |>.

(** [populateWithoutProposal]: a fresh message whose base is decoded from
    [hashFieldsData]. *)
Definition populateWithoutProposal (m : t) : t :=
  create <| hashFieldsData := hashFieldsData m |>
         <| base := default BaseMessage.empty (hashFieldsData m) |>.
End PBFTMessage.

Module ViewChangeMsg.
Record t : Type := mk {
  base : BaseMessage.t;
  packetType : PacketType;
  from : option NodeID;
  committedProposal : option PBFTProposal.t;
  preparedProposals : list PBFTMessage.t
}.
#[global] Instance eta_t : Eta t := fun r =>
  mk (base r) (packetType r) (from r) (committedProposal r) (preparedProposals r).

Definition create : t := mk BaseMessage.empty ViewChangePacket None None [].

Definition index (m : t) : BlockNumber := BaseMessage.index (base m).
Definition hash (m : t) : HashType := BaseMessage.hash (base m).
Definition view (m : t) : ViewType := BaseMessage.view (base m).
Definition generatedFrom (m : t) : IndexType := BaseMessage.generatedFrom (base m).
End ViewChangeMsg.

Module NewViewMsg.
Record t : Type := mk {
  base : BaseMessage.t;
  packetType : PacketType;
  from : option NodeID;
  viewChangeMsgList : list ViewChangeMsg.t;
  prePrepareList : list PBFTMessage.t
}.
#[global] Instance eta_t : Eta t := fun r =>
  mk (base r) (packetType r) (from r) (viewChangeMsgList r) (prePrepareList r).

Definition create : t := mk BaseMessage.empty NewViewPacket None [] [].

Definition index (m : t) : BlockNumber := BaseMessage.index (base m).
Definition hash (m : t) : HashType := BaseMessage.hash (base m).
Definition view (m : t) : ViewType := BaseMessage.view (base m).
Definition generatedFrom (m : t) : IndexType := BaseMessage.generatedFrom (base m).

(** [setPrePrepareList] encodes the hash fields of every pre-prepare. *)
Definition setPrePrepareList (l : list PBFTMessage.t) (m : t) : t :=
  m <| prePrepareList := PBFTMessage.encodeHashFields <$> l |>.
End NewViewMsg.

Module PBFTRequest.
Record t : Type := mk {
  base : BaseMessage.t;
  packetType : PacketType;
  from : option NodeID;
  size : Z
}.
#[global] Instance eta_t : Eta t := fun r => mk (base r) (packetType r) (from r) (size r).

Definition create : t := mk BaseMessage.empty PrePreparePacket None 0.

Definition index (m : t) : BlockNumber := BaseMessage.index (base m).
Definition hash (m : t) : HashType := BaseMessage.hash (base m).
End PBFTRequest.

(** A decoded packet: the dynamic type of a [PBFTBaseMessageInterface::Ptr]. *)
Inductive Msg : Type :=
  | MPBFT (m : PBFTMessage.t)
  | MViewChange (m : ViewChangeMsg.t)
  | MNewView (m : NewViewMsg.t)
  | MRequest (m : PBFTRequest.t).

(** The bytes of a packet: empty (which the codec reads as a default packet), not
    decodable, or the encoding of a packet. *)
Inductive Wire : Type := NoData | Undecodable | Packet (m : Msg).

(** [pbft/interfaces/PBFTBaseMessageInterface.h]: what the engine relies on for
    every kind of packet.  [verifySignature] checks [signatureData] against
    [signatureDataHash]. *)
Class PBFTBaseMessageInterface (M : Type) := {
  msg_base : M -> BaseMessage.t;
  msg_packetType : M -> PacketType;
  msg_signatureDataHash : M -> HashType;
  msg_signatureData : M -> bytes
}.

#[global] Instance PBFTMessage_interface : PBFTBaseMessageInterface PBFTMessage.t := {|
  msg_base := PBFTMessage.base;
  msg_packetType := PBFTMessage.packetType;
  msg_signatureDataHash := PBFTMessage.signatureDataHash;
  msg_signatureData := PBFTMessage.signatureData |}.

#[global] Instance ViewChangeMsg_interface : PBFTBaseMessageInterface ViewChangeMsg.t := {|
  msg_base := ViewChangeMsg.base;
  msg_packetType := ViewChangeMsg.packetType;
  msg_signatureDataHash := fun m => BaseMessage.signatureHash (ViewChangeMsg.base m);
  msg_signatureData := fun m => BaseMessage.signatureData (ViewChangeMsg.base m) |}.

#[global] Instance NewViewMsg_interface : PBFTBaseMessageInterface NewViewMsg.t := {|
  msg_base := NewViewMsg.base;
  msg_packetType := NewViewMsg.packetType;
  msg_signatureDataHash := fun m => BaseMessage.signatureHash (NewViewMsg.base m);
  msg_signatureData := fun m => BaseMessage.signatureData (NewViewMsg.base m) |}.

#[global] Instance PBFTRequest_interface : PBFTBaseMessageInterface PBFTRequest.t := {|
  msg_base := PBFTRequest.base;
  msg_packetType := PBFTRequest.packetType;
  msg_signatureDataHash := fun m => BaseMessage.signatureHash (PBFTRequest.base m);
  msg_signatureData := fun m => BaseMessage.signatureData (PBFTRequest.base m) |}.

#[global] Instance Msg_interface : PBFTBaseMessageInterface Msg := {|
  msg_base m :=
    match m with MPBFT m => msg_base m | MViewChange m => msg_base m
               | MNewView m => msg_base m | MRequest m => msg_base m end;
  msg_packetType m :=
    match m with MPBFT m => msg_packetType m | MViewChange m => msg_packetType m
               | MNewView m => msg_packetType m | MRequest m => msg_packetType m end;
  msg_signatureDataHash m :=
    match m with MPBFT m => msg_signatureDataHash m | MViewChange m => msg_signatureDataHash m
               | MNewView m => msg_signatureDataHash m | MRequest m => msg_signatureDataHash m end;
  msg_signatureData m :=
    match m with MPBFT m => msg_signatureData m | MViewChange m => msg_signatureData m
               | MNewView m => msg_signatureData m | MRequest m => msg_signatureData m end |}.

Definition msg_index {M} `{PBFTBaseMessageInterface M} (m : M) : BlockNumber :=
  BaseMessage.index (msg_base m).
Definition msg_generatedFrom {M} `{PBFTBaseMessageInterface M} (m : M) : IndexType :=
  BaseMessage.generatedFrom (msg_base m).

(** A block as the validator reads it through [BlockFactory::createBlock]. *)
Module Block.
Record t : Type := mk { number : BlockNumber; hash : HashType; txsHash : list HashType }.
End Block.

(** [bcos::ledger::LedgerConfig]. *)
Module LedgerConfig.
Record t : Type := mk {
  blockNumber : BlockNumber;
  hash : HashType;
  blockTxCountLimit : Z;
  leaderSwitchPeriod : Z;
  consensusNodeList : list ConsensusNode.t;
  observerNodeList : list ConsensusNode.t
}.
#[global] Instance eta_t : Eta t := fun r =>
  mk (blockNumber r) (hash r) (blockTxCountLimit r) (leaderSwitchPeriod r)
     (consensusNodeList r) (observerNodeList r).
End LedgerConfig.

(** The calls made on a [bcos::Timer], oldest first. *)
Inductive TimerCall : Type := TimerStart | TimerStop | TimerRestart | TimerDestroy | TimerExpired.

(** * External services

    Code outside [src/] that the components call: which log records are written, hence
    evaluate their operands, the timer's [running] state and [timeout] as functions of the calls made so far, the crypto suite (the hash of an
    encoded base message and of an encoded view-change, new-view or request
    payload, [sign] and [verify]), the block factory ([createBlock] throws on data that
    it cannot decode: [None]) and the order of consensus nodes
    ([ConsensusNodeComparator]). *)
Inductive LogLevel : Type := DEBUG | INFO | WARNING.
Class Externals : Type := {
  logged : LogLevel -> bool;
  timer_running : list TimerCall -> bool;
  timer_timeout : Z -> list TimerCall -> Z;
  hash_fields : BaseMessage.t -> HashType;
  hash_payload : Msg -> HashType;
  sign : NodeID -> HashType -> bytes;
  verify : NodeID -> HashType -> bytes -> bool;
  createBlock : bytes -> option Block.t;
  emptyBlock : BlockNumber -> Z -> HashType * bytes;
  nodeLess : ConsensusNode.t -> ConsensusNode.t -> bool
}.

(** A record of the level INFO is written. *)
Definition log_info `{Ext : Externals} : bool := logged INFO.

(** [LOG_KV("key", p->...)] in a log record of level [l]: the pointer is dereferenced when
    the record is evaluated. *)
Notation log_deref l p := (when (logged l) (_ ← deref p; mret tt)).

Lemma log_deref_some {Ev S A} `{Ext : Externals} l (p : option A) (s : S) :
  is_Some p -> (log_deref l p : Eff Ev S unit) s = Done tt s [].
Proof. intros [a ->]. by destruct (logged l). Qed.

Lemma bind_log_deref {Ev S A B} `{Ext : Externals} l (p : option A) (k : unit -> Eff Ev S B) s :
  is_Some p -> (log_deref l p ≫= k) s = k tt s.
Proof. intros [a ->]. unfold mbind, eff_bind. destruct (logged l); simpl; by destruct (k tt s). Qed.

(** A log record changes nothing; it may be the last thing the code does. *)
Lemma wp_log {Ev S A} `{Ext : Externals} {C : fault -> Prop} l (p : option A) (s : S)
    (Q : unit + exn -> S -> list Ev -> Prop) :
  C NullDeref \/ is_Some p -> Q (inl tt) s [] -> wp C ((log_deref l p : Eff Ev S unit) s) Q.
Proof.
  intros Hp Hq. destruct (logged l); [|exact Hq]. destruct p; [exact Hq|].
  by destruct Hp as [|[? ?]].
Qed.

Lemma wp_log_deref {Ev S A B} `{Ext : Externals} {C : fault -> Prop} l (p : option A)
    (k : unit -> Eff Ev S B) s (Q : B + exn -> S -> list Ev -> Prop) :
  C NullDeref \/ is_Some p -> wp C (k tt s) Q -> wp C ((log_deref l p ≫= k) s) Q.
Proof.
  intros Hp Hk. apply wp_bind. by apply wp_log.
Qed.

(** [LOG_KV("key", m[k])] in a log record: [operator[]] of a [std::map] inserts a
    zero for a missing key when the record is evaluated. *)
Definition log_access `{Ext : Externals} (k : Z) (m : gmap Z Z) : gmap Z Z :=
  if log_info then (match m !! k with Some _ => m | None => <[ k := 0 ]> m end) else m.

(** * The message factory and the codec *)
Section Factory.
Context `{Ext : Externals}.

(** [populateFrom] of [PBFTMessageFactory.h], lines 75-101: a message about a
    proposal that carries a fresh signed copy without the data. *)
Definition populateSigned (_packetType : PacketType) (_version : Z) (_view : ViewType)
    (_timestamp : Z) (_generatedFrom : IndexType) (_proposal : PBFTProposal.t)
    (_keyPair : NodeID) (_needSign : bool) : PBFTMessage.t :=
  let signedProposal :=
    PBFTProposal.create
      <| PBFTProposal.index := PBFTProposal.index _proposal |>
      <| PBFTProposal.hash := PBFTProposal.hash _proposal |>
      <| PBFTProposal.sealerId := PBFTProposal.sealerId _proposal |> in
  let signedProposal :=
    if _needSign
    then signedProposal <| PBFTProposal.signature := sign _keyPair (PBFTProposal.hash _proposal) |>
    else signedProposal in
  PBFTMessage.create
    <| PBFTMessage.packetType := _packetType |>
    <| PBFTMessage.base :=
         BaseMessage.create _version (PBFTProposal.index _proposal) (PBFTProposal.hash _proposal)
           _view _timestamp _generatedFrom |>
    <| PBFTMessage.consensusProposal := Some signedProposal |>.

(** [populateFrom], lines 103-117: a message that carries the proposal itself. *)
Definition populateWith (_packetType : PacketType) (_proposal : PBFTProposal.t) (_version : Z)
    (_view : ViewType) (_timestamp : Z) (_generatedFrom : IndexType) : PBFTMessage.t :=
  PBFTMessage.create
    <| PBFTMessage.packetType := _packetType |>
    <| PBFTMessage.base :=
         BaseMessage.create _version (PBFTProposal.index _proposal) (PBFTProposal.hash _proposal)
           _view _timestamp _generatedFrom |>
    <| PBFTMessage.consensusProposal := Some _proposal |>.

(** [populateFrom], lines 119-141: a copy of a proposal, optionally with its data
    and its signature proof; [None] where [signatureProof] is out of range. *)
Definition populateProposal (_proposal : PBFTProposal.t) (_withData _withProof : bool)
    : option PBFTProposal.t :=
  let proposal :=
    PBFTProposal.create
      <| PBFTProposal.index := PBFTProposal.index _proposal |>
      <| PBFTProposal.hash := PBFTProposal.hash _proposal |>
      <| PBFTProposal.sealerId := PBFTProposal.sealerId _proposal |> in
  let proposal :=
    if _withData then proposal <| PBFTProposal.data := PBFTProposal.data _proposal |>
    else proposal in
  if _withProof then
    fold_left (fun acc i =>
      p ← acc;
      proof ← PBFTProposal.signatureProof _proposal i;
      Some (PBFTProposal.appendSignatureProof p proof.1 proof.2))
      (seq 0 (PBFTProposal.signatureProofSize _proposal)) (Some proposal)
  else Some proposal.

(** [populateFrom], lines 55-73. *)
Definition populateRequest (_packetType : PacketType) (_startIndex : BlockNumber) (_offset : Z)
    : PBFTRequest.t :=
  PBFTRequest.create
    <| PBFTRequest.packetType := _packetType |>
    <| PBFTRequest.base := BaseMessage.empty <| BaseMessage.index := _startIndex |> |>
    <| PBFTRequest.size := _offset |>.

Definition populateHashRequest (_packetType : PacketType) (_index : BlockNumber)
    (_hash : HashType) : PBFTRequest.t :=
  PBFTRequest.create
    <| PBFTRequest.packetType := _packetType |>
    <| PBFTRequest.base :=
         BaseMessage.empty <| BaseMessage.index := _index |> <| BaseMessage.hash := _hash |> |>.

(** [PBFTMessage::encode]: the hash fields are serialized and signed. *)
Definition PBFTMessage_encode (_keyPair : NodeID) (m : PBFTMessage.t) : PBFTMessage.t :=
  let m := PBFTMessage.encodeHashFields m in
  let h := hash_fields (PBFTMessage.base m) in
  m <| PBFTMessage.signatureDataHash := h |> <| PBFTMessage.signatureData := sign _keyPair h |>.

(** [PBFTCodec::shouldHandleSignature]. *)
Definition shouldHandleSignature (p : PacketType) : bool :=
  match p with ViewChangePacket | NewViewPacket => true | _ => false end.

(** [PBFTCodec::encode]: the message after encoding, that is with the signature
    fields the codec sets on the (shared) message object. *)
Definition encode_base (_keyPair : NodeID) (p : PacketType) (payload : Msg) (b : BaseMessage.t)
    : BaseMessage.t :=
  if shouldHandleSignature p && bool_decide (BaseMessage.signatureData b = []) then
    let h := hash_payload payload in
    b <| BaseMessage.signatureHash := h |> <| BaseMessage.signatureData := sign _keyPair h |>
  else b.

Definition encode_viewChange (_keyPair : NodeID) (m : ViewChangeMsg.t) : ViewChangeMsg.t :=
  m <| ViewChangeMsg.base :=
    encode_base _keyPair (ViewChangeMsg.packetType m) (MViewChange m) (ViewChangeMsg.base m) |>.

Definition encode_newView (_keyPair : NodeID) (m : NewViewMsg.t) : NewViewMsg.t :=
  m <| NewViewMsg.base :=
    encode_base _keyPair (NewViewMsg.packetType m) (MNewView m) (NewViewMsg.base m) |>.
End Factory.
#[global] Arguments populateProposal : simpl never.

(** * Events

    The calls a component makes on services outside the modelled state.  Their
    callbacks are separate inputs of the node (file [Engine]). *)
Inductive VerifyCallback : Type :=
  | OnPrePrepareVerified (_prePrepareMsg : PBFTMessage.t) (_generatedFromNewView : bool)
  | OnProposalVerified (_fromNode : option NodeID) (_proposal : PBFTProposal.t) (_retryTime : Z).

(** The response handlers that [PBFTLogSync] passes with a request. *)
Inductive RequestCallback : Type :=
  | OnRecvCommittedProposalsResponse (_startIndex _offset : Z)
  | OnRecvPrecommitResponse (_prePrepareMsg : PBFTMessage.t).

Inductive Event : Type :=
  | SendMessageByNodeIDs (dst : list NodeID) (m : Msg)
  | SendMessageByNodeID (dst : option NodeID) (m : Msg)
  | SendResponse (m : option Msg)
  | RequestPBFTData (from : option NodeID) (req : PBFTRequest.t) (k : RequestCallback)
  | VerifyProposal (from : option NodeID) (p : PBFTProposal.t) (k : VerifyCallback)
  | EnqueueResetTxs (b : Block.t) (flag : bool)
  | MarkTxs (txs : list HashType) (b : Block.t) (flag : bool) (retry : Z)
  | UpdateValidatorConfig (consensus observers : list ConsensusNode.t)
  | ResetTxPool
  | NotifyBlockResult (n : BlockNumber) (results : list (HashType * HashType))
  | NotifySealProposal (start end_ maxTxs retry : Z)
  | ResetSealer (reseal : option BlockNumber) (committedIndex : BlockNumber)
  | NotifyState (n : BlockNumber)
  | NotifyNewBlock (c : LedgerConfig.t)
  | NotifyCommittedIndex (n : BlockNumber)
  | AsyncApply (timeout : Z) (last p : PBFTProposal.t)
  | EnqueueRequest (m : Msg)
  | EnqueueProposalApplied (_execSuccess : bool) (p executed : PBFTProposal.t)
  | AsyncCommitProposal (p : PBFTProposal.t)
  | AsyncCommitStableCheckPoint (p : PBFTProposal.t)
  | AsyncRemoveStabledCheckPoint (n : BlockNumber)
  | AsyncGetCommittedProposals (start size : Z).

(** * A concrete environment

    A small instance of the external services, used to evaluate the model on
    concrete inputs. *)
Module Demo.
Definition byte_of (z : Z) : byte := default x00 (Byte.of_N (Z.to_N (z mod 256))).
Definition num_of (b : byte) : Z := Z.of_N (Byte.to_N b).

Definition running (cs : list TimerCall) : bool :=
  fold_left (fun r c =>
    match c with TimerStart | TimerRestart => true | _ => false end) cs false.

(** A block is encoded as its number, its hash and its transaction hashes. *)
Definition decode (b : bytes) : Block.t :=
  match b with
  | n :: h :: txs => Block.mk (num_of n) (num_of h) (num_of <$> txs)
  | _ => Block.mk 0 0 []
  end.

Definition fields_hash (m : BaseMessage.t) : HashType :=
  1 + (BaseMessage.hash m + 3 * BaseMessage.index m + 5 * BaseMessage.view m
       + 7 * BaseMessage.generatedFrom m) mod 255.

#[local] Instance externals : Externals := {|
  logged := fun _ => true;
  timer_running := running;
  timer_timeout := fun timeout _ => timeout;
  hash_fields := fields_hash;
  hash_payload := fun m => fields_hash (msg_base m);
  sign := fun key h => [byte_of key; byte_of h];
  verify := fun key h sig => bool_decide (sig = [byte_of key; byte_of h]);
  createBlock := fun data => Some (decode data);
  emptyBlock := fun i s => (100 + i, [byte_of i; byte_of (100 + i)]);
  nodeLess := fun a b => ConsensusNode.nodeID a <? ConsensusNode.nodeID b
|}.
End Demo.
