(* ===== verification/Protobuf.v ===== *)
(** Protobuf: the messages of [pbft/protocol/proto/PBFT.proto] and
    [core/proto/Consensus.proto] as records, 32-byte hashes as byte strings, and the
    serialization that the generated code provides as a class of parameters with its
    round-trip law. *)
From Stdlib.Strings Require Import Byte.
From stdpp Require Import countable.
From S2P Require Import Prelude Types.

(** * Hashes as byte strings

    A [HashType] is a string of 32 bytes, here the number it denotes with the most
    significant byte first. *)
Definition byte_of_Z (z : Z) : byte := default x00 (Byte.of_N (Z.to_N (z mod 256))).
Definition Z_of_byte (b : byte) : Z := Z.of_N (Byte.to_N b).

Fixpoint be_bytes (n : nat) (z : Z) : bytes :=
  match n with O => [] | S n => be_bytes n (z / 256) ++ [byte_of_Z z] end.
Definition be_num (l : bytes) : Z := fold_left (fun acc b => 256 * acc + Z_of_byte b) l 0.

Definition HashType_size : nat := 32.
Definition is_hash (h : HashType) : Prop := 0 <= h < 2 ^ 256.
(** [HashType::data()] and the constructor [HashType(data, size)]. *)
Definition hash_data (h : HashType) : bytes := be_bytes HashType_size h.
Definition hash_of (b : bytes) : HashType := be_num (take HashType_size b).

Lemma Z_of_byte_of_Z z : Z_of_byte (byte_of_Z z) = z mod 256.
Proof.
  unfold Z_of_byte, byte_of_Z. pose proof (Z.mod_pos_bound z 256 eq_refl) as Hz.
  destruct (Byte.of_N (Z.to_N (z mod 256))) as [b|] eqn:E; simpl.
  - apply Byte.to_of_N in E. rewrite E. lia.
  - apply Byte.of_N_None_iff in E. lia.
Qed.

Lemma be_num_snoc l b : be_num (l ++ [b]) = 256 * be_num l + Z_of_byte b.
Proof. unfold be_num. by rewrite fold_left_app. Qed.

Lemma be_bytes_length n z : length (be_bytes n z) = n.
Proof.
  revert z. induction n as [|n IH]; intros z; simpl; [done|].
  rewrite length_app, IH. simpl. lia.
Qed.

Lemma be_num_be_bytes n z : be_num (be_bytes n z) = z mod 256 ^ Z.of_nat n.
Proof.
  revert z. induction n as [|n IH]; intros z; simpl be_bytes; [by rewrite Z.mod_1_r|].
  rewrite be_num_snoc, IH, Z_of_byte_of_Z, Nat2Z.inj_succ, Z.pow_succ_r by lia.
  rewrite Z.rem_mul_r by (try apply Z.pow_pos_nonneg; lia). lia.
Qed.

Lemma hash_of_data h : is_hash h -> hash_of (hash_data h) = h.
Proof.
  intros Hh. unfold hash_of, hash_data.
  rewrite firstn_all2 by (rewrite be_bytes_length; lia).
  rewrite be_num_be_bytes. apply Z.mod_small. exact Hh.
Qed.

Lemma hash_data_length h : length (hash_data h) = HashType_size.
Proof. apply be_bytes_length. Qed.

(** * The messages of the two schemas

    A field of message type is an [option]: it may be absent on the wire, and
    [mutable_x()] creates a default one. *)
Module RawProposal.
Record t : Type := mk {
  index : Z; hash : bytes; data : bytes; signature : bytes; extraData : bytes;
  sealerId : Z; systemProposal : bool }.
#[global] Instance eta_t : Eta t := fun r =>
  mk (index r) (hash r) (data r) (signature r) (extraData r) (sealerId r) (systemProposal r).
Definition empty : t := mk 0 [] [] [] [] 0 false.
End RawProposal.

Module RawBaseMessage.
Record t : Type := mk {
  version : Z; index : Z; hash : bytes; view : Z; timestamp : Z; generatedFrom : Z;
  signatureHash : bytes; signatureData : bytes }.
#[global] Instance eta_t : Eta t := fun r =>
  mk (version r) (index r) (hash r) (view r) (timestamp r) (generatedFrom r)
     (signatureHash r) (signatureData r).
Definition empty : t := mk 0 0 [] 0 0 0 [] [].
End RawBaseMessage.

Module PBFTRawProposal.
Record t : Type := mk {
  proposal : option RawProposal.t; nodeList : list Z; signatureList : list bytes }.
#[global] Instance eta_t : Eta t := fun r => mk (proposal r) (nodeList r) (signatureList r).
Definition empty : t := mk None [] [].
End PBFTRawProposal.

Module PBFTRawMessage.
Record t : Type := mk {
  hashFieldsData : bytes; consensusProposal : option PBFTRawProposal.t;
  proposals : list PBFTRawProposal.t; signatureData : bytes }.
#[global] Instance eta_t : Eta t := fun r =>
  mk (hashFieldsData r) (consensusProposal r) (proposals r) (signatureData r).
End PBFTRawMessage.

Module RawViewChangeMessage.
Record t : Type := mk {
  message : option RawBaseMessage.t; committedProposal : option PBFTRawProposal.t;
  preparedProposals : list PBFTRawMessage.t }.
End RawViewChangeMessage.

Module RawNewViewMessage.
Record t : Type := mk {
  message : option RawBaseMessage.t; viewChangeMsgList : list RawViewChangeMessage.t;
  prePrepareList : list PBFTRawMessage.t }.
End RawNewViewMessage.

Module ProposalRequest.
Record t : Type := mk { message : option RawBaseMessage.t; size : Z }.
End ProposalRequest.

Module RawMessage.
Record t : Type := mk { version : Z; type : Z; signatureData : bytes; payLoad : bytes }.
End RawMessage.

(** * Serialization

    [encodePBObject] and [decodePBObject] of the framework, over the generated
    [SerializeToArray] and [ParseFromArray]; [None] is the exception that
    [decodePBObject] throws.  Parsing inverts serializing. *)
Class PB (T : Type) : Type := {
  encodePBObject : T -> bytes;
  decodePBObject : bytes -> option T;
  parse_serialize : forall x, decodePBObject (encodePBObject x) = Some x
}.

Class Protobuf : Type := {
  pb_RawProposal :: PB RawProposal.t;
  pb_BaseMessage :: PB RawBaseMessage.t;
  pb_PBFTRawProposal :: PB PBFTRawProposal.t;
  pb_PBFTRawMessage :: PB PBFTRawMessage.t;
  pb_RawViewChangeMessage :: PB RawViewChangeMessage.t;
  pb_RawNewViewMessage :: PB RawNewViewMessage.t;
  pb_ProposalRequest :: PB ProposalRequest.t;
  pb_RawMessage :: PB RawMessage.t;
  (** [cryptoSuite->hash] of a byte string. *)
  hashImpl : bytes -> HashType
}.

(** * A concrete serialization

    Every message is countable, so it is a number and the number a byte string. *)
Module PBDemo.
Fixpoint bits (p : positive) : bytes :=
  match p with xH => [] | xO p => x00 :: bits p | xI p => x01 :: bits p end.
Fixpoint of_bits (l : bytes) : positive :=
  match l with [] => xH | x00 :: l => xO (of_bits l) | _ :: l => xI (of_bits l) end.

Lemma of_bits_bits p : of_bits (bits p) = p.
Proof. induction p as [p IH|p IH|]; simpl; [by rewrite IH..|done]. Qed.

Program Definition countable_pb {T} `{Countable T} : PB T := {|
  encodePBObject := fun x => bits (encode x);
  decodePBObject := fun b => decode (of_bits b) |}.
Next Obligation. intros T ? ? x. simpl. by rewrite of_bits_bits, decode_encode. Qed.

#[local] Instance byte_countable : Countable byte :=
  inj_countable Byte.to_N Byte.of_N Byte.of_to_N.

(** [record_countable]: a record is the tuple of its fields. *)
Ltac record_dec := solve_decision.

#[local] Instance RawProposal_dec : EqDecision RawProposal.t. Proof. record_dec. Defined.
#[local] Instance RawProposal_countable : Countable RawProposal.t.
Proof.
  refine (inj_countable'
    (fun r : RawProposal.t => (RawProposal.index r, RawProposal.hash r, RawProposal.data r,
       RawProposal.signature r, RawProposal.extraData r, RawProposal.sealerId r,
       RawProposal.systemProposal r))
    (fun '(a, b, c, d, e, f, g) => RawProposal.mk a b c d e f g) _). by intros [].
Defined.

#[local] Instance RawBase_dec : EqDecision RawBaseMessage.t. Proof. record_dec. Defined.
#[local] Instance RawBase_countable : Countable RawBaseMessage.t.
Proof.
  refine (inj_countable'
    (fun r : RawBaseMessage.t => (RawBaseMessage.version r, RawBaseMessage.index r,
       RawBaseMessage.hash r, RawBaseMessage.view r, RawBaseMessage.timestamp r,
       RawBaseMessage.generatedFrom r, RawBaseMessage.signatureHash r,
       RawBaseMessage.signatureData r))
    (fun '(a, b, c, d, e, f, g, h) => RawBaseMessage.mk a b c d e f g h) _). by intros [].
Defined.

#[local] Instance PBFTRawProposal_dec : EqDecision PBFTRawProposal.t. Proof. record_dec. Defined.
#[local] Instance PBFTRawProposal_countable : Countable PBFTRawProposal.t.
Proof.
  refine (inj_countable'
    (fun r : PBFTRawProposal.t => (PBFTRawProposal.proposal r, PBFTRawProposal.nodeList r,
       PBFTRawProposal.signatureList r))
    (fun '(a, b, c) => PBFTRawProposal.mk a b c) _). by intros [].
Defined.

#[local] Instance PBFTRawMessage_dec : EqDecision PBFTRawMessage.t. Proof. record_dec. Defined.
#[local] Instance PBFTRawMessage_countable : Countable PBFTRawMessage.t.
Proof.
  refine (inj_countable'
    (fun r : PBFTRawMessage.t => (PBFTRawMessage.hashFieldsData r,
       PBFTRawMessage.consensusProposal r, PBFTRawMessage.proposals r,
       PBFTRawMessage.signatureData r))
    (fun '(a, b, c, d) => PBFTRawMessage.mk a b c d) _). by intros [].
Defined.

#[local] Instance RawViewChange_dec : EqDecision RawViewChangeMessage.t. Proof. record_dec. Defined.
#[local] Instance RawViewChange_countable : Countable RawViewChangeMessage.t.
Proof.
  refine (inj_countable'
    (fun r : RawViewChangeMessage.t => (RawViewChangeMessage.message r,
       RawViewChangeMessage.committedProposal r, RawViewChangeMessage.preparedProposals r))
    (fun '(a, b, c) => RawViewChangeMessage.mk a b c) _). by intros [].
Defined.

#[local] Instance RawNewView_dec : EqDecision RawNewViewMessage.t. Proof. record_dec. Defined.
#[local] Instance RawNewView_countable : Countable RawNewViewMessage.t.
Proof.
  refine (inj_countable'
    (fun r : RawNewViewMessage.t => (RawNewViewMessage.message r,
       RawNewViewMessage.viewChangeMsgList r, RawNewViewMessage.prePrepareList r))
    (fun '(a, b, c) => RawNewViewMessage.mk a b c) _). by intros [].
Defined.

#[local] Instance ProposalRequest_dec : EqDecision ProposalRequest.t. Proof. record_dec. Defined.
#[local] Instance ProposalRequest_countable : Countable ProposalRequest.t.
Proof.
  refine (inj_countable'
    (fun r : ProposalRequest.t => (ProposalRequest.message r, ProposalRequest.size r))
    (fun '(a, b) => ProposalRequest.mk a b) _). by intros [].
Defined.

#[local] Instance RawMessage_dec : EqDecision RawMessage.t. Proof. record_dec. Defined.
#[local] Instance RawMessage_countable : Countable RawMessage.t.
Proof.
  refine (inj_countable'
    (fun r : RawMessage.t => (RawMessage.version r, RawMessage.type r,
       RawMessage.signatureData r, RawMessage.payLoad r))
    (fun '(a, b, c, d) => RawMessage.mk a b c d) _). by intros [].
Defined.

#[local] Instance protobuf : Protobuf := {|
  pb_RawProposal := countable_pb; pb_BaseMessage := countable_pb;
  pb_PBFTRawProposal := countable_pb; pb_PBFTRawMessage := countable_pb;
  pb_RawViewChangeMessage := countable_pb; pb_RawNewViewMessage := countable_pb;
  pb_ProposalRequest := countable_pb; pb_RawMessage := countable_pb;
  hashImpl := fun b => Z.of_nat (length b) |}.
End PBDemo.
