(* ===== verification/Codec.v ===== *)
(** Codec: the message objects of [core/Proposal.h] and [pbft/protocol/PB] - the
    protobuf message an object owns next to the fields it caches - with their setters,
    [encode] and [decode], the message factory and [PBFTCodec].  [contents] reads an
    object as the message of [Types] that the engine works with. *)
From S2P Require Import Prelude Types Protobuf.

Module PB.
(** * [core/Proposal.h] *)
Module Proposal.
Record t : Type := mk { m_rawProposal : RawProposal.t; m_hash : HashType }.
#[global] Instance eta_t : Eta t := fun r => mk (m_rawProposal r) (m_hash r).

Definition create : t := mk RawProposal.empty 0.

(** A hash that is too short leaves the cached hash as it is. *)
Definition deserializeObject (p : t) : t :=
  let hashData := RawProposal.hash (m_rawProposal p) in
  if Nat.ltb (length hashData) HashType_size then p
  else p <| m_hash := hash_of hashData |>.

Definition setRawProposal (_rawProposal : RawProposal.t) (p : t) : t :=
  deserializeObject (p <| m_rawProposal := _rawProposal |>).
Definition of_raw (_rawProposal : RawProposal.t) : t := setRawProposal _rawProposal create.

Definition index (p : t) : BlockNumber := RawProposal.index (m_rawProposal p).
Definition setIndex (_index : BlockNumber) (p : t) : t :=
  p <| m_rawProposal := (m_rawProposal p) <| RawProposal.index := _index |> |>.
Definition hash (p : t) : HashType := m_hash p.
Definition setHash (_hash : HashType) (p : t) : t :=
  p <| m_hash := _hash |>
    <| m_rawProposal := (m_rawProposal p) <| RawProposal.hash := hash_data _hash |> |>.
Definition data (p : t) : bytes := RawProposal.data (m_rawProposal p).
Definition setData (_data : bytes) (p : t) : t :=
  p <| m_rawProposal := (m_rawProposal p) <| RawProposal.data := _data |> |>.
Definition extraData (p : t) : bytes := RawProposal.extraData (m_rawProposal p).
Definition setExtraData (_data : bytes) (p : t) : t :=
  p <| m_rawProposal := (m_rawProposal p) <| RawProposal.extraData := _data |> |>.
Definition signature (p : t) : bytes := RawProposal.signature (m_rawProposal p).
Definition setSignature (_data : bytes) (p : t) : t :=
  p <| m_rawProposal := (m_rawProposal p) <| RawProposal.signature := _data |> |>.
Definition sealerId (p : t) : Z := RawProposal.sealerId (m_rawProposal p).
Definition setSealerId (_sealerId : Z) (p : t) : t :=
  p <| m_rawProposal := (m_rawProposal p) <| RawProposal.sealerId := _sealerId |> |>.
Definition systemProposal (p : t) : bool := RawProposal.systemProposal (m_rawProposal p).
Definition setSystemProposal (_systemProposal : bool) (p : t) : t :=
  p <| m_rawProposal := (m_rawProposal p) <| RawProposal.systemProposal := _systemProposal |> |>.

Definition eqb (p _proposal : t) : bool :=
  bool_decide (index _proposal = index p) && bool_decide (hash _proposal = hash p) &&
  bool_decide (data _proposal = data p).

Definition encode `{Pb : Protobuf} (p : t) : bytes := encodePBObject (m_rawProposal p).
Definition decode `{Pb : Protobuf} (_data : bytes) (p : t) : option t :=
  raw ← decodePBObject _data;
  Some (deserializeObject (p <| m_rawProposal := raw |>)).
End Proposal.

(** * [PBFTProposal.h]: the raw proposal of the base class is the field [proposal] of
    [m_pbftRawProposal]. *)
Module PBFTProposal.
Record t : Type := mk { base : Proposal.t; nodeList : list Z; signatureList : list bytes }.
#[global] Instance eta_t : Eta t := fun r => mk (base r) (nodeList r) (signatureList r).

Definition create : t := mk Proposal.create [] [].
Definition pbftRawProposal (p : t) : PBFTRawProposal.t :=
  PBFTRawProposal.mk (Some (Proposal.m_rawProposal (base p))) (nodeList p) (signatureList p).
Definition of_raw (_pbftRawProposal : PBFTRawProposal.t) : t :=
  mk (Proposal.of_raw (default RawProposal.empty (PBFTRawProposal.proposal _pbftRawProposal)))
     (PBFTRawProposal.nodeList _pbftRawProposal) (PBFTRawProposal.signatureList _pbftRawProposal).

Definition signatureProofSize (p : t) : nat := length (signatureList p).
Definition signatureProof (p : t) (_index : nat) : option (Z * bytes) :=
  signatureData ← signatureList p !! _index;
  node ← nodeList p !! _index;
  Some (node, signatureData).
Definition appendSignatureProof (_nodeIdx : Z) (_signatureData : bytes) (p : t) : t :=
  p <| nodeList := nodeList p ++ [_nodeIdx] |>
    <| signatureList := signatureList p ++ [_signatureData] |>.
Definition clearSignatureProof (p : t) : t := p <| nodeList := [] |> <| signatureList := [] |>.

(** [operator==]; [None] where [signatureProof] is out of range. *)
Definition eqb (p _proposal : t) : option bool :=
  if negb (Proposal.eqb (base p) (base _proposal)) then Some false
  else if negb (Nat.eqb (signatureProofSize _proposal) (signatureProofSize p)) then Some false
  else
    (fix loop (l : list nat) :=
       match l with
       | [] => Some true
       | i :: l =>
           proof ← signatureProof _proposal i;
           comparedProof ← signatureProof p i;
           if bool_decide (proof = comparedProof) then loop l else Some false
       end) (seq 0 (signatureProofSize p)).

Definition encode `{Pb : Protobuf} (p : t) : bytes := encodePBObject (pbftRawProposal p).
Definition decode `{Pb : Protobuf} (_data : bytes) (p : t) : option t :=
  raw ← decodePBObject _data;
  Some (mk (Proposal.setRawProposal (default RawProposal.empty (PBFTRawProposal.proposal raw))
              (base p))
           (PBFTRawProposal.nodeList raw) (PBFTRawProposal.signatureList raw)).

(** The proposal as the engine reads it. *)
Definition contents (p : t) : Types.PBFTProposal.t :=
  Types.PBFTProposal.mk (Proposal.index (base p)) (Proposal.hash (base p))
    (Proposal.data (base p)) (Proposal.extraData (base p)) (Proposal.signature (base p))
    (Proposal.sealerId (base p)) (Proposal.systemProposal (base p)) (nodeList p)
    (signatureList p).
End PBFTProposal.

(** * [PBFTBaseMessage.h] *)
Module PBFTBaseMessage.
Record t : Type := mk {
  m_baseMessage : RawBaseMessage.t; m_hash : HashType; m_packetType : PacketType;
  m_dataHash : HashType; m_from : option NodeID }.
#[global] Instance eta_t : Eta t := fun r =>
  mk (m_baseMessage r) (m_hash r) (m_packetType r) (m_dataHash r) (m_from r).

Definition create : t := mk RawBaseMessage.empty 0 PrePreparePacket 0 None.

Definition deserializeToObject (m : t) : t :=
  let hashData := RawBaseMessage.hash (m_baseMessage m) in
  let m := if Nat.leb HashType_size (length hashData) then m <| m_hash := hash_of hashData |>
           else m in
  let signatureDataHash := RawBaseMessage.signatureHash (m_baseMessage m) in
  if Nat.leb HashType_size (length signatureDataHash)
  then m <| m_dataHash := hash_of signatureDataHash |> else m.

Definition setBaseMessage (_baseMessage : RawBaseMessage.t) (m : t) : t :=
  m <| m_baseMessage := _baseMessage |>.
Definition of_raw (_baseMessage : RawBaseMessage.t) : t :=
  deserializeToObject (setBaseMessage _baseMessage create).

Definition timestamp (m : t) : Z := RawBaseMessage.timestamp (m_baseMessage m).
Definition version (m : t) : Z := RawBaseMessage.version (m_baseMessage m).
Definition index (m : t) : BlockNumber := RawBaseMessage.index (m_baseMessage m).
Definition view (m : t) : ViewType := u64 (RawBaseMessage.view (m_baseMessage m)).
Definition generatedFrom (m : t) : IndexType :=
  u64 (RawBaseMessage.generatedFrom (m_baseMessage m)).
Definition hash (m : t) : HashType := m_hash m.

Definition setTimestamp (_timestamp : Z) (m : t) : t :=
  m <| m_baseMessage := (m_baseMessage m) <| RawBaseMessage.timestamp := _timestamp |> |>.
Definition setVersion (_version : Z) (m : t) : t :=
  m <| m_baseMessage := (m_baseMessage m) <| RawBaseMessage.version := _version |> |>.
Definition setIndex (_index : BlockNumber) (m : t) : t :=
  m <| m_baseMessage := (m_baseMessage m) <| RawBaseMessage.index := _index |> |>.
Definition setView (_view : ViewType) (m : t) : t :=
  m <| m_baseMessage := (m_baseMessage m) <| RawBaseMessage.view := i64 _view |> |>.
Definition setGeneratedFrom (_generatedFrom : IndexType) (m : t) : t :=
  m <| m_baseMessage :=
    (m_baseMessage m) <| RawBaseMessage.generatedFrom := i64 _generatedFrom |> |>.
Definition setHash (_hash : HashType) (m : t) : t :=
  m <| m_hash := _hash |>
    <| m_baseMessage := (m_baseMessage m) <| RawBaseMessage.hash := hash_data _hash |> |>.
Definition setPacketType (_packetType : PacketType) (m : t) : t :=
  m <| m_packetType := _packetType |>.
Definition setFrom (_from : option NodeID) (m : t) : t := m <| m_from := _from |>.

Definition signatureData (m : t) : bytes := RawBaseMessage.signatureData (m_baseMessage m).
Definition signatureDataHash (m : t) : HashType := m_dataHash m.
Definition setSignatureData (_signatureData : bytes) (m : t) : t :=
  m <| m_baseMessage :=
    (m_baseMessage m) <| RawBaseMessage.signatureData := _signatureData |> |>.
Definition setSignatureDataHash (_hash : HashType) (m : t) : t :=
  m <| m_dataHash := _hash |>
    <| m_baseMessage := (m_baseMessage m) <| RawBaseMessage.signatureHash := hash_data _hash |> |>.
Definition verifySignature `{Ext : Externals} (_pubKey : NodeID) (m : t) : bool :=
  verify _pubKey (signatureDataHash m) (signatureData m).

Definition eqb (m _pbftMessage : t) : bool :=
  (timestamp m =? timestamp _pbftMessage) && (version m =? version _pbftMessage) &&
  (generatedFrom m =? generatedFrom _pbftMessage) && (view m =? view _pbftMessage) &&
  (hash m =? hash _pbftMessage).

Definition encode `{Pb : Protobuf} (m : t) : bytes := encodePBObject (m_baseMessage m).
Definition decode `{Pb : Protobuf} (_data : bytes) (m : t) : option t :=
  raw ← decodePBObject _data;
  Some (deserializeToObject (setBaseMessage raw m)).

Definition contents (m : t) : BaseMessage.t :=
  BaseMessage.mk (version m) (index m) (hash m) (RawBaseMessage.view (m_baseMessage m))
    (timestamp m) (RawBaseMessage.generatedFrom (m_baseMessage m)) (m_dataHash m)
    (signatureData m).
End PBFTBaseMessage.

(** * [PBFTMessage.h/.cpp]: the raw message's [consensusProposal] and [proposals] are
    the raw proposals of the objects [m_consensusProposal] and [m_proposals]. *)
Module PBFTMessage.
Record t : Type := mk {
  base : PBFTBaseMessage.t; hashFieldsData : bytes; rawSignatureData : bytes;
  m_consensusProposal : option PBFTProposal.t; m_proposals : list PBFTProposal.t;
  m_signatureDataHash : HashType }.
#[global] Instance eta_t : Eta t := fun r =>
  mk (base r) (hashFieldsData r) (rawSignatureData r) (m_consensusProposal r) (m_proposals r)
     (m_signatureDataHash r).

Definition create : t := mk PBFTBaseMessage.create [] [] None [] 0.
Definition pbftRawMessage (m : t) : PBFTRawMessage.t :=
  PBFTRawMessage.mk (hashFieldsData m) (PBFTProposal.pbftRawProposal <$> m_consensusProposal m)
    (PBFTProposal.pbftRawProposal <$> m_proposals m) (rawSignatureData m).

(** [deserializeToObject] of the raw message [raw], which becomes the object's. *)
Definition deserializeToObject `{Pb : Protobuf} (raw : PBFTRawMessage.t) (m : t) : option t :=
  b ← PBFTBaseMessage.decode (PBFTRawMessage.hashFieldsData raw) (base m);
  let consensusProposal :=
    match PBFTRawMessage.consensusProposal raw with
    | Some p => Some (PBFTProposal.of_raw p)
    | None => m_consensusProposal m
    end in
  Some (mk b (PBFTRawMessage.hashFieldsData raw) (PBFTRawMessage.signatureData raw)
          consensusProposal (PBFTProposal.of_raw <$> PBFTRawMessage.proposals raw)
          (m_signatureDataHash m)).
Definition of_raw `{Pb : Protobuf} (_pbftRawMessage : PBFTRawMessage.t) : option t :=
  deserializeToObject _pbftRawMessage create.

Definition decode `{Pb : Protobuf} (_data : bytes) (m : t) : option t :=
  raw ← decodePBObject _data; deserializeToObject raw m.
Definition getHashFieldsDataHash `{Pb : Protobuf} (m : t) : HashType := hashImpl (hashFieldsData m).
Definition decodeAndSetSignature `{Pb : Protobuf} (_data : bytes) (m : t) : option t :=
  m ← decode _data m;
  Some (m <| m_signatureDataHash := getHashFieldsDataHash m |>).

Definition encodeHashFields `{Pb : Protobuf} (m : t) : t :=
  m <| hashFieldsData := PBFTBaseMessage.encode (base m) |>.
Definition generateAndSetSignatureData `{Ext : Externals} `{Pb : Protobuf} (_keyPair : NodeID)
    (m : t) : t :=
  let m := m <| m_signatureDataHash := getHashFieldsDataHash m |> in
  m <| rawSignatureData := sign _keyPair (m_signatureDataHash m) |>.
(** The bytes, and the message as [encode] leaves it. *)
Definition encode `{Ext : Externals} `{Pb : Protobuf} (_keyPair : NodeID) (m : t) : bytes * t :=
  let m := generateAndSetSignatureData _keyPair (encodeHashFields m) in
  (encodePBObject (pbftRawMessage m), m).

Definition setConsensusProposal (_consensusProposal : PBFTProposal.t) (m : t) : t :=
  m <| m_consensusProposal := Some _consensusProposal |>.
Definition setProposals (_proposals : list PBFTProposal.t) (m : t) : t :=
  m <| m_proposals := _proposals |>.

Definition signatureData (m : t) : bytes := rawSignatureData m.
Definition signatureDataHash (m : t) : HashType := m_signatureDataHash m.
Definition setSignatureDataHash (_hash : HashType) (m : t) : t :=
  m <| m_signatureDataHash := _hash |>.

(** A message of its own whose raw message has the hash fields only. *)
Definition populateWithoutProposal `{Pb : Protobuf} (m : t) : option t :=
  deserializeToObject (PBFTRawMessage.mk (hashFieldsData m) None [] []) create.

Definition contents `{Pb : Protobuf} (m : t) : Types.PBFTMessage.t :=
  Types.PBFTMessage.mk (PBFTBaseMessage.contents (base m)) (PBFTBaseMessage.m_packetType (base m))
    (PBFTBaseMessage.m_from (base m))
    (b ← decodePBObject (hashFieldsData m);
     Some (PBFTBaseMessage.contents (PBFTBaseMessage.of_raw b)))
    (signatureData m) (signatureDataHash m) (PBFTProposal.contents <$> m_consensusProposal m)
    (PBFTProposal.contents <$> m_proposals m).
End PBFTMessage.

(** * [PBFTViewChangeMsg.h/.cpp]: [allocated] are the elements of the raw message's
    [preparedProposals], to which [setPreparedProposals] adds. *)
Module PBFTViewChangeMsg.
Record t : Type := mk {
  base : PBFTBaseMessage.t; m_committedProposal : option PBFTProposal.t;
  m_preparedProposalList : list PBFTMessage.t; allocated : list PBFTMessage.t }.
#[global] Instance eta_t : Eta t := fun r =>
  mk (base r) (m_committedProposal r) (m_preparedProposalList r) (allocated r).

Definition create : t :=
  mk (PBFTBaseMessage.setPacketType ViewChangePacket PBFTBaseMessage.create) None [] [].
Definition rawViewChange (m : t) : RawViewChangeMessage.t :=
  RawViewChangeMessage.mk (Some (PBFTBaseMessage.m_baseMessage (base m)))
    (PBFTProposal.pbftRawProposal <$> m_committedProposal m)
    (PBFTMessage.pbftRawMessage <$> allocated m).

(** [setBaseMessage] followed by [deserializeToObject]: [mutable_committedproposal]
    creates a missing proposal. *)
Definition deserializeToObject `{Pb : Protobuf} (raw : RawViewChangeMessage.t) (m : t) : option t :=
  preparedMsgs ← mapM PBFTMessage.of_raw (RawViewChangeMessage.preparedProposals raw);
  Some (mk (PBFTBaseMessage.deserializeToObject
              (PBFTBaseMessage.setBaseMessage
                 (default RawBaseMessage.empty (RawViewChangeMessage.message raw)) (base m)))
          (Some (PBFTProposal.of_raw
             (default PBFTRawProposal.empty (RawViewChangeMessage.committedProposal raw))))
          preparedMsgs preparedMsgs).
Definition of_raw `{Pb : Protobuf} (raw : RawViewChangeMessage.t) : option t :=
  deserializeToObject raw create.
Definition decode `{Pb : Protobuf} (_data : bytes) (m : t) : option t :=
  raw ← decodePBObject _data;
  m ← deserializeToObject raw m;
  Some (m <| base := PBFTBaseMessage.setPacketType ViewChangePacket (base m) |>).
Definition encode `{Pb : Protobuf} (m : t) : bytes := encodePBObject (rawViewChange m).

Definition setCommittedProposal (_proposal : PBFTProposal.t) (m : t) : t :=
  m <| m_committedProposal := Some _proposal |>.
Definition setPreparedProposals (_preparedProposals : list PBFTMessage.t) (m : t) : t :=
  m <| m_preparedProposalList := _preparedProposals |>
    <| allocated := allocated m ++ _preparedProposals |>.

Definition contents `{Pb : Protobuf} (m : t) : ViewChangeMsg.t :=
  ViewChangeMsg.mk (PBFTBaseMessage.contents (base m)) (PBFTBaseMessage.m_packetType (base m))
    (PBFTBaseMessage.m_from (base m)) (PBFTProposal.contents <$> m_committedProposal m)
    (PBFTMessage.contents <$> m_preparedProposalList m).
End PBFTViewChangeMsg.

(** * [PBFTNewViewMsg.h/.cpp] *)
Module PBFTNewViewMsg.
Record t : Type := mk {
  base : PBFTBaseMessage.t; m_viewChangeList : list PBFTViewChangeMsg.t;
  m_prePrepareList : list PBFTMessage.t; allocatedViewChanges : list PBFTViewChangeMsg.t;
  allocatedPrePrepares : list PBFTMessage.t }.
#[global] Instance eta_t : Eta t := fun r =>
  mk (base r) (m_viewChangeList r) (m_prePrepareList r) (allocatedViewChanges r)
     (allocatedPrePrepares r).

Definition create : t :=
  mk (PBFTBaseMessage.setPacketType NewViewPacket PBFTBaseMessage.create) [] [] [] [].
Definition rawNewView (m : t) : RawNewViewMessage.t :=
  RawNewViewMessage.mk (Some (PBFTBaseMessage.m_baseMessage (base m)))
    (PBFTViewChangeMsg.rawViewChange <$> allocatedViewChanges m)
    (PBFTMessage.pbftRawMessage <$> allocatedPrePrepares m).

(** The two lists of the object are extended, not replaced. *)
Definition deserializeToObject `{Pb : Protobuf} (raw : RawNewViewMessage.t) (m : t) : option t :=
  viewChanges ← mapM PBFTViewChangeMsg.of_raw (RawNewViewMessage.viewChangeMsgList raw);
  prePrepares ← mapM PBFTMessage.of_raw (RawNewViewMessage.prePrepareList raw);
  Some (mk (PBFTBaseMessage.deserializeToObject
              (PBFTBaseMessage.setBaseMessage
                 (default RawBaseMessage.empty (RawNewViewMessage.message raw)) (base m)))
          (m_viewChangeList m ++ viewChanges) (m_prePrepareList m ++ prePrepares)
          viewChanges prePrepares).
Definition decode `{Pb : Protobuf} (_data : bytes) (m : t) : option t :=
  raw ← decodePBObject _data; deserializeToObject raw m.
Definition encode `{Pb : Protobuf} (m : t) : bytes := encodePBObject (rawNewView m).

Definition setViewChangeMsgList (_viewChangeMsgList : list PBFTViewChangeMsg.t) (m : t) : t :=
  m <| m_viewChangeList := _viewChangeMsgList |>
    <| allocatedViewChanges := allocatedViewChanges m ++ _viewChangeMsgList |>.
(** [encodeHashFields] runs on the shared message objects. *)
Definition setPrePrepareList `{Pb : Protobuf} (_prePrepareList : list PBFTMessage.t) (m : t) : t :=
  let prePrepares := PBFTMessage.encodeHashFields <$> _prePrepareList in
  m <| m_prePrepareList := prePrepares |>
    <| allocatedPrePrepares := allocatedPrePrepares m ++ prePrepares |>.

Definition contents `{Pb : Protobuf} (m : t) : NewViewMsg.t :=
  NewViewMsg.mk (PBFTBaseMessage.contents (base m)) (PBFTBaseMessage.m_packetType (base m))
    (PBFTBaseMessage.m_from (base m)) (PBFTViewChangeMsg.contents <$> m_viewChangeList m)
    (PBFTMessage.contents <$> m_prePrepareList m).
End PBFTNewViewMsg.

(** * [PBFTRequest.h] *)
Module PBFTRequest.
Record t : Type := mk { base : PBFTBaseMessage.t; m_size : Z }.
#[global] Instance eta_t : Eta t := fun r => mk (base r) (m_size r).

Definition create : t := mk PBFTBaseMessage.create 0.
Definition setSize (_size : Z) (m : t) : t := m <| m_size := _size |>.
Definition pbRequest (m : t) : ProposalRequest.t :=
  ProposalRequest.mk (Some (PBFTBaseMessage.m_baseMessage (base m))) (m_size m).
Definition encode `{Pb : Protobuf} (m : t) : bytes := encodePBObject (pbRequest m).
Definition decode `{Pb : Protobuf} (_data : bytes) (m : t) : option t :=
  raw ← decodePBObject _data;
  Some (mk (PBFTBaseMessage.deserializeToObject
              (PBFTBaseMessage.setBaseMessage
                 (default RawBaseMessage.empty (ProposalRequest.message raw)) (base m)))
          (ProposalRequest.size raw)).
Definition eqb (m _pbftRequest : t) : bool :=
  PBFTBaseMessage.eqb (base m) (base _pbftRequest) && (m_size _pbftRequest =? m_size m).
Definition contents (m : t) : Types.PBFTRequest.t :=
  Types.PBFTRequest.mk (PBFTBaseMessage.contents (base m)) (PBFTBaseMessage.m_packetType (base m))
    (PBFTBaseMessage.m_from (base m)) (m_size m).
End PBFTRequest.

(** * [PBFTMessageFactoryImpl.h] *)
Module PBFTMessageFactoryImpl.
Section Factory.
Context `{Pb : Protobuf}.
Definition createPBFTMsg (_data : bytes) : option PBFTMessage.t :=
  PBFTMessage.decodeAndSetSignature _data PBFTMessage.create.
Definition createViewChangeMsg (_data : bytes) : option PBFTViewChangeMsg.t :=
  PBFTViewChangeMsg.decode _data (PBFTViewChangeMsg.mk PBFTBaseMessage.create None [] []).
Definition createNewViewMsg (_data : bytes) : option PBFTNewViewMsg.t :=
  PBFTNewViewMsg.decode _data PBFTNewViewMsg.create.
Definition createPBFTProposal (_data : bytes) : option PBFTProposal.t :=
  PBFTProposal.decode _data PBFTProposal.create.
Definition createPBFTRequest (_data : bytes) : option PBFTRequest.t :=
  PBFTRequest.decode _data PBFTRequest.create.
End Factory.
End PBFTMessageFactoryImpl.

(** * [PBFTCodec.h/.cpp] *)
Module PBFTCodec.

(** The dynamic type behind a [PBFTBaseMessageInterface::Ptr]. *)
Inductive message : Type :=
  | OPBFT (m : PBFTMessage.t)
  | OViewChange (m : PBFTViewChangeMsg.t)
  | ONewView (m : PBFTNewViewMsg.t)
  | ORequest (m : PBFTRequest.t).

Definition base (o : message) : PBFTBaseMessage.t :=
  match o with
  | OPBFT m => PBFTMessage.base m
  | OViewChange m => PBFTViewChangeMsg.base m
  | ONewView m => PBFTNewViewMsg.base m
  | ORequest m => PBFTRequest.base m
  end.
Definition on_base (f : PBFTBaseMessage.t -> PBFTBaseMessage.t) (o : message) : message :=
  match o with
  | OPBFT m => OPBFT (m <| PBFTMessage.base := f (PBFTMessage.base m) |>)
  | OViewChange m => OViewChange (m <| PBFTViewChangeMsg.base := f (PBFTViewChangeMsg.base m) |>)
  | ONewView m => ONewView (m <| PBFTNewViewMsg.base := f (PBFTNewViewMsg.base m) |>)
  | ORequest m => ORequest (m <| PBFTRequest.base := f (PBFTRequest.base m) |>)
  end.
Definition packetType (o : message) : PacketType := PBFTBaseMessage.m_packetType (base o).

(** The virtual methods. *)
Definition signatureData (o : message) : bytes :=
  match o with OPBFT m => PBFTMessage.signatureData m
             | _ => PBFTBaseMessage.signatureData (base o) end.
Definition signatureDataHash (o : message) : HashType :=
  match o with OPBFT m => PBFTMessage.signatureDataHash m
             | _ => PBFTBaseMessage.signatureDataHash (base o) end.
Definition setSignatureDataHash (_hash : HashType) (o : message) : message :=
  match o with
  | OPBFT m => OPBFT (PBFTMessage.setSignatureDataHash _hash m)
  | _ => on_base (PBFTBaseMessage.setSignatureDataHash _hash) o
  end.
Definition setSignatureData (_signatureData : bytes) : message -> message :=
  on_base (PBFTBaseMessage.setSignatureData _signatureData).
Definition encodePayload `{Ext : Externals} `{Pb : Protobuf} (_keyPair : NodeID) (o : message)
    : bytes * message :=
  match o with
  | OPBFT m => let '(b, m) := PBFTMessage.encode _keyPair m in (b, OPBFT m)
  | OViewChange m => (PBFTViewChangeMsg.encode m, o)
  | ONewView m => (PBFTNewViewMsg.encode m, o)
  | ORequest m => (PBFTRequest.encode m, o)
  end.

(** The values of [PacketType]. *)
Definition packet_code (p : PacketType) : Z :=
  match p with
  | PrePreparePacket => 0 | PreparePacket => 1 | CommitPacket => 2 | ViewChangePacket => 3
  | NewViewPacket => 4 | CommittedProposalRequest => 5 | CommittedProposalResponse => 6
  | PreparedProposalRequest => 7 | PreparedProposalResponse => 8 | CheckPoint => 9
  | RecoverRequest => 10 | RecoverResponse => 11
  end.
Definition packet_of_code (z : Z) : option PacketType :=
  List.find (fun p => packet_code p =? z)
    [PrePreparePacket; PreparePacket; CommitPacket; ViewChangePacket; NewViewPacket;
     CommittedProposalRequest; CommittedProposalResponse; PreparedProposalRequest;
     PreparedProposalResponse; CheckPoint; RecoverRequest; RecoverResponse].

Section Codec.
Context `{Ext : Externals} `{Pb : Protobuf}.

Definition encode (m_keyPair : NodeID) (_pbftMessage : message) (_version : Z) : bytes * message :=
  let packetType := packetType _pbftMessage in
  let '(payLoad, _pbftMessage) := encodePayload m_keyPair _pbftMessage in
  let '(signature, _pbftMessage) :=
    if shouldHandleSignature packetType && bool_decide (signatureData _pbftMessage = [])
    then
      let hash := hashImpl payLoad in
      let signature := sign m_keyPair hash in
      (signature, setSignatureData signature (setSignatureDataHash hash _pbftMessage))
    else ([], _pbftMessage) in
  (encodePBObject (RawMessage.mk _version (packet_code packetType) signature payLoad), _pbftMessage).

(** The packet of the payload's type. *)
Definition decodePayload (packetType : PacketType) (payLoad : bytes) : option message :=
  match packetType with
  | PrePreparePacket | PreparePacket | CommitPacket | CommittedProposalResponse | CheckPoint
  | RecoverRequest | RecoverResponse => OPBFT <$> PBFTMessageFactoryImpl.createPBFTMsg payLoad
  | PreparedProposalResponse | ViewChangePacket =>
      OViewChange <$> PBFTMessageFactoryImpl.createViewChangeMsg payLoad
  | NewViewPacket => ONewView <$> PBFTMessageFactoryImpl.createNewViewMsg payLoad
  | CommittedProposalRequest | PreparedProposalRequest =>
      ORequest <$> PBFTMessageFactoryImpl.createPBFTRequest payLoad
  end.

Definition decode (_data : bytes) : message + exn :=
  match decodePBObject (T := RawMessage.t) _data with
  | None => inr DecodeException
  | Some pbMessage =>
      match packet_of_code (RawMessage.type pbMessage) with
      | None => inr UnknownPBFTMsgType
      | Some packetType =>
          match decodePayload packetType (RawMessage.payLoad pbMessage) with
          | None => inr DecodeException
          | Some decodedMsg =>
              let decodedMsg :=
                if shouldHandleSignature packetType && bool_decide (signatureData decodedMsg = [])
                then
                  setSignatureData (RawMessage.signatureData pbMessage)
                    (setSignatureDataHash (hashImpl (RawMessage.payLoad pbMessage)) decodedMsg)
                else decodedMsg in
              inl (on_base (PBFTBaseMessage.setPacketType packetType) decodedMsg)
          end
      end
  end.
End Codec.

(** The message as the engine works with it. *)
Definition contents `{Pb : Protobuf} (o : message) : Msg :=
  match o with
  | OPBFT m => MPBFT (PBFTMessage.contents m)
  | OViewChange m => MViewChange (PBFTViewChangeMsg.contents m)
  | ONewView m => MNewView (PBFTNewViewMsg.contents m)
  | ORequest m => MRequest (PBFTRequest.contents m)
  end.
End PBFTCodec.
End PB.
