(* ===== verification/Timer.v ===== *)
(** Timer: [pbft/engine/PBFTTimer.h].  The timer whose period grows by a factor
    1.5 per view-change cycle; the base class [bcos::Timer] is represented by the
    sequence of calls made on it. *)
From S2P Require Import Prelude Types.

(** The nearest double of a non-negative integer, ties to even: the conversion
    of [uint64_t] to [double] and the rounding of a product. *)
Definition rne53 (z : Z) : Z :=
  if z <? 2 ^ 53 then z
  else
    let e := Z.log2 z - 52 in
    let q := z / 2 ^ e in
    let r := z mod 2 ^ e in
    let half := 2 ^ (e - 1) in
    if (half <? r) || ((r =? half) && Z.odd q) then (q + 1) * 2 ^ e else q * 2 ^ e.

Module PBFTTimer.
Record t : Type := mk {
  m_timeout : Z;
  m_adjustedTimeout : Z;
  m_changeCycle : Z;
  calls : list TimerCall
}.
#[global] Instance eta_t : Eta t := fun r =>
  mk (m_timeout r) (m_adjustedTimeout r) (m_changeCycle r) (calls r).

Definition c_maxChangeCycle : Z := 10.

(** The calls inherited from [bcos::Timer]. *)
Definition call (c : TimerCall) (tm : t) : t := tm <| calls := calls tm ++ [c] |>.
Definition start : t -> t := call TimerStart.
Definition stop : t -> t := call TimerStop.
Definition restart : t -> t := call TimerRestart.
Definition destroy : t -> t := call TimerDestroy.

(** [m_timeout * pow(1.5, changeCycle)] in double precision, truncated.  For
    cycles up to 10, [pow(1.5, n)] is exactly [3^n / 2^n] and scaling by a power
    of two does not round. *)
Definition scaled (timeout changeCycle : Z) : Z :=
  u64 (rne53 (rne53 timeout * 3 ^ changeCycle) / 2 ^ changeCycle).

Section WithExternals.
Context `{Ext : Externals}.

Definition running (tm : t) : bool := timer_running (calls tm).
Definition timeout (tm : t) : Z := timer_timeout (m_timeout tm) (calls tm).

Definition updateAdjustedTimeout (tm : t) : t :=
  let changeCycle := Z.min (m_changeCycle tm) c_maxChangeCycle in
  let newTimeout := scaled (m_timeout tm) changeCycle in
  if newTimeout =? m_adjustedTimeout tm then tm
  else
    let tm := tm <| m_adjustedTimeout := newTimeout |> in
    if running tm then restart tm else tm.

Definition updateChangeCycle (_changeCycle : Z) (tm : t) : t :=
  updateAdjustedTimeout (tm <| m_changeCycle := Z.min _changeCycle c_maxChangeCycle |>).

Definition incChangeCycle (_increasedValue : Z) (tm : t) : t :=
  updateChangeCycle (u64 (m_changeCycle tm + _increasedValue)) tm.

Definition resetChangeCycle (tm : t) : t := updateChangeCycle 0 tm.

Definition reset (_timeout : Z) (tm : t) : t :=
  updateAdjustedTimeout (tm <| m_timeout := _timeout |>).

Definition adjustTimeout (tm : t) : Z := m_adjustedTimeout tm.

(** The constructor. *)
Definition create (_timeout : Z) : t := updateAdjustedTimeout (mk _timeout 0 0 []).

(** ** Well-formedness: the cycle is bounded and the adjusted timeout is in step
    with the timeout and the cycle. *)
Definition wf (tm : t) : Prop :=
  0 <= m_changeCycle tm <= c_maxChangeCycle /\
  m_adjustedTimeout tm = scaled (m_timeout tm) (m_changeCycle tm).

(** The operations of the class. *)
Inductive op : Type :=
  | OpCall (c : TimerCall)
  | OpUpdateChangeCycle (n : Z)
  | OpIncChangeCycle (n : Z)
  | OpResetChangeCycle
  | OpReset (timeout : Z).

Definition run (o : op) (tm : t) : t :=
  match o with
  | OpCall c => call c tm
  | OpUpdateChangeCycle n => updateChangeCycle n tm
  | OpIncChangeCycle n => incChangeCycle n tm
  | OpResetChangeCycle => resetChangeCycle tm
  | OpReset n => reset n tm
  end.

Definition op_ok (o : op) : Prop :=
  match o with
  | OpUpdateChangeCycle n | OpIncChangeCycle n | OpReset n => is_u64 n
  | _ => True
  end.

Lemma updateAdjustedTimeout_wf tm :
  0 <= m_changeCycle tm <= c_maxChangeCycle -> wf (updateAdjustedTimeout tm).
Proof.
  intros Hc. unfold updateAdjustedTimeout. rewrite Z.min_l by lia.
  destruct (Z.eqb_spec (scaled (m_timeout tm) (m_changeCycle tm)) (m_adjustedTimeout tm)).
  - by split.
  - by destruct (running _); split.
Qed.

Lemma create_wf timeout : wf (create timeout).
Proof. apply updateAdjustedTimeout_wf. unfold c_maxChangeCycle. simpl. lia. Qed.

Lemma updateAdjustedTimeout_fields tm :
  m_timeout (updateAdjustedTimeout tm) = m_timeout tm /\
  m_changeCycle (updateAdjustedTimeout tm) = m_changeCycle tm.
Proof.
  unfold updateAdjustedTimeout. destruct (_ =? _); [done|]. by destruct (running _).
Qed.

Lemma run_wf o tm : op_ok o -> wf tm -> wf (run o tm).
Proof.
  unfold c_maxChangeCycle. intros Ho [Hc Ha].
  destruct o; simpl in *; unfold incChangeCycle, resetChangeCycle, updateChangeCycle, reset;
    try (apply updateAdjustedTimeout_wf; unfold c_maxChangeCycle in *; simpl).
  - by split.
  - unfold is_u64 in Ho. lia.
  - pose proof (u64_is_u64 (m_changeCycle tm + n)) as H. unfold is_u64 in H. lia.
  - lia.
  - lia.
Qed.

Lemma scaled_exact timeout n :
  0 <= timeout -> 0 <= n <= c_maxChangeCycle -> timeout * 3 ^ n < 2 ^ 53 ->
  scaled timeout n = timeout * 3 ^ n / 2 ^ n.
Proof.
  unfold c_maxChangeCycle. intros Ht Hn Hb.
  assert (1 <= 3 ^ n) by (apply (Z.pow_le_mono_r 3 0); lia).
  assert (0 < 2 ^ n) by (apply Z.pow_pos_nonneg; lia).
  assert (Hr : forall z, z < 2 ^ 53 -> rne53 z = z).
  { intros z Hz. unfold rne53. by rewrite (proj2 (Z.ltb_lt _ _) Hz). }
  unfold scaled. rewrite (Hr timeout) by nia. rewrite Hr by done.
  apply u64_id. split; [apply Z.div_pos; nia|].
  apply Z.le_lt_trans with (timeout * 3 ^ n); [|unfold two64; lia].
  apply Z.div_le_upper_bound; nia.
Qed.
End WithExternals.
End PBFTTimer.

(** After any sequence of operations on a constructed timer the cycle stays
    within its bound and the adjusted timeout is the timeout times [1.5^cycle]. *)
Theorem timer_invariant `{Ext : Externals} timeout ops :
  Forall PBFTTimer.op_ok ops ->
  let tm := fold_left (fun tm o => PBFTTimer.run o tm) ops (PBFTTimer.create timeout) in
  0 <= PBFTTimer.m_changeCycle tm <= PBFTTimer.c_maxChangeCycle /\
  (0 <= PBFTTimer.m_timeout tm < 2 ^ 37 ->
   PBFTTimer.adjustTimeout tm =
     PBFTTimer.m_timeout tm * 3 ^ PBFTTimer.m_changeCycle tm / 2 ^ PBFTTimer.m_changeCycle tm).
Proof.
  intros Hops.
  assert (H : forall tm, PBFTTimer.wf tm ->
    PBFTTimer.wf (fold_left (fun tm o => PBFTTimer.run o tm) ops tm)).
  { induction Hops as [|o ops Ho _ IH]; intros tm Hwf; simpl; [done|].
    apply IH. by apply PBFTTimer.run_wf. }
  specialize (H _ (PBFTTimer.create_wf timeout)). destruct H as [Hc Ha].
  simpl. split; [exact Hc|]. intros Ht. unfold PBFTTimer.adjustTimeout. rewrite Ha.
  apply PBFTTimer.scaled_exact; [lia|done|].
  unfold PBFTTimer.c_maxChangeCycle in Hc.
  assert (3 ^ PBFTTimer.m_changeCycle
    (fold_left (fun tm o => PBFTTimer.run o tm) ops (PBFTTimer.create timeout)) <= 3 ^ 10)
    by (apply Z.pow_le_mono_r; lia).
  nia.
Qed.

Example timer_invariant_witness :
  let _ := Demo.externals in
  let tm := fold_left (fun tm o => PBFTTimer.run o tm)
    [PBFTTimer.OpCall TimerStart; PBFTTimer.OpIncChangeCycle 1; PBFTTimer.OpReset 4000;
     PBFTTimer.OpIncChangeCycle 1] (PBFTTimer.create 3000) in
  PBFTTimer.adjustTimeout tm = 9000.
Proof.
  intros Ext. destruct (timer_invariant (Ext := Ext) 3000
    [PBFTTimer.OpCall TimerStart; PBFTTimer.OpIncChangeCycle 1; PBFTTimer.OpReset 4000;
     PBFTTimer.OpIncChangeCycle 1]) as [_ H].
  - repeat constructor; vm_compute; congruence.
  - refine (eq_trans (H _) _); [split; vm_compute; congruence|vm_compute; reflexivity].
Defined.
