(* ===== verification/Validator.v ===== *)
(** Validator: [pbft/engine/Validator.h] and [Validator.cpp].  [TxsValidator]
    asks the transaction pool to verify proposals and to mark their transactions
    sealed or unsealed, and records the proposals whose marking is pending. *)
From S2P Require Import Prelude Types.

Module TxsValidator.
Record t : Type := mk { m_resettingProposals : gset HashType }.
#[global] Instance eta_t : Eta t := fun r => mk (m_resettingProposals r).

Definition create : t := mk ∅.

Section WithExternals.
Context `{Ext : Externals}.

Definition resettingProposalSize (v : t) : Z := Z.of_nat (size (m_resettingProposals v)).

Definition eraseResettingProposal (_hash : HashType) : Eff Event t unit :=
  modify (fun v => v <| m_resettingProposals := m_resettingProposals v ∖ {[ _hash ]} |>).

Definition insertResettingProposal (_hash : HashType) : Eff Event t bool :=
  v ← get;
  if bool_decide (_hash ∈ m_resettingProposals v) then mret false
  else
    modify (fun v => v <| m_resettingProposals := {[ _hash ]} ∪ m_resettingProposals v |>) ;;
    mret true.

(** [asyncResetTxsFlag(_data, _flag)]: the marking is a task of the worker pool.  The block
    factory throws on data that it cannot decode. *)
Definition asyncResetTxsFlag (_data : bytes) (_flag : bool) : Eff Event t unit :=
  match createBlock _data with
  | None => throw DecodeException
  | Some block =>
      if _flag then
        inserted ← insertResettingProposal (Block.hash block);
        if inserted : bool then emit (EnqueueResetTxs block _flag) else mret tt
      else emit (EnqueueResetTxs block _flag)
  end.

(** The overload that calls [asyncMarkTxs]. *)
Definition markTxs (_block : Block.t) (_txsHashList : list HashType) (_flag : bool)
    (_retryTime : Z) : Eff Event t unit :=
  emit (MarkTxs _txsHashList _block _flag _retryTime).

(** The task of the worker pool, lines 40-69. *)
Definition resetTxsTask (block : Block.t) (_flag : bool) : Eff Event t unit :=
  let txsHash := Block.txsHash block in
  if bool_decide (txsHash = []) then mret tt else markTxs block txsHash _flag 0.

(** The callback of [asyncMarkTxs], lines 77-103. *)
Definition onMarkTxs (_error : bool) (_block : Block.t) (_txsHashList : list HashType)
    (_flag : bool) (_retryTime : Z) : Eff Event t unit :=
  when _flag (eraseResettingProposal (Block.hash _block)) ;;
  if negb _error then mret tt
  else if 3 <=? _retryTime then mret tt
  else
    (if _flag then _ ← insertResettingProposal (Block.hash _block); mret tt else mret tt) ;;
    markTxs _block _txsHashList _flag (_retryTime + 1).

(** [verifyProposal]. *)
Definition verifyProposal (_fromNode : option NodeID) (_proposal : PBFTProposal.t)
    (k : VerifyCallback) : Eff Event t unit :=
  emit (VerifyProposal _fromNode _proposal k).

Definition generateEmptyProposal (_index : BlockNumber) (_sealerId : Z) : PBFTProposal.t :=
  let '(h, encodedData) := emptyBlock _index _sealerId in
  PBFTProposal.create
    <| PBFTProposal.index := _index |>
    <| PBFTProposal.hash := h |>
    <| PBFTProposal.data := encodedData |>.

Definition asyncResetTxPool : Eff Event t unit := emit ResetTxPool.
Definition init : Eff Event t unit := asyncResetTxPool.

(** [notifyTransactionsResult]: the block's hash with each transaction's; of the header its
    number and hash are read. *)
Definition notifyTransactionsResult (_block : Block.t) (number : BlockNumber) (hash : HashType)
    : Eff Event t unit :=
  emit (NotifyBlockResult number ((fun txHash => (hash, txHash)) <$> Block.txsHash _block)).

Definition updateValidatorConfig (_consensusNodeList _observerNodeList : list ConsensusNode.t)
    : Eff Event t unit :=
  emit (UpdateValidatorConfig _consensusNodeList _observerNodeList).

(** ** The life of a reset request

    A configuration is the validator with the tasks of its worker pool and the
    [asyncMarkTxs] calls of the transaction pool that have not returned yet. *)
Record conf : Type := Conf {
  validator : t;
  tasks : list (Block.t * bool);
  marks : list (list HashType * Block.t * bool * Z)
}.

(** The events of the validator's operations become pending work. *)
Definition absorb (es : list Event) (c : conf) : conf :=
  fold_left (fun c e =>
    match e with
    | EnqueueResetTxs b f => Conf (validator c) ((b, f) :: tasks c) (marks c)
    | MarkTxs txs b f r => Conf (validator c) (tasks c) ((txs, b, f, r) :: marks c)
    | _ => c
    end) es c.

Definition continue (o : outcome Event t unit) (c : conf) : conf :=
  match o with
  | Done _ v es | Threw _ v es => absorb es (Conf v (tasks c) (marks c))
  | Crashed _ => c
  end.

(** [step ok]: one request, one worker task or one callback; [ok] restricts the
    payloads that are requested. *)
Inductive step (ok : bytes -> Prop) : conf -> conf -> Prop :=
  | step_request c data flag :
      ok data -> step ok c (continue (asyncResetTxsFlag data flag (validator c)) c)
  | step_task v b f ts1 ts2 ms :
      step ok (Conf v (ts1 ++ (b, f) :: ts2) ms)
              (continue (resetTxsTask b f v) (Conf v (ts1 ++ ts2) ms))
  | step_callback v ts txs b f r ms1 ms2 err :
      step ok (Conf v ts (ms1 ++ (txs, b, f, r) :: ms2))
              (continue (onMarkTxs err b txs f r v) (Conf v ts (ms1 ++ ms2))).

Definition idle : conf := Conf create [] [].

(** A request to seal the transactions of the block with hash [h] is on its way. *)
Definition pending (h : HashType) (c : conf) : Prop :=
  (exists b, (b, true) ∈ tasks c /\ Block.hash b = h) \/
  (exists txs b r, (txs, b, true, r) ∈ marks c /\ Block.hash b = h).

(** A block with transactions, if it is one. *)
Definition nonempty_block (data : bytes) : Prop :=
  forall b, createBlock data = Some b -> Block.txsHash b <> [].

(** Every recorded proposal has a request on its way, for a block with
    transactions. *)
Definition tracked (c : conf) : Prop :=
  (forall h, h ∈ m_resettingProposals (validator c) -> pending h c) /\
  (forall b f, (b, f) ∈ tasks c -> Block.txsHash b <> []).

Lemma request_tracked c data flag :
  nonempty_block data -> tracked c ->
  tracked (continue (asyncResetTxsFlag data flag (validator c)) c).
Proof.
  destruct c as [[rs] ts ms]. unfold asyncResetTxsFlag, nonempty_block.
  destruct (createBlock data) as [b|]; [intros Hb%(fun H => H b eq_refl)|intros _];
    intros [Hp Hn]; [simpl in *|by split].
  destruct flag; simpl.
  - unfold insertResettingProposal, mbind, eff_bind. simpl.
    case_bool_decide as Hin; simpl; [by split|].
    split; simpl.
    + intros h [->%elem_of_singleton|Hh]%elem_of_union.
      * left. exists b. split; [constructor|done].
      * destruct (Hp h Hh) as [(b' & Hb' & <-)|Hm]; [left|by right].
        exists b'. split; [by constructor|done].
    + intros b' f [[= -> ->]|Hin']%elem_of_cons; [done|by eapply Hn].
  - split; simpl.
    + intros h Hh. destruct (Hp h Hh) as [(b' & Hb' & <-)|Hm]; [left|by right].
      exists b'. split; [by constructor|done].
    + intros b' f [[= -> ->]|Hin']%elem_of_cons; [done|by eapply Hn].
Qed.

Lemma task_tracked v b f ts1 ts2 ms :
  tracked (Conf v (ts1 ++ (b, f) :: ts2) ms) ->
  tracked (continue (resetTxsTask b f v) (Conf v (ts1 ++ ts2) ms)).
Proof.
  intros [Hp Hn]. simpl in *. unfold resetTxsTask.
  assert (Hb : Block.txsHash b <> []) by (apply (Hn b f); set_solver).
  rewrite bool_decide_false by done. simpl. split; simpl.
  - intros h Hh. destruct (Hp h Hh) as [(b' & Hb' & <-)|(txs & b' & r & Hb' & <-)].
    + apply elem_of_app in Hb' as [Hb'|[[= -> <-]|Hb']%elem_of_cons].
      * left. exists b'. set_solver.
      * right. exists (Block.txsHash b), b, 0. split; [constructor|done].
      * left. exists b'. set_solver.
    + right. exists txs, b', r. split; [by constructor|done].
  - intros b' f' Hin. apply (Hn b' f'). revert Hin. rewrite !elem_of_app, elem_of_cons. tauto.
Qed.

Lemma callback_tracked err v ts txs b f r ms1 ms2 :
  tracked (Conf v ts (ms1 ++ (txs, b, f, r) :: ms2)) ->
  tracked (continue (onMarkTxs err b txs f r v) (Conf v ts (ms1 ++ ms2))).
Proof.
  destruct v as [rs]. intros [Hp Hn]. simpl in *.
  assert (Hrest : forall h, h ∈ rs -> (f = true -> h <> Block.hash b) ->
    pending h (Conf (mk rs) ts (ms1 ++ ms2))).
  { intros h Hh Hne. destruct (Hp h Hh) as [?|(txs' & b' & r' & Hb' & <-)]; [by left|].
    right. exists txs', b', r'. split; [|done].
    apply elem_of_app in Hb' as [?|[[= -> -> <- ->]|?]%elem_of_cons]; [set_solver| |set_solver].
    by destruct (Hne eq_refl). }
  assert (Hmono : forall h m, pending h (Conf (mk rs) ts (ms1 ++ ms2)) ->
    pending h (Conf (mk rs) ts (m :: ms1 ++ ms2))).
  { intros h m [?|(txs' & b' & r' & Hb' & <-)]; [by left|right].
    exists txs', b', r'. split; [by constructor|done]. }
  unfold onMarkTxs, eraseResettingProposal, insertResettingProposal, when, mbind, eff_bind.
  destruct f, err; simpl; try (destruct (3 <=? r)); simpl;
    try (case_bool_decide; simpl); split; simpl; try exact Hn; intros h Hh.
  all: try (apply elem_of_union in Hh as [->%elem_of_singleton|Hh];
    [right; exists txs, b, (r + 1); split; [constructor|done]|]).
  all: try (apply elem_of_difference in Hh as [Hh Hne%not_elem_of_singleton]).
  all: first [ apply Hrest; [done|done] | apply Hmono, Hrest; [done|done] ].
Qed.

Lemma steps_tracked c : rtc (step nonempty_block) idle c -> tracked c.
Proof.
  intros H.
  assert (tracked idle) as H0 by (split; set_solver). revert H0.
  induction H as [|c1 c2 c3 Hstep _ IH]; [done|]. intros Ht. apply IH. destruct Hstep.
  - by apply request_tracked.
  - by apply task_tracked.
  - by apply callback_tracked.
Qed.
End WithExternals.
End TxsValidator.

(** C22: when every submitted proposal has transactions, a proposal is recorded as
    resetting only while a request to seal its transactions is on its way: once
    the worker pool and the transaction pool are idle the record is empty, so it
    no longer holds back the sealing of later blocks. *)
Theorem resetting_proposals_drain `{Ext : Externals} c :
  rtc (TxsValidator.step TxsValidator.nonempty_block) TxsValidator.idle c ->
  TxsValidator.tasks c = [] -> TxsValidator.marks c = [] ->
  TxsValidator.resettingProposalSize (TxsValidator.validator c) = 0.
Proof.
  intros [Hp _]%TxsValidator.steps_tracked Ht Hm.
  unfold TxsValidator.resettingProposalSize.
  rewrite (proj2 (size_empty_iff (TxsValidator.m_resettingProposals _))); [done|].
  intros h. split; [|set_solver].
  intros Hh. destruct (Hp h Hh) as [(b & Hb & _)|(txs & b & r & Hb & _)];
    rewrite ?Ht, ?Hm in Hb; by apply elem_of_nil in Hb.
Qed.

(** A request whose worker task finds that it must ask the pool, and the answer. *)
Example resetting_proposals_drain_witness :
  let _ := Demo.externals in
  let data := [Demo.byte_of 1; Demo.byte_of 9; Demo.byte_of 5] in
  let b := Demo.decode data in
  let v := TxsValidator.mk ({[ 9 ]} ∪ ∅) in
  TxsValidator.resettingProposalSize (TxsValidator.validator
    (TxsValidator.continue (TxsValidator.onMarkTxs false b [5] true 0
      v) (TxsValidator.Conf v [] []))) = 0.
Proof.
  intros Ext data b v. apply (resetting_proposals_drain (Ext := Ext)); [|reflexivity..].
  eapply rtc_l.
  { apply (TxsValidator.step_request _ _ data true). by intros b' [= <-]. }
  eapply rtc_l.
  { apply (TxsValidator.step_task _ v b true [] [] []). }
  eapply rtc_l.
  { apply (TxsValidator.step_callback _ v [] [5] b
      true 0 [] [] false). }
  apply rtc_refl.
Defined.

(** A proposal without transactions that is reset to "sealed" stays recorded
    for ever: its worker task returns before asking the transaction pool, and
    only the pool's callback erases the record. *)
Theorem empty_block_leaks `{Ext : Externals} data b :
  createBlock data = Some b -> Block.txsHash b = [] ->
  exists c, rtc (TxsValidator.step (fun d => d = data)) TxsValidator.idle c /\
    TxsValidator.tasks c = [] /\ TxsValidator.marks c = [] /\
    TxsValidator.resettingProposalSize (TxsValidator.validator c) = 1.
Proof.
  intros Ed Hb. eexists. split.
  { eapply rtc_l; [by apply (TxsValidator.step_request _ _ data true)|].
    unfold TxsValidator.asyncResetTxsFlag, TxsValidator.insertResettingProposal, mbind, eff_bind.
    rewrite Ed. simpl. eapply rtc_l; [apply (TxsValidator.step_task _ _ _ _ [] [])|].
    unfold TxsValidator.resetTxsTask. rewrite Hb. simpl. apply rtc_refl. }
  repeat split. simpl. set (v := TxsValidator.create <| _ := _ |>).
  assert (Hv : TxsValidator.m_resettingProposals v ≡ {[ Block.hash b ]})
    by apply (right_id ∅ (∪)).
  unfold TxsValidator.resettingProposalSize. by rewrite Hv, size_singleton.
Qed.

Example empty_block_leaks_witness :
  let _ := Demo.externals in
  exists c, rtc (TxsValidator.step (fun d => d = [Demo.byte_of 1; Demo.byte_of 9]))
      TxsValidator.idle c /\
    TxsValidator.tasks c = [] /\ TxsValidator.marks c = [] /\
    TxsValidator.resettingProposalSize (TxsValidator.validator c) = 1.
Proof. intros Ext. by eapply (empty_block_leaks (Ext := Ext)). Defined.
