(* ===== verification/Config.v ===== *)
(** Config: [core/ConsensusConfig.h/.cpp] and [pbft/config/PBFTConfig.h/.cpp].
    The consensus node list, the quorum weights, the view, the committed and
    progressed indices, the water marks, and the notifications of the sealer. *)
From S2P Require Import Prelude Types Timer Validator.

(** * ConsensusConfig *)
Module ConsensusConfig.
Record t : Type := mk {
  m_keyPair : NodeID;
  m_nodeIndex : IndexType;
  m_consensusNodeNum : Z;
  m_consensusNodeList : list ConsensusNode.t;
  m_consensusTimeout : Z;
  m_blockTxCountLimit : Z;
  m_committedProposal : option PBFTProposal.t;
  m_progressedIndex : BlockNumber;
  m_syncingState : bool;
  m_syncingHighestNumber : BlockNumber;
  m_nodeUpdated : bool
}.
#[global] Instance eta_t : Eta t := fun r =>
  mk (m_keyPair r) (m_nodeIndex r) (m_consensusNodeNum r) (m_consensusNodeList r)
     (m_consensusTimeout r) (m_blockTxCountLimit r) (m_committedProposal r)
     (m_progressedIndex r) (m_syncingState r) (m_syncingHighestNumber r) (m_nodeUpdated r).

(** The constructor and the member initialisers. *)
Definition create (_keyPair : NodeID) : t :=
  mk _keyPair 0 0 [] 3000 1000 None 0 false 0 false.

Definition isConsensusNode (c : t) : bool := negb (m_nodeIndex c =? NON_CONSENSUS_NODE).

Definition consensusNodeIDList (c : t) (_excludeSelf : bool) : list NodeID :=
  omap (fun node =>
    if _excludeSelf && (ConsensusNode.nodeID node =? m_keyPair c) then None
    else Some (ConsensusNode.nodeID node)) (m_consensusNodeList c).

Definition compareConsensusNode (_left _right : list ConsensusNode.t) : bool :=
  if negb (Nat.eqb (length _left) (length _right)) then false
  else
    forallb (fun p =>
      negb (negb (ConsensusNode.nodeID p.1 =? ConsensusNode.nodeID p.2) ||
            negb (ConsensusNode.weight p.1 =? ConsensusNode.weight p.2)))
      (combine _left _right).

(** [getNodeIndexByNodeID]: the position of the first node with that id. *)
Fixpoint index_from (i : IndexType) (_nodeID : NodeID) (l : list ConsensusNode.t) : IndexType :=
  match l with
  | [] => NON_CONSENSUS_NODE
  | node :: l =>
      if ConsensusNode.nodeID node =? _nodeID then i else index_from (u64 (i + 1)) _nodeID l
  end.
Definition getNodeIndexByNodeID (c : t) (_nodeID : NodeID) : IndexType :=
  index_from 0 _nodeID (m_consensusNodeList c).

Definition getConsensusNodeByIndex (c : t) (_nodeIndex : IndexType) : option ConsensusNode.t :=
  if _nodeIndex <? Z.of_nat (length (m_consensusNodeList c))
  then m_consensusNodeList c !! Z.to_nat _nodeIndex else None.

Definition setCommittedProposal (_committedProposal : PBFTProposal.t) (c : t) : t :=
  let c := c <| m_committedProposal := Some _committedProposal |> in
  let index := PBFTProposal.index _committedProposal + 1 in
  if m_progressedIndex c <? index then c <| m_progressedIndex := index |> else c.

Section SetConsensusNodeList.
Context `{Ext : Externals}.

(** The order [std::sort] establishes with [ConsensusNodeComparator]. *)
Definition node_le (a b : ConsensusNode.t) : Prop := nodeLess b a = false.
#[global] Instance node_le_dec : RelDecision node_le.
Proof. intros a b. unfold node_le. apply _. Defined.

(** [setConsensusNodeList] sorts its argument in place (the sorted list is the
    result) and calls the virtual [updateQuorum] of the derived class [D]. *)
Context {D : Type} (base : D -> t) `{!Settable base} (updateQuorum : D -> D).
Definition setConsensusNodeList (_consensusNodeList : list ConsensusNode.t)
    : Eff Event D (list ConsensusNode.t) :=
  if bool_decide (_consensusNodeList = []) then throw InitConsensusException
  else
    let sorted := merge_sort node_le _consensusNodeList in
    d ← get;
    if compareConsensusNode sorted (m_consensusNodeList (base d)) then
      modify (fun d => d <| base := (base d) <| m_nodeUpdated := false |> |>) ;;
      mret sorted
    else
      modify (fun d => d <| base := (base d)
        <| m_consensusNodeList := sorted |>
        <| m_nodeUpdated := true |>
        <| m_consensusNodeNum := Z.of_nat (length sorted) |> |>) ;;
      modify (fun d =>
        let nodeIndex := getNodeIndexByNodeID (base d) (m_keyPair (base d)) in
        d <| base := (base d) <| m_nodeIndex := nodeIndex |> |>) ;;
      modify updateQuorum ;;
      mret sorted.
End SetConsensusNodeList.
End ConsensusConfig.
#[global] Instance ConsensusNode_eq_dec : EqDecision ConsensusNode.t.
Proof. solve_decision. Defined.

(** * PBFTConfig *)
Module PBFTConfig.
Record t : Type := mk {
  base : ConsensusConfig.t;
  m_validator : TxsValidator.t;
  m_timer : PBFTTimer.t;
  m_sealProposalNotifier : bool;
  m_sealerResetNotifier : bool;
  m_stateNotifier : bool;
  m_newBlockNotifier : bool;
  m_fastViewChangeHandler : bool;
  m_maxFaultyQuorum : Z;
  m_totalQuorum : Z;
  m_minRequiredQuorum : Z;
  m_view : ViewType;
  m_toView : ViewType;
  m_expectedCheckPoint : BlockNumber;
  m_lowWaterMark : BlockNumber;
  m_sealStartIndex : BlockNumber;
  m_sealEndIndex : BlockNumber;
  m_warterMarkLimit : Z;
  m_checkPointTimeoutInterval : Z;
  m_leaderSwitchPeriod : Z;
  m_timeoutState : bool;
  m_unsealedTxsSize : Z;
  m_waitResealUntil : BlockNumber;
  m_waitSealUntil : BlockNumber;
  m_connectedNodeList : gset NodeID;
  m_startRecovered : bool;
  utcTime : Z
}.
#[global] Instance eta_t : Eta t := fun r =>
  mk (base r) (m_validator r) (m_timer r) (m_sealProposalNotifier r)
     (m_sealerResetNotifier r) (m_stateNotifier r) (m_newBlockNotifier r)
     (m_fastViewChangeHandler r) (m_maxFaultyQuorum r) (m_totalQuorum r)
     (m_minRequiredQuorum r) (m_view r) (m_toView r) (m_expectedCheckPoint r)
     (m_lowWaterMark r) (m_sealStartIndex r) (m_sealEndIndex r) (m_warterMarkLimit r)
     (m_checkPointTimeoutInterval r) (m_leaderSwitchPeriod r) (m_timeoutState r)
     (m_unsealedTxsSize r) (m_waitResealUntil r) (m_waitSealUntil r)
     (m_connectedNodeList r) (m_startRecovered r) (utcTime r).

Definition c_pbftMsgDefaultVersion : Z := 0.

(** ** Observers *)
Definition nodeID (c : t) : NodeID := ConsensusConfig.m_keyPair (base c).
Definition nodeIndex (c : t) : IndexType := ConsensusConfig.m_nodeIndex (base c).
Definition isConsensusNode (c : t) : bool := ConsensusConfig.isConsensusNode (base c).
Definition consensusNodeList (c : t) : list ConsensusNode.t :=
  ConsensusConfig.m_consensusNodeList (base c).
Definition consensusNodeIDList (c : t) : list NodeID :=
  ConsensusConfig.consensusNodeIDList (base c) true.
Definition consensusNodesNum (c : t) : Z := ConsensusConfig.m_consensusNodeNum (base c).
Definition getConsensusNodeByIndex (c : t) (i : IndexType) : option ConsensusNode.t :=
  ConsensusConfig.getConsensusNodeByIndex (base c) i.
Definition committedProposal (c : t) : option PBFTProposal.t :=
  ConsensusConfig.m_committedProposal (base c).
Definition progressedIndex (c : t) : BlockNumber := ConsensusConfig.m_progressedIndex (base c).
Definition syncingHighestNumber (c : t) : BlockNumber :=
  ConsensusConfig.m_syncingHighestNumber (base c).
Definition blockTxCountLimit (c : t) : Z := ConsensusConfig.m_blockTxCountLimit (base c).
Definition highWaterMark (c : t) : Z := progressedIndex c + m_warterMarkLimit c.

(** [committedProposal()->index()]. *)
Definition committedIndex : Eff Event t BlockNumber :=
  p ← asks committedProposal; p ← deref p; mret (PBFTProposal.index p).

Definition sealStartIndex (c : t) : BlockNumber :=
  match committedProposal c with
  | Some p => Z.max (m_expectedCheckPoint c) (PBFTProposal.index p + 1)
  | None => m_expectedCheckPoint c
  end.

Definition shouldResetConfig (c : t) (_index : BlockNumber) : bool :=
  match committedProposal c with
  | Some p => PBFTProposal.index p <? _index
  | None => false
  end.

(** [(_proposalIndex / m_leaderSwitchPeriod + _view) % m_consensusNodeNum] in
    [uint64_t]; division by zero is a fault. *)
Definition leader_of (c : t) (_proposalIndex : BlockNumber) (_view : ViewType)
    : Eff Event t IndexType :=
  if (m_leaderSwitchPeriod c =? 0) || (consensusNodesNum c =? 0) then crash DivByZero
  else
    mret (u64 (u64 _proposalIndex / m_leaderSwitchPeriod c + _view) mod consensusNodesNum c).

Definition leaderIndex (_proposalIndex : BlockNumber) : Eff Event t IndexType :=
  c ← get; leader_of c _proposalIndex (m_view c).

Definition leaderIndexInNewViewPeriod_at (_proposalIndex : BlockNumber) (_view : ViewType)
    : Eff Event t IndexType :=
  c ← get; leader_of c _proposalIndex _view.

Definition leaderIndexInNewViewPeriod (_view : ViewType) : Eff Event t IndexType :=
  c ← get; leaderIndexInNewViewPeriod_at (progressedIndex c) _view.

Definition leaderAfterViewChange : Eff Event t bool :=
  c ← get;
  expectedLeader ← leaderIndexInNewViewPeriod (m_toView c);
  mret (nodeIndex c =? expectedLeader).

Definition getLeader : Eff Event t IndexType := c ← get; leaderIndex (sealStartIndex c).

(** ** Quorum *)
Definition updateQuorum (c : t) : t :=
  let total :=
    fold_left (fun acc node => u64 (acc + ConsensusNode.weight node)) (consensusNodeList c) 0 in
  let faulty := u64 (total - 1) / 3 in
  c <| m_totalQuorum := total |>
    <| m_maxFaultyQuorum := faulty |>
    <| m_minRequiredQuorum := u64 (total - faulty) |>.

(** ** Views *)
Definition incToView (_increasedValue : ViewType) (c : t) : t :=
  c <| m_toView := u64 (m_toView c + _increasedValue) |>.

Section Methods.
Context `{Ext : Externals}.

Definition on_timer (f : PBFTTimer.t -> PBFTTimer.t) (c : t) : t :=
  c <| m_timer := f (m_timer c) |>.

Definition resetToView (c : t) : t :=
  on_timer PBFTTimer.resetChangeCycle (c <| m_toView := m_view c |>).

Definition resetTimeoutState (_incTimeout : bool) (c : t) : t :=
  let c := c <| m_timeoutState := true |> in
  let c := incToView 1 c in
  let c := if _incTimeout then on_timer (PBFTTimer.incChangeCycle 1) c else c in
  on_timer PBFTTimer.restart c.

Definition freshTimer (c : t) : t :=
  if 0 <? m_unsealedTxsSize c then on_timer PBFTTimer.restart c
  else on_timer PBFTTimer.stop c.

Definition resetTimer (c : t) : t := freshTimer (c <| m_timeoutState := false |>).

Definition resetNewViewState (_view : ViewType) (c : t) : t :=
  if _view <? m_view c then c
  else
    let c := if negb (m_startRecovered c) then c <| m_startRecovered := true |> else c in
    let c := resetTimer c in
    let c := on_timer PBFTTimer.resetChangeCycle c in
    c <| m_view := _view |> <| m_toView := _view |> <| m_timeoutState := false |>.

Definition setUnSealedTxsSize (_unsealedTxsSize : Z) (c : t) : t :=
  let c := c <| m_unsealedTxsSize := _unsealedTxsSize |> in
  if (0 <? _unsealedTxsSize) && negb (PBFTTimer.running (m_timer c))
  then on_timer PBFTTimer.start c else c.

Definition setConsensusTimeout (_consensusTimeout : Z) (c : t) : t :=
  on_timer (PBFTTimer.reset _consensusTimeout)
    (c <| base := (base c) <| ConsensusConfig.m_consensusTimeout := _consensusTimeout |> |>).

(** ** Committed index and water marks *)
Definition setCommittedProposal (_committedProposal : PBFTProposal.t) (c : t) : t :=
  let c := c <| base := ConsensusConfig.setCommittedProposal _committedProposal (base c) |> in
  let progressedIndex := PBFTProposal.index _committedProposal + 1 in
  let c :=
    if m_expectedCheckPoint c <? progressedIndex
    then c <| m_expectedCheckPoint := PBFTProposal.index _committedProposal + 1 |> else c in
  if m_lowWaterMark c <? progressedIndex then c <| m_lowWaterMark := progressedIndex |> else c.

Definition setExpectedCheckPoint (_expectedCheckPoint : BlockNumber) : Eff Event t unit :=
  committed ← committedIndex;
  modify (fun c => c <| m_expectedCheckPoint := Z.max (committed + 1) _expectedCheckPoint |>).

Definition setWaitSealUntil (_waitSealUntil : BlockNumber) (c : t) : t :=
  c <| m_waitSealUntil := Z.max (m_waitSealUntil c) _waitSealUntil |>.

Definition populateCommittedProposal (c : t) : option PBFTProposal.t :=
  match committedProposal c with
  | None => None
  | Some p => populateProposal p true true
  end.

(** ** Proposals that may be handled *)
Definition canHandleNewProposal (c : t) : bool :=
  let committedIndex :=
    match committedProposal c with Some p => PBFTProposal.index p | None => 0 end in
  if committedIndex <? m_waitSealUntil c then false
  else if committedIndex <? m_waitResealUntil c then false
  else true.

Definition canHandleNewProposalMsg (_index : BlockNumber) : Eff Event t bool :=
  c ← get;
  if canHandleNewProposal c then mret true
  else
    committed ← committedIndex;
    mret ((_index <=? committed) || (_index <=? m_waitSealUntil c)
          || (_index <=? m_waitResealUntil c)).

(** ** Sealing *)
Definition asyncNotifySealProposal (_proposalIndex _proposalEndIndex _maxTxsToSeal _retryTime : Z)
    : Eff Event t unit :=
  c ← get;
  if negb (m_sealProposalNotifier c) then mret tt
  else if 3 <? _retryTime then mret tt
  else emit (NotifySealProposal _proposalIndex _proposalEndIndex _maxTxsToSeal _retryTime).

(** The notifier's callback, lines 321-348. *)
Definition onSealProposalNotified (_error : bool)
    (_proposalIndex _proposalEndIndex _maxTxsToSeal _retryTime : Z) : Eff Event t unit :=
  if negb _error then mret tt
  else asyncNotifySealProposal _proposalIndex _proposalEndIndex _maxTxsToSeal (u64 (_retryTime + 1)).

(** The last index of the leader's current period, as [int64_t]. *)
Definition periodEnd (c : t) (_progressedIndex : BlockNumber) : BlockNumber :=
  i64 (u64 ((u64 _progressedIndex / m_leaderSwitchPeriod c + 1) * m_leaderSwitchPeriod c - 1)).

Definition notifySealer (_progressedIndex : BlockNumber) (_enforce : bool) : Eff Event t unit :=
  c ← get;
  currentLeader ← leaderIndex _progressedIndex;
  if negb (currentLeader =? nodeIndex c) then mret tt
  else if negb (canHandleNewProposal c) then mret tt
  else if _enforce then
    asyncNotifySealProposal (u64 _progressedIndex) (u64 _progressedIndex) (blockTxCountLimit c) 0 ;;
    modify (fun c => c
      <| m_sealEndIndex := Z.max _progressedIndex (m_sealEndIndex c) |>
      <| m_sealStartIndex := Z.min _progressedIndex (m_sealStartIndex c) |>)
  else
    let endProposalIndex := Z.min (periodEnd c _progressedIndex) (highWaterMark c - 1) in
    if endProposalIndex <=? m_sealEndIndex c then mret tt
    else
      let startSealIndex := Z.max (m_sealEndIndex c + 1) _progressedIndex in
      if endProposalIndex <? startSealIndex then mret tt
      else
        committed ← committedIndex;
        if (0 <? TxsValidator.resettingProposalSize (m_validator c)) &&
           (committed + 1 <? startSealIndex) then mret tt
        else
          asyncNotifySealProposal (u64 startSealIndex) (u64 endProposalIndex)
            (blockTxCountLimit c) 0 ;;
          modify (fun c => c
            <| m_sealStartIndex := startSealIndex |>
            <| m_sealEndIndex := endProposalIndex |>).

Definition reNotifySealer (_index : BlockNumber) : Eff Event t unit :=
  c ← get;
  if highWaterMark c <=? _index then mret tt
  else
    committed ← committedIndex;
    if _index <? committed then mret tt
    else
      modify (fun c => c <| m_sealStartIndex := _index - 1 |> <| m_sealEndIndex := _index - 1 |>) ;;
      notifySealer _index false.

(** [notifyResetSealing(callback)]: the callback, when there is one, re-notifies
    the sealer from the given index. *)
Definition notifyResetSealing (_consIndex : option BlockNumber) : Eff Event t unit :=
  c ← get;
  if negb (m_sealerResetNotifier c) then mret tt
  else
    committed ← committedIndex;
    emit (ResetSealer _consIndex committed) ;;
    modify (fun c => c <| m_sealEndIndex := sealStartIndex c - 1 |>) ;;
    modify (fun c => c <| m_sealStartIndex := sealStartIndex c - 1 |>).

(** The reset notifier's callback, lines 131-144. *)
Definition onSealerReset (_error : bool) (_consIndex : option BlockNumber)
    (committedIndex : BlockNumber) : Eff Event t unit :=
  if _error then mret tt
  else
    c ← get;
    match _consIndex with
    | Some i => if m_waitResealUntil c <=? committedIndex then reNotifySealer i else mret tt
    | None => mret tt
    end.

Definition setLeaderSwitchPeriod (_leaderSwitchPeriod : Z) : Eff Event t unit :=
  c ← get;
  if _leaderSwitchPeriod =? m_leaderSwitchPeriod c then mret tt
  else
    modify (fun c => c <| m_leaderSwitchPeriod := _leaderSwitchPeriod |>) ;;
    c ← get;
    notifyResetSealing (Some (sealStartIndex c)).

(** ** The consensus node list *)
Definition setConsensusNodeList (_consensusNodeList : list ConsensusNode.t)
    : Eff Event t (list ConsensusNode.t) :=
  sorted ← ConsensusConfig.setConsensusNodeList base updateQuorum _consensusNodeList;
  c ← get;
  if negb (ConsensusConfig.m_nodeUpdated (base c)) then mret sorted
  else
    (match committedProposal c with
     | Some _ => notifyResetSealing (Some (sealStartIndex c))
     | None => mret tt
     end) ;;
    mret sorted.

(** ** Reset after a block is committed, lines 28-120.  [setConsensusNodeList] sorts the list
    of the ledger configuration in place: those who are notified get it sorted. *)
Definition resetConfig (_ledgerConfig : LedgerConfig.t) (_syncedBlock : bool) : Eff Event t unit :=
  c ← get;
  let committedIndex :=
    match committedProposal c with Some p => PBFTProposal.index p | None => 0 end in
  let blockNumber := LedgerConfig.blockNumber _ledgerConfig in
  if (blockNumber <=? committedIndex) && (0 <? committedIndex) then mret tt
  else
    let committedProposal :=
      PBFTProposal.create
        <| PBFTProposal.index := blockNumber |>
        <| PBFTProposal.hash := LedgerConfig.hash _ledgerConfig |> in
    modify (setCommittedProposal committedProposal) ;;
    modify (fun c => c <| base := (base c)
      <| ConsensusConfig.m_blockTxCountLimit := LedgerConfig.blockTxCountLimit _ledgerConfig |> |>) ;;
    consensusList ← setConsensusNodeList (LedgerConfig.consensusNodeList _ledgerConfig);
    setLeaderSwitchPeriod (LedgerConfig.leaderSwitchPeriod _ledgerConfig) ;;
    modify resetTimer ;;
    zoom m_validator (TxsValidator.updateValidatorConfig consensusList
      (LedgerConfig.observerNodeList _ledgerConfig)) ;;
    c ← get;
    when (m_stateNotifier c) (emit (NotifyState blockNumber)) ;;
    when (m_newBlockNotifier c && negb _syncedBlock) (emit (NotifyNewBlock
      (_ledgerConfig <| LedgerConfig.consensusNodeList := consensusList |>))) ;;
    if blockNumber <? syncingHighestNumber c then
      modify (fun c => c <| m_timeoutState := true |>
        <| base := (base c) <| ConsensusConfig.m_syncingState := true |> |>) ;;
      notifyResetSealing None
    else
      when (ConsensusConfig.m_syncingState (base c))
        (modify (fun c => on_timer PBFTTimer.start
          (c <| base := (base c) <| ConsensusConfig.m_syncingState := false |> |>))) ;;
      c ← get;
      when (negb (m_timeoutState c))
        (when (m_waitResealUntil c =? blockNumber)
           (reNotifySealer (Z.max (sealStartIndex c) (m_waitResealUntil c + 1))) ;;
         c ← get;
         notifySealer (sealStartIndex c) false).

(** [stop]: the worker pool of the validator is outside the state. *)
Definition stop (c : t) : t := on_timer PBFTTimer.destroy c.

(** ** Fast view change, lines 200-238

    The handler is the callback that the engine registers; it runs on the whole
    node [N], of which [config] is the configuration.  The recursion is bounded
    by fuel (see [fastViewChangeFuel] in [Processor]). *)
Section FastViewChange.
Context {N : Type} (config : N -> t) `{!Settable config} (fastViewChangeHandler : Eff Event N unit).

Fixpoint tryTriggerFastViewChange (fuel : nat) (_leaderIndex : IndexType) : Eff Event N bool :=
  match fuel with
  | O => crash OutOfFuel
  | S fuel =>
      c ← asks config;
      if negb (m_fastViewChangeHandler c) then mret false
      else if bool_decide (m_connectedNodeList c = ∅) then mret false
      else if negb (isConsensusNode c) then mret false
      else if _leaderIndex =? nodeIndex c then mret false
      else
        match getConsensusNodeByIndex c _leaderIndex with
        | None => mret false
        | Some leaderNodeInfo =>
            if bool_decide (ConsensusNode.nodeID leaderNodeInfo ∈ m_connectedNodeList c)
            then mret false
            else
              fastViewChangeHandler ;;
              c ← asks config;
              newLeader ← zoom config (leaderIndexInNewViewPeriod (m_toView c));
              tryTriggerFastViewChange fuel newLeader
        end
  end.
End FastViewChange.
End Methods.

(** The constructor, with the registrations made by [PBFTImpl::init]. *)
Definition create `{Ext : Externals} (_keyPair : NodeID) : t :=
  mk (ConsensusConfig.create _keyPair) TxsValidator.create (PBFTTimer.create 3000)
     false false false false false 0 0 0 0 0 0 0 0 0 10 3000 1 false 0 0 0 ∅ false 0.
End PBFTConfig.
