(* ===== verification/Cache.v ===== *)
(** Cache: [pbft/cache/PBFTCache.h/.cpp] and [PBFTCacheFactory.h].  The consensus
    state of one proposal index: the collected prepare, commit and checkpoint
    messages with their weights, the pre-prepare, the precommit and the
    checkpoint proposal. *)
From S2P Require Import Prelude Types Timer Validator Config.

Module PBFTCache.
(** [std::map<HashType, std::map<IndexType, PBFTMessageInterface::Ptr>>]. *)
Notation CollectionCacheType := (gmap Z (gmap Z PBFTMessage.t)) (only parsing).
(** [std::map<HashType, uint64_t>]. *)
Notation QuorumRecoderType := (gmap Z Z) (only parsing).

Record t : Type := mk {
  m_submitted : bool;
  m_stableCommitted : bool;
  m_precommitted : bool;
  m_index : BlockNumber;
  m_prepareCacheList : CollectionCacheType;
  m_prepareReqWeight : QuorumRecoderType;
  m_commitCacheList : CollectionCacheType;
  m_commitReqWeight : QuorumRecoderType;
  m_prePrepare : option PBFTMessage.t;
  m_precommit : option PBFTMessage.t;
  m_precommitWithoutData : option PBFTMessage.t;
  m_checkpointProposal : option PBFTProposal.t;
  m_checkpointCacheList : CollectionCacheType;
  m_checkpointCacheWeight : QuorumRecoderType;
  m_timer : PBFTTimer.t;
  m_committedIndexNotifier : bool
}.
#[global] Instance eta_t : Eta t := fun r =>
  mk (m_submitted r) (m_stableCommitted r) (m_precommitted r) (m_index r)
     (m_prepareCacheList r) (m_prepareReqWeight r) (m_commitCacheList r)
     (m_commitReqWeight r) (m_prePrepare r) (m_precommit r)
     (m_precommitWithoutData r) (m_checkpointProposal r)
     (m_checkpointCacheList r) (m_checkpointCacheWeight r) (m_timer r)
     (m_committedIndexNotifier r).

(** A method of the cache runs on the cache and on the shared [m_config]. *)
Record frame : Type := Frame { f_config : PBFTConfig.t; f_this : t }.
#[global] Instance eta_frame : Eta frame := fun r => Frame (f_config r) (f_this r).

Notation M := (Eff Event frame).

Section Methods.
Context `{Ext : Externals}.

(** The constructor, then [PBFTCacheFactory::createPBFTCache]. *)
Definition create (config : PBFTConfig.t) (_index : BlockNumber) : t :=
  mk false false false _index ∅ ∅ ∅ ∅ None None None None ∅ ∅
     (PBFTTimer.create (u64 (PBFTConfig.m_checkPointTimeoutInterval config))) true.

Definition set_this (f : t -> t) : M unit := modify (fun s => s <| f_this := f (f_this s) |>).
Definition committedIndex : M BlockNumber := zoom f_config PBFTConfig.committedIndex.

(** ** Pre-prepare *)
Definition existPrePrepare (this : t) (_prePrepareMsg : PBFTMessage.t) : bool :=
  match m_prePrepare this with
  | None => false
  | Some prePrepare =>
      (PBFTMessage.hash _prePrepareMsg =? PBFTMessage.hash prePrepare) &&
      (PBFTMessage.view _prePrepareMsg <=? PBFTMessage.view prePrepare)
  end.

Definition conflictWithProcessedReq (config : PBFTConfig.t) (this : t) (_msg : PBFTMessage.t)
    : bool :=
  if PBFTMessage.view _msg <? PBFTConfig.m_view config then true
  else
    match m_prePrepare this with
    | None => false
    | Some prePrepare =>
        if PBFTMessage.view _msg <? PBFTMessage.view prePrepare then true
        else if PBFTMessage.view _msg =? PBFTMessage.view prePrepare
        then negb (PBFTMessage.hash _msg =? PBFTMessage.hash prePrepare)
        else false
    end.

Definition conflictWithPrecommitReq (config : PBFTConfig.t) (this : t)
    (_prePrepareMsg : PBFTMessage.t) : bool :=
  match m_precommit this with
  | None => false
  | Some precommit =>
      if PBFTMessage.index precommit <? PBFTConfig.progressedIndex config then false
      else
        (PBFTMessage.index _prePrepareMsg =? PBFTMessage.index precommit) &&
        negb (PBFTMessage.hash _prePrepareMsg =? PBFTMessage.hash precommit)
  end.

Definition addPrePrepareCache (_prePrepareMsg : PBFTMessage.t) : M unit :=
  s ← get;
  let this := f_this s in
  if m_stableCommitted this then mret tt
  else
    conflict ←
      (match m_checkpointProposal this, m_prePrepare this with
       | Some _, Some prePrepare =>
           p ← deref (PBFTMessage.consensusProposal _prePrepareMsg);
           q ← deref (PBFTMessage.consensusProposal prePrepare);
           mret (negb (PBFTProposal.hash p =? PBFTProposal.hash q))
       | _, _ => mret false
       end);
    if conflict : bool then mret tt
    else
      set_this (fun c => c <| m_prePrepare := Some _prePrepareMsg |>) ;;
      log_deref INFO (PBFTMessage.consensusProposal _prePrepareMsg).

(** ** Collecting messages *)
Definition addCache (config : PBFTConfig.t) (index : BlockNumber)
    (_cachedReq : CollectionCacheType) (_weightInfo : QuorumRecoderType)
    (_pbftCache : PBFTMessage.t) : CollectionCacheType * QuorumRecoderType :=
  if negb (PBFTMessage.index _pbftCache =? index) then (_cachedReq, _weightInfo)
  else
    let proposalHash := PBFTMessage.hash _pbftCache in
    let generatedFrom := PBFTMessage.generatedFrom _pbftCache in
    match _cachedReq !! proposalHash ≫= fun cache => cache !! generatedFrom with
    | Some _ => (_cachedReq, _weightInfo)
    | None =>
        match PBFTConfig.getConsensusNodeByIndex config generatedFrom with
        | None => (_cachedReq, _weightInfo)
        | Some nodeInfo =>
            (<[ proposalHash :=
                 <[ generatedFrom := _pbftCache ]> (default ∅ (_cachedReq !! proposalHash)) ]>
               _cachedReq,
             <[ proposalHash :=
                 u64 (default 0 (_weightInfo !! proposalHash) + ConsensusNode.weight nodeInfo) ]>
               _weightInfo)
        end
    end.

Definition addPrepareCache (_prepareProposal : PBFTMessage.t) : M unit :=
  modify (fun s =>
    let '(l, w) := addCache (f_config s) (m_index (f_this s)) (m_prepareCacheList (f_this s))
                     (m_prepareReqWeight (f_this s)) _prepareProposal in
    s <| f_this := (f_this s) <| m_prepareCacheList := l |>
                              <| m_prepareReqWeight := log_access (PBFTMessage.hash _prepareProposal) w |> |>).

Definition addCommitCache (_commitProposal : PBFTMessage.t) : M unit :=
  modify (fun s =>
    let '(l, w) := addCache (f_config s) (m_index (f_this s)) (m_commitCacheList (f_this s))
                     (m_commitReqWeight (f_this s)) _commitProposal in
    s <| f_this := (f_this s) <| m_commitCacheList := l |>
                              <| m_commitReqWeight := log_access (PBFTMessage.hash _commitProposal) w |> |>).

Definition addCheckPointMsg (_checkPointMsg : PBFTMessage.t) : M unit :=
  modify (fun s =>
    let '(l, w) := addCache (f_config s) (m_index (f_this s)) (m_checkpointCacheList (f_this s))
                     (m_checkpointCacheWeight (f_this s)) _checkPointMsg in
    s <| f_this := (f_this s) <| m_checkpointCacheList := l |>
                              <| m_checkpointCacheWeight := log_access (PBFTMessage.hash _checkPointMsg) w |> |>).

Definition collectEnoughQuorum (config : PBFTConfig.t) (_hash : HashType)
    (_weightInfo : QuorumRecoderType) : bool :=
  match _weightInfo !! _hash with
  | None => false
  | Some w => PBFTConfig.m_minRequiredQuorum config <=? w
  end.

Definition checkPrePrepareProposalStatus (config : PBFTConfig.t) (this : t) : bool :=
  match m_prePrepare this with
  | None => false
  | Some prePrepare => PBFTMessage.view prePrepare =? PBFTConfig.m_view config
  end.

Definition collectEnoughPrepareReq (config : PBFTConfig.t) (this : t) : bool :=
  checkPrePrepareProposalStatus config this &&
  match m_prePrepare this with
  | Some prePrepare =>
      collectEnoughQuorum config (PBFTMessage.hash prePrepare) (m_prepareReqWeight this)
  | None => false
  end.

Definition collectEnoughCommitReq (config : PBFTConfig.t) (this : t) : bool :=
  checkPrePrepareProposalStatus config this &&
  match m_prePrepare this with
  | Some prePrepare =>
      collectEnoughQuorum config (PBFTMessage.hash prePrepare) (m_commitReqWeight this)
  | None => false
  end.

Definition collectEnoughCheckpoint (config : PBFTConfig.t) (this : t) : bool :=
  match m_checkpointProposal this with
  | None => false
  | Some checkpoint =>
      collectEnoughQuorum config (PBFTProposal.hash checkpoint) (m_checkpointCacheWeight this)
  end.

Definition getCollectedCheckPointWeight (this : t) (_hash : HashType) : Z :=
  default 0 (m_checkpointCacheWeight this !! _hash).

(** ** Signature proofs *)

(** The loop of [setSignatureList] over the messages of one proposal. *)
Fixpoint appendProofs (l : list (IndexType * PBFTMessage.t)) (p : PBFTProposal.t)
    : M PBFTProposal.t :=
  match l with
  | [] => mret p
  | (from, msg) :: l =>
      q ← deref (PBFTMessage.consensusProposal msg);
      appendProofs l (PBFTProposal.appendSignatureProof p from (PBFTProposal.signature q))
  end.

Definition setSignatureList (_proposal : PBFTProposal.t) (_cache : CollectionCacheType)
    : M PBFTProposal.t :=
  assert_ (bool_decide (is_Some (_cache !! PBFTProposal.hash _proposal))) ;;
  appendProofs (in_order (default ∅ (_cache !! PBFTProposal.hash _proposal)))
    (PBFTProposal.clearSignatureProof _proposal).

(** ** Precommit and commit *)

(** [m_precommit = m_prePrepare] makes the two pointers share one message: its
    mutations are visible through both. *)
Definition intoPrecommit : M unit :=
  s ← get;
  prePrepare ← deref (m_prePrepare (f_this s));
  let precommit := PBFTMessage.setGeneratedFrom (PBFTConfig.nodeIndex (f_config s)) prePrepare in
  proposal ← deref (PBFTMessage.consensusProposal precommit);
  proposal ← setSignatureList proposal (m_prepareCacheList (f_this s));
  let precommit := precommit <| PBFTMessage.consensusProposal := Some proposal |> in
  let withoutData := PBFTMessage.populateWithoutProposal precommit in
  match populateProposal proposal false true with
  | None => crash OutOfRange
  | Some precommitProposalWithoutData =>
      set_this (fun c => c
        <| m_prePrepare := Some precommit |>
        <| m_precommit := Some precommit |>
        <| m_precommitWithoutData :=
             Some (withoutData <| PBFTMessage.consensusProposal :=
                                    Some precommitProposalWithoutData |>) |>)
  end.

Definition checkAndCommit : M bool :=
  s ← get;
  let this := f_this s in
  if m_submitted this then mret false
  else
    match m_precommit this with
    | None => mret false
    | Some precommit =>
        if negb (collectEnoughCommitReq (f_config s) this) then mret false
        else
          log_deref INFO (PBFTMessage.consensusProposal precommit) ;;
          set_this (fun c => c <| m_submitted := true |>) ;;
          mret true
    end.

(** The commit request is added to the cache and then encoded, which signs the
    shared object: the cached message is the encoded one. *)
Definition checkAndPreCommit : M bool :=
  s ← get;
  let this := f_this s in
  if m_precommitted this then mret false
  else
    stale ← (match m_precommit this with
             | None => mret false
             | Some precommit =>
                 prePrepare ← deref (m_prePrepare this);
                 mret (PBFTMessage.view prePrepare <=? PBFTMessage.view precommit)
             end);
    if stale : bool then mret false
    else if negb (collectEnoughPrepareReq (f_config s) this) then mret false
    else
      intoPrecommit ;;
      s ← get;
      let config := f_config s in
      withoutData ← deref (m_precommitWithoutData (f_this s));
      proposal ← deref (PBFTMessage.consensusProposal withoutData);
      let commitReq :=
        populateSigned CommitPacket PBFTConfig.c_pbftMsgDefaultVersion (PBFTConfig.m_view config)
          (PBFTConfig.utcTime config) (PBFTConfig.nodeIndex config) proposal
          (PBFTConfig.nodeID config) true in
      let encoded := PBFTMessage_encode (PBFTConfig.nodeID config) commitReq in
      addCommitCache encoded ;;
      emit (SendMessageByNodeIDs (PBFTConfig.consensusNodeIDList config) (MPBFT encoded)) ;;
      set_this (fun c => c <| m_precommitted := true |>) ;;
      checkAndCommit.

Definition shouldStopTimer : M bool :=
  s ← get;
  committed ← committedIndex;
  mret (if m_index (f_this s) <=? committed then true else m_submitted (f_this s)).

(** ** View change *)

(** [resetCacheAfterViewChange]: drop the messages of earlier views, then the
    proposals without messages. *)
Definition resetCacheAfterViewChange (_caches : CollectionCacheType) (_curView : ViewType)
    : CollectionCacheType :=
  omap (fun cache : gmap Z PBFTMessage.t =>
    let cache := filter (fun kv => ~ PBFTMessage.view kv.2 < _curView) cache in
    if bool_decide (cache = ∅) then None else Some cache) _caches.

(** The weight that [recalculateQuorum] accumulates for one proposal. *)
Definition add_weight (config : PBFTConfig.t) (acc : Z) (msg : PBFTMessage.t) : Z :=
  match PBFTConfig.getConsensusNodeByIndex config (PBFTMessage.generatedFrom msg) with
  | None => acc
  | Some nodeInfo => u64 (acc + ConsensusNode.weight nodeInfo)
  end.

Definition recalculateQuorum (config : PBFTConfig.t) (_caches : CollectionCacheType)
    : QuorumRecoderType :=
  (fun cache : gmap Z PBFTMessage.t =>
     fold_left (add_weight config) (in_order cache).*2 0) <$> _caches.

Definition resetCache (_curView : ViewType) : M unit :=
  set_this (fun c => c <| m_submitted := false |> <| m_precommitted := false |>) ;;
  s ← get;
  (match m_precommit (f_this s), m_prePrepare (f_this s) with
   | None, Some prePrepare =>
       match PBFTMessage.consensusProposal prePrepare with
       | Some p =>
           when (PBFTMessage.view prePrepare <? _curView)
             (zoom f_config (zoom PBFTConfig.m_validator
               (TxsValidator.asyncResetTxsFlag (PBFTProposal.data p) false)))
       | None => mret tt
       end
   | _, _ => mret tt
   end) ;;
  set_this (fun c => c
    <| m_prepareCacheList := resetCacheAfterViewChange (m_prepareCacheList c) _curView |>
    <| m_commitCacheList := resetCacheAfterViewChange (m_commitCacheList c) _curView |>) ;;
  modify (fun s =>
    let c := f_this s in
    s <| f_this := c
      <| m_prepareReqWeight := recalculateQuorum (f_config s) (m_prepareCacheList c) |>
      <| m_commitReqWeight := recalculateQuorum (f_config s) (m_commitCacheList c) |> |>).

(** ** Checkpoint *)
Definition setCheckPointProposal (_proposal : PBFTProposal.t) : M unit :=
  s ← get;
  committed ← committedIndex;
  if PBFTProposal.index _proposal <=? committed then mret tt
  else if negb (PBFTProposal.index _proposal =? m_index (f_this s)) then mret tt
  else
    set_this (fun c => c <| m_checkpointProposal := Some _proposal |>
                         <| m_timer := PBFTTimer.start (m_timer c) |>).

Definition checkAndCommitStableCheckPoint : M bool :=
  s ← get;
  if m_stableCommitted (f_this s) || negb (collectEnoughCheckpoint (f_config s) (f_this s))
  then mret false
  else
    checkpoint ← deref (m_checkpointProposal (f_this s));
    checkpoint ← setSignatureList checkpoint (m_checkpointCacheList (f_this s));
    set_this (fun c => c <| m_checkpointProposal := Some checkpoint |>
                         <| m_stableCommitted := true |>) ;;
    committed ← committedIndex;
    mret (negb (PBFTProposal.index checkpoint <=? committed)).

(** [onCheckPointTimeout]; [notifier] is the registered [m_committedIndexNotifier]. *)
Definition onCheckPointTimeout (notifier : BlockNumber -> M unit) : M unit :=
  s ← get;
  match m_checkpointProposal (f_this s) with
  | None => mret tt
  | Some checkpoint =>
      let config := f_config s in
      when (m_committedIndexNotifier (f_this s)
            && negb (PBFTTimer.running (PBFTConfig.m_timer config)))
        (committed ← committedIndex; notifier committed) ;;
      let checkPointMsg :=
        populateSigned CheckPoint PBFTConfig.c_pbftMsgDefaultVersion (PBFTConfig.m_view config)
          (PBFTConfig.utcTime config) (PBFTConfig.nodeIndex config) checkpoint
          (PBFTConfig.nodeID config) true in
      let encoded := PBFTMessage_encode (PBFTConfig.nodeID config) checkPointMsg in
      emit (SendMessageByNodeIDs (PBFTConfig.consensusNodeIDList config) (MPBFT encoded)) ;;
      set_this (fun c => c <| m_timer := PBFTTimer.restart (m_timer c) |>)
  end.
End Methods.
End PBFTCache.
#[global] Arguments PBFTCache.addCache : simpl never.
#[global] Arguments PBFTCache.addPrepareCache : simpl never.
#[global] Arguments PBFTCache.addCommitCache : simpl never.
#[global] Arguments PBFTCache.addCheckPointMsg : simpl never.
#[global] Arguments PBFTCache.setSignatureList : simpl never.
#[global] Arguments PBFTCache.intoPrecommit : simpl never.
#[global] Arguments PBFTCache.checkAndCommit : simpl never.
