(* ===== verification/Processor.v ===== *)
(** Processor: [pbft/cache/PBFTCacheProcessor.h/.cpp].  The caches of all proposal
    indices, the view-change and recover messages with their weights, the queue
    of committed proposals waiting for execution and the queue of stable
    checkpoints waiting for commitment. *)
From S2P Require Import Prelude Types Timer Validator Config Cache.

Module PBFTCacheProcessor.
Record t : Type := mk {
  m_config : PBFTConfig.t;
  m_caches : gmap Z PBFTCache.t;
  m_viewChangeCache : gmap Z (gmap Z ViewChangeMsg.t);
  m_viewChangeWeight : gmap Z Z;
  m_maxCommittedIndex : gmap Z Z;
  m_maxPrecommitIndex : gmap Z Z;
  m_newViewGenerated : bool;
  m_committedQueue : list PBFTProposal.t;
  m_executingProposals : gmap Z BlockNumber;
  m_committedProposalList : gset Z;
  m_stableCheckPointQueue : list PBFTProposal.t;
  m_committedProposalNotifier : bool;
  m_recoverReqCache : gmap Z (gmap Z PBFTMessage.t);
  m_recoverCacheWeight : gmap Z Z;
  m_maxNotifyIndex : BlockNumber
}.
#[global] Instance eta_t : Eta t := fun r =>
  mk (m_config r) (m_caches r) (m_viewChangeCache r) (m_viewChangeWeight r)
     (m_maxCommittedIndex r) (m_maxPrecommitIndex r) (m_newViewGenerated r)
     (m_committedQueue r) (m_executingProposals r) (m_committedProposalList r)
     (m_stableCheckPointQueue r) (m_committedProposalNotifier r)
     (m_recoverReqCache r) (m_recoverCacheWeight r) (m_maxNotifyIndex r).

Notation M := (Eff Event t).

(** [loadAndVerifyProposal]'s callback distinguishes a time-out from other errors. *)
Inductive VerifyError : Type := NoError | TimeoutError | OtherError.

Definition create (config : PBFTConfig.t) : t :=
  mk config ∅ ∅ ∅ ∅ ∅ false [] ∅ ∅ [] false ∅ ∅ 0.

Section Methods.
Context `{Ext : Externals}.

Definition on_config (f : PBFTConfig.t -> PBFTConfig.t) : M unit :=
  modify (fun s => s <| m_config := f (m_config s) |>).
Definition on_timer (f : PBFTTimer.t -> PBFTTimer.t) : M unit :=
  on_config (PBFTConfig.on_timer f).
Definition committedIndex : M BlockNumber := zoom m_config PBFTConfig.committedIndex.
Definition resetTxsFlag (_data : bytes) (_flag : bool) : M unit :=
  zoom m_config (zoom PBFTConfig.m_validator (TxsValidator.asyncResetTxsFlag _data _flag)).

(** [m_caches[index]->method()]. *)
Definition on_cache {A} (index : BlockNumber) (m : Eff Event PBFTCache.frame A) : M A :=
  fun s =>
    match m_caches s !! index with
    | None => Crashed NullDeref
    | Some c =>
        let put f :=
          s <| m_config := PBFTCache.f_config f |>
            <| m_caches := <[ index := PBFTCache.f_this f ]> (m_caches s) |> in
        match m (PBFTCache.Frame (m_config s) c) with
        | Done a f es => Done a (put f) es
        | Threw x f es => Threw x (put f) es
        | Crashed f => Crashed f
        end
    end.

(** [createPBFTCache] for an index without a cache. *)
Definition ensureCache (index : BlockNumber) : M unit :=
  s ← get;
  match m_caches s !! index with
  | Some _ => mret tt
  | None =>
      modify (fun s =>
        s <| m_caches := <[ index := PBFTCache.create (m_config s) index ]> (m_caches s) |>)
  end.

(** [addCache(_pbftCache, _pbftReq, _handler)]. *)
Definition addCache (_pbftReq : PBFTMessage.t)
    (_handler : PBFTMessage.t -> Eff Event PBFTCache.frame unit) : M unit :=
  let index := PBFTMessage.index _pbftReq in
  ensureCache index ;; on_cache index (_handler _pbftReq).

Definition addPrepareCache (_prepareReq : PBFTMessage.t) : M unit :=
  addCache _prepareReq PBFTCache.addPrepareCache.
Definition addCommitReq (_commitReq : PBFTMessage.t) : M unit :=
  addCache _commitReq PBFTCache.addCommitCache.
Definition addCheckPointMsg (_checkPointMsg : PBFTMessage.t) : M unit :=
  addCache _checkPointMsg PBFTCache.addCheckPointMsg.

Definition preCommitCachesWithoutData (s : t) : list PBFTMessage.t :=
  omap (fun kv => PBFTCache.m_precommitWithoutData kv.2) (in_order (m_caches s)).
Definition preCommitCachesWithData (s : t) : list PBFTMessage.t :=
  omap (fun kv => PBFTCache.m_precommit kv.2) (in_order (m_caches s)).

(** ** Notifying the sync module *)
Definition notifyCommittedProposalIndex (_index : BlockNumber) : M unit :=
  s ← get; when (m_committedProposalNotifier s) (emit (NotifyCommittedIndex _index)).

Definition notifyMaxProposalIndex (_proposalIndex : BlockNumber) : M unit :=
  s ← get;
  when (m_maxNotifyIndex s <? _proposalIndex)
    (modify (fun s => s <| m_maxNotifyIndex := _proposalIndex |>) ;;
     notifyCommittedProposalIndex _proposalIndex).

(** ** Pre-prepare *)
Definition addPrePrepareCache (_prePrepareMsg : PBFTMessage.t) : M unit :=
  addCache _prePrepareMsg PBFTCache.addPrePrepareCache ;;
  notifyMaxProposalIndex (PBFTMessage.index _prePrepareMsg).

Definition existPrePrepare (s : t) (_prePrepareMsg : PBFTMessage.t) : bool :=
  match m_caches s !! PBFTMessage.index _prePrepareMsg with
  | None => false
  | Some c => PBFTCache.existPrePrepare c _prePrepareMsg
  end.

Definition conflictWithProcessedReq (s : t) (_msg : PBFTMessage.t) : bool :=
  match m_caches s !! PBFTMessage.index _msg with
  | None => false
  | Some c => PBFTCache.conflictWithProcessedReq (m_config s) c _msg
  end.

Definition conflictWithPrecommitReq (s : t) (_prePrepareMsg : PBFTMessage.t) : bool :=
  match m_caches s !! PBFTMessage.index _prePrepareMsg with
  | None => false
  | Some c => PBFTCache.conflictWithPrecommitReq (m_config s) c _prePrepareMsg
  end.

(** [tryToFillProposal]: [Some] is the message with the data filled in, [None]
    stands for [false]. *)
Definition tryToFillProposal (_prePrepareMsg : PBFTMessage.t) : M (option PBFTMessage.t) :=
  s ← get;
  match m_caches s !! PBFTMessage.index _prePrepareMsg ≫= PBFTCache.m_precommit with
  | None => mret None
  | Some precommit =>
      if (PBFTMessage.hash precommit =? PBFTMessage.hash _prePrepareMsg) &&
         (PBFTMessage.index precommit =? PBFTMessage.index _prePrepareMsg)
      then
        p ← deref (PBFTMessage.consensusProposal precommit);
        q ← deref (PBFTMessage.consensusProposal _prePrepareMsg);
        mret (Some (_prePrepareMsg <| PBFTMessage.consensusProposal :=
          Some (q <| PBFTProposal.data := PBFTProposal.data p |>) |>))
      else mret None
  end.

(** ** The commit queue: execution in order *)
Definition getAppliedCheckPointProposal (_index : BlockNumber) : M (option PBFTProposal.t) :=
  committed ← committedIndex;
  s ← get;
  if _index =? committed then mret (PBFTConfig.committedProposal (m_config s))
  else mret (m_caches s !! _index ≫= PBFTCache.m_checkpointProposal).

Definition notifyToSealNextBlock (_checkpointProposal : PBFTProposal.t) : M unit :=
  let nextProposalIndex := PBFTProposal.index _checkpointProposal + 1 in
  s ← get;
  when (negb (PBFTProposal.systemProposal _checkpointProposal) &&
        (nextProposalIndex <? PBFTConfig.highWaterMark (m_config s)))
    (zoom m_config (PBFTConfig.notifySealer nextProposalIndex false)) ;;
  when (PBFTProposal.systemProposal _checkpointProposal)
    (on_config (PBFTConfig.setWaitSealUntil (PBFTProposal.index _checkpointProposal))).

Definition applyStateMachine (_lastAppliedProposal _proposal : PBFTProposal.t) : M unit :=
  notifyToSealNextBlock _proposal ;;
  s ← get;
  emit (AsyncApply (PBFTTimer.timeout (PBFTConfig.m_timer (m_config s)))
          _lastAppliedProposal _proposal).

(** The state machine's callback, lines 364-399, up to [m_proposalAppliedHandler]
    ([PBFTEngine::onProposalApplied]). *)
Definition onApplyFinished (_ret : bool) (_proposal executedProposal : PBFTProposal.t) : M unit :=
  committed ← committedIndex;
  if PBFTProposal.index _proposal <=? committed then mret tt
  else emit (EnqueueProposalApplied _ret _proposal executedProposal).

(** The first loop of [tryToApplyCommitQueue]. *)
Fixpoint dropExpired (expected : BlockNumber) (q : list PBFTProposal.t) : list PBFTProposal.t :=
  match q with
  | [] => []
  | p :: q' => if PBFTProposal.index p <? expected then dropExpired expected q' else q
  end.

Definition tryToApplyCommitQueue : M bool :=
  s ← get;
  let expected := PBFTConfig.m_expectedCheckPoint (m_config s) in
  modify (fun s => s <| m_committedQueue := dropExpired expected (m_committedQueue s) |>) ;;
  s ← get;
  match m_committedQueue s with
  | [] => mret false
  | proposal :: rest =>
      if negb (PBFTProposal.index proposal =? expected) then mret false
      else
        lastAppliedProposal ← getAppliedCheckPointProposal (expected - 1);
        match lastAppliedProposal with
        | None => mret false
        | Some lastAppliedProposal =>
            match m_executingProposals s !! PBFTProposal.hash proposal with
            | Some _ => on_timer PBFTTimer.restart ;; mret false
            | None =>
                modify (fun s => s
                  <| m_committedQueue := rest |>
                  <| m_executingProposals :=
                       <[ PBFTProposal.hash proposal := PBFTProposal.index proposal ]>
                         (m_executingProposals s) |>) ;;
                applyStateMachine lastAppliedProposal proposal ;;
                mret true
            end
        end
  end.

Definition updateCommitQueue (_committedProposal : PBFTProposal.t) : M unit :=
  s ← get;
  match m_executingProposals s !! PBFTProposal.hash _committedProposal with
  | Some _ => mret tt
  | None =>
      notifyMaxProposalIndex (PBFTProposal.index _committedProposal) ;;
      modify (fun s => s
        <| m_committedQueue :=
             pq_push PBFTProposal.index _committedProposal (m_committedQueue s) |>
        <| m_committedProposalList :=
             {[ PBFTProposal.index _committedProposal ]} ∪ m_committedProposalList s |>) ;;
      _ ← tryToApplyCommitQueue;
      mret tt
  end.

(** [updateCommitQueue(cache->preCommitCache()->consensusProposal())]. *)
Definition commitPrecommit (index : BlockNumber) : M unit :=
  s ← get;
  precommit ← deref (m_caches s !! index ≫= PBFTCache.m_precommit);
  match PBFTMessage.consensusProposal precommit with
  | None => crash AssertFailed
  | Some p => updateCommitQueue p
  end.

Definition checkAndPreCommit : M unit :=
  s ← get;
  for_each (in_order (m_caches s)).*1 (fun index =>
    ret ← on_cache index PBFTCache.checkAndPreCommit;
    when ret (commitPrecommit index)).

Definition eraseExecutedProposal (_hash : HashType) : M unit :=
  modify (fun s => s <| m_executingProposals := delete _hash (m_executingProposals s) |>).

Definition executingProposalSize (s : t) : Z := Z.of_nat (size (m_executingProposals s)).

Definition clearExpiredExecutingProposal : M unit :=
  committed ← committedIndex;
  modify (fun s => s <| m_executingProposals :=
    filter (fun kv => committed < kv.2) (m_executingProposals s) |>).

Definition eraseCommittedProposalList (_index : BlockNumber) : M unit :=
  modify (fun s => s <| m_committedProposalList := m_committedProposalList s ∖ {[ _index ]} |>).

(** ** Loading proposals from peers *)
Definition loadAndVerifyProposal (_fromNode : option NodeID) (_proposal : PBFTProposal.t)
    (_retryTime : Z) : M unit :=
  if 3 <? _retryTime then mret tt
  else zoom m_config (zoom PBFTConfig.m_validator
    (TxsValidator.verifyProposal _fromNode _proposal
       (OnProposalVerified _fromNode _proposal _retryTime))).

Definition initState (_proposals : list PBFTProposal.t) (_fromNode : option NodeID) : M unit :=
  for_each _proposals (fun proposal =>
    committed ← committedIndex;
    if PBFTProposal.index proposal <=? committed then mret tt
    else
      resetTxsFlag (PBFTProposal.data proposal) true ;;
      loadAndVerifyProposal _fromNode proposal 0).

(** The verification callback, lines 57-100; [onLoadAndVerifyProposalSucc] is
    [updateCommitQueue] under the engine's lock. *)
Definition onProposalVerified (_error : VerifyError) (_verifyResult : bool)
    (_fromNode : option NodeID) (_proposal : PBFTProposal.t) (_retryTime : Z) : M unit :=
  match _error, _verifyResult with
  | TimeoutError, _ => loadAndVerifyProposal _fromNode _proposal (u64 (_retryTime + 1))
  | NoError, true => log_deref INFO _fromNode ;; updateCommitQueue _proposal
  | _, _ =>
      on_config (fun c =>
        let waterMark := Z.min (PBFTConfig.m_lowWaterMark c) (PBFTProposal.index _proposal - 1) in
        let waterMark := Z.max waterMark (PBFTConfig.progressedIndex c) in
        c <| PBFTConfig.m_lowWaterMark := waterMark |>) ;;
      log_deref INFO _fromNode
  end.

(** ** Checkpoints *)
Definition setCheckPointProposal (_proposal : PBFTProposal.t) : M unit :=
  let index := PBFTProposal.index _proposal in
  ensureCache index ;; on_cache index (PBFTCache.setCheckPointProposal _proposal).

(** The first loop of [tryToCommitStableCheckPoint]. *)
Fixpoint dropCommitted (committed : BlockNumber) (q : list PBFTProposal.t) (l : gset Z)
    : list PBFTProposal.t * gset Z :=
  match q with
  | [] => ([], l)
  | p :: q' =>
      if PBFTProposal.index p <=? committed
      then dropCommitted committed q' (l ∖ {[ PBFTProposal.index p ]})
      else (q, l)
  end.

Definition tryToCommitStableCheckPoint : M unit :=
  committed ← committedIndex;
  modify (fun s =>
    let '(q, l) := dropCommitted committed (m_stableCheckPointQueue s)
                     (m_committedProposalList s) in
    s <| m_stableCheckPointQueue := q |> <| m_committedProposalList := l |>) ;;
  s ← get;
  match m_stableCheckPointQueue s with
  | [] => mret tt
  | stableCheckPoint :: rest =>
      if negb (PBFTProposal.index stableCheckPoint =? committed + 1) then mret tt
      else
        modify (fun s => s
          <| m_committedProposalList :=
               m_committedProposalList s ∖ {[ PBFTProposal.index stableCheckPoint ]} |>
          <| m_stableCheckPointQueue := rest |>) ;;
        emit (AsyncCommitStableCheckPoint stableCheckPoint)
  end.

Definition updateStableCheckPointQueue (_stableCheckPoint : PBFTProposal.t) : M unit :=
  modify (fun s => s <| m_stableCheckPointQueue :=
    pq_push PBFTProposal.index _stableCheckPoint (m_stableCheckPointQueue s) |>) ;;
  tryToCommitStableCheckPoint.

(** The loop that collects the caches whose checkpoint has become stable. *)
Fixpoint collectStable (l : list BlockNumber) : M (list BlockNumber) :=
  match l with
  | [] => mret []
  | index :: l =>
      ret ← on_cache index PBFTCache.checkAndCommitStableCheckPoint;
      stabled ← collectStable l;
      mret (if ret : bool then index :: stabled else stabled)
  end.

Definition checkAndCommitStableCheckPoint : M unit :=
  s ← get;
  stabledCacheList ← collectStable (in_order (m_caches s)).*1;
  for_each stabledCacheList (fun index =>
    s ← get;
    match m_caches s !! index ≫= PBFTCache.m_checkpointProposal with
    | None => crash AssertFailed
    | Some p => updateStableCheckPointQueue p
    end).

Definition shouldRequestCheckPoint (_checkPointMsg : PBFTMessage.t) : M bool :=
  let checkPointIndex := PBFTMessage.index _checkPointMsg in
  committed ← committedIndex;
  s ← get;
  let config := m_config s in
  if (checkPointIndex <=? committed) ||
     (checkPointIndex <=? PBFTConfig.syncingHighestNumber config) then mret false
  else if bool_decide (checkPointIndex ∈ m_committedProposalList s) then mret false
  else if bool_decide (is_Some (m_caches s !! checkPointIndex ≫= PBFTCache.m_checkpointProposal))
  then mret false
  else if PBFTConfig.m_timeoutState config then mret true
  else
    match m_caches s !! checkPointIndex with
    | None => mret false
    | Some cache =>
        if PBFTCache.m_precommitted cache then mret false
        else
          let checkPointWeight :=
            PBFTCache.getCollectedCheckPointWeight cache (PBFTMessage.hash _checkPointMsg) in
          let minRequiredCheckPointWeight := u64 (PBFTConfig.m_maxFaultyQuorum config + 1) in
          if checkPointWeight <? minRequiredCheckPointWeight then mret false
          else
            modify (fun s => s <| m_committedProposalList :=
              {[ checkPointIndex ]} ∪ m_committedProposalList s |>) ;;
            mret true
    end.

(** ** View change *)

(** The last two steps are the log of the request: it reads every prepared
    proposal, and reads the maximal precommit index through [operator[]]. *)
Definition addViewChangeReq (_viewChange : ViewChangeMsg.t) : M unit :=
  let reqView := ViewChangeMsg.view _viewChange in
  let fromIdx := ViewChangeMsg.generatedFrom _viewChange in
  s ← get;
  match m_viewChangeCache s !! reqView ≫= fun cache => cache !! fromIdx with
  | Some _ => mret tt
  | None =>
      match PBFTConfig.getConsensusNodeByIndex (m_config s) fromIdx with
      | None => mret tt
      | Some nodeInfo =>
          modify (fun s => s
            <| m_viewChangeCache :=
                 <[ reqView :=
                      <[ fromIdx := _viewChange ]> (default ∅ (m_viewChangeCache s !! reqView)) ]>
                   (m_viewChangeCache s) |>
            <| m_viewChangeWeight :=
                 <[ reqView := u64 (default 0 (m_viewChangeWeight s !! reqView)
                                    + ConsensusNode.weight nodeInfo) ]>
                   (m_viewChangeWeight s) |>) ;;
          committed ← deref (ViewChangeMsg.committedProposal _viewChange);
          let raise (i : Z) (m : gmap Z Z) : gmap Z Z :=
            match m !! reqView with
            | Some j => if j <? i then <[ reqView := i ]> m else m
            | None => <[ reqView := i ]> m
            end in
          modify (fun s => s <| m_maxCommittedIndex :=
            raise (PBFTProposal.index committed) (m_maxCommittedIndex s) |>) ;;
          for_each (ViewChangeMsg.preparedProposals _viewChange) (fun precommit =>
            modify (fun s => s <| m_maxPrecommitIndex :=
              raise (PBFTMessage.index precommit) (m_maxPrecommitIndex s) |>)) ;;
          for_each (ViewChangeMsg.preparedProposals _viewChange) (fun proposal =>
            _ ← deref (PBFTMessage.consensusProposal proposal); mret tt) ;;
          modify (fun s => s <| m_maxPrecommitIndex :=
            log_access reqView (m_maxPrecommitIndex s) |>)
      end
  end.

(** *** Generating the pre-prepares of a new view, lines 490-574 *)

(** One prepared proposal of a view-change request.  The first proposal of an
    index gets the sender of the request as [generatedFrom]; a replacement by a
    proposal of a higher view does not.  The code sets it on the message object, which the
    view-change cache shares; here the copy in [preparedProposals] gets it.  Only a later
    [generatePrePrepareMsg] over the same requests could tell: no other code reads that
    field of a cached view change, and it is not sent, for the encoding of a prepared
    proposal is its [hashFieldsData]. *)
Definition mergePrepared (maxCommittedIndex : BlockNumber) (sender : IndexType)
    (preparedProposals : gmap Z PBFTMessage.t) (proposal : PBFTMessage.t) : gmap Z PBFTMessage.t :=
  let index := PBFTMessage.index proposal in
  if index <? maxCommittedIndex then preparedProposals
  else
    match preparedProposals !! index with
    | Some precommitProposal =>
        if negb (PBFTMessage.index precommitProposal =? index) ||
           negb (PBFTMessage.hash precommitProposal =? PBFTMessage.hash proposal)
        then
          if PBFTMessage.view precommitProposal <? PBFTMessage.view proposal
          then <[ index := proposal ]> preparedProposals else preparedProposals
        else preparedProposals
    | None => <[ index := PBFTMessage.setGeneratedFrom sender proposal ]> preparedProposals
    end.

Definition collectPrepared (maxCommittedIndex : BlockNumber)
    (_viewChangeCache : gmap Z ViewChangeMsg.t) : gmap Z PBFTMessage.t :=
  fold_left (fun acc kv =>
    fold_left (mergePrepared maxCommittedIndex (ViewChangeMsg.generatedFrom kv.2))
      (ViewChangeMsg.preparedProposals kv.2) acc)
    (in_order _viewChangeCache) ∅.

(** The pre-prepare of index [i]. *)
Definition prePrepareFor (config : PBFTConfig.t) (preparedProposals : gmap Z PBFTMessage.t)
    (i : BlockNumber) : M PBFTMessage.t :=
  '(prePrepareProposal, generatedFrom) ←
    (match preparedProposals !! i with
     | Some prepared =>
         p ← deref (PBFTMessage.consensusProposal prepared);
         mret (p, PBFTMessage.generatedFrom prepared)
     | None =>
         mret (TxsValidator.generateEmptyProposal i (PBFTConfig.nodeIndex config),
               PBFTConfig.nodeIndex config)
     end);
  mret (populateWith PrePreparePacket prePrepareProposal PBFTConfig.c_pbftMsgDefaultVersion
          (PBFTConfig.m_toView config) (PBFTConfig.utcTime config) generatedFrom).

Fixpoint prePreparesFor (config : PBFTConfig.t) (preparedProposals : gmap Z PBFTMessage.t)
    (l : list BlockNumber) : M (list PBFTMessage.t) :=
  match l with
  | [] => mret []
  | i :: l =>
      msg ← prePrepareFor config preparedProposals i;
      rest ← prePreparesFor config preparedProposals l;
      mret (msg :: rest)
  end.

Definition generatePrePrepareMsg (_viewChangeCache : gmap Z ViewChangeMsg.t)
    : M (list PBFTMessage.t) :=
  s ← get;
  committed ← committedIndex;
  let config := m_config s in
  let toView := PBFTConfig.m_toView config in
  let maxCommittedIndex := default committed (m_maxCommittedIndex s !! toView) in
  let maxPrecommitIndex :=
    default (PBFTConfig.progressedIndex config) (m_maxPrecommitIndex s !! toView) in
  let preparedProposals := collectPrepared maxCommittedIndex _viewChangeCache in
  prePreparesFor config preparedProposals
    (seqZ (maxCommittedIndex + 1) (maxPrecommitIndex - maxCommittedIndex)).

Definition checkAndTryIntoNewView : M (option NewViewMsg.t) :=
  committed ← committedIndex;
  s ← get;
  let config := m_config s in
  if committed <? PBFTConfig.syncingHighestNumber config then mret None
  else
    blocked ← (if m_newViewGenerated s then mret true
               else leader ← zoom m_config PBFTConfig.leaderAfterViewChange; mret (negb leader));
    if blocked : bool then mret None
    else
      let toView := PBFTConfig.m_toView config in
      match m_viewChangeWeight s !! toView with
      | None => mret None
      | Some weight =>
          if weight <? PBFTConfig.m_minRequiredQuorum config then mret None
          else
            let viewChangeCache := default ∅ (m_viewChangeCache s !! toView) in
            let viewChangeList := (in_order viewChangeCache).*2 in
            proposal ← deref (PBFTConfig.committedProposal config);
            let newViewMsg :=
              NewViewMsg.create
                <| NewViewMsg.packetType := NewViewPacket |>
                <| NewViewMsg.base :=
                     BaseMessage.create PBFTConfig.c_pbftMsgDefaultVersion
                       (PBFTProposal.index proposal) (PBFTProposal.hash proposal) toView
                       (PBFTConfig.utcTime config) (PBFTConfig.nodeIndex config) |>
                <| NewViewMsg.viewChangeMsgList := viewChangeList |> in
            generatedPrePrepareList ← generatePrePrepareMsg viewChangeCache;
            let newViewMsg := NewViewMsg.setPrePrepareList generatedPrePrepareList newViewMsg in
            let newViewMsg := encode_newView (PBFTConfig.nodeID config) newViewMsg in
            emit (SendMessageByNodeIDs (PBFTConfig.consensusNodeIDList config)
                    (MNewView newViewMsg)) ;;
            modify (fun s => s <| m_newViewGenerated := true |>) ;;
            mret (Some newViewMsg)
      end.

(** The accumulators of the loop of [tryToTriggerFastViewChange]:
    [greaterViewWeight] and [viewToReach]. *)
Definition fastViewChangeLoop (config : PBFTConfig.t) (acc : Z * ViewType)
    (it : ViewType * gmap Z ViewChangeMsg.t) : Z * ViewType :=
  let '(greaterViewWeight, viewToReach) := acc in
  let view := it.1 in
  if view <=? PBFTConfig.m_toView config then acc
  else
    let viewToReach := if viewToReach =? 0 then view else viewToReach in
    let viewToReach := if view <? viewToReach then view else viewToReach in
    (fold_left (fun w cache =>
       match PBFTConfig.getConsensusNodeByIndex config cache.1 with
       | None => w
       | Some nodeInfo => u64 (w + ConsensusNode.weight nodeInfo)
       end) (in_order it.2) greaterViewWeight, viewToReach).

Definition tryToTriggerFastViewChange : M ViewType :=
  s ← get;
  let config := m_config s in
  let '(greaterViewWeight, viewToReach) :=
    fold_left (fastViewChangeLoop config) (in_order (m_viewChangeCache s)) (0, 0) in
  if greaterViewWeight <? u64 (PBFTConfig.m_maxFaultyQuorum config + 1) then mret 0
  else if viewToReach <=? PBFTConfig.m_toView config then mret 0
  else
    when (0 <? viewToReach)
      (on_config (fun c => c <| PBFTConfig.m_toView := viewToReach - 1 |>)) ;;
    mret viewToReach.

(** *** Checking prepared proposals *)

(** The loop of [checkPrecommitWeight] from proof [i] on; [None] is its early
    [return false]. *)
Fixpoint proofWeight (config : PBFTConfig.t) (p : PBFTProposal.t) (proofs : list nat) (weight : Z)
    : M (option Z) :=
  match proofs with
  | [] => mret (Some weight)
  | i :: proofs =>
      match PBFTProposal.signatureProof p i with
      | None => crash OutOfRange
      | Some proof =>
          match PBFTConfig.getConsensusNodeByIndex config (u64 proof.1) with
          | None => mret None
          | Some nodeInfo =>
              if negb (verify (ConsensusNode.nodeID nodeInfo) (PBFTProposal.hash p) proof.2)
              then mret None
              else proofWeight config p proofs (u64 (weight + ConsensusNode.weight nodeInfo))
          end
      end
  end.

Definition checkPrecommitWeight (_precommitMsg : PBFTMessage.t) : M bool :=
  s ← get;
  precommitProposal ← deref (PBFTMessage.consensusProposal _precommitMsg);
  weight ← proofWeight (m_config s) precommitProposal
             (seq 0 (PBFTProposal.signatureProofSize precommitProposal)) 0;
  match weight with
  | None => mret false
  | Some weight => mret (PBFTConfig.m_minRequiredQuorum (m_config s) <=? weight)
  end.

Definition checkPrecommitMsg (_precommitMsg : PBFTMessage.t) : M bool :=
  s ← get;
  let config := m_config s in
  if PBFTConfig.m_startRecovered config &&
     (PBFTConfig.m_view config <? PBFTMessage.view _precommitMsg) then mret false
  else
    match PBFTMessage.consensusProposal _precommitMsg with
    | None => mret false
    | Some _ => checkPrecommitWeight _precommitMsg
    end.

Definition fetchPrecommitData (s : t) (_index : BlockNumber) (_hash : HashType)
    : option ViewChangeMsg.t :=
  match m_caches s !! _index ≫= PBFTCache.m_precommit with
  | None => None
  | Some precommit =>
      if negb (PBFTMessage.hash precommit =? _hash) then None
      else Some (ViewChangeMsg.create <| ViewChangeMsg.preparedProposals := [precommit] |>)
  end.

Definition fetchPrecommitProposal (s : t) (_index : BlockNumber) : option PBFTProposal.t :=
  (m_caches s !! _index ≫= PBFTCache.m_precommit) ≫= PBFTMessage.consensusProposal.

(** *** Cleaning up *)
Definition viewWeight (config : PBFTConfig.t) (viewChangeCache : gmap Z ViewChangeMsg.t) : Z :=
  fold_left (fun w cache =>
    match PBFTConfig.getConsensusNodeByIndex config (ViewChangeMsg.generatedFrom cache.2) with
    | None => w
    | Some nodeInfo => u64 (w + ConsensusNode.weight nodeInfo)
    end) (in_order viewChangeCache) 0.

Definition reCalculateViewChangeWeight : M unit :=
  modify (fun s => s <| m_viewChangeWeight :=
    (viewWeight (m_config s) <$> m_viewChangeCache s) ∪ m_viewChangeWeight s |>).

Definition removeInvalidViewChange (_view : ViewType) (_latestCommittedProposal : BlockNumber)
    : M unit :=
  modify (fun s => s
    <| m_viewChangeWeight :=
         filter (fun kv => ~ (kv.1 <= _view /\ is_Some (m_viewChangeCache s !! kv.1)))
           (m_viewChangeWeight s) |>
    <| m_viewChangeCache :=
         (fun cache : gmap Z ViewChangeMsg.t =>
            filter (fun kv => ~ ViewChangeMsg.index kv.2 < _latestCommittedProposal) cache)
         <$> filter (fun kv => ~ kv.1 <= _view) (m_viewChangeCache s) |>) ;;
  reCalculateViewChangeWeight.

Definition removeInvalidRecoverCache (_view : ViewType) : M unit :=
  modify (fun s => s
    <| m_recoverCacheWeight :=
         filter (fun kv => ~ (kv.1 <= _view /\ is_Some (m_recoverReqCache s !! kv.1)))
           (m_recoverCacheWeight s) |>
    <| m_recoverReqCache := filter (fun kv => ~ kv.1 <= _view) (m_recoverReqCache s) |>).

Definition removeConsensusedCache (_view : ViewType) (_consensusedNumber : BlockNumber) : M unit :=
  modify (fun s => s <| m_caches :=
    filter (fun kv => ~ kv.1 <= _consensusedNumber /\ PBFTCache.m_stableCommitted kv.2 = false)
      (m_caches s) |>) ;;
  removeInvalidViewChange _view _consensusedNumber ;;
  modify (fun s => s <| m_maxPrecommitIndex := ∅ |> <| m_maxCommittedIndex := ∅ |>
                     <| m_newViewGenerated := false |>).

Definition resetCacheAfterViewChange (_view : ViewType) (_latestCommittedProposal : BlockNumber)
    : M unit :=
  s ← get;
  for_each (in_order (m_caches s)).*1 (fun index =>
    on_cache index (PBFTCache.resetCache _view)) ;;
  modify (fun s => s <| m_maxPrecommitIndex := ∅ |> <| m_maxCommittedIndex := ∅ |>
                     <| m_newViewGenerated := false |>) ;;
  removeInvalidViewChange _view _latestCommittedProposal ;;
  removeInvalidRecoverCache _view.

(** The loop over [m_caches] of [removeFutureProposals], lines 993-1012. *)
Definition removeFutureCache (committedIndex : BlockNumber) (index : BlockNumber) : M unit :=
  s ← get;
  match m_caches s !! index with
  | None => mret tt
  | Some cache =>
      match PBFTCache.m_checkpointProposal cache with
      | None => mret tt
      | Some checkPointProposal =>
          if PBFTCache.m_index cache <? committedIndex then mret tt
          else
            (match PBFTCache.m_precommit cache with
             | Some precommitMsg =>
                 match PBFTMessage.consensusProposal precommitMsg with
                 | Some p =>
                     when (PBFTMessage.index precommitMsg <? committedIndex)
                       (resetTxsFlag (PBFTProposal.data p) false)
                 | None => mret tt
                 end
             | None => mret tt
             end) ;;
            emit (AsyncRemoveStabledCheckPoint (u64 (PBFTProposal.index checkPointProposal))) ;;
            modify (fun s => s <| m_caches := delete index (m_caches s) |>)
      end
  end.

Definition removeFutureProposals : M unit :=
  committed ← committedIndex;
  zoom m_config (PBFTConfig.setExpectedCheckPoint (committed + 1)) ;;
  s ← get;
  for_each (m_committedQueue s) (fun proposal =>
    when (PBFTProposal.index proposal <? committed)
      (resetTxsFlag (PBFTProposal.data proposal) false)) ;;
  modify (fun s => s <| m_committedQueue := [] |> <| m_committedProposalList := ∅ |>
                     <| m_stableCheckPointQueue := [] |>) ;;
  s ← get;
  for_each (in_order (m_caches s)).*1 (removeFutureCache committed).

(** ** View recovery *)
Definition addRecoverReqCache (_recoverResponse : PBFTMessage.t) : M unit :=
  let fromIdx := PBFTMessage.generatedFrom _recoverResponse in
  let view := PBFTMessage.view _recoverResponse in
  s ← get;
  match m_recoverReqCache s !! view ≫= fun cache => cache !! fromIdx with
  | Some _ => mret tt
  | None =>
      modify (fun s => s <| m_recoverReqCache :=
        <[ view := <[ fromIdx := _recoverResponse ]> (default ∅ (m_recoverReqCache s !! view)) ]>
          (m_recoverReqCache s) |>) ;;
      match PBFTConfig.getConsensusNodeByIndex (m_config s) fromIdx with
      | None => mret tt
      | Some nodeInfo =>
          modify (fun s => s <| m_recoverCacheWeight :=
            <[ view := u64 (default 0 (m_recoverCacheWeight s !! view)
                            + ConsensusNode.weight nodeInfo) ]> (m_recoverCacheWeight s) |>)
      end
  end.

(** The view selected by the loop of [checkAndTryToRecover]. *)
Definition recoveredView (s : t) : ViewType :=
  fold_left (fun recovered it =>
    if (PBFTConfig.m_minRequiredQuorum (m_config s) <=? it.2) && (recovered <? it.1)
    then it.1 else recovered) (in_order (m_recoverCacheWeight s)) 0.

Definition checkAndTryToRecover : M bool :=
  s ← get;
  let view := recoveredView s in
  if view =? 0 then mret false
  else
    on_config (PBFTConfig.resetNewViewState view) ;;
    committed ← committedIndex;
    resetCacheAfterViewChange view committed ;;
    modify (fun s => s <| m_recoverReqCache := ∅ |> <| m_recoverCacheWeight := ∅ |>) ;;
    mret true.

(** ** The timer; [fastViewChangeHandler] is the engine's [triggerTimeout(false)] *)
Section FastViewChange.
Context (fastViewChangeHandler : M unit).

(** Does some cached proposal keep the timer running? *)
Fixpoint anyInConsensus (l : list BlockNumber) : M bool :=
  match l with
  | [] => mret false
  | index :: l =>
      stopped ← on_cache index PBFTCache.shouldStopTimer;
      if negb stopped then mret true else anyInConsensus l
  end.

(** The recursion depth of [tryTriggerFastViewChange] that the node list needs: two turns
    around it, as the view may wrap around once. *)
Definition fastViewChangeFuel (s : t) : nat :=
  S (S (2 * length (PBFTConfig.consensusNodeList (m_config s)))).

Definition resetTimer : M unit :=
  s ← get;
  inConsensus ← anyInConsensus (in_order (m_caches s)).*1;
  if inConsensus : bool then
    s ← get;
    when (negb (PBFTTimer.running (PBFTConfig.m_timer (m_config s)))) (on_timer PBFTTimer.start)
  else
    on_config PBFTConfig.freshTimer ;;
    leader ← zoom m_config PBFTConfig.getLeader;
    s ← get;
    _ ← PBFTConfig.tryTriggerFastViewChange m_config fastViewChangeHandler
          (fastViewChangeFuel s) leader;
    mret tt.

Definition checkAndCommit : M unit :=
  s ← get;
  for_each (in_order (m_caches s)).*1 (fun index =>
    ret ← on_cache index PBFTCache.checkAndCommit;
    when ret
      (commitPrecommit index ;;
       on_timer PBFTTimer.restart ;;
       on_config PBFTConfig.resetToView)) ;;
  resetTimer.
End FastViewChange.

(** The checkpoint timer of one cache. *)
Definition onCheckPointTimeout (index : BlockNumber) : M unit :=
  s ← get;
  on_cache index (PBFTCache.onCheckPointTimeout (fun i =>
    when (m_committedProposalNotifier s) (emit (NotifyCommittedIndex i)))).
End Methods.
End PBFTCacheProcessor.
