(* ===== verification/LogSync.v ===== *)
(** LogSync: [pbft/engine/PBFTLogSync.h/.cpp].  Requests for committed proposals
    and for the data of precommitted proposals, and the handling of the
    responses.  The requests are sent by a worker thread; the responses are
    separate inputs. *)
From S2P Require Import Prelude Types Timer Validator Config Cache Processor.

Module PBFTLogSync.
Notation M := (Eff Event PBFTCacheProcessor.t).

Section Methods.
Context `{Ext : Externals}.

(** [PBFTCodec::decode]: protobuf rejects malformed bytes by an exception. *)
Definition decode (_data : Wire) : M Msg :=
  match _data with
  | NoData => mret (MPBFT PBFTMessage.create)
  | Undecodable => throw DecodeException
  | Packet m => mret m
  end.

(** [requestPBFTData]: a task of the request thread encodes and sends the request and logs
    its receiver.  It touches no state, so that it may as well run at once. *)
Definition requestPBFTData (_from : option NodeID) (_pbftRequest : PBFTRequest.t)
    (_callback : RequestCallback) : M unit :=
  emit (RequestPBFTData _from _pbftRequest _callback) ;; log_deref INFO _from.

Definition requestCommittedProposals (_from : option NodeID) (_startIndex : BlockNumber)
    (_offset : Z) : M unit :=
  requestPBFTData _from (populateRequest CommittedProposalRequest _startIndex (i64 _offset))
    (OnRecvCommittedProposalsResponse _startIndex _offset).

Definition requestPrecommitData (_from : option NodeID) (_prePrepareMsg : PBFTMessage.t) : M unit :=
  requestPBFTData _from
    (populateHashRequest PreparedProposalRequest (PBFTMessage.index _prePrepareMsg)
       (PBFTMessage.hash _prePrepareMsg))
    (OnRecvPrecommitResponse _prePrepareMsg).

Definition onRecvCommittedProposalsResponse (_error : bool) (_nodeID : option NodeID)
    (_data : Wire) (_startIndex _offset : Z) : M unit :=
  if _error then
    log_deref WARNING _nodeID ;;
    for_each (seqZ 0 _offset) (fun i =>
      PBFTCacheProcessor.eraseCommittedProposalList (i64 (u64 (_startIndex + i))))
  else
    match _data with
    | NoData => mret tt
    | _ =>
        response ← decode _data;
        if bool_decide (msg_packetType response <> CommittedProposalResponse) then mret tt
        else
          match response with
          | MPBFT proposalResponse =>
              PBFTCacheProcessor.initState (PBFTMessage.proposals proposalResponse) _nodeID ;;
              log_deref INFO _nodeID
          | _ => crash NullDeref
          end
    end.

(** [onRecvPrecommitResponse]: the callback is the engine's
    [handlePrePrepareMsg(_prePrepare, true, true, false)].  An error does not
    return: the response data is decoded in any case. *)
Definition onRecvPrecommitResponse (_prePrepareCallback : PBFTMessage.t -> M unit)
    (_error : bool) (_nodeID : option NodeID) (_data : Wire) (_prePrepareMsg : PBFTMessage.t)
    : M unit :=
  when _error (log_deref WARNING _nodeID) ;;
  response ← decode _data;
  if bool_decide (msg_packetType response <> PreparedProposalResponse) then mret tt
  else
    match response with
    | MViewChange pbftMessage =>
        assert_ (Nat.eqb (length (ViewChangeMsg.preparedProposals pbftMessage)) 1) ;;
        precommitMsg ← deref (head (ViewChangeMsg.preparedProposals pbftMessage));
        match PBFTMessage.consensusProposal precommitMsg with
        | None => mret tt
        | Some precommitProposal =>
            proposal ← deref (PBFTMessage.consensusProposal _prePrepareMsg);
            if negb (PBFTProposal.index precommitProposal =? PBFTProposal.index proposal) ||
               negb (PBFTProposal.hash precommitProposal =? PBFTProposal.hash proposal)
            then mret tt
            else
              valid ← PBFTCacheProcessor.checkPrecommitMsg precommitMsg;
              if negb valid then mret tt
              else
                _prePrepareCallback (_prePrepareMsg <| PBFTMessage.consensusProposal :=
                  Some (proposal <| PBFTProposal.data :=
                                      PBFTProposal.data precommitProposal |>) |>)
        end
    | _ => crash NullDeref
    end.
End Methods.
End PBFTLogSync.
