(* ===== verification/Engine.v ===== *)
(** Engine: [pbft/engine/PBFTEngine.h/.cpp].  The handlers of consensus messages,
    of time-outs, of view changes, of executed proposals and of committed blocks.
    The handlers run on the cache processor's state (which holds the
    configuration) under the engine's mutex; the message queue is part of the
    engine's own record. *)
From S2P Require Import Prelude Types Timer Validator Config Cache Processor LogSync.

Module PBFTEngine.
Module P := PBFTCacheProcessor.
Notation M := (Eff Event PBFTCacheProcessor.t).

Definition c_timeoutAllowedPacket : list PacketType :=
  [ViewChangePacket; NewViewPacket; CommittedProposalRequest; CommittedProposalResponse;
   PreparedProposalRequest; PreparedProposalResponse; CheckPoint; RecoverRequest;
   RecoverResponse].

Definition c_consensusPacket : list PacketType := [PrePreparePacket; PreparePacket; CommitPacket].

Section Handlers.
Context `{Ext : Externals}.

Definition committedIndex : M BlockNumber := P.committedIndex.
Definition config_of (s : P.t) : PBFTConfig.t := P.m_config s.
Definition broadcast (m : Msg) : M unit :=
  s ← get; emit (SendMessageByNodeIDs (PBFTConfig.consensusNodeIDList (config_of s)) m).

(** ** Checks *)
Definition isSyncingHigher : M bool :=
  committed ← committedIndex;
  s ← get;
  mret (negb (PBFTConfig.syncingHighestNumber (config_of s)
              <? committed + PBFTConfig.m_warterMarkLimit (config_of s))).

Definition checkPBFTMsgState (c : PBFTConfig.t) (_pbftReq : PBFTMessage.t) : CheckResult :=
  match PBFTMessage.consensusProposal _pbftReq with
  | None => INVALID
  | Some _ =>
      let index := PBFTMessage.index _pbftReq in
      if (index <? PBFTConfig.m_lowWaterMark c) ||
         (index <? PBFTConfig.m_expectedCheckPoint c) ||
         (PBFTConfig.highWaterMark c <=? index) ||
         (index <=? PBFTConfig.syncingHighestNumber c)
      then INVALID
      else if PBFTMessage.view _pbftReq <? PBFTConfig.m_view c then INVALID
      else VALID
  end.

Definition checkPrePrepareMsg (s : P.t) (_prePrepareMsg : PBFTMessage.t) : CheckResult :=
  match checkPBFTMsgState (config_of s) _prePrepareMsg with
  | INVALID => INVALID
  | VALID =>
      if P.existPrePrepare s _prePrepareMsg then INVALID
      else if P.conflictWithProcessedReq s _prePrepareMsg then INVALID
      else if P.conflictWithPrecommitReq s _prePrepareMsg then INVALID
      else VALID
  end.

(** [verifySignature] of the message's interface under the key of its sender. *)
Definition checkSignature {A} `{PBFTBaseMessageInterface A} (c : PBFTConfig.t) (_req : A)
    : CheckResult :=
  match PBFTConfig.getConsensusNodeByIndex c (msg_generatedFrom _req) with
  | None => INVALID
  | Some nodeInfo =>
      if negb (verify (ConsensusNode.nodeID nodeInfo) (msg_signatureDataHash _req)
                 (msg_signatureData _req))
      then INVALID else VALID
  end.

Definition checkProposalSignature (c : PBFTConfig.t) (_generatedFrom : IndexType)
    (_proposal : option PBFTProposal.t) : bool :=
  match _proposal with
  | None => false
  | Some p =>
      if bool_decide (PBFTProposal.signature p = []) then false
      else
        match PBFTConfig.getConsensusNodeByIndex c _generatedFrom with
        | None => false
        | Some nodeInfo =>
            verify (ConsensusNode.nodeID nodeInfo) (PBFTProposal.hash p) (PBFTProposal.signature p)
        end
  end.

Definition checkPBFTMsg (s : P.t) (_prepareMsg : PBFTMessage.t) : CheckResult :=
  match checkPBFTMsgState (config_of s) _prepareMsg with
  | INVALID => INVALID
  | VALID =>
      if PBFTMessage.generatedFrom _prepareMsg =? PBFTConfig.nodeIndex (config_of s) then INVALID
      else if P.existPrePrepare s _prepareMsg && P.conflictWithProcessedReq s _prepareMsg
      then INVALID
      else checkSignature (config_of s) _prepareMsg
  end.

(** ** Pre-prepare *)
Definition broadcastPrepareMsg (_prePrepareMsg : PBFTMessage.t) : M unit :=
  s ← get;
  let c := config_of s in
  proposal ← deref (PBFTMessage.consensusProposal _prePrepareMsg);
  let prepareMsg :=
    populateSigned PreparePacket PBFTConfig.c_pbftMsgDefaultVersion (PBFTConfig.m_view c)
      (PBFTConfig.utcTime c) (PBFTConfig.nodeIndex c) proposal (PBFTConfig.nodeID c) true in
  let prepareMsg := PBFTMessage.setIndex (PBFTMessage.index _prePrepareMsg) prepareMsg in
  let encoded := PBFTMessage_encode (PBFTConfig.nodeID c) prepareMsg in
  P.addPrepareCache encoded ;;
  broadcast (MPBFT encoded) ;;
  P.checkAndPreCommit.

(** The branch that needs no further verification, lines 735-749. *)
Definition acceptPrePrepare (_prePrepareMsg : PBFTMessage.t) : M unit :=
  proposal ← deref (PBFTMessage.consensusProposal _prePrepareMsg);
  P.resetTxsFlag (PBFTProposal.data proposal) true ;;
  P.addPrePrepareCache _prePrepareMsg ;;
  P.on_timer PBFTTimer.restart ;;
  broadcastPrepareMsg _prePrepareMsg ;;
  P.checkAndPreCommit.

Definition handlePrePrepareMsg (_prePrepareMsg : PBFTMessage.t)
    (_needVerifyProposal _generatedFromNewView _needCheckSignature : bool) : M bool :=
  syncing ← isSyncingHigher;
  s ← get;
  if syncing : bool then mret false
  else if bool_decide (is_Some (P.m_executingProposals s !! PBFTMessage.hash _prePrepareMsg))
  then mret false
  else
    match checkPrePrepareMsg s _prePrepareMsg with
    | INVALID => mret false
    | VALID =>
        accepted ←
          (if _generatedFromNewView then mret true
           else
             expectedLeader ←
               zoom P.m_config (PBFTConfig.leaderIndex (PBFTMessage.index _prePrepareMsg));
             if negb (expectedLeader =? PBFTMessage.generatedFrom _prePrepareMsg) then mret false
             else if _needCheckSignature then
               match checkSignature (config_of s) _prePrepareMsg with
               | INVALID =>
                   zoom P.m_config
                     (PBFTConfig.notifySealer (PBFTMessage.index _prePrepareMsg) true) ;;
                   mret false
               | VALID => mret true
               end
             else mret true);
        if negb accepted then mret false
        else if negb _needVerifyProposal then acceptPrePrepare _prePrepareMsg ;; mret true
        else
          match PBFTConfig.getConsensusNodeByIndex (config_of s)
                  (PBFTMessage.generatedFrom _prePrepareMsg) with
          | None => mret false
          | Some leaderNodeInfo =>
              proposal ← deref (PBFTMessage.consensusProposal _prePrepareMsg);
              zoom P.m_config (zoom PBFTConfig.m_validator
                (TxsValidator.verifyProposal (Some (ConsensusNode.nodeID leaderNodeInfo)) proposal
                  (OnPrePrepareVerified _prePrepareMsg _generatedFromNewView))) ;;
              mret true
          end
    end.

(** The verification callback, lines 759-806. *)
Definition onPrePrepareVerified (_error _verifyResult : bool) (_prePrepareMsg : PBFTMessage.t)
    (_generatedFromNewView : bool) : M unit :=
  committed ← committedIndex;
  if PBFTMessage.index _prePrepareMsg <=? committed then mret tt
  else
    proposal ← deref (PBFTMessage.consensusProposal _prePrepareMsg);
    P.resetTxsFlag (PBFTProposal.data proposal) true ;;
    if _error || negb _verifyResult then
      zoom P.m_config (PBFTConfig.notifySealer (PBFTMessage.index _prePrepareMsg) true)
    else
      _ ← handlePrePrepareMsg _prePrepareMsg false _generatedFromNewView false;
      mret tt.

Definition resetSealedTxs (_prePrepareMsg : PBFTMessage.t) : M unit :=
  s ← get;
  if negb (PBFTMessage.generatedFrom _prePrepareMsg =? PBFTConfig.nodeIndex (config_of s))
  then mret tt
  else
    zoom P.m_config (PBFTConfig.notifyResetSealing None) ;;
    proposal ← deref (PBFTMessage.consensusProposal _prePrepareMsg);
    P.resetTxsFlag (PBFTProposal.data proposal) false.

(** [codec()->encode(pbftMessage)] after the message has been handled: encoding
    sets the hash fields and the signature of the message object, which the cache
    shares when it has accepted the message.  An entry of the cache with the type,
    the sender, the view and the hash of the message is that object: [checkPrePrepareMsg]
    rejects a message for which the cache already holds such an entry. *)
Definition same_message (m m' : PBFTMessage.t) : bool :=
  bool_decide (PBFTMessage.packetType m = PBFTMessage.packetType m') &&
  (PBFTMessage.generatedFrom m =? PBFTMessage.generatedFrom m') &&
  (PBFTMessage.view m =? PBFTMessage.view m') && (PBFTMessage.hash m =? PBFTMessage.hash m').

Definition encodeHandled (pbftMessage : PBFTMessage.t) : M PBFTMessage.t :=
  s ← get;
  let key := PBFTConfig.nodeID (config_of s) in
  let index := PBFTMessage.index pbftMessage in
  let share p := if same_message pbftMessage p then PBFTMessage_encode key p else p in
  match P.m_caches s !! index with
  | None => mret (PBFTMessage_encode key pbftMessage)
  | Some cache =>
      modify (fun s => s <| P.m_caches :=
        <[ index := cache
             <| PBFTCache.m_prePrepare := share <$> PBFTCache.m_prePrepare cache |>
             <| PBFTCache.m_precommit := share <$> PBFTCache.m_precommit cache |> ]>
          (P.m_caches s) |>) ;;
      mret (match PBFTCache.m_prePrepare cache with
            | Some p => if same_message pbftMessage p then PBFTMessage_encode key p
                        else PBFTMessage_encode key pbftMessage
            | None => PBFTMessage_encode key pbftMessage
            end)
  end.

Definition onRecvProposal (_containSysTxs : bool) (_proposalData : bytes)
    (_proposalIndex : BlockNumber) (_proposalHash : HashType) : M unit :=
  if bool_decide (_proposalData = []) then mret tt
  else
    committed ← committedIndex;
    s ← get;
    let c := config_of s in
    let consProposalIndex := committed + 1 in
    if _proposalIndex <=? PBFTConfig.syncingHighestNumber c then
      zoom P.m_config (PBFTConfig.notifyResetSealing (Some consProposalIndex)) ;;
      P.resetTxsFlag _proposalData false
    else if (_proposalIndex <=? committed) || (_proposalIndex <? PBFTConfig.m_expectedCheckPoint c)
            || (_proposalIndex <? PBFTConfig.m_lowWaterMark c) then mret tt
    else
      leader ← zoom P.m_config (PBFTConfig.leaderIndex _proposalIndex);
      if negb (leader =? PBFTConfig.nodeIndex c) then
        zoom P.m_config (PBFTConfig.notifyResetSealing (Some consProposalIndex)) ;;
        P.resetTxsFlag _proposalData false
      else if PBFTConfig.m_timeoutState c then
        zoom P.m_config (PBFTConfig.notifyResetSealing None) ;;
        P.resetTxsFlag _proposalData false
      else
        let pbftProposal :=
          PBFTProposal.create
            <| PBFTProposal.data := _proposalData |>
            <| PBFTProposal.index := _proposalIndex |>
            <| PBFTProposal.hash := _proposalHash |>
            <| PBFTProposal.sealerId := i64 (PBFTConfig.nodeIndex c) |>
            <| PBFTProposal.systemProposal := _containSysTxs |> in
        let pbftMessage :=
          populateWith PrePreparePacket pbftProposal PBFTConfig.c_pbftMsgDefaultVersion
            (PBFTConfig.m_view c) (PBFTConfig.utcTime c) (PBFTConfig.nodeIndex c) in
        ret ← handlePrePrepareMsg pbftMessage false false false;
        if ret : bool then
          encoded ← encodeHandled pbftMessage;
          broadcast (MPBFT encoded)
        else resetSealedTxs pbftMessage.

(** ** Prepare *)
Definition handlePrepareMsg (_prepareMsg : PBFTMessage.t) : M bool :=
  s ← get;
  match checkPBFTMsg s _prepareMsg with
  | INVALID => mret false
  | VALID =>
      if negb (checkProposalSignature (config_of s) (PBFTMessage.generatedFrom _prepareMsg)
                 (PBFTMessage.consensusProposal _prepareMsg)) then mret false
      else
        P.addPrepareCache _prepareMsg ;;
        P.checkAndPreCommit ;;
        mret true
  end.

(** ** New view: replaying the pre-prepares, lines 1173-1237 *)
Definition reachNewView (_view : ViewType) : M unit :=
  P.on_config (PBFTConfig.resetNewViewState _view) ;;
  committed ← committedIndex;
  s ← get;
  P.resetCacheAfterViewChange (PBFTConfig.m_view (config_of s)) committed.

Definition reHandlePrePrepare (prePrepare : PBFTMessage.t) : M unit :=
  proposal ← deref (PBFTMessage.consensusProposal prePrepare);
  if negb (bool_decide (PBFTProposal.data proposal = [])) then
    _ ← handlePrePrepareMsg prePrepare true true false; mret tt
  else
    filled ← P.tryToFillProposal prePrepare;
    match filled with
    | Some prePrepare => _ ← handlePrePrepareMsg prePrepare true true false; mret tt
    | None =>
        s ← get;
        from ← deref (PBFTConfig.getConsensusNodeByIndex (config_of s)
                        (PBFTMessage.generatedFrom prePrepare));
        PBFTLogSync.requestPrecommitData (Some (ConsensusNode.nodeID from)) prePrepare
    end.

(** The largest index of the committed proposal and the pre-prepares. *)
Definition maxProposalIndex (committed : BlockNumber) (l : list PBFTMessage.t) : BlockNumber :=
  fold_left (fun m p => if m <? PBFTMessage.index p then PBFTMessage.index p else m) l committed.

Definition reHandlePrePrepareProposals (_newViewReq : NewViewMsg.t) : M unit :=
  reachNewView (NewViewMsg.view _newViewReq) ;;
  zoom P.m_config (PBFTConfig.notifyResetSealing None) ;;
  let prePrepareList := NewViewMsg.prePrepareList _newViewReq in
  committed ← committedIndex;
  for_each prePrepareList reHandlePrePrepare ;;
  let maxIndex := maxProposalIndex committed prePrepareList in
  if negb (bool_decide (prePrepareList = [])) then
    P.on_config (fun c => c <| PBFTConfig.m_waitResealUntil := maxIndex |>)
  else zoom P.m_config (PBFTConfig.reNotifySealer (maxIndex + 1)).

(** The response to a request for precommit data. *)
Definition onRecvPrecommitResponse (_error : bool) (_nodeID : option NodeID) (_data : Wire)
    (_prePrepareMsg : PBFTMessage.t) : M unit :=
  PBFTLogSync.onRecvPrecommitResponse
    (fun prePrepare => _ ← handlePrePrepareMsg prePrepare true true false; mret tt)
    _error _nodeID _data _prePrepareMsg.

(** ** View change *)
Definition generateViewChange : M ViewChangeMsg.t :=
  s ← get;
  let c := config_of s in
  proposal ← deref (PBFTConfig.committedProposal c);
  committedProposal ←
    (match PBFTConfig.populateCommittedProposal c with
     | None => crash OutOfRange
     | Some p => mret p
     end);
  mret (ViewChangeMsg.create
    <| ViewChangeMsg.packetType := ViewChangePacket |>
    <| ViewChangeMsg.base :=
         BaseMessage.create PBFTConfig.c_pbftMsgDefaultVersion (PBFTProposal.index proposal)
           (PBFTProposal.hash proposal) (PBFTConfig.m_toView c) (PBFTConfig.utcTime c)
           (PBFTConfig.nodeIndex c) |>
    <| ViewChangeMsg.committedProposal := Some committedProposal |>
    <| ViewChangeMsg.preparedProposals := P.preCommitCachesWithoutData s |>).

(** The end of [sendViewChange] and [broadcastViewChangeReq]. *)
Definition collectOwnViewChange (viewChangeReq : ViewChangeMsg.t) : M unit :=
  P.addViewChangeReq viewChangeReq ;;
  newViewMsg ← P.checkAndTryIntoNewView;
  match newViewMsg with
  | Some newViewMsg => reHandlePrePrepareProposals newViewMsg
  | None => mret tt
  end.

Definition sendViewChange (_dstNode : option NodeID) : M unit :=
  viewChangeReq ← generateViewChange;
  s ← get;
  let encoded := encode_viewChange (PBFTConfig.nodeID (config_of s)) viewChangeReq in
  emit (SendMessageByNodeID _dstNode (MViewChange encoded)) ;;
  collectOwnViewChange encoded.

Definition broadcastViewChangeReq : M unit :=
  viewChangeReq ← generateViewChange;
  s ← get;
  let encoded := encode_viewChange (PBFTConfig.nodeID (config_of s)) viewChangeReq in
  broadcast (MViewChange encoded) ;;
  collectOwnViewChange encoded.

Definition sendRecoverResponse (_dstNode : option NodeID) : M unit :=
  committed ← committedIndex;
  s ← get;
  let c := config_of s in
  let response :=
    PBFTMessage.create
      <| PBFTMessage.packetType := RecoverResponse |>
      <| PBFTMessage.base :=
           BaseMessage.create 0 committed 0 (PBFTConfig.m_view c) (PBFTConfig.utcTime c)
             (PBFTConfig.nodeIndex c) |> in
  emit (SendMessageByNodeID _dstNode (MPBFT (PBFTMessage_encode (PBFTConfig.nodeID c) response))) ;;
  log_deref DEBUG _dstNode.

Definition triggerTimeout (_incTimeout : bool) : M unit :=
  P.on_config (PBFTConfig.resetTimeoutState _incTimeout) ;;
  committed ← committedIndex;
  s ← get;
  P.removeInvalidViewChange (PBFTConfig.m_view (config_of s)) committed ;;
  P.notifyCommittedProposalIndex committed ;;
  broadcastViewChangeReq.

(** The handler registered with the configuration by the constructor. *)
Definition fastViewChangeHandler : M unit := triggerTimeout false.

(** All prepared proposals of a view-change request are valid. *)
Fixpoint checkPrepared (l : list PBFTMessage.t) : M bool :=
  match l with
  | [] => mret true
  | precommitMsg :: l =>
      valid ← P.checkPrecommitMsg precommitMsg;
      if negb valid then mret false else checkPrepared l
  end.

Definition isValidViewChangeMsg (_fromNode : option NodeID) (_viewChangeMsg : ViewChangeMsg.t)
    (_shouldCheckSig : bool) : M bool :=
  committed ← committedIndex;
  proposal ← deref (ViewChangeMsg.committedProposal _viewChangeMsg);
  s ← get;
  let c := config_of s in
  let view := ViewChangeMsg.view _viewChangeMsg in
  if PBFTProposal.index proposal <? committed then mret false
  else
    when (((view <? PBFTConfig.m_view c) || (u64 (view + 1) <? PBFTConfig.m_toView c))
          && bool_decide (is_Some _fromNode))
      (if PBFTConfig.m_timeoutState c then sendViewChange _fromNode
       else sendRecoverResponse _fromNode) ;;
    s ← get;
    let c := config_of s in
    if view <? PBFTConfig.m_view c then mret false
    else
      local ← deref (PBFTConfig.committedProposal c);
      if (PBFTProposal.index proposal =? PBFTProposal.index local) &&
         negb (PBFTProposal.hash proposal =? PBFTProposal.hash local) then mret false
      else
        prepared ← checkPrepared (ViewChangeMsg.preparedProposals _viewChangeMsg);
        if negb prepared then mret false
        else if negb _shouldCheckSig then mret true
        else
          match checkSignature c _viewChangeMsg with
          | INVALID => mret false
          | VALID => mret true
          end.

Definition handleViewChangeMsg (_viewChangeMsg : ViewChangeMsg.t) : M bool :=
  valid ← isValidViewChangeMsg (ViewChangeMsg.from _viewChangeMsg) _viewChangeMsg true;
  if negb valid then mret false
  else
    P.addViewChangeReq _viewChangeMsg ;;
    leader ← zoom P.m_config PBFTConfig.getLeader;
    when (ViewChangeMsg.generatedFrom _viewChangeMsg =? leader)
      (view ← P.tryToTriggerFastViewChange;
       when (0 <? view) (triggerTimeout true)) ;;
    newViewMsg ← P.checkAndTryIntoNewView;
    match newViewMsg with
    | Some newViewMsg => reHandlePrePrepareProposals newViewMsg ;; mret true
    | None => mret true
    end.

(** The loop over the view-change requests of a new-view message: the weight of
    their senders, or [None] when one of them is not valid. *)
Fixpoint viewChangeWeight (_from : option NodeID) (l : list ViewChangeMsg.t) (weight : Z)
    : M (option Z) :=
  match l with
  | [] => mret (Some weight)
  | viewChangeReq :: l =>
      valid ← isValidViewChangeMsg _from viewChangeReq true;
      if negb valid then mret None
      else
        s ← get;
        match PBFTConfig.getConsensusNodeByIndex (config_of s)
                (ViewChangeMsg.generatedFrom viewChangeReq) with
        | None => viewChangeWeight _from l weight
        | Some nodeInfo => viewChangeWeight _from l (u64 (weight + ConsensusNode.weight nodeInfo))
        end
  end.

Definition isValidNewViewMsg (_newViewMsg : NewViewMsg.t) : M bool :=
  let progressedIndex := NewViewMsg.index _newViewMsg + 1 in
  let view := NewViewMsg.view _newViewMsg in
  expectedLeader ← zoom P.m_config (PBFTConfig.leaderIndexInNewViewPeriod_at progressedIndex view);
  s ← get;
  if negb (expectedLeader =? NewViewMsg.generatedFrom _newViewMsg) then mret false
  else if view <=? PBFTConfig.m_view (config_of s) then mret false
  else
    weight ← viewChangeWeight (NewViewMsg.from _newViewMsg)
               (NewViewMsg.viewChangeMsgList _newViewMsg) 0;
    s ← get;
    match weight with
    | None => mret false
    | Some weight =>
        if weight <? PBFTConfig.m_minRequiredQuorum (config_of s) then mret false
        else
          match checkSignature (config_of s) _newViewMsg with
          | INVALID => mret false
          | VALID => mret true
          end
    end.

Definition handleNewViewMsg (_newViewMsg : NewViewMsg.t) : M bool :=
  valid ← isValidNewViewMsg _newViewMsg;
  if negb valid then mret false
  else reHandlePrePrepareProposals _newViewMsg ;; mret true.

(** ** Commit and checkpoint *)
Definition handleCommitMsg (_commitMsg : PBFTMessage.t) : M bool :=
  s ← get;
  match checkPBFTMsg s _commitMsg with
  | INVALID => mret false
  | VALID =>
      P.addCommitReq _commitMsg ;;
      P.checkAndCommit fastViewChangeHandler ;;
      mret true
  end.

Definition handleCheckPointMsg (_checkPointMsg : PBFTMessage.t) : M bool :=
  committed ← committedIndex;
  if PBFTMessage.index _checkPointMsg <=? committed then mret false
  else
    syncing ← isSyncingHigher;
    s ← get;
    if syncing : bool then mret false
    else
      match checkSignature (config_of s) _checkPointMsg with
      | INVALID => mret false
      | VALID =>
          if negb (checkProposalSignature (config_of s) (PBFTMessage.generatedFrom _checkPointMsg)
                     (PBFTMessage.consensusProposal _checkPointMsg)) then mret false
          else
            P.addCheckPointMsg _checkPointMsg ;;
            _ ← P.tryToApplyCommitQueue;
            P.checkAndCommitStableCheckPoint ;;
            request ← P.shouldRequestCheckPoint _checkPointMsg;
            when request
              (PBFTLogSync.requestCommittedProposals (PBFTMessage.from _checkPointMsg)
                 (PBFTMessage.index _checkPointMsg) 1) ;;
            mret true
      end.

(** ** Recovery *)
Definition handleRecoverResponse (_recoverResponse : PBFTMessage.t) : M unit :=
  s ← get;
  match checkSignature (config_of s) _recoverResponse with
  | INVALID => mret tt
  | VALID =>
      P.addRecoverReqCache _recoverResponse ;;
      _ ← P.checkAndTryToRecover;
      mret tt
  end.

Definition handleRecoverRequest (_request : PBFTMessage.t) : M unit :=
  s ← get;
  match checkSignature (config_of s) _request with
  | INVALID => mret tt
  | VALID =>
      sendRecoverResponse (PBFTMessage.from _request) ;;
      log_deref INFO (PBFTMessage.from _request)
  end.

(** ** Dispatch, lines 507-569 *)
Definition ignore {A} (m : M A) : M unit := _ ← m; mret tt.

Definition handleMsg (_msg : Msg) : M unit :=
  match msg_packetType _msg, _msg with
  | PrePreparePacket, MPBFT m => ignore (handlePrePrepareMsg m true false true)
  | PreparePacket, MPBFT m => ignore (handlePrepareMsg m)
  | CommitPacket, MPBFT m => ignore (handleCommitMsg m)
  | ViewChangePacket, MViewChange m => ignore (handleViewChangeMsg m)
  | NewViewPacket, MNewView m => ignore (handleNewViewMsg m)
  | CheckPoint, MPBFT m => ignore (handleCheckPointMsg m)
  | RecoverRequest, MPBFT m => handleRecoverRequest m
  | RecoverResponse, MPBFT m => handleRecoverResponse m
  | (CommittedProposalRequest | CommittedProposalResponse | PreparedProposalRequest
     | PreparedProposalResponse), _ => mret tt
  | _, _ => crash NullDeref
  end.

(** ** Time-out, lines 885-926 *)
Definition onTimeout : M unit :=
  s ← get;
  if negb (PBFTConfig.isConsensusNode (config_of s)) then P.on_timer PBFTTimer.restart
  else
    applied ← P.tryToApplyCommitQueue;
    if applied : bool then P.on_timer PBFTTimer.restart
    else
      P.clearExpiredExecutingProposal ;;
      s ← get;
      if 0 <? P.executingProposalSize s then P.on_timer PBFTTimer.restart
      else triggerTimeout true.

(** ** Executed proposals, lines 127-186 *)
Definition onLoadAndVerifyProposalSucc (_proposal : PBFTProposal.t) : M unit :=
  P.updateCommitQueue _proposal.

Definition onProposalApplyFailed (_proposal : PBFTProposal.t) : M unit :=
  committed ← committedIndex;
  s ← get;
  let index := PBFTProposal.index _proposal in
  when ((committed <=? index) || (PBFTConfig.syncingHighestNumber (config_of s) <=? index))
    (P.on_timer PBFTTimer.restart ;;
     P.eraseExecutedProposal (PBFTProposal.hash _proposal) ;;
     P.updateCommitQueue _proposal) ;;
  zoom P.m_config (PBFTConfig.setExpectedCheckPoint (committed + 1)) ;;
  P.eraseExecutedProposal (PBFTProposal.hash _proposal).

Definition onProposalApplySuccess (_proposal _executedProposal : PBFTProposal.t) : M unit :=
  emit (AsyncCommitProposal _proposal) ;;
  s ← get;
  let c := config_of s in
  let checkPointMsg :=
    populateSigned CheckPoint PBFTConfig.c_pbftMsgDefaultVersion (PBFTConfig.m_view c)
      (PBFTConfig.utcTime c) (PBFTConfig.nodeIndex c) _executedProposal (PBFTConfig.nodeID c)
      true in
  let encoded := PBFTMessage_encode (PBFTConfig.nodeID c) checkPointMsg in
  broadcast (MPBFT encoded) ;;
  when (PBFTTimer.running (PBFTConfig.m_timer c)) (P.on_timer PBFTTimer.restart) ;;
  P.addCheckPointMsg encoded ;;
  P.setCheckPointProposal _executedProposal ;;
  zoom P.m_config
    (PBFTConfig.setExpectedCheckPoint (PBFTProposal.index _executedProposal + 1)) ;;
  P.checkAndCommitStableCheckPoint ;;
  _ ← P.tryToApplyCommitQueue;
  P.eraseExecutedProposal (PBFTProposal.hash _proposal).

(** The worker's task of [onProposalApplied]. *)
Definition onProposalApplied (_execSuccess : bool) (_proposal _executedProposal : PBFTProposal.t)
    : M unit :=
  if negb _execSuccess then onProposalApplyFailed _proposal
  else onProposalApplySuccess _proposal _executedProposal.

(** ** A block is committed, lines 327-341 and 1239-1254 *)
Definition finalizeConsensus (_ledgerConfig : LedgerConfig.t) (_syncedBlock : bool) : M unit :=
  zoom P.m_config (PBFTConfig.resetConfig _ledgerConfig _syncedBlock) ;;
  _ ← P.tryToApplyCommitQueue;
  s ← get;
  P.removeConsensusedCache (PBFTConfig.m_view (config_of s))
    (LedgerConfig.blockNumber _ledgerConfig) ;;
  P.tryToCommitStableCheckPoint ;;
  P.resetTimer fastViewChangeHandler ;;
  when _syncedBlock P.removeFutureProposals.

Definition asyncNotifyNewBlock (_ledgerConfig : LedgerConfig.t) : M unit :=
  s ← get;
  when (PBFTConfig.shouldResetConfig (config_of s) (LedgerConfig.blockNumber _ledgerConfig))
    (finalizeConsensus _ledgerConfig true).

(** ** Requests of peers, lines 1334-1401 *)
Definition sendCommittedProposalResponse (_proposalList : list PBFTProposal.t) : M unit :=
  s ← get;
  let pbftMessage :=
    PBFTMessage.create
      <| PBFTMessage.packetType := CommittedProposalResponse |>
      <| PBFTMessage.proposals := _proposalList |> in
  emit (SendResponse (Some (MPBFT (PBFTMessage_encode (PBFTConfig.nodeID (config_of s))
                                     pbftMessage)))).

Definition onReceiveCommittedProposalRequest (_pbftMsg : Msg) : M unit :=
  match _pbftMsg with
  | MRequest pbftRequest =>
      s ← get;
      match P.fetchPrecommitProposal s (PBFTRequest.index pbftRequest) with
      | Some proposal =>
          if PBFTRequest.size pbftRequest =? 1 then sendCommittedProposalResponse [proposal]
          else emit (AsyncGetCommittedProposals (PBFTRequest.index pbftRequest)
                       (PBFTRequest.size pbftRequest))
      | None =>
          emit (AsyncGetCommittedProposals (PBFTRequest.index pbftRequest)
                  (PBFTRequest.size pbftRequest))
      end
  | _ => crash NullDeref
  end.

(** The storage's callback, lines 1362-1375. *)
Definition onGetCommittedProposals (_proposalList : option (list PBFTProposal.t)) : M unit :=
  match _proposalList with
  | None | Some [] => emit (SendResponse None)
  | Some l => sendCommittedProposalResponse l
  end.

Definition onReceivePrecommitRequest (_pbftMessage : Msg) : M unit :=
  match _pbftMessage with
  | MRequest pbftRequest =>
      s ← get;
      match P.fetchPrecommitData s (PBFTRequest.index pbftRequest)
              (PBFTRequest.hash pbftRequest) with
      | None => mret tt
      | Some precommitMsg =>
          let precommitMsg :=
            precommitMsg <| ViewChangeMsg.packetType := PreparedProposalResponse |> in
          emit (SendResponse (Some (MViewChange
            (encode_viewChange (PBFTConfig.nodeID (config_of s)) precommitMsg))))
      end
  | _ => crash NullDeref
  end.
End Handlers.

(** * The engine object: the cache processor and the message queue *)
Record t : Type := mk {
  m_cacheProcessor : PBFTCacheProcessor.t;
  m_msgQueue : list Msg;
  m_started : bool;
  m_stopped : bool
}.
#[global] Instance eta_t : Eta t := fun r =>
  mk (m_cacheProcessor r) (m_msgQueue r) (m_started r) (m_stopped r).

Section Engine.
Context `{Ext : Externals}.

(** The constructor registers the fast-view-change handler and starts in the
    time-out state. *)
Definition create (config : PBFTConfig.t) : t :=
  mk (PBFTCacheProcessor.create
        (config <| PBFTConfig.m_fastViewChangeHandler := true |>
                <| PBFTConfig.m_timeoutState := true |>)) [] false false.

Definition start : Eff Event t unit :=
  modify (fun e => e <| m_started := true |>) ;;
  zoom m_cacheProcessor (P.on_timer PBFTTimer.start).

Definition stop : Eff Event t unit :=
  e ← get;
  if m_stopped e then mret tt
  else
    modify (fun e => e <| m_stopped := true |> <| m_started := false |>) ;;
    zoom m_cacheProcessor (P.on_config PBFTConfig.stop).

(** [pbftMsg->setFrom(_fromNode)]. *)
Definition setFrom (_fromNode : option NodeID) (m : Msg) : Msg :=
  match m with
  | MPBFT m => MPBFT (m <| PBFTMessage.from := _fromNode |>)
  | MViewChange m => MViewChange (m <| ViewChangeMsg.from := _fromNode |>)
  | MNewView m => MNewView (m <| NewViewMsg.from := _fromNode |>)
  | MRequest m => MRequest (m <| PBFTRequest.from := _fromNode |>)
  end.

Definition pushMsg (m : Msg) : Eff Event t unit :=
  modify (fun e => e <| m_msgQueue := m_msgQueue e ++ [m] |>).

(** [onReceivePBFTMessage], lines 366-441: exceptions are caught and logged. *)
Definition onReceivePBFTMessage (_error : bool) (_fromNode : option NodeID) (_data : Wire)
    : Eff Event t unit :=
  try_catch
    (e ← get;
     if _error then mret tt
     else if negb (PBFTConfig.isConsensusNode (P.m_config (m_cacheProcessor e))) then mret tt
     else
       pbftMsg ← zoom m_cacheProcessor (PBFTLogSync.decode _data);
       let pbftMsg := setFrom _fromNode pbftMsg in
       if bool_decide (msg_packetType pbftMsg = CommittedProposalRequest) ||
          bool_decide (msg_packetType pbftMsg = PreparedProposalRequest)
       then emit (EnqueueRequest pbftMsg)
       else pushMsg pbftMsg)
    (fun _ => mret tt).

(** [executeWorker], lines 443-505: one iteration of the worker's loop. *)
Definition executeWorker : Eff Event t unit :=
  e ← get;
  let c := P.m_config (m_cacheProcessor e) in
  if negb (PBFTConfig.isConsensusNode c) then mret tt
  else
    syncing ← zoom m_cacheProcessor isSyncingHigher;
    if syncing : bool then mret tt
    else
      match m_msgQueue e with
      | [] => mret tt
      | pbftMsg :: rest =>
          modify (fun e => e <| m_msgQueue := rest |>) ;;
          let packetType := msg_packetType pbftMsg in
          if PBFTConfig.m_timeoutState c then
            if bool_decide (packetType ∈ c_timeoutAllowedPacket) then
              zoom m_cacheProcessor (handleMsg pbftMsg)
            else
              committed ← zoom m_cacheProcessor committedIndex;
              when (committed <? msg_index pbftMsg) (pushMsg pbftMsg)
          else
            postponed ←
              (if bool_decide (packetType ∈ c_consensusPacket) then
                 can ← zoom m_cacheProcessor (zoom P.m_config
                         (PBFTConfig.canHandleNewProposalMsg (msg_index pbftMsg)));
                 mret (negb can)
               else mret false);
            if postponed : bool then pushMsg pbftMsg
            else zoom m_cacheProcessor (handleMsg pbftMsg)
      end.

(** [ConsensusEngine::workerProcessLoop]: exceptions are caught and logged. *)
Definition workerStep : Eff Event t unit := try_catch executeWorker (fun _ => mret tt).
End Engine.
End PBFTEngine.
