(* ===== verification/Impl.v ===== *)
(** Impl: [pbft/PBFTImpl.h/.cpp], the face of the module towards the other services,
    and the node as a whole: [input] lists everything that can happen to a running
    node - a call of another service, a callback, a task of a worker thread, a timer -
    and [handle] is the code that runs. *)
From S2P Require Import Prelude Types Timer Validator Config Cache Processor LogSync Engine.

Module PBFTImpl.
Module E := PBFTEngine.
Notation M := (Eff Event PBFTEngine.t).

Section Methods.
Context `{Ext : Externals}.

Definition on_processor {A} (m : Eff Event PBFTCacheProcessor.t A) : M A :=
  zoom E.m_cacheProcessor m.
Definition on_config {A} (m : Eff Event PBFTConfig.t A) : M A :=
  on_processor (zoom PBFTCacheProcessor.m_config m).

(** [init]: [_ledgerConfig] is what the ledger fetcher returns, [_stateProposals]
    what [loadState] returns. *)
Definition init (_ledgerConfig : LedgerConfig.t) (_stateProposals : option (list PBFTProposal.t))
    : M unit :=
  on_config (zoom PBFTConfig.m_validator TxsValidator.init) ;;
  on_config (PBFTConfig.resetConfig _ledgerConfig false) ;;
  (match _stateProposals with
   | Some stateProposals =>
       match stateProposals !! pred (length stateProposals) with
       | Some lastProposal =>
           e ← get;
           on_processor (PBFTCacheProcessor.initState stateProposals
             (Some (PBFTConfig.nodeID (PBFTCacheProcessor.m_config (E.m_cacheProcessor e))))) ;;
           on_config (modify (fun c =>
             c <| PBFTConfig.m_lowWaterMark := PBFTProposal.index lastProposal + 1 |>))
       | None => mret tt
       end
   | None => mret tt
   end) ;;
  on_config (modify (PBFTConfig.on_timer PBFTTimer.start)).

Definition asyncSubmitProposal (_containSysTxs : bool) (_proposalData : bytes)
    (_proposalIndex : BlockNumber) (_proposalHash : HashType) : M unit :=
  on_processor (E.onRecvProposal _containSysTxs _proposalData _proposalIndex _proposalHash).

Definition asyncNotifyNewBlock (_ledgerConfig : LedgerConfig.t) : M unit :=
  on_processor (E.asyncNotifyNewBlock _ledgerConfig).

Definition notifyHighestSyncingNumber (_blockNumber : BlockNumber) : M unit :=
  on_config (modify (fun c => c <| PBFTConfig.base := (PBFTConfig.base c)
    <| ConsensusConfig.m_syncingHighestNumber := _blockNumber |> |>)).

Definition asyncNoteUnSealedTxsSize (_unsealedTxsSize : Z) : M unit :=
  on_config (modify (PBFTConfig.setUnSealedTxsSize _unsealedTxsSize)).

Definition notifyConnectedNodes (_connectedNodes : gset NodeID) : M unit :=
  on_config (modify (fun c => c <| PBFTConfig.m_connectedNodeList := _connectedNodes |>)).

(** ** Everything that can happen to a running node *)
Inductive input : Type :=
  (* calls of other services *)
  | SubmitProposal (_containSysTxs : bool) (_proposalData : bytes)
      (_proposalIndex : BlockNumber) (_proposalHash : HashType)
  | ConsensusMessage (_error : bool) (_nodeID : option NodeID) (_data : Wire)
  | NotifyNewBlockSynced (_ledgerConfig : LedgerConfig.t)
  | NotifyHighestSyncingNumber (_blockNumber : BlockNumber)
  | NoteUnSealedTxsSize (_unsealedTxsSize : Z)
  | NotifyConnectedNodes (_connectedNodes : gset NodeID)
  (* the worker threads *)
  | Worker
  | PeerRequest (m : Msg)
  | ProposalApplied (_execSuccess : bool) (_proposal _executedProposal : PBFTProposal.t)
  | ResetTxsTask (block : Block.t) (_flag : bool)
  (* timers and the clock *)
  | Timeout
  | CheckPointTimeout (index : BlockNumber)
  | Tick (now : Z)
  (* callbacks of other services *)
  | PrePrepareVerified (_error _verifyResult : bool) (_prePrepareMsg : PBFTMessage.t)
      (_generatedFromNewView : bool)
  | ProposalVerified (_error : PBFTCacheProcessor.VerifyError) (_verifyResult : bool)
      (_fromNode : option NodeID) (_proposal : PBFTProposal.t) (_retryTime : Z)
  | ApplyFinished (_ret : bool) (_proposal executedProposal : PBFTProposal.t)
  | TxsMarked (_error : bool) (_block : Block.t) (_txsHashList : list HashType) (_flag : bool)
      (_retryTime : Z)
  | SealerReset (_error : bool) (_consIndex : option BlockNumber) (committedIndex : BlockNumber)
  | SealProposalNotified (_error : bool)
      (_proposalIndex _proposalEndIndex _maxTxsToSeal _retryTime : Z)
  | StableCheckPointCommitted (_ledgerConfig : LedgerConfig.t)
  | GetCommittedProposals (_proposalList : option (list PBFTProposal.t))
  | CommittedProposalsResponse (_error : bool) (_nodeID : option NodeID) (_data : Wire)
      (_startIndex _offset : Z)
  | PrecommitResponse (_error : bool) (_nodeID : option NodeID) (_data : Wire)
      (_prePrepareMsg : PBFTMessage.t).

Definition handle (i : input) : M unit :=
  match i with
  | SubmitProposal s d i h => asyncSubmitProposal s d i h
  | ConsensusMessage e n d => E.onReceivePBFTMessage e n d
  | NotifyNewBlockSynced c => asyncNotifyNewBlock c
  | NotifyHighestSyncingNumber n => notifyHighestSyncingNumber n
  | NoteUnSealedTxsSize n => asyncNoteUnSealedTxsSize n
  | NotifyConnectedNodes l => notifyConnectedNodes l
  | Worker => E.workerStep
  | PeerRequest m =>
      if bool_decide (msg_packetType m = CommittedProposalRequest)
      then on_processor (E.onReceiveCommittedProposalRequest m)
      else on_processor (E.onReceivePrecommitRequest m)
  | ProposalApplied ok p q => on_processor (E.onProposalApplied ok p q)
  | ResetTxsTask b f => on_config (zoom PBFTConfig.m_validator (TxsValidator.resetTxsTask b f))
  | Timeout => on_processor E.onTimeout
  | CheckPointTimeout i => on_processor (PBFTCacheProcessor.onCheckPointTimeout i)
  | Tick now => on_config (modify (fun c => c <| PBFTConfig.utcTime := now |>))
  | PrePrepareVerified e v m g => on_processor (E.onPrePrepareVerified e v m g)
  | ProposalVerified e v n p r => on_processor (PBFTCacheProcessor.onProposalVerified e v n p r)
  | ApplyFinished ok p q => on_processor (PBFTCacheProcessor.onApplyFinished ok p q)
  | TxsMarked e b l f r =>
      on_config (zoom PBFTConfig.m_validator (TxsValidator.onMarkTxs e b l f r))
  | SealerReset e i n => on_config (PBFTConfig.onSealerReset e i n)
  | SealProposalNotified e i j m r => on_config (PBFTConfig.onSealProposalNotified e i j m r)
  | StableCheckPointCommitted c => on_processor (E.finalizeConsensus c false)
  | GetCommittedProposals l => on_processor (E.onGetCommittedProposals l)
  | CommittedProposalsResponse e n d i o =>
      on_processor (PBFTLogSync.onRecvCommittedProposalsResponse e n d i o)
  | PrecommitResponse e n d m => on_processor (E.onRecvPrecommitResponse e n d m)
  end.

(** A run handles one input after the other; an exception ends the handler, a fault
    the node. *)
Fixpoint run (l : list input) (e : E.t) : option (E.t * list Event) :=
  match l with
  | [] => Some (e, [])
  | i :: l =>
      match handle i e with
      | Done _ e' es | Threw _ e' es =>
          match run l e' with
          | Some (e'', es') => Some (e'', es ++ es')
          | None => None
          end
      | Crashed _ => None
      end
  end.
End Methods.
End PBFTImpl.
