(* ===== verification/Blocks.v ===== *)
(** Blocks: what the components read and write of blocks and block headers, as the
    framework's [Block], [BlockHeader] and [BlockFactory] interfaces offer it. *)
From S2P Require Import Prelude Types.

(** A decoding function answers [None] where the framework throws.
    [mutateHeader f b] is the block after its header object has been changed by [f];
    a block may lack a header. *)
Class Blocks : Type := {
  BlockHeader : Type;
  FullBlock : Type;
  createBlockHeader : bytes -> option BlockHeader;
  createFullBlock : bytes -> option FullBlock;
  encodeHeader : BlockHeader -> bytes;
  header_number : BlockHeader -> BlockNumber;
  header_hash : BlockHeader -> HashType;
  header_sealer : BlockHeader -> Z;
  header_sealerList : BlockHeader -> list NodeID;
  header_consensusWeights : BlockHeader -> list Z;
  header_signatureList : BlockHeader -> list (Z * bytes);
  setSignatureList : list (Z * bytes) -> BlockHeader -> BlockHeader;
  setParentInfo : list (BlockNumber * HashType) -> BlockHeader -> BlockHeader;
  blockHeader : FullBlock -> option BlockHeader;
  mutateHeader : (BlockHeader -> BlockHeader) -> FullBlock -> FullBlock;
  transactionsSize : FullBlock -> Z;
  transactionsHashSize : FullBlock -> Z
}.

(** What the interfaces document: a header keeps its number and hash when signatures
    are attached, and answers the signatures it was given; its parent information does
    not change its number; the header read from a block is the one that was changed. *)
Class BlockLaws `{Bl : Blocks} : Prop := {
  number_setSignatureList : forall l h, header_number (setSignatureList l h) = header_number h;
  hash_setSignatureList : forall l h, header_hash (setSignatureList l h) = header_hash h;
  signatureList_set : forall l h, header_signatureList (setSignatureList l h) = l;
  number_setParentInfo : forall l h, header_number (setParentInfo l h) = header_number h;
  header_mutated : forall f b, blockHeader (mutateHeader f b) = f <$> blockHeader b
}.

(** * A concrete block format: the bytes are number, hash and sealer, then one byte per
    transaction. *)
Module BlockDemo.
Record Header : Type := mkHeader {
  number : Z; hash : Z; sealer : Z; sealers : list Z; weights : list Z;
  signatures : list (Z * bytes); parents : list (Z * Z) }.
Record Full : Type := mkFull { header : option Header; txs : Z }.

Definition decode_header (b : bytes) : option Header :=
  match b with
  | n :: h :: s :: _ =>
      Some (mkHeader (Demo.num_of n) (Demo.num_of h) (Demo.num_of s) [1; 2; 3; 4] [1; 1; 1; 1] [] [])
  | _ => None
  end.

#[local] Instance blocks : Blocks := {|
  BlockHeader := Header;
  FullBlock := Full;
  createBlockHeader := decode_header;
  createFullBlock := fun b => Some (mkFull (decode_header b) (Z.of_nat (length b) - 3));
  encodeHeader := fun h => [Demo.byte_of (number h); Demo.byte_of (hash h); Demo.byte_of (sealer h)];
  header_number := number; header_hash := hash; header_sealer := sealer;
  header_sealerList := sealers; header_consensusWeights := weights;
  header_signatureList := signatures;
  setSignatureList := fun l h =>
    mkHeader (number h) (hash h) (sealer h) (sealers h) (weights h) l (parents h);
  setParentInfo := fun l h =>
    mkHeader (number h) (hash h) (sealer h) (sealers h) (weights h) (signatures h) l;
  blockHeader := header;
  mutateHeader := fun f b => mkFull (f <$> header b) (txs b);
  transactionsSize := txs;
  transactionsHashSize := txs |}.

#[local] Instance block_laws : BlockLaws.
Proof. by split. Qed.
End BlockDemo.
