(* ===== verification/StateMachine.v ===== *)
(** StateMachine: [core/StateMachine.h/.cpp].  Proposals that consensus has committed are
    queued for a worker thread, executed by the scheduler on top of the proposal before,
    and answered through a callback. *)
From S2P Require Import Prelude Types Blocks.

Module StateMachine.
Section Methods.
Context `{Bl : Blocks}.

(** A call of [asyncApply]: [_executedProposal] is the object the caller shares with the
    state machine, [_onExecuteFinished] whether there is a callback. *)
Record Task : Type := mkTask {
  _lastAppliedProposal : PBFTProposal.t;
  _proposal : PBFTProposal.t;
  _executedProposal : PBFTProposal.t;
  _onExecuteFinished : bool
}.

(** What it asks of others: a task for the worker, the execution of a block by the
    scheduler, a call of the callback (with the executed proposal as it is then). *)
Inductive Call : Type :=
  | Enqueue (t : Task)
  | ExecuteBlock (block : FullBlock) (t : Task)
  | OnExecuteFinished (ret : bool) (t : Task).

(** The class has no state of its own that changes. *)
Notation M := (Eff Call unit).

Definition asyncApply (t : Task) : M unit := emit (Enqueue t).

Definition finish (ret : bool) (t : Task) : M unit :=
  when (_onExecuteFinished t) (emit (OnExecuteFinished ret t)).

Definition apply (t : Task) : M unit :=
  let last := PBFTProposal.index (_lastAppliedProposal t) in
  let index := PBFTProposal.index (_proposal t) in
  if index <=? last then finish false t
  else
    match createFullBlock (PBFTProposal.data (_proposal t)) with
    | None => throw DecodeException
    | Some block =>
        match blockHeader block with
        | None => finish false t
        | Some _ =>
            let block :=
              if index =? last + 1
              then mutateHeader
                     (setParentInfo [(last, PBFTProposal.hash (_lastAppliedProposal t))]) block
              else block in
            emit (ExecuteBlock block t)
        end
    end.

(** The scheduler's callback, lines 88-132. *)
Definition onBlockExecuted (block : FullBlock) (t : Task) (_error : bool)
    (_blockHeader : option BlockHeader) : M unit :=
  if negb (_onExecuteFinished t) then mret tt
  else if _error then finish false t
  else
    header ← deref (blockHeader block);
    _blockHeader ← deref _blockHeader;
    if negb (header_number _blockHeader =? header_number header) then mret tt
    else
      let executed :=
        _executedProposal t
          <| PBFTProposal.index := header_number _blockHeader |>
          <| PBFTProposal.hash := header_hash _blockHeader |>
          <| PBFTProposal.data := encodeHeader _blockHeader |>
          <| PBFTProposal.extraData := PBFTProposal.data (_proposal t) |> in
      finish true (mkTask (_lastAppliedProposal t) (_proposal t) executed (_onExecuteFinished t)).

(** ** The life of an application

    The calls made, the worker's queue, the executions the scheduler has not answered,
    the calls of the callback, and the tasks that end without one. *)
Record conf : Type := Conf {
  submitted : list Task;
  tasks : list Task;
  executing : list (FullBlock * Task);
  answers : list (bool * Task);
  lost : list Task
}.
#[local] Instance eta_conf : Eta conf := fun r =>
  Conf (submitted r) (tasks r) (executing r) (answers r) (lost r).

Definition absorb (es : list Call) (c : conf) : conf :=
  fold_left (fun c e =>
    match e with
    | Enqueue t => c <| tasks := tasks c ++ [t] |>
    | ExecuteBlock b t => c <| executing := (b, t) :: executing c |>
    | OnExecuteFinished r t => c <| answers := (r, t) :: answers c |>
    end) es c.

(** A step that neither executes nor answers loses its task. *)
Definition continue (es : list Call) (t : Task) (c : conf) : conf :=
  match es with
  | [] => c <| lost := t :: lost c |>
  | _ => absorb es c
  end.

(** [ok] restricts the tasks that are submitted, [honest] the answers of the scheduler. *)
Inductive step (ok : Task -> Prop) (honest : FullBlock -> option BlockHeader -> Prop)
    : conf -> conf -> Prop :=
  | step_request c t :
      ok t ->
      step ok honest c (absorb (events (asyncApply t tt)) (c <| submitted := t :: submitted c |>))
  | step_worker ss t ts xs rs ls :
      step ok honest (Conf ss (t :: ts) xs rs ls) (continue (events (apply t tt)) t (Conf ss ts xs rs ls))
  | step_executed ss ts xs1 b t xs2 rs ls err h :
      (err = false -> honest b h) ->
      step ok honest (Conf ss ts (xs1 ++ (b, t) :: xs2) rs ls)
           (continue (events (onBlockExecuted b t err h tt)) t (Conf ss ts (xs1 ++ xs2) rs ls)).

Definition init : conf := Conf [] [] [] [] [].

(** The proposals of the tasks, in whatever state they are. *)
Definition open_proposals (c : conf) : list PBFTProposal.t :=
  (_proposal <$> tasks c) ++ ((fun x => _proposal x.2) <$> executing c) ++
  ((fun x => _proposal x.2) <$> answers c) ++ (_proposal <$> lost c).

(** A block that the scheduler was given: the proposal's, with the proposal before as its
    parent when that is the preceding one. *)
Definition block_of (t : Task) (b : FullBlock) : Prop :=
  PBFTProposal.index (_lastAppliedProposal t) < PBFTProposal.index (_proposal t) /\
  exists b0, createFullBlock (PBFTProposal.data (_proposal t)) = Some b0 /\
    is_Some (blockHeader b0) /\
    b = if PBFTProposal.index (_proposal t) =? PBFTProposal.index (_lastAppliedProposal t) + 1
        then mutateHeader (setParentInfo [(PBFTProposal.index (_lastAppliedProposal t),
               PBFTProposal.hash (_lastAppliedProposal t))]) b0
        else b0.

(** The executed proposal of a successful answer describes the block that the scheduler
    returned for it. *)
Definition executed_as (t : Task) : Prop :=
  exists b hdr res, block_of t b /\ blockHeader b = Some hdr /\
    header_number res = header_number hdr /\
    PBFTProposal.index (_executedProposal t) = header_number hdr /\
    PBFTProposal.hash (_executedProposal t) = header_hash res /\
    PBFTProposal.data (_executedProposal t) = encodeHeader res /\
    PBFTProposal.extraData (_executedProposal t) = PBFTProposal.data (_proposal t).

Definition accounted (c : conf) : Prop :=
  (_proposal <$> submitted c) ≡ₚ open_proposals c /\
  (forall b t, (b, t) ∈ executing c -> block_of t b) /\
  (forall t, (true, t) ∈ answers c -> executed_as t).

(** What the two asynchronous steps make of a task. *)
Lemma apply_cases t :
  (exists r, events (apply t tt) = [OnExecuteFinished r t] /\ r = false) \/
  (exists b, events (apply t tt) = [ExecuteBlock b t] /\ block_of t b) \/
  events (apply t tt) = [].
Proof.
  unfold apply, finish, when, block_of.
  destruct (Z.leb_spec (PBFTProposal.index (_proposal t))
    (PBFTProposal.index (_lastAppliedProposal t))) as [Hle|Hlt].
  { destruct (_onExecuteFinished t); simpl; eauto. }
  destruct (createFullBlock _) as [b0|] eqn:Eb; [|by auto].
  destruct (blockHeader b0) as [h|] eqn:Eh.
  - right. left. eexists. split; [reflexivity|]. split; [lia|]. by exists b0.
  - destruct (_onExecuteFinished t); simpl; eauto.
Qed.

Lemma onBlockExecuted_cases b t err h :
  block_of t b ->
  (exists r t', events (onBlockExecuted b t err h tt) = [OnExecuteFinished r t'] /\
     _proposal t' = _proposal t /\ (r = true -> executed_as t')) \/
  events (onBlockExecuted b t err h tt) = [].
Proof.
  intros Hb. unfold onBlockExecuted, finish, when.
  destruct (_onExecuteFinished t) eqn:Ef; simpl; [|by right].
  destruct err; simpl; [left; by eexists _, t|].
  destruct (blockHeader b) as [hdr|] eqn:Eh; simpl; [|by right].
  destruct h as [res|]; simpl; [|by right].
  unfold mbind, eff_bind, mret, eff_ret. simpl.
  destruct (Z.eqb_spec (header_number res) (header_number hdr)) as [Hn|]; simpl; [|by right].
  left. eexists _, _. split; [reflexivity|]. split; [done|]. intros _.
  exists b, hdr, res. by rewrite <- Hn.
Qed.

(** A task moves from one list to another. *)
Lemma continue_accounted es t c :
  (_proposal <$> submitted c) ≡ₚ _proposal t :: open_proposals c ->
  (forall b t, (b, t) ∈ executing c -> block_of t b) ->
  (forall t, (true, t) ∈ answers c -> executed_as t) ->
  (exists r t', es = [OnExecuteFinished r t'] /\ _proposal t' = _proposal t /\
     (r = true -> executed_as t')) \/
  (exists b, es = [ExecuteBlock b t] /\ block_of t b) \/ es = [] ->
  accounted (continue es t c).
Proof.
  destruct c as [ss ts xs rs ls]. unfold accounted, open_proposals, continue. simpl. intros Hp Hx Hr.
  intros [(r & t' & -> & Ht & Hex)|[(b & -> & Hb)| ->]]; simpl.
  - split; [|split; [exact Hx|]].
    + rewrite Hp, Ht, !Permutation_middle. done.
    + intros u [[= <- <-]|Hu]%elem_of_cons; [by apply Hex|by apply Hr].
  - split; [|split; [|exact Hr]].
    + rewrite Hp, !Permutation_middle. done.
    + intros b' u [[= -> ->]|Hu]%elem_of_cons; [done|by apply Hx].
  - split; [|by split]. rewrite Hp, !Permutation_middle. done.
Qed.

Lemma step_accounted ok honest c c' : step ok honest c c' -> accounted c -> accounted c'.
Proof.
  intros H (Hp & Hx & Hr). destruct H as [c t Hok|ss t ts xs rs ls|ss ts xs1 b t xs2 rs ls err h Hh].
  - destruct c as [ss ts xs rs ls]. unfold accounted, open_proposals in *. simpl in *.
    split; [|by split]. rewrite Hp, fmap_app. simpl. solve_Permutation.
  - apply continue_accounted; [exact Hp|exact Hx|exact Hr|].
    destruct (apply_cases t) as [(r & -> & ->)|[(b & -> & Hb)| ->]]; [left|right; left|by right; right].
    + by exists false, t.
    + by exists b.
  - simpl in *. assert (Hb : block_of t b) by (apply Hx; set_solver).
    apply continue_accounted; simpl; [|set_solver|exact Hr|].
    + revert Hp. unfold open_proposals. simpl. rewrite !fmap_app, fmap_cons. simpl.
      intros ->. solve_Permutation.
    + destruct (onBlockExecuted_cases b t err h Hb) as [(r & t' & -> & H)| ->]; [left|by right; right].
      by exists r, t'.
Qed.

Lemma steps_accounted ok honest c : rtc (step ok honest) init c -> accounted c.
Proof.
  intros H. assert (accounted init) as H0 by (split; [done|split; set_solver]).
  revert H0. induction H as [|c1 c2 c3 Hstep _ IH]; [done|].
  intros H0. by eapply IH, step_accounted.
Qed.

(** Tasks that can be executed, and a scheduler that returns the block it was given. *)
Definition executable (t : Task) : Prop :=
  _onExecuteFinished t = true /\ is_Some (createFullBlock (PBFTProposal.data (_proposal t))).
Definition same_block (b : FullBlock) (h : option BlockHeader) : Prop :=
  exists hdr res, blockHeader b = Some hdr /\ h = Some res /\
    header_number res = header_number hdr.

Definition nothing_lost (c : conf) : Prop :=
  lost c = [] /\ (forall t, t ∈ tasks c -> executable t) /\
  (forall b t, (b, t) ∈ executing c -> _onExecuteFinished t = true).

Lemma step_nothing_lost c c' : step executable same_block c c' -> nothing_lost c -> nothing_lost c'.
Proof.
  intros H (Hl & Ht & Hx). unfold nothing_lost in *.
  destruct H as [c t Hok|ss t ts xs rs ls|ss ts xs1 b t xs2 rs ls err h Hh]; simpl in *.
  - destruct c. simpl in *. split; [done|]. split; [|done]. set_solver.
  - destruct (Ht t ltac:(left)) as [Hf [b0 Hb0]]. unfold apply, finish, when.
    rewrite Hf, Hb0. destruct (_ <=? _); simpl; [|destruct (blockHeader b0); simpl];
      (split; [done|]); (split; [set_solver|]); [exact Hx| |exact Hx].
    intros b1 u [[= -> ->]|Hu]%elem_of_cons; [done|by eapply Hx].
  - assert (Hf : _onExecuteFinished t = true) by (apply (Hx b); set_solver).
    unfold onBlockExecuted, finish, when. rewrite Hf. simpl.
    destruct err; simpl; [split; [done|set_solver]|].
    destruct (Hh eq_refl) as (hdr & res & Hhdr & -> & Hn). rewrite Hhdr. simpl.
    unfold mbind, eff_bind, mret, eff_ret. simpl. rewrite Hn, Z.eqb_refl. simpl.
    split; [done|set_solver].
Qed.
End Methods.
End StateMachine.

(** C33: every application is accounted for.  The proposals handed to the state machine are
    those that are queued, at the scheduler, answered or lost, each as often as it was
    handed over; the scheduler gets the proposal's own block, never one at or below the
    last applied proposal, with the last applied proposal as its parent when that is the
    preceding one; and a successful answer carries number, hash and header of the block
    that the scheduler returned, and the proposal's data as extra data. *)
Theorem applications_accounted `{Bl : Blocks} ok honest c :
  rtc (StateMachine.step ok honest) StateMachine.init c ->
  (StateMachine._proposal <$> StateMachine.submitted c) ≡ₚ StateMachine.open_proposals c /\
  (forall b t, (b, t) ∈ StateMachine.executing c -> StateMachine.block_of t b) /\
  (forall t, (true, t) ∈ StateMachine.answers c -> StateMachine.executed_as t).
Proof. apply StateMachine.steps_accounted. Qed.

(** C34: when the proposals can be decoded and the scheduler answers every block with a
    block of the same number, or with an error, every application is answered exactly
    once: with no work left the callbacks called are those of the submitted proposals. *)
Theorem applications_answered `{Bl : Blocks} c :
  rtc (StateMachine.step StateMachine.executable StateMachine.same_block) StateMachine.init c ->
  StateMachine.tasks c = [] -> StateMachine.executing c = [] ->
  (StateMachine._proposal <$> StateMachine.submitted c) ≡ₚ
  ((fun x => StateMachine._proposal x.2) <$> StateMachine.answers c).
Proof.
  intros H Ht Hx. pose proof (StateMachine.steps_accounted _ _ _ H) as [Hp _].
  assert (Hl : StateMachine.nothing_lost c).
  { assert (StateMachine.nothing_lost StateMachine.init) as H0 by (split; [done|split; set_solver]).
    revert H0. clear - H. induction H as [|c1 c2 c3 Hs _ IH]; [done|].
    intros H0. by eapply IH, StateMachine.step_nothing_lost. }
  destruct Hl as [Hl _]. rewrite Hp. unfold StateMachine.open_proposals.
  by rewrite Ht, Hx, Hl, app_nil_r.
Qed.

(** ** Block 5 on top of block 4 *)
Module StateMachineDemo.
Import StateMachine.
#[local] Existing Instance BlockDemo.blocks.

Definition last : PBFTProposal.t :=
  PBFTProposal.create <| PBFTProposal.index := 4 |> <| PBFTProposal.hash := 44 |>.
Definition proposal : PBFTProposal.t :=
  PBFTProposal.create <| PBFTProposal.index := 5 |> <| PBFTProposal.hash := 55 |>
    <| PBFTProposal.data := Demo.byte_of <$> [5; 55; 1; 9] |>.
Definition task : Task := mkTask last proposal PBFTProposal.create true.
Definition block : FullBlock := default (BlockDemo.mkFull None 0) (createFullBlock (PBFTProposal.data proposal)).
Definition given : FullBlock := mutateHeader (setParentInfo [(4, 44)]) block.
Definition result : BlockHeader := BlockDemo.mkHeader 5 77 1 [] [] [] [].

(** The call, the worker's task, the scheduler's answer [err], [h]. *)
Definition final (err : bool) (h : option BlockHeader) : conf :=
  continue (events (onBlockExecuted given task err h tt)) task (Conf [task] [] [] [] []).

Lemma run ok honest err h :
  ok task -> (err = false -> honest given h) -> rtc (step ok honest) init (final err h).
Proof.
  intros Hok Hh. eapply rtc_l; [by apply (step_request _ _ init task)|].
  eapply rtc_l; [apply step_worker|].
  eapply rtc_l; [apply (step_executed ok honest [task] [] [] given task [] [] [] err h Hh)|].
  apply rtc_refl.
Qed.
End StateMachineDemo.

Example applications_accounted_witness :
  let _ := BlockDemo.blocks in
  exists t, (true, t) ∈ StateMachine.answers (StateMachineDemo.final false (Some StateMachineDemo.result)) /\
    StateMachine.executed_as t.
Proof.
  intros Bl. eexists. split; [left|].
  apply (applications_accounted (Bl := Bl) (fun _ => True) (fun _ _ => True)
    (StateMachineDemo.final false (Some StateMachineDemo.result))); [|left].
  by apply StateMachineDemo.run.
Defined.

Example applications_answered_witness :
  let _ := BlockDemo.blocks in
  [StateMachineDemo.proposal] ≡ₚ
  ((fun x => StateMachine._proposal x.2) <$>
   StateMachine.answers (StateMachineDemo.final false (Some StateMachineDemo.result))).
Proof.
  intros Bl. apply (applications_answered (Bl := Bl)
    (StateMachineDemo.final false (Some StateMachineDemo.result))); [|reflexivity..].
  apply StateMachineDemo.run.
  - split; [reflexivity|]. by eexists.
  - intros _. by eexists _, _.
Defined.
