(* ===== verification/Storage.v ===== *)
(** Storage: [pbft/storage/LedgerStorage.h/.cpp].  Committed proposals are written to a
    key-value table together with the highest committed index, read back when a node
    starts, and removed once their block is old; stable checkpoints are handed to the
    scheduler's [commitBlock] with their signatures. *)
From Stdlib Require Import Ascii String DecimalString.
From stdpp Require Import strings.
From S2P Require Import Prelude Types Protobuf Codec Blocks.

(** * Numbers as strings: [boost::lexical_cast] *)
Definition print_int (z : Z) : string := NilZero.string_of_int (Z.to_int z).

(** [lexical_cast<int64_t>]: an optional sign, decimal digits and nothing else, within the
    range of the type; [None] is [bad_lexical_cast]. *)
Definition parse_int64 (s : string) : option Z :=
  let parsed :=
    match s with
    | String "+"%char s => Decimal.Pos <$> NilZero.uint_of_string s
    | _ => NilZero.int_of_string s
    end in
  match Z.of_int <$> parsed with
  | Some z => if (- 2 ^ 63 <=? z) && (z <? 2 ^ 63) then Some z else None
  | None => None
  end.

(** The values of the table are byte strings. *)
Definition string_bytes (s : string) : bytes := list_byte_of_string s.
Definition bytes_string (b : bytes) : string := string_of_list_byte b.

Module LedgerStorage.
Import PB.

Definition m_maxCommittedProposalKey : string := "max_committed_proposal".
Definition m_pbftCommitDB : string := "pbftCommitDB".
Definition c_reservedCheckPointSize : BlockNumber := 5.

Record t : Type := mk {
  m_maxCommittedProposalIndex : Z;
  m_maxCommittedProposalIndexFetched : bool;
  m_stateProposals : option (list PBFTProposal.t);
  m_stateFetched : bool;
  m_finalizeHandler : bool
}.
#[global] Instance eta_t : Eta t := fun r =>
  mk (m_maxCommittedProposalIndex r) (m_maxCommittedProposalIndexFetched r)
     (m_stateProposals r) (m_stateFetched r) (m_finalizeHandler r).

Definition create : t := mk 0 false None false false.
Definition registerFinalizeHandler (s : t) : t := s <| m_finalizeHandler := true |>.
Definition maxCommittedProposalIndex (s : t) : Z := m_maxCommittedProposalIndex s.

Section Methods.
Context `{Pb : Protobuf} `{Bl : Blocks}.

(** Who asked for proposals: [loadState], or the engine for a peer. *)
Inductive Requester : Type := ForState | ForPeer.

(** The calls on the key-value storage, the scheduler, the worker and the callbacks. *)
Inductive Call : Type :=
  | Get (_dbName _key : string)
  | GetBatch (_dbName : string) (keys : list string) (who : Requester)
  | Put (_dbName _key : string) (_committedData : bytes) (_proposalIndex : BlockNumber)
      (_retryTime : Z)
  | Remove (_dbName _key : string)
  | OnSuccess (proposalList : option (list PBFTProposal.t))
  | EnqueueCommit (_blockHeader : BlockHeader) (_stableProposal : PBFTProposal.t)
  | CommitBlock (_blockHeader : BlockHeader) (_blockInfo : FullBlock)
  | Finalize (_ledgerConfig : LedgerConfig.t) (sealerId txsSize : Z) (_syncBlock : bool).
Notation M := (Eff Call t).

(** ** Reading *)
Definition asyncGetLatestCommittedProposalIndex : M unit :=
  emit (Get m_pbftCommitDB m_maxCommittedProposalKey).

(** Its callback, lines 188-229. *)
Definition onGetLatest (_error : bool) (_value : bytes) : M unit :=
  if bool_decide (_value = []) then
    modify (fun s => s <| m_maxCommittedProposalIndexFetched := true |>)
  else if _error then mret tt
  else
    match parse_int64 (bytes_string _value) with
    | None => mret tt
    | Some latestCommittedProposalIndex =>
        s ← get;
        when (m_maxCommittedProposalIndex s <? latestCommittedProposalIndex)
          (modify (fun s => s <| m_maxCommittedProposalIndex := latestCommittedProposalIndex |>)) ;;
        modify (fun s => s <| m_maxCommittedProposalIndexFetched := true |>)
    end.

(** [_onSuccess]: [loadState]'s callback, lines 71-94, or the engine's. *)
Definition onSuccess (who : Requester) (_proposalList : option (list PBFTProposal.t)) : M unit :=
  match who with
  | ForPeer => emit (OnSuccess _proposalList)
  | ForState =>
      modify (fun s =>
        (match _proposalList with
         | Some l => s <| m_stateProposals := Some l |>
         | None => s
         end) <| m_stateFetched := true |>)
  end.

Definition asyncGetCommittedProposals (_start : BlockNumber) (_offset : Z) (who : Requester)
    : M unit :=
  s ← get;
  if m_maxCommittedProposalIndex s <? _start then mret tt
  else
    let endIndex :=
      Z.min (i64 (u64 (_start + _offset - 1))) (m_maxCommittedProposalIndex s) in
    emit (GetBatch m_pbftCommitDB (print_int <$> seqZ _start (endIndex - _start + 1)) who).

(** Its callback, lines 140-181: an empty value ends it, an undecodable one is an
    exception that is caught. *)
Fixpoint decodeValues (_values : list bytes) (proposalList : list PBFTProposal.t)
    : option (option (list PBFTProposal.t)) :=
  match _values with
  | [] => Some (Some proposalList)
  | value :: _values =>
      if bool_decide (value = []) then Some None
      else
        match PBFTMessageFactoryImpl.createPBFTProposal value with
        | None => None
        | Some p => decodeValues _values (proposalList ++ [p])
        end
  end.

Definition onGetBatch (who : Requester) (_error : bool) (_values : list bytes) : M unit :=
  if _error then mret tt
  else
    match decodeValues _values [] with
    | None => mret tt
    | Some proposalList => onSuccess who proposalList
    end.

(** [loadState] with the answers that arrive before the time-outs. *)
Definition loadState (_stabledIndex : BlockNumber) (latest : option (bool * bytes))
    (batch : option (bool * list bytes)) : M (option (list PBFTProposal.t)) :=
  modify (fun s => s <| m_maxCommittedProposalIndexFetched := false |>) ;;
  asyncGetLatestCommittedProposalIndex ;;
  (match latest with Some (e, v) => onGetLatest e v | None => mret tt end) ;;
  s ← get;
  if negb (m_maxCommittedProposalIndexFetched s) then throw InitPBFTException
  else if m_maxCommittedProposalIndex s <=? _stabledIndex then
    modify (fun s => s <| m_maxCommittedProposalIndex := _stabledIndex |>) ;; mret None
  else
    let offset := m_maxCommittedProposalIndex s - _stabledIndex in
    modify (fun s => s <| m_stateFetched := false |>) ;;
    asyncGetCommittedProposals (_stabledIndex + 1) offset ForState ;;
    (match batch with Some (e, vs) => onGetBatch ForState e vs | None => mret tt end) ;;
    s ← get;
    if negb (m_stateFetched s) then throw InitPBFTException
    else
      when (match m_stateProposals s with None | Some [] => true | _ => false end)
        (modify (fun s => s <| m_maxCommittedProposalIndex := _stabledIndex |>)) ;;
      mret (m_stateProposals s).

(** ** Writing *)
Definition asyncPutProposal (_dbName _key : string) (_committedData : bytes)
    (_proposalIndex : BlockNumber) (_retryTime : Z) : M unit :=
  emit (Put _dbName _key _committedData _proposalIndex _retryTime).

(** Its callback, lines 263-297. *)
Definition onPut (_dbName _key : string) (_committedData : bytes)
    (_proposalIndex : BlockNumber) (_retryTime : Z) (_error : bool) : M unit :=
  if negb _error then mret tt
  else if 3 <=? _retryTime then mret tt
  else asyncPutProposal _dbName _key _committedData _proposalIndex (_retryTime + 1).

Definition asyncCommitProposal (_committedProposal : PBFTProposal.t) : M unit :=
  let index := Proposal.index (PBFTProposal.base _committedProposal) in
  s ← get;
  if index <=? m_maxCommittedProposalIndex s then mret tt
  else
    modify (fun s => s <| m_maxCommittedProposalIndex := index |>) ;;
    asyncPutProposal m_pbftCommitDB m_maxCommittedProposalKey (string_bytes (print_int index))
      index 0 ;;
    asyncPutProposal m_pbftCommitDB (print_int index) (PBFTProposal.encode _committedProposal)
      index 0.

Definition asyncRemove (_dbName _key : string) : M unit := emit (Remove _dbName _key).
Definition asyncRemoveStabledCheckPoint (_stabledCheckPointIndex : Z) : M unit :=
  asyncRemove m_pbftCommitDB (print_int _stabledCheckPointIndex).

(** ** Stable checkpoints *)
Definition asyncCommitStableCheckPoint (_stableProposal : PBFTProposal.t) : M unit :=
  match mapM (PBFTProposal.signatureProof _stableProposal)
          (seq 0 (PBFTProposal.signatureProofSize _stableProposal)) with
  | None => crash OutOfRange
  | Some signatureList =>
      match createBlockHeader (Proposal.data (PBFTProposal.base _stableProposal)) with
      | None => throw DecodeException
      | Some blockHeader =>
          emit (EnqueueCommit (setSignatureList signatureList blockHeader) _stableProposal)
      end
  end.

Definition commitStableCheckPoint (_blockHeader : BlockHeader) (_blockInfo : FullBlock) : M unit :=
  emit (CommitBlock _blockHeader _blockInfo).

(** The worker's task, lines 322-326. *)
Definition commitTask (blockHeader : BlockHeader) (_stableProposal : PBFTProposal.t) : M unit :=
  match createFullBlock (Proposal.extraData (PBFTProposal.base _stableProposal)) with
  | None => throw DecodeException
  | Some txsInfo => commitStableCheckPoint blockHeader txsInfo
  end.

(** The callback of [commitBlock], lines 334-378. *)
Definition onCommitBlock (_blockHeader : BlockHeader) (_blockInfo : FullBlock) (_error : bool)
    (_ledgerConfig : option LedgerConfig.t) : M unit :=
  if _error then mret tt
  else
    ledgerConfig ← deref _ledgerConfig;
    s ← get;
    when (m_finalizeHandler s)
      (emit (Finalize ledgerConfig (header_sealer _blockHeader)
               (transactionsHashSize _blockInfo) false)) ;;
    when (c_reservedCheckPointSize <? header_number _blockHeader)
      (asyncRemoveStabledCheckPoint (header_number _blockHeader - c_reservedCheckPointSize)).

(** [createKVTable], the constructor's call: an answer without error, an error that says
    the table exists, or another one. *)
Definition createKVTable (_error : option bool) : M unit :=
  match _error with
  | Some false => throw InitPBFTException
  | _ => mret tt
  end.
End Methods.
End LedgerStorage.
