(* ===== verification/Quorum.v ===== *)
(** Quorum: sets of voters, their weight in a configuration, and the quorum that
    [PBFTConfig::updateQuorum] computes from the node list. *)
From S2P Require Import Prelude Types Timer Validator Config.

(** * Weighted sums over sets of node indices *)
Section WeightedSums.
Context (w : Z -> Z).

Definition wsum (l : list Z) : Z := foldr (fun i acc => w i + acc) 0 l.
Definition wset (X : gset Z) : Z := wsum (elements X).

Lemma wsum_app l k : wsum (l ++ k) = wsum l + wsum k.
Proof. induction l as [|i l IH]; simpl; [done|]. rewrite IH. lia. Qed.

Lemma wsum_perm l k : l ≡ₚ k -> wsum l = wsum k.
Proof. induction 1; simpl; lia. Qed.

Lemma wset_empty : wset ∅ = 0.
Proof. unfold wset. by rewrite elements_empty. Qed.

Lemma wset_disjoint X Y : X ## Y -> wset (X ∪ Y) = wset X + wset Y.
Proof.
  intros H. unfold wset. rewrite <- wsum_app. apply wsum_perm. by apply elements_disj_union.
Qed.

Lemma wset_insert i X : i ∉ X -> wset ({[ i ]} ∪ X) = w i + wset X.
Proof.
  intros H. rewrite wset_disjoint by set_solver. unfold wset at 1.
  rewrite elements_singleton. simpl. lia.
Qed.

Lemma wset_list l : NoDup l -> wset (list_to_set l) = wsum l.
Proof. intros H. apply wsum_perm. by apply elements_list_to_set. Qed.

Lemma wset_split X Y : wset X = wset (X ∩ Y) + wset (X ∖ Y).
Proof.
  rewrite <- wset_disjoint by set_solver. f_equal.
  apply set_eq. intros i. destruct (decide (i ∈ Y)); set_solver.
Qed.

Lemma wset_union_inter X Y : wset X + wset Y = wset (X ∪ Y) + wset (X ∩ Y).
Proof.
  rewrite (wset_split X Y).
  assert (X ∪ Y = (X ∖ Y) ∪ Y) as -> by (symmetry; apply difference_union_L).
  rewrite (wset_disjoint (X ∖ Y) Y) by set_solver. lia.
Qed.

Context (w_pos : forall i, 0 <= w i).

Lemma wsum_pos l : 0 <= wsum l.
Proof. induction l as [|i l IH]; simpl; [lia|]. specialize (w_pos i). lia. Qed.

Lemma wset_pos X : 0 <= wset X.
Proof. apply wsum_pos. Qed.

Lemma wset_mono X Y : X ⊆ Y -> wset X <= wset Y.
Proof.
  intros H. rewrite (wset_split Y X).
  replace (Y ∩ X) with X by set_solver. pose proof (wset_pos (Y ∖ X)). lia.
Qed.
End WeightedSums.

(** * The weight of a set of voters in a configuration *)
Definition node_weight (c : PBFTConfig.t) (i : IndexType) : Z :=
  match PBFTConfig.getConsensusNodeByIndex c i with
  | Some node => ConsensusNode.weight node
  | None => 0
  end.

Definition voters_weight (c : PBFTConfig.t) (X : gset Z) : Z := wset (node_weight c) X.

(** The total weight of the node list. *)
Definition total_weight (c : PBFTConfig.t) : Z :=
  foldr (fun node acc => ConsensusNode.weight node + acc) 0 (PBFTConfig.consensusNodeList c).

(** Weights are [uint64_t] and their sum does not overflow. *)
Record wf_nodes (c : PBFTConfig.t) : Prop := {
  wf_weights : forall node, node ∈ PBFTConfig.consensusNodeList c -> 0 <= ConsensusNode.weight node;
  wf_total : total_weight c < two64
}.

Section Weights.
Context (c : PBFTConfig.t) (Hwf : wf_nodes c).

Lemma getConsensusNodeByIndex_lookup i node :
  0 <= i ->
  PBFTConfig.getConsensusNodeByIndex c i = Some node <->
  PBFTConfig.consensusNodeList c !! Z.to_nat i = Some node.
Proof.
  intros Hi. unfold PBFTConfig.getConsensusNodeByIndex, ConsensusConfig.getConsensusNodeByIndex.
  fold (PBFTConfig.consensusNodeList c). destruct (Z.ltb_spec i
    (Z.of_nat (length (PBFTConfig.consensusNodeList c)))); [done|].
  split; [done|]. intros H'%lookup_lt_Some. lia.
Qed.

(** A node list is queried with [uint64_t] indices. *)
Lemma getConsensusNodeByIndex_elem i node :
  PBFTConfig.getConsensusNodeByIndex c i = Some node -> node ∈ PBFTConfig.consensusNodeList c.
Proof.
  unfold PBFTConfig.getConsensusNodeByIndex, ConsensusConfig.getConsensusNodeByIndex.
  destruct (_ <? _); [|done]. apply list_elem_of_lookup_2.
Qed.

Lemma node_weight_pos i : 0 <= node_weight c i.
Proof using Hwf.
  unfold node_weight. destruct (PBFTConfig.getConsensusNodeByIndex c i) eqn:E; [|lia].
  by apply Hwf, getConsensusNodeByIndex_elem with i.
Qed.

Lemma node_weight_outside i :
  Z.of_nat (length (PBFTConfig.consensusNodeList c)) <= i -> node_weight c i = 0.
Proof.
  intros H. unfold node_weight, PBFTConfig.getConsensusNodeByIndex,
    ConsensusConfig.getConsensusNodeByIndex. fold (PBFTConfig.consensusNodeList c).
  destruct (Z.ltb_spec i (Z.of_nat (length (PBFTConfig.consensusNodeList c)))); [lia|done].
Qed.

(** The indices of the list. *)
Definition all_indices : gset Z :=
  list_to_set (Z.of_nat <$> seq 0 (length (PBFTConfig.consensusNodeList c))).

Lemma wsum_indices (l : list ConsensusNode.t) (w : Z -> Z) k :
  (forall j node, l !! j = Some node -> w (Z.of_nat (k + j)) = ConsensusNode.weight node) ->
  wsum w (Z.of_nat <$> seq k (length l)) =
  foldr (fun node acc => ConsensusNode.weight node + acc) 0 l.
Proof.
  revert k. induction l as [|node l IH]; intros k H; [done|].
  cbn [length seq]. rewrite fmap_cons. unfold wsum in *. cbn [foldr].
  rewrite (IH (S k)).
  - f_equal. rewrite <- (H 0%nat node eq_refl). f_equal. lia.
  - intros j n Hj. rewrite <- (H (S j) n Hj). f_equal. lia.
Qed.

Lemma all_indices_weight : voters_weight c all_indices = total_weight c.
Proof.
  unfold voters_weight, all_indices. rewrite wset_list.
  - apply wsum_indices. intros j node Hj. simpl. unfold node_weight.
    assert (PBFTConfig.getConsensusNodeByIndex c (Z.of_nat j) = Some node) as ->; [|done].
    apply getConsensusNodeByIndex_lookup; [lia|]. by rewrite Nat2Z.id.
  - apply NoDup_fmap_2; [intros ???; lia|]. apply NoDup_seq.
Qed.

(** Voters are identified by [uint64_t] indices. *)
Definition voters (X : gset Z) : Prop := forall i, i ∈ X -> 0 <= i.

Lemma voters_weight_le X : voters X -> voters_weight c X <= total_weight c.
Proof using Hwf.
  intros HX. rewrite <- all_indices_weight. unfold voters_weight.
  rewrite (wset_split _ X all_indices).
  assert (wset (node_weight c) (X ∖ all_indices) = 0) as ->.
  { unfold wset. assert (Hout : forall l, (forall i, i ∈ l -> node_weight c i = 0) ->
      wsum (node_weight c) l = 0).
    { induction l as [|i l IH]; simpl; intros H; [done|].
      rewrite H, IH by (constructor || intros; apply H; by constructor). lia. }
    apply Hout. intros i Hi%elem_of_elements. apply node_weight_outside.
    apply elem_of_difference in Hi as [Hi Hn].
    destruct (decide (Z.of_nat (length (PBFTConfig.consensusNodeList c)) <= i)); [done|].
    destruct Hn. apply elem_of_list_to_set, list_elem_of_fmap. exists (Z.to_nat i).
    specialize (HX i Hi). split; [lia|]. apply elem_of_seq. lia. }
  rewrite Z.add_0_r. apply wset_mono; [apply node_weight_pos|]. set_solver.
Qed.

Lemma total_weight_pos : 0 <= total_weight c.
Proof using Hwf.
  unfold total_weight. pose proof (wf_weights c Hwf) as H. revert H.
  induction (PBFTConfig.consensusNodeList c) as [|node l IH]; simpl; intros H; [lia|].
  specialize (IH (fun n Hn => H n (list_elem_of_further _ _ _ Hn))).
  specialize (H node (list_elem_of_here _ _)). lia.
Qed.

(** [m_totalQuorum]: the accumulated sum does not wrap. *)
Lemma updateQuorum_total :
  PBFTConfig.m_totalQuorum (PBFTConfig.updateQuorum c) = total_weight c.
Proof using Hwf.
  assert (H : forall l acc, (forall n, n ∈ l -> 0 <= ConsensusNode.weight n) -> 0 <= acc ->
    acc + foldr (fun node a => ConsensusNode.weight node + a) 0 l < two64 ->
    fold_left (fun a node => u64 (a + ConsensusNode.weight node)) l acc =
    acc + foldr (fun node a => ConsensusNode.weight node + a) 0 l).
  { induction l as [|node l IH]; simpl; intros acc Hl Hacc Hlt; [lia|].
    assert (0 <= foldr (fun node a => ConsensusNode.weight node + a) 0 l).
    { clear -Hl. induction l as [|n l IH]; simpl; [lia|].
      assert (0 <= ConsensusNode.weight n) by (apply Hl; set_solver).
      assert (0 <= foldr (fun node a => ConsensusNode.weight node + a) 0 l)
        by (apply IH; set_solver). lia. }
    assert (0 <= ConsensusNode.weight node) by (apply Hl; set_solver).
    rewrite u64_id by (unfold is_u64; lia).
    rewrite IH; [lia|set_solver|lia|lia]. }
  simpl. rewrite H; [done|apply Hwf|lia|apply (wf_total c Hwf)].
Qed.

End Weights.

(** The quorum fields are those [updateQuorum] computes. *)
Definition quorum_set (c : PBFTConfig.t) : Prop :=
  PBFTConfig.m_maxFaultyQuorum c = (total_weight c - 1) / 3 /\
  PBFTConfig.m_minRequiredQuorum c = total_weight c - PBFTConfig.m_maxFaultyQuorum c.

Lemma updateQuorum_set c :
  wf_nodes c -> 0 < total_weight c -> quorum_set (PBFTConfig.updateQuorum c).
Proof.
  intros Hwf Hpos. pose proof (updateQuorum_total c Hwf) as Ht. pose proof (wf_total c Hwf).
  unfold quorum_set, PBFTConfig.updateQuorum in *. simpl in *. rewrite Ht.
  rewrite (u64_id (total_weight c - 1)) by (unfold is_u64; lia).
  assert (0 <= (total_weight c - 1) / 3 <= total_weight c) by (split;
    [apply Z.div_pos|apply Z.div_le_upper_bound]; lia).
  split; [done|]. rewrite u64_id by (unfold is_u64; lia). done.
Qed.

(** C18: for a node list of positive total weight [W] the quorum arithmetic does not
    wrap: the tolerated faulty weight is the largest [f] with [3 f < W], and the
    required quorum is [W - f]. *)
Theorem update_quorum_bounds c :
  wf_nodes c -> 0 < total_weight c ->
  let c' := PBFTConfig.updateQuorum c in
  let f := PBFTConfig.m_maxFaultyQuorum c' in
  PBFTConfig.m_totalQuorum c' = total_weight c /\
  0 <= f /\ 3 * f < total_weight c <= 3 * f + 3 /\
  PBFTConfig.m_minRequiredQuorum c' = total_weight c - f /\
  total_weight c + f < 2 * PBFTConfig.m_minRequiredQuorum c'.
Proof.
  intros Hwf Hpos c' f. destruct (updateQuorum_set c Hwf Hpos) as [Hf Hm].
  pose proof (updateQuorum_total c Hwf) as Ht.
  fold c' in Hf, Hm, Ht. fold f in Hf, Hm.
  change (total_weight c') with (total_weight c) in *.
  pose proof (Z.div_mod (total_weight c - 1) 3). pose proof (Z.mod_pos_bound (total_weight c - 1) 3).
  repeat split; lia.
Qed.


(** Four nodes of equal weight, with the quorum computed from them. *)
Definition four_nodes (w : Z) : PBFTConfig.t :=
  PBFTConfig.updateQuorum ((PBFTConfig.create (Ext := Demo.externals) 1)
    <| PBFTConfig.base := (ConsensusConfig.create 1)
      <| ConsensusConfig.m_consensusNodeList :=
        [ConsensusNode.mk 1 w; ConsensusNode.mk 2 w; ConsensusNode.mk 3 w; ConsensusNode.mk 4 w] |>
    |>).

Lemma four_nodes_wf : wf_nodes (four_nodes 10).
Proof. split; [|reflexivity]. apply list.Forall_forall. repeat constructor; vm_compute; congruence. Qed.

Example update_quorum_bounds_witness :
  PBFTConfig.m_minRequiredQuorum (PBFTConfig.updateQuorum (four_nodes 10)) = 27.
Proof.
  destruct (update_quorum_bounds (four_nodes 10) four_nodes_wf ltac:(reflexivity))
    as (_ & _ & Hf & -> & _).
  change (total_weight (four_nodes 10)) with 40 in *. lia.
Defined.

(** Two sets of voters that reach the quorum share more than the faulty weight. *)
Lemma quorum_overlap c X Y :
  wf_nodes c -> quorum_set c -> 0 < total_weight c -> voters X -> voters Y ->
  PBFTConfig.m_minRequiredQuorum c <= voters_weight c X ->
  PBFTConfig.m_minRequiredQuorum c <= voters_weight c Y ->
  PBFTConfig.m_maxFaultyQuorum c < voters_weight c (X ∩ Y).
Proof.
  intros Hwf [Hf Hm] Hpos HX HY HqX HqY.
  pose proof (wset_union_inter (node_weight c) X Y) as Hui. fold (voters_weight c X)
    (voters_weight c Y) (voters_weight c (X ∪ Y)) (voters_weight c (X ∩ Y)) in Hui.
  assert (voters_weight c (X ∪ Y) <= total_weight c)
    by (apply voters_weight_le; [done|]; intros i [?|?]%elem_of_union; auto).
  pose proof (Z.div_mod (total_weight c - 1) 3). pose proof (Z.mod_pos_bound (total_weight c - 1) 3).
  lia.
Qed.

(** A common voter outside the faulty set. *)
Lemma quorum_common c X Y F :
  wf_nodes c -> 0 < total_weight c -> quorum_set c ->
  voters X -> voters Y ->
  PBFTConfig.m_minRequiredQuorum c <= voters_weight c X ->
  PBFTConfig.m_minRequiredQuorum c <= voters_weight c Y ->
  voters_weight c F <= PBFTConfig.m_maxFaultyQuorum c ->
  exists i node, i ∈ X /\ i ∈ Y /\ (i ∉ F) /\ PBFTConfig.getConsensusNodeByIndex c i = Some node.
Proof.
  intros Hwf Hpos Hq HX HY HqX HqY HF.
  pose proof (quorum_overlap c X Y Hwf Hq Hpos HX HY HqX HqY) as Ho.
  assert (Hd : 0 < voters_weight c ((X ∩ Y) ∖ F)).
  { unfold voters_weight in *. rewrite (wset_split _ (X ∩ Y) F) in Ho.
    pose proof (wset_mono _ (node_weight_pos c Hwf) (X ∩ Y ∩ F) F ltac:(set_solver)). lia. }
  assert (Hex : forall l, 0 < wsum (node_weight c) l -> exists i, i ∈ l /\ node_weight c i <> 0).
  { induction l as [|i l IH]; simpl; [lia|]. intros Hl.
    destruct (Z.eq_dec (node_weight c i) 0) as [E|E].
    - destruct IH as (j & Hj & Hw); [lia|]. exists j. split; [by constructor|done].
    - exists i. split; [constructor|done]. }
  destruct (Hex _ Hd) as (i & Hi%elem_of_elements & Hw).
  unfold node_weight in Hw. destruct (PBFTConfig.getConsensusNodeByIndex c i) as [node|] eqn:E;
    [|done].
  exists i, node. set_solver.
Qed.

(** When every weight is zero, [m_totalQuorum - 1] wraps: the required quorum
    exceeds any weight that can be collected, so nothing is ever agreed on. *)
Theorem zero_weight_quorum c :
  (forall node, node ∈ PBFTConfig.consensusNodeList c -> ConsensusNode.weight node = 0) ->
  let c' := PBFTConfig.updateQuorum c in
  PBFTConfig.m_maxFaultyQuorum c' = (2 ^ 64 - 1) / 3 /\
  PBFTConfig.m_minRequiredQuorum c' = 2 ^ 64 - (2 ^ 64 - 1) / 3 /\
  total_weight c < PBFTConfig.m_minRequiredQuorum c'.
Proof.
  intros Hz.
  assert (Hfold : forall l, (forall n, n ∈ l -> ConsensusNode.weight n = 0) ->
    fold_left (fun a node => u64 (a + ConsensusNode.weight node)) l 0 = 0 /\
    foldr (fun node a => ConsensusNode.weight node + a) 0 l = 0).
  { induction l as [|n l IH]; simpl; intros H; [done|].
    rewrite (H n) by constructor. destruct IH as [IH1 IH2]; [intros; apply H; by constructor|].
    change (u64 (0 + 0)) with 0. by rewrite IH1, IH2. }
  destruct (Hfold _ Hz) as [Ht Hw].
  unfold total_weight, PBFTConfig.updateQuorum. simpl. rewrite Ht, Hw. done.
Qed.

Example zero_weight_quorum_witness :
  total_weight (four_nodes 0) < PBFTConfig.m_minRequiredQuorum (four_nodes 0).
Proof.
  apply (zero_weight_quorum (four_nodes 0)). apply list.Forall_forall. repeat constructor.
Defined.
