(* ===== verification/BlockValidator.v ===== *)
(** BlockValidator: [pbft/engine/BlockValidator.h/.cpp].  The check of a synchronised
    block: its sealer list and weights are those of the consensus nodes and its
    signatures carry a quorum. *)
From S2P Require Import Prelude Types Blocks Timer Validator Config Quorum.

Module BlockValidator.
Section Methods.
Context `{Ext : Externals} `{Bl : Blocks}.

(** The task for the validator's thread and the call of the callback with its verdict. *)
Inductive Call : Type :=
  | EnqueueCheck (_block : FullBlock)
  | OnVerifyFinish (verdict : bool).
Notation M := (Eff Call PBFTConfig.t).

Definition checkSealerListAndWeightList (m_config : PBFTConfig.t) (blockHeader : BlockHeader)
    : bool :=
  match PBFTConfig.getConsensusNodeByIndex m_config (u64 (header_sealer blockHeader)) with
  | None => false
  | Some _ =>
      let blockSealerList := header_sealerList blockHeader in
      let blockWeightList := header_consensusWeights blockHeader in
      let consensusNodeList := PBFTConfig.consensusNodeList m_config in
      if negb (Nat.eqb (length blockSealerList) (length consensusNodeList)) ||
         negb (Nat.eqb (length blockWeightList) (length consensusNodeList))
      then false
      else
        forallb (fun '(consNodePtr, (blockSealer, blockWeight)) =>
          (ConsensusNode.nodeID consNodePtr =? blockSealer) &&
          (ConsensusNode.weight consNodePtr =? blockWeight))
          (combine consensusNodeList (combine blockSealerList blockWeightList))
  end.

(** The loop over the signatures; [None] is the early return. *)
Fixpoint signatureWeight (m_config : PBFTConfig.t) (hash : HashType) (l : list (Z * bytes))
    (weight : Z) : option Z :=
  match l with
  | [] => Some weight
  | (index, signature) :: l =>
      match PBFTConfig.getConsensusNodeByIndex m_config (u64 index) with
      | None => None
      | Some nodeInfo =>
          if negb (verify (ConsensusNode.nodeID nodeInfo) hash signature) then None
          else signatureWeight m_config hash l (u64 (weight + ConsensusNode.weight nodeInfo))
      end
  end.

Definition checkSignatureList (m_config : PBFTConfig.t) (blockHeader : BlockHeader) : bool :=
  match signatureWeight m_config (header_hash blockHeader)
          (header_signatureList blockHeader) 0 with
  | None => false
  | Some weight => PBFTConfig.m_minRequiredQuorum m_config <=? weight
  end.

Definition asyncCheckBlock (_block : FullBlock) : M unit := emit (EnqueueCheck _block).

(** The task of the pool, lines 32-77; [alive]: the validator still exists. *)
Definition checkBlock (alive : bool) (_block : FullBlock) : M unit :=
  blockHeader ← deref (blockHeader _block);
  if header_number blockHeader =? 0 then emit (OnVerifyFinish true)
  else if negb alive then emit (OnVerifyFinish false)
  else
    config ← get;
    committed ← deref (PBFTConfig.committedProposal config);
    if header_number blockHeader <=? PBFTProposal.index committed
    then emit (OnVerifyFinish false)
    else if transactionsSize _block =? 0 then emit (OnVerifyFinish true)
    else if negb (checkSealerListAndWeightList config blockHeader)
    then emit (OnVerifyFinish false)
    else if negb (checkSignatureList config blockHeader) then emit (OnVerifyFinish false)
    else emit (OnVerifyFinish true).
End Methods.
End BlockValidator.

(** ** Signature lists *)
Section Signatures.
Context `{Ext : Externals} (c : PBFTConfig.t).

(** The nodes that a list of signatures names. *)
Definition signers (l : list (Z * bytes)) : list Z := (fun x => u64 x.1) <$> l.

(** Node [i] has signed [hash] with one of the signatures of [l]. *)
Definition signed_by (hash : HashType) (l : list (Z * bytes)) (i : Z) : Prop :=
  exists node signature, (signature ∈ l.*2) /\
    PBFTConfig.getConsensusNodeByIndex c i = Some node /\
    verify (ConsensusNode.nodeID node) hash signature = true.

Lemma signed_by_cons hash x l i : signed_by hash l i -> signed_by hash (x :: l) i.
Proof. intros (node & s & Hs & H). exists node, s. split; [by right|done]. Qed.

Lemma node_weight_get i node :
  PBFTConfig.getConsensusNodeByIndex c i = Some node -> node_weight c i = ConsensusNode.weight node.
Proof. unfold node_weight. by intros ->. Qed.

(** With distinct signers nothing is counted twice and the sum does not wrap. *)
Lemma signatureWeight_distinct (Hwf : wf_nodes c) hash l Y w :
  NoDup (signers l) -> (forall i, i ∈ signers l -> i ∉ Y) -> voters Y ->
  BlockValidator.signatureWeight c hash l (voters_weight c Y) = Some w ->
  w = voters_weight c (list_to_set (signers l) ∪ Y) /\
  (forall i, i ∈ signers l -> signed_by hash l i).
Proof.
  revert Y w. induction l as [|[i s] l IH]; intros Y w Hnd Hd HY; simpl.
  { intros [= <-]. split; [by rewrite (left_id_L ∅ (∪))|set_solver]. }
  inversion Hnd as [|j k Hi Hnd']. subst j k. simpl in *.
  destruct (PBFTConfig.getConsensusNodeByIndex c (u64 i)) as [node|] eqn:E; [|done].
  destruct (verify _ _ _) eqn:Ev; [|done]. simpl.
  assert (HiY : u64 i ∉ Y) by (apply Hd; left).
  assert (HY' : voters ({[ u64 i ]} ∪ Y)).
  { intros j [->%elem_of_singleton|Hj]%elem_of_union; [apply u64_is_u64|by apply HY]. }
  assert (Hw : u64 (voters_weight c Y + ConsensusNode.weight node) =
    voters_weight c ({[ u64 i ]} ∪ Y)).
  { unfold voters_weight at 2. rewrite wset_insert by done. rewrite (node_weight_get _ _ E).
    fold (voters_weight c Y). rewrite Z.add_comm. apply u64_id.
    pose proof (voters_weight_le c Hwf _ HY') as Hle. unfold voters_weight at 1 in Hle.
    rewrite wset_insert in Hle by done. rewrite (node_weight_get _ _ E) in Hle.
    fold (voters_weight c Y) in Hle. pose proof (wf_total c Hwf).
    pose proof (wset_pos _ (node_weight_pos c Hwf) Y).
    pose proof (node_weight_pos c Hwf (u64 i)) as Hp. rewrite (node_weight_get _ _ E) in Hp.
    unfold is_u64, voters_weight in *. lia. }
  rewrite Hw. intros Hs. apply IH in Hs as [-> Hs]; [|exact Hnd'| |done].
  - split; [f_equal; set_solver|]. intros j [->|Hj]%elem_of_cons.
    + exists node, s. split; [left|done].
    + by apply signed_by_cons, Hs.
  - intros j Hj [->%elem_of_singleton|Hjy]%elem_of_union; [done|].
    eapply Hd; [right; exact Hj|done].
Qed.

(** A signature that verifies is counted as often as it is repeated. *)
Lemma signatureWeight_repeat hash i s node k w :
  PBFTConfig.getConsensusNodeByIndex c (u64 i) = Some node ->
  verify (ConsensusNode.nodeID node) hash s = true ->
  0 <= ConsensusNode.weight node -> is_u64 w ->
  w + Z.of_nat k * ConsensusNode.weight node < two64 ->
  BlockValidator.signatureWeight c hash (replicate k (i, s)) w =
  Some (w + Z.of_nat k * ConsensusNode.weight node).
Proof.
  intros E Ev Hp. revert w. induction k as [|k IH]; intros w Hw Hlt; simpl.
  { f_equal. lia. }
  unfold is_u64 in *. rewrite E, Ev. simpl. rewrite u64_id by (unfold is_u64; lia).
  rewrite IH by lia. f_equal. lia.
Qed.
End Signatures.

Section Verdict.
Context `{Ext : Externals} `{Bl : Blocks}.

(** What a sealer list must be. *)
Lemma checkSealerListAndWeightList_iff c (h : BlockHeader) :
  BlockValidator.checkSealerListAndWeightList c h = true <->
  is_Some (PBFTConfig.getConsensusNodeByIndex c (u64 (header_sealer h))) /\
  header_sealerList h = ConsensusNode.nodeID <$> PBFTConfig.consensusNodeList c /\
  header_consensusWeights h = ConsensusNode.weight <$> PBFTConfig.consensusNodeList c.
Proof.
  unfold BlockValidator.checkSealerListAndWeightList.
  destruct (PBFTConfig.getConsensusNodeByIndex _ _) as [node|].
  2: { split; [done|]. intros [[? ?] _]. done. }
  set (ns := PBFTConfig.consensusNodeList c). set (ss := header_sealerList h).
  set (ws := header_consensusWeights h).
  destruct (Nat.eqb_spec (length ss) (length ns)) as [Hs|Hs]; simpl.
  2: { split; [done|]. intros (_ & Hss & _). by rewrite Hss, length_fmap in Hs. }
  destruct (Nat.eqb_spec (length ws) (length ns)) as [Hw|Hw]; simpl.
  2: { split; [done|]. intros (_ & _ & Hww). by rewrite Hww, length_fmap in Hw. }
  transitivity (ss = ConsensusNode.nodeID <$> ns /\ ws = ConsensusNode.weight <$> ns);
    [|split; [split; [by eexists|done]|by intros [_ ?]]].
  clearbody ns ss ws. revert ss ws Hs Hw.
  induction ns as [|n ns IH]; intros [|s ss] [|w ws]; try done.
  intros [= Hs] [= Hw]. simpl. rewrite !andb_true_iff, (IH ss ws), !Z.eqb_eq by done.
  split; [by intros [[<- <-] [-> ->]]|by intros [[= -> ->] [= -> ->]]].
Qed.

(** When a block is accepted. *)
Definition acceptable (c : PBFTConfig.t) (committed : BlockNumber) (b : FullBlock)
    (h : BlockHeader) : Prop :=
  header_number h = 0 \/
  (committed < header_number h /\
   (transactionsSize b = 0 \/
    (is_Some (PBFTConfig.getConsensusNodeByIndex c (u64 (header_sealer h))) /\
     header_sealerList h = ConsensusNode.nodeID <$> PBFTConfig.consensusNodeList c /\
     header_consensusWeights h = ConsensusNode.weight <$> PBFTConfig.consensusNodeList c /\
     BlockValidator.checkSignatureList c h = true))).
End Verdict.

(** C35: the check calls back exactly once with its verdict and changes nothing.  A block is
    accepted exactly when it is the genesis block, or when it is above the committed
    block and either has no transactions or names the consensus nodes and their weights
    in order, has a consensus node as its sealer and passes the signature check. *)
Theorem checkBlock_verdict `{Ext : Externals} `{Bl : Blocks} (c : PBFTConfig.t) p b h :
  PBFTConfig.committedProposal c = Some p -> blockHeader b = Some h ->
  exists verdict,
    BlockValidator.checkBlock true b c = Done tt c [BlockValidator.OnVerifyFinish verdict] /\
    (verdict = true <-> acceptable c (PBFTProposal.index p) b h).
Proof.
  intros Hp Hh. unfold BlockValidator.checkBlock, acceptable. rewrite Hh.
  unfold PBFTConfig.committedProposal in *.
  unfold mbind, eff_bind, mret, eff_ret. simpl.
  destruct (Z.eqb_spec (header_number h) 0) as [H0|H0]; simpl.
  { exists true. split; [done|]. split; auto. }
  rewrite Hp. simpl.
  destruct (Z.leb_spec (header_number h) (PBFTProposal.index p)) as [Hle|Hlt]; simpl.
  { exists false. split; [done|]. split; [done|]. intros [?|[? _]]; lia. }
  destruct (Z.eqb_spec (transactionsSize b) 0) as [Ht|Ht]; simpl.
  { exists true. split; [done|]. split; auto. }
  destruct (BlockValidator.checkSealerListAndWeightList c h) eqn:Es; simpl.
  - apply checkSealerListAndWeightList_iff in Es as (E1 & E2 & E3).
    destruct (BlockValidator.checkSignatureList c h) eqn:Eg; simpl.
    + exists true. split; [done|]. split; [|done]. intros _. right. split; [done|]. by right.
    + exists false. split; [done|]. split; [done|].
      intros [?|[_ [?|(_ & _ & _ & ?)]]]; done || lia.
  - exists false. split; [done|]. split; [done|].
    intros [?|[_ [?|(E1 & E2 & E3 & _)]]]; [lia|lia|].
    by rewrite (proj2 (checkSealerListAndWeightList_iff c h) (conj E1 (conj E2 E3))) in Es.
Qed.

(** C36: an accepted signature list whose signers are distinct is a certificate: the signers
    weigh at least the required quorum and each has signed the block's hash, so that,
    with a faulty set within its bound, a consensus node outside it has signed. *)
Theorem accepted_signatures_are_a_quorum `{Ext : Externals} `{Bl : Blocks} (c : PBFTConfig.t)
    (h : BlockHeader) F :
  wf_nodes c -> 0 < total_weight c -> quorum_set c ->
  NoDup (signers (header_signatureList h)) ->
  BlockValidator.checkSignatureList c h = true ->
  voters_weight c F <= PBFTConfig.m_maxFaultyQuorum c ->
  let X := list_to_set (signers (header_signatureList h)) : gset Z in
  PBFTConfig.m_minRequiredQuorum c <= voters_weight c X /\
  (forall i, i ∈ X -> signed_by c (header_hash h) (header_signatureList h) i) /\
  exists i, (i ∉ F) /\ signed_by c (header_hash h) (header_signatureList h) i.
Proof.
  intros Hwf Hpos Hq Hnd Hc HF X. unfold BlockValidator.checkSignatureList in Hc.
  destruct (BlockValidator.signatureWeight _ _ _ _) as [w|] eqn:E; [|done].
  replace 0 with (voters_weight c ∅) in E by (apply wset_empty).
  apply signatureWeight_distinct in E as [-> Hs]; [|done|done|set_solver|by intros i ?%not_elem_of_empty].
  rewrite (right_id_L ∅ (∪)) in Hc. fold X in Hc. apply Z.leb_le in Hc.
  assert (HX : forall i, i ∈ X -> signed_by c (header_hash h) (header_signatureList h) i).
  { intros i Hi. apply Hs. by apply elem_of_list_to_set in Hi. }
  assert (Hv : voters X).
  { intros i Hi. apply elem_of_list_to_set in Hi. unfold signers in Hi.
    apply list_elem_of_fmap in Hi as (x & -> & _). apply u64_is_u64. }
  split; [done|]. split; [done|].
  destruct (quorum_common c X X F Hwf Hpos Hq Hv Hv Hc Hc HF) as (i & _ & Hi & _ & HiF & _).
  exists i. auto.
Qed.

(** C37: the signers need not be distinct.  One node's valid signature, repeated until the
    repetitions weigh a quorum, makes a block with the right sealer list acceptable. *)
Theorem repeated_signature_accepted `{Ext : Externals} `{Bl : Blocks} `{!BlockLaws}
    (c : PBFTConfig.t) (h : BlockHeader) i s node k :
  PBFTConfig.getConsensusNodeByIndex c (u64 i) = Some node ->
  verify (ConsensusNode.nodeID node) (header_hash h) s = true ->
  0 <= ConsensusNode.weight node ->
  PBFTConfig.m_minRequiredQuorum c <= Z.of_nat k * ConsensusNode.weight node < two64 ->
  BlockValidator.checkSignatureList c (setSignatureList (replicate k (i, s)) h) = true.
Proof.
  intros E Ev Hw [Hq Hlt]. unfold BlockValidator.checkSignatureList.
  rewrite hash_setSignatureList, signatureList_set.
  rewrite (signatureWeight_repeat c _ i s node k 0 E Ev Hw); [|split; done|lia].
  simpl. by apply Z.leb_le.
Qed.

(** ** Block 5 of the network of four nodes of weight 10 *)
Module BlockValidatorDemo.
#[local] Existing Instance Demo.externals.
#[local] Existing Instance BlockDemo.blocks.

Definition config : PBFTConfig.t :=
  four_nodes 10 <| PBFTConfig.base := (PBFTConfig.base (four_nodes 10))
    <| ConsensusConfig.m_committedProposal :=
         Some (PBFTProposal.create <| PBFTProposal.index := 4 |>) |> |>.
Definition header (l : list (Z * bytes)) : BlockHeader :=
  BlockDemo.mkHeader 5 55 1 [1; 2; 3; 4] [10; 10; 10; 10] l [].
Definition three : list (Z * bytes) := [(0, sign 1 55); (2, sign 3 55); (3, sign 4 55)].
Definition block (l : list (Z * bytes)) : FullBlock := BlockDemo.mkFull (Some (header l)) 7.
End BlockValidatorDemo.

Example checkBlock_verdict_witness :
  let _ := Demo.externals in let _ := BlockDemo.blocks in
  exists verdict,
    BlockValidator.checkBlock true (BlockValidatorDemo.block BlockValidatorDemo.three)
      BlockValidatorDemo.config =
      Done tt BlockValidatorDemo.config [BlockValidator.OnVerifyFinish verdict] /\
    verdict = true.
Proof.
  intros Ext Bl.
  destruct (checkBlock_verdict (Ext := Ext) (Bl := Bl) BlockValidatorDemo.config
    (PBFTProposal.create <| PBFTProposal.index := 4 |>)
    (BlockValidatorDemo.block BlockValidatorDemo.three)
    (BlockValidatorDemo.header BlockValidatorDemo.three)) as (v & Hv & Hacc);
    [reflexivity|reflexivity|].
  exists v. split; [exact Hv|]. apply Hacc. right. split; [reflexivity|]. right.
  split; [by eexists|]. repeat split.
Defined.

Example accepted_signatures_are_a_quorum_witness :
  let _ := Demo.externals in let _ := BlockDemo.blocks in
  exists i, (i ∉ ({[ 1 ]} : gset Z)) /\
    signed_by BlockValidatorDemo.config 55 BlockValidatorDemo.three i.
Proof.
  intros Ext Bl.
  apply (accepted_signatures_are_a_quorum (Ext := Ext) (Bl := Bl) BlockValidatorDemo.config
    (BlockValidatorDemo.header BlockValidatorDemo.three) {[ 1 ]}).
  - split; [exact (wf_weights _ four_nodes_wf)|exact (wf_total _ four_nodes_wf)].
  - reflexivity.
  - split; reflexivity.
  - apply (bool_decide_unpack _). vm_compute. exact I.
  - reflexivity.
  - vm_compute. congruence.
Defined.

Example repeated_signature_accepted_witness :
  let _ := Demo.externals in let _ := BlockDemo.blocks in
  BlockValidator.checkSignatureList BlockValidatorDemo.config
    (setSignatureList (replicate 3 (1, sign 2 55)) (BlockValidatorDemo.header [])) = true.
Proof.
  intros Ext Bl. pose proof (BlockDemo.block_laws : BlockLaws) as Laws.
  apply (repeated_signature_accepted (Ext := Ext) (Bl := Bl) BlockValidatorDemo.config
    (BlockValidatorDemo.header []) 1 (sign 2 55) (ConsensusNode.mk 2 10) 3);
    [reflexivity|reflexivity|vm_compute; congruence|vm_compute; split; congruence].
Defined.
