(* ===== verification/ConfigFacts.v ===== *)
(** ConfigFacts: properties of the configuration - the node list and its order, the
    leader rotation, the water marks, and how the operations that run between two
    committed blocks may change it. *)
From S2P Require Import Prelude Types Timer Validator Config Quorum.
Import PBFTConfig.

(** * Events that neither execute nor commit anything

    [quiet e] holds of the events other than broadcasts, executions and ledger
    commits. *)
Definition quiet (e : Event) : bool :=
  match e with
  | SendMessageByNodeIDs _ _ | AsyncApply _ _ _ | AsyncCommitStableCheckPoint _
  | AsyncCommitProposal _ => false
  | _ => true
  end.
Notation quiet_events := (Forall (fun e => quiet e = true)).

(** * Changes of the configuration between committed blocks *)
Record evolves (c c' : t) : Prop := {
  ev_base : base c' = base c;
  ev_faulty : m_maxFaultyQuorum c' = m_maxFaultyQuorum c;
  ev_quorum : m_minRequiredQuorum c' = m_minRequiredQuorum c;
  ev_limit : m_warterMarkLimit c' = m_warterMarkLimit c;
  ev_period : m_leaderSwitchPeriod c' = m_leaderSwitchPeriod c;
  ev_view : m_view c <= m_view c';
  ev_low : m_lowWaterMark c' = m_lowWaterMark c \/ progressedIndex c <= m_lowWaterMark c';
  ev_expected : m_expectedCheckPoint c <= m_expectedCheckPoint c'
}.

Definition config_step (c c' : t) (es : list Event) : Prop := evolves c c' /\ quiet_events es.

Lemma evolves_refl c : evolves c c.
Proof. split; auto; lia. Qed.

#[global] Instance config_step_transition : Transition config_step.
Proof.
  split.
  - intros c. split; [apply evolves_refl|constructor].
  - intros c1 c2 c3 e1 e2 [H1 Q1] [H2 Q2]. split; [|by apply Forall_app].
    destruct H1 as [B1 F1 M1 L1 P1 V1 W1 X1], H2 as [B2 F2 M2 L2 P2 V2 W2 X2].
    unfold progressedIndex, committedProposal in *. rewrite B1 in *.
    split; try congruence; [lia| |lia].
    destruct W2 as [->|]; auto.
Qed.

(** An update of fields that [evolves] does not constrain. *)
Ltac config_update :=
  let c := fresh "c" in
  intros c; split;
  [split; simpl; first [reflexivity | lia | left; reflexivity]|repeat constructor].

Section ConfigOperations.
Context `{Ext : Externals} {C : fault -> Prop}.
(** Faults other than exhausted fuel may occur. *)
Context (C_null : C NullDeref) (C_div : C DivByZero).

Lemma respects_emit {S} (R : S -> S -> list Event -> Prop) e :
  (forall s, R s s [e]) -> respects C R (emit e).
Proof. intros H s. apply H. Qed.

Lemma respects_modify {S E} (R : S -> S -> list E -> Prop) (f : S -> S) :
  (forall s, R s (f s) []) -> respects C R (modify f).
Proof. intros H s. apply H. Qed.

Lemma emit_step e : quiet e = true -> respects C config_step (emit e).
Proof.
  intros Hq. apply respects_emit. intros s. split; [apply evolves_refl|].
  by repeat constructor.
Qed.

Lemma committedIndex_step : respects C config_step committedIndex.
Proof using C_null. unfold committedIndex. eff_auto. Qed.

Lemma leader_of_step c i v : respects C config_step (leader_of c i v).
Proof using C_div. unfold leader_of. eff_auto. Qed.

Lemma leaderIndex_step i : respects C config_step (leaderIndex i).
Proof using C_div. unfold leaderIndex. eff_auto. apply leader_of_step. Qed.

Lemma leaderIndexInNewViewPeriod_at_step i v :
  respects C config_step (leaderIndexInNewViewPeriod_at i v).
Proof using C_div. unfold leaderIndexInNewViewPeriod_at. eff_auto. apply leader_of_step. Qed.

Lemma leaderIndexInNewViewPeriod_step v : respects C config_step (leaderIndexInNewViewPeriod v).
Proof using C_div.
  unfold leaderIndexInNewViewPeriod. eff_auto. apply leaderIndexInNewViewPeriod_at_step.
Qed.

Lemma leaderAfterViewChange_step : respects C config_step leaderAfterViewChange.
Proof using C_div.
  unfold leaderAfterViewChange. eff_auto. apply leaderIndexInNewViewPeriod_step.
Qed.

Lemma getLeader_step : respects C config_step getLeader.
Proof using C_div. unfold getLeader. eff_auto. apply leaderIndex_step. Qed.

Lemma canHandleNewProposalMsg_step i : respects C config_step (canHandleNewProposalMsg i).
Proof using C_null. unfold canHandleNewProposalMsg. eff_auto. apply committedIndex_step. Qed.

Lemma asyncNotifySealProposal_step s e m r :
  respects C config_step (asyncNotifySealProposal s e m r).
Proof. unfold asyncNotifySealProposal. eff_auto. by apply emit_step. Qed.

Lemma notifySealer_step i enforce : respects C config_step (notifySealer i enforce).
Proof using C_null C_div.
  unfold notifySealer. eff_auto;
    try apply leaderIndex_step; try apply committedIndex_step;
    try apply asyncNotifySealProposal_step; apply respects_modify; config_update.
Qed.

Lemma reNotifySealer_step i : respects C config_step (reNotifySealer i).
Proof using C_null C_div.
  unfold reNotifySealer. eff_auto; try apply committedIndex_step; try apply notifySealer_step.
  apply respects_modify; config_update.
Qed.

Lemma notifyResetSealing_step i : respects C config_step (notifyResetSealing i).
Proof using C_null.
  unfold notifyResetSealing. eff_auto; try apply committedIndex_step; try by apply emit_step.
  all: apply respects_modify; config_update.
Qed.

Lemma onSealerReset_step err i n : respects C config_step (onSealerReset err i n).
Proof using C_null C_div. unfold onSealerReset. eff_auto; apply reNotifySealer_step. Qed.

Lemma asyncResetTxsFlag_quiet d f v :
  wp C (TxsValidator.asyncResetTxsFlag d f v) (fun _ _ es => quiet_events es).
Proof.
  unfold TxsValidator.asyncResetTxsFlag, TxsValidator.insertResettingProposal.
  cbv [mbind eff_bind get modify mret eff_ret emit throw].
  destruct (createBlock d); [|constructor]. destruct f; simpl; [|by repeat constructor].
  case_bool_decide; simpl; [constructor|]. by repeat constructor.
Qed.

Lemma resetTxs_step d f : respects C config_step (zoom m_validator (TxsValidator.asyncResetTxsFlag d f)).
Proof.
  apply (respects_zoom m_validator (fun _ _ es => quiet_events es)).
  - intros v. apply asyncResetTxsFlag_quiet.
  - intros c v es Hq. split; [|exact Hq]. split; simpl; first [reflexivity | lia | by left].
Qed.

Lemma verifyProposal_step from p k :
  respects C config_step (zoom m_validator (TxsValidator.verifyProposal from p k)).
Proof.
  apply (respects_zoom m_validator (fun v v' es => v' = v /\ quiet_events es)).
  - intros v. split; [done|]. by repeat constructor.
  - intros c v es [-> Hq]. split; [|exact Hq]. split; simpl; first [reflexivity | lia | by left].
Qed.

(** ** The pure updates *)
Lemma on_timer_evolves f c : evolves c (on_timer f c).
Proof. split; simpl; first [reflexivity | lia | by left]. Qed.

Lemma resetToView_evolves c : evolves c (resetToView c).
Proof. split; simpl; first [reflexivity | lia | by left]. Qed.

Lemma resetTimeoutState_evolves b c : evolves c (resetTimeoutState b c).
Proof. destruct b; split; simpl; first [reflexivity | lia | by left]. Qed.

Lemma freshTimer_evolves c : evolves c (freshTimer c).
Proof. unfold freshTimer. destruct (_ <? _); apply on_timer_evolves. Qed.

Lemma resetNewViewState_evolves v c : evolves c (resetNewViewState v c).
Proof.
  unfold resetNewViewState, resetTimer, freshTimer. destruct (Z.ltb_spec v (m_view c)).
  - split; auto; lia.
  - destruct (m_startRecovered c); simpl; destruct (_ <? _); split; simpl;
      first [reflexivity | lia | by left].
Qed.

Lemma setWaitSealUntil_evolves i c : evolves c (setWaitSealUntil i c).
Proof. split; simpl; first [reflexivity | lia | by left]. Qed.
End ConfigOperations.

#[export] Hint Extern 1 (any_fault _) => exact I : eff.
#[export] Hint Extern 1 (not_fuel _) => discriminate : eff.
#[export] Hint Resolve committedIndex_step leaderIndex_step leaderIndexInNewViewPeriod_at_step
  leaderIndexInNewViewPeriod_step leaderAfterViewChange_step getLeader_step
  canHandleNewProposalMsg_step notifySealer_step reNotifySealer_step notifyResetSealing_step
  onSealerReset_step resetTxs_step verifyProposal_step : eff.
Create HintDb evolves.
#[export] Hint Resolve evolves_refl on_timer_evolves resetToView_evolves
  resetTimeoutState_evolves freshTimer_evolves resetNewViewState_evolves
  setWaitSealUntil_evolves : evolves.

(** * What only grows

    [marks]: everything up to the committed proposal is behind the progressed
    index, the expected checkpoint and the low water mark. *)
Definition committed_index (c : t) : Z :=
  match committedProposal c with Some p => PBFTProposal.index p | None => -1 end.

Record marks (c : t) : Prop := {
  marks_progressed : committed_index c < progressedIndex c;
  marks_expected : committed_index c < m_expectedCheckPoint c;
  marks_low : progressedIndex c <= m_lowWaterMark c
}.

Record advances (c c' : t) (es : list Event) : Prop := {
  adv_view : m_view c <= m_view c';
  adv_committed : committed_index c <= committed_index c';
  adv_progressed : progressedIndex c <= progressedIndex c';
  adv_marks : marks c -> marks c'
}.

Lemma advances_refl c es : advances c c es.
Proof. split; auto; lia. Qed.

#[global] Instance advances_transition : Transition advances.
Proof.
  split.
  - intros c. apply advances_refl.
  - intros c1 c2 c3 e1 e2 [] []. split; auto; lia.
Qed.

Lemma evolves_advances c c' es : evolves c c' -> advances c c' es.
Proof.
  intros [B F M L P V W X].
  assert (committed_index c' = committed_index c) as Hc
    by (unfold committed_index, committedProposal; by rewrite B).
  assert (progressedIndex c' = progressedIndex c) as Hp by (unfold progressedIndex; by rewrite B).
  split; try lia. intros [M1 M2 M3]. split; rewrite ?Hc, ?Hp in *.
  - lia.
  - lia.
  - destruct W as [->|]; lia.
Qed.

(** While a block is being committed the expected checkpoint does not fall either. *)
Definition rises (c c' : t) (es : list Event) : Prop :=
  advances c c' es /\ m_expectedCheckPoint c <= m_expectedCheckPoint c'.
#[global] Instance rises_transition : Transition rises.
Proof.
  split; [split; [apply advances_refl|lia]|].
  intros c1 c2 c3 e1 e2 [H1 X1] [H2 X2]. split; [by apply (transition_trans (R := advances) _ c2)|lia].
Qed.

Lemma evolves_rises c c' es : evolves c c' -> rises c c' es.
Proof. intros H. split; [by apply evolves_advances|apply (ev_expected _ _ H)]. Qed.

Lemma config_step_rises {A C} (m : Eff Event t A) :
  respects C config_step m -> respects C rises m.
Proof. intros H. eapply respects_weaken; [exact H|]. intros c c' es [? _]. by apply evolves_rises. Qed.

(** [setCommittedProposal] moves every mark past the new committed proposal. *)
Lemma setCommittedProposal_fields p c :
  let i := PBFTProposal.index p in
  let c' := setCommittedProposal p c in
  committedProposal c' = Some p /\
  progressedIndex c' = Z.max (progressedIndex c) (i + 1) /\
  m_expectedCheckPoint c' = Z.max (m_expectedCheckPoint c) (i + 1) /\
  m_lowWaterMark c' = Z.max (m_lowWaterMark c) (i + 1) /\
  m_view c' = m_view c.
Proof.
  unfold setCommittedProposal, ConsensusConfig.setCommittedProposal, committedProposal,
    progressedIndex. cbn -[Z.ltb Z.max].
  destruct (Z.ltb_spec (ConsensusConfig.m_progressedIndex (base c)) (PBFTProposal.index p + 1));
    destruct (Z.ltb_spec (m_expectedCheckPoint c) (PBFTProposal.index p + 1));
    cbn -[Z.ltb Z.max];
    destruct (Z.ltb_spec (m_lowWaterMark c) (PBFTProposal.index p + 1));
    cbn -[Z.ltb Z.max]; repeat split; lia.
Qed.

Lemma setCommittedProposal_rises p c es :
  committed_index c <= PBFTProposal.index p -> rises c (setCommittedProposal p c) es.
Proof.
  intros Hle. destruct (setCommittedProposal_fields p c) as (Hc & Hp & Hx & Hl & Hv).
  assert (committed_index (setCommittedProposal p c) = PBFTProposal.index p) as Hi
    by (unfold committed_index at 1; by rewrite Hc).
  split; [|lia]. split; rewrite ?Hi, ?Hp, ?Hv; try lia.
  intros [M1 M2 M3]. split; rewrite ?Hi, ?Hp, ?Hx, ?Hl; lia.
Qed.

(** An update that leaves the view and the indices alone. *)
Ltac keeps_marks :=
  apply respects_modify; intros ?; split; [split; [apply Z.le_refl..|intros []; by split]
    |apply Z.le_refl].

Section ResetConfig.
Context `{Ext : Externals}.

Lemma setConsensusNodeList_rises l : respects any_fault rises (setConsensusNodeList l).
Proof.
  unfold setConsensusNodeList, ConsensusConfig.setConsensusNodeList.
  eff_auto; try (by apply config_step_rises; auto with eff); try keeps_marks.
Qed.

Lemma setLeaderSwitchPeriod_rises n : respects any_fault rises (setLeaderSwitchPeriod n).
Proof.
  unfold setLeaderSwitchPeriod. eff_auto; try keeps_marks.
  apply config_step_rises; auto with eff.
Qed.

Lemma freshTimer_rises c es : rises c (resetTimer c) es.
Proof.
  unfold resetTimer. eapply (transition_trans (R := rises) _ (c <| m_timeoutState := false |>) _ [] es).
  - split; [split; [apply Z.le_refl..|intros []; by split]|apply Z.le_refl].
  - apply evolves_rises. auto with evolves.
Qed.

(** [resetConfig] never goes back, and when it returns the block is committed. *)
Lemma resetConfig_rises cfg synced c :
  0 <= LedgerConfig.blockNumber cfg ->
  wp any_fault (resetConfig cfg synced c) (fun _ c' es =>
    rises c c' es /\ LedgerConfig.blockNumber cfg <= committed_index c').
Proof.
  intros Hn. unfold resetConfig. apply wp_bind. cbn [get wp app].
  set (n := LedgerConfig.blockNumber cfg) in *.
  destruct (_ && _) eqn:Hguard.
  { split; [apply transition_refl|]. apply andb_true_iff in Hguard as [H1%Z.leb_le H2%Z.ltb_lt].
    unfold committed_index. destruct (committedProposal c); lia. }
  assert (Hle : committed_index c <= n).
  { unfold committed_index. destruct (committedProposal c); [|lia].
    apply andb_false_iff in Hguard as [H|H]; [apply Z.leb_gt in H|apply Z.ltb_ge in H]; lia. }
  apply wp_bind. cbn [modify wp app]. eapply (wp_respects rises).
  - eff_auto; try apply setConsensusNodeList_rises; try apply setLeaderSwitchPeriod_rises;
      try (by apply config_step_rises; auto with eff); try keeps_marks.
    + apply respects_modify. intros c0. apply freshTimer_rises.
    + apply (respects_zoom m_validator (fun v v' _ => v' = v)); [intros v; done|].
      intros c0 v es ->. split; [split; [apply Z.le_refl..|intros []; by split]|apply Z.le_refl].
    + apply respects_emit. intros c0. split; [apply advances_refl|apply Z.le_refl].
    + apply respects_emit. intros c0. split; [apply advances_refl|apply Z.le_refl].
  - intros r c' es H. split.
    + eapply (transition_trans (R := rises) _ _ _ [] es); [|exact H].
      by apply setCommittedProposal_rises.
    + destruct H as [[_ H _ _] _].
      destruct (setCommittedProposal_fields (PBFTProposal.create <| PBFTProposal.index := n |>
        <| PBFTProposal.hash := LedgerConfig.hash cfg |>) c) as [Hc _].
      unfold committed_index in H at 1. rewrite Hc in H. exact H.
Qed.
End ResetConfig.

(** * Theorems about the configuration *)

Lemma index_from_spec id l k :
  0 <= k -> k + Z.of_nat (length l) < NON_CONSENSUS_NODE ->
  let i := ConsensusConfig.index_from k id l in
  (i = NON_CONSENSUS_NODE /\ forall node, node ∈ l -> ConsensusNode.nodeID node <> id) \/
  (k <= i < k + Z.of_nat (length l) /\ exists node, l !! Z.to_nat (i - k) = Some node /\
     ConsensusNode.nodeID node = id /\
     forall j node', (j < Z.to_nat (i - k))%nat -> l !! j = Some node' ->
       ConsensusNode.nodeID node' <> id).
Proof.
  revert k. induction l as [|node l IH]; intros k Hk Hlen; cbn [ConsensusConfig.index_from].
  { left. split; [done|]. by intros node ?%elem_of_nil. }
  cbn [length] in Hlen. destruct (Z.eqb_spec (ConsensusNode.nodeID node) id) as [He|Hne].
  - right. cbn [length]. split; [lia|]. exists node. rewrite Z.sub_diag. split; [done|].
    split; [done|]. intros j node' Hj. simpl in Hj. lia.
  - rewrite u64_id by (unfold is_u64, two64, NON_CONSENSUS_NODE in *; lia).
    destruct (IH (k + 1)) as [[-> Hall]|(Hr & node' & Hl & Hid & Hmin)]; [lia|lia| |].
    + left. split; [done|]. intros n [->|Hn]%elem_of_cons; [done|by apply Hall].
    + right. cbn [length]. set (i := ConsensusConfig.index_from (k + 1) id l) in *.
      split; [lia|]. exists node'.
      replace (Z.to_nat (i - k)) with (S (Z.to_nat (i - (k + 1)))) by lia.
      split; [done|]. split; [done|]. intros [|j] n Hj; simpl.
      * by intros [= <-].
      * apply Hmin. lia.
Qed.

(** [getNodeIndexByNodeID] and [getConsensusNodeByIndex] are inverse: the index
    found for a key designates the first node with that key, and
    [NON_CONSENSUS_NODE] is returned exactly when no node has the key. *)
Theorem node_index_roundtrip c id :
  Z.of_nat (length (ConsensusConfig.m_consensusNodeList c)) < NON_CONSENSUS_NODE ->
  let i := ConsensusConfig.getNodeIndexByNodeID c id in
  match ConsensusConfig.getConsensusNodeByIndex c i with
  | Some node => ConsensusNode.nodeID node = id /\ i <> NON_CONSENSUS_NODE
  | None => i = NON_CONSENSUS_NODE /\
      forall node, node ∈ ConsensusConfig.m_consensusNodeList c -> ConsensusNode.nodeID node <> id
  end.
Proof.
  intros Hlen i. unfold ConsensusConfig.getConsensusNodeByIndex.
  destruct (index_from_spec id (ConsensusConfig.m_consensusNodeList c) 0)
    as [[Hi Hall]|(Hr & node & Hl & Hid & _)]; [lia|lia| |].
  - change (i = NON_CONSENSUS_NODE) in Hi. rewrite Hi.
    destruct (Z.ltb_spec NON_CONSENSUS_NODE
      (Z.of_nat (length (ConsensusConfig.m_consensusNodeList c)))); [lia|]. done.
  - change (ConsensusConfig.index_from 0 id (ConsensusConfig.m_consensusNodeList c)) with i in *.
    destruct (Z.ltb_spec i (Z.of_nat (length (ConsensusConfig.m_consensusNodeList c)))); [|lia].
    rewrite Z.sub_0_r in Hl. rewrite Hl. split; [done|lia].
Qed.

Example node_index_roundtrip_witness :
  let c := (ConsensusConfig.create 2) <| ConsensusConfig.m_consensusNodeList :=
    [ConsensusNode.mk 1 1; ConsensusNode.mk 2 1] |> in
  exists node, ConsensusConfig.getConsensusNodeByIndex c 1 = Some node /\
    ConsensusNode.nodeID node = 2.
Proof.
  intros c. pose proof (node_index_roundtrip c 2 ltac:(vm_compute; reflexivity)) as H.
  exists (ConsensusNode.mk 2 1). split; [reflexivity|]. exact (proj1 H).
Defined.

(** C21: the leader of a proposal index is a valid node index, and the next view
    hands the lead to the next node in cyclic order. *)
Theorem leader_rotation c i v :
  0 < m_leaderSwitchPeriod c -> 0 < consensusNodesNum c -> 0 <= v ->
  u64 i / m_leaderSwitchPeriod c + v + 1 < two64 ->
  exists l, leaderIndexInNewViewPeriod_at i v c = Done l c [] /\
    0 <= l < consensusNodesNum c /\
    leaderIndexInNewViewPeriod_at i (v + 1) c = Done ((l + 1) mod consensusNodesNum c) c [].
Proof.
  intros Hp Hn Hv Hlt. unfold leaderIndexInNewViewPeriod_at, leader_of.
  cbv [mbind eff_bind get]. rewrite !(proj2 (Z.eqb_neq _ 0)) by lia. simpl.
  assert (0 <= u64 i / m_leaderSwitchPeriod c).
  { apply Z.div_pos; [|lia]. apply u64_is_u64. }
  rewrite Z.add_assoc, (u64_id (_ + v)), (u64_id (_ + v + 1)) by (unfold is_u64; lia).
  eexists. split; [reflexivity|]. split; [by apply Z.mod_pos_bound|].
  rewrite Z.add_mod_idemp_l by lia. reflexivity.
Qed.

Example leader_rotation_witness :
  let _ := Demo.externals in
  let c := (create 1) <| base := (ConsensusConfig.create 1)
    <| ConsensusConfig.m_consensusNodeNum := 4 |> |> in
  exists l, leaderIndexInNewViewPeriod_at 5 2 c = Done l c [] /\ 0 <= l < 4 /\
    leaderIndexInNewViewPeriod_at 5 (2 + 1) c = Done ((l + 1) mod 4) c [].
Proof.
  intros Ext c.
  exact (leader_rotation c 5 2 ltac:(reflexivity) ltac:(reflexivity)
    ltac:(vm_compute; congruence) ltac:(vm_compute; reflexivity)).
Defined.

Lemma updateQuorum_nodes c c' :
  consensusNodeList c = consensusNodeList c' ->
  m_minRequiredQuorum (updateQuorum c) = m_minRequiredQuorum (updateQuorum c').
Proof. intros H. unfold updateQuorum. simpl. by rewrite H. Qed.

Lemma notifyResetSealing_done `{Ext : Externals} i c p :
  committedProposal c = Some p ->
  exists c' es, notifyResetSealing i c = Done tt c' es /\ evolves c c'.
Proof.
  intros Hp. pose proof (notifyResetSealing_step (C := fun f => f = NullDeref) eq_refl i c) as Hw.
  destruct (notifyResetSealing i c) as [[] c' es|x c' es|f] eqn:E.
  - exists c', es. split; [done|apply Hw].
  - exfalso. revert E. unfold notifyResetSealing, committedIndex.
    cbv [mbind eff_bind get asks emit modify mret eff_ret].
    destruct (m_sealerResetNotifier c); simpl; by rewrite ?Hp.
  - exfalso. revert E. unfold notifyResetSealing, committedIndex.
    cbv [mbind eff_bind get asks emit modify mret eff_ret].
    destruct (m_sealerResetNotifier c); simpl; by rewrite ?Hp.
Qed.

(** The base class's part: the list, the number of nodes, the index, the quorum. *)
Lemma base_setConsensusNodeList_spec `{Ext : Externals} l c :
  let sorted := merge_sort ConsensusConfig.node_le l in
  match ConsensusConfig.setConsensusNodeList base updateQuorum l c with
  | Done r d es =>
      l <> [] /\ r = sorted /\ es = [] /\ committedProposal d = committedProposal c /\
      if ConsensusConfig.compareConsensusNode sorted (consensusNodeList c)
      then ConsensusConfig.m_nodeUpdated (base d) = false /\
        consensusNodeList d = consensusNodeList c /\ nodeIndex d = nodeIndex c /\
        m_minRequiredQuorum d = m_minRequiredQuorum c
      else ConsensusConfig.m_nodeUpdated (base d) = true /\ consensusNodeList d = sorted /\
        consensusNodesNum d = Z.of_nat (length sorted) /\
        nodeIndex d = ConsensusConfig.getNodeIndexByNodeID (base d) (nodeID c) /\
        m_minRequiredQuorum d = m_minRequiredQuorum (updateQuorum d)
  | Threw x d es => l = [] /\ x = InitConsensusException /\ d = c /\ es = []
  | Crashed _ => False
  end.
Proof.
  intros sorted. unfold ConsensusConfig.setConsensusNodeList. fold sorted.
  case_bool_decide as Hl; [done|]. cbv [mbind eff_bind get modify mret eff_ret].
  fold (consensusNodeList c).
  destruct (ConsensusConfig.compareConsensusNode sorted (consensusNodeList c)).
  - done.
  - set (c2 := c <| base := _ |> <| base := _ |>).
    assert (Hb : base (updateQuorum c2) = base c2) by reflexivity.
    assert (Hq : m_minRequiredQuorum (updateQuorum c2) =
      m_minRequiredQuorum (updateQuorum (updateQuorum c2)))
      by (apply updateQuorum_nodes; unfold consensusNodeList; by rewrite Hb).
    generalize dependent (updateQuorum c2). intros d Hb Hq.
    unfold committedProposal, consensusNodeList, consensusNodesNum, nodeIndex, nodeID.
    rewrite Hb, Hq. by repeat split.
Qed.

(** C20: [setConsensusNodeList] rejects an empty list by an exception and leaves the
    configuration alone; otherwise it installs the list in the comparator's order
    (or finds it unchanged), and when the list changes it recomputes the number of
    nodes, this node's index and the quorum from it. *)
Theorem setConsensusNodeList_correct `{Ext : Externals} l c :
  (forall a b, nodeLess a b = true -> nodeLess b a = false) ->
  match setConsensusNodeList l c with
  | Done sorted c' _ =>
      l <> [] /\ sorted ≡ₚ l /\ Sorted ConsensusConfig.node_le sorted /\
      if ConsensusConfig.compareConsensusNode sorted (consensusNodeList c)
      then consensusNodeList c' = consensusNodeList c /\ nodeIndex c' = nodeIndex c /\
        m_minRequiredQuorum c' = m_minRequiredQuorum c
      else consensusNodeList c' = sorted /\ consensusNodesNum c' = Z.of_nat (length l) /\
        nodeIndex c' = ConsensusConfig.getNodeIndexByNodeID (base c') (nodeID c) /\
        m_minRequiredQuorum c' = m_minRequiredQuorum (updateQuorum c')
  | Threw x c' es => l = [] /\ x = InitConsensusException /\ c' = c /\ es = []
  | Crashed _ => False
  end.
Proof.
  intros Hless. unfold setConsensusNodeList.
  pose proof (base_setConsensusNodeList_spec l c) as Hbase.
  set (sorted := merge_sort ConsensusConfig.node_le l) in *.
  assert (Hperm : sorted ≡ₚ l) by apply merge_sort_Permutation.
  assert (Hsorted : Sorted ConsensusConfig.node_le sorted).
  { apply Sorted_merge_sort. intros a b. unfold ConsensusConfig.node_le.
    destruct (nodeLess b a) eqn:E; [right; by apply Hless|by left]. }
  unfold mbind, eff_bind.
  destruct (ConsensusConfig.setConsensusNodeList base updateQuorum l c) as [r d es|x d es|f];
    [|done|done].
  destruct Hbase as (Hl & -> & -> & Hcom & Hd).
  destruct (ConsensusConfig.compareConsensusNode sorted (consensusNodeList c)) eqn:Ecmp.
  - destruct Hd as (Hu & H1 & H2 & H3). cbn -[updateQuorum]. rewrite Hu.
    cbn -[updateQuorum]. by rewrite Ecmp.
  - destruct Hd as (Hu & H1 & H2 & H3 & H4). cbn -[updateQuorum]. rewrite Hu.
    cbn -[updateQuorum]. rewrite Hcom.
    assert (Hfin : forall d', evolves d d' -> consensusNodeList d' = sorted /\
      consensusNodesNum d' = Z.of_nat (length l) /\
      nodeIndex d' = ConsensusConfig.getNodeIndexByNodeID (base d') (nodeID c) /\
      m_minRequiredQuorum d' = m_minRequiredQuorum (updateQuorum d')).
    { intros d' Hev. unfold consensusNodeList, consensusNodesNum, nodeIndex in *.
      rewrite (updateQuorum_nodes d' d) by (unfold consensusNodeList; by rewrite (ev_base _ _ Hev)).
      rewrite (ev_base _ _ Hev), (ev_quorum _ _ Hev). by rewrite <- Hperm. }
    destruct (committedProposal c) as [p|] eqn:Ec.
    + destruct (notifyResetSealing_done (Some (sealStartIndex d)) d p) as (d' & es' & -> & Hev);
        [done|]. cbn -[updateQuorum]. rewrite Ecmp.
      split; [done|]. split; [done|]. split; [done|]. by apply Hfin.
    + cbn -[updateQuorum]. rewrite Ecmp.
      split; [done|]. split; [done|]. split; [done|]. apply Hfin, evolves_refl.
Qed.

Example setConsensusNodeList_correct_witness :
  let _ := Demo.externals in
  let l := [ConsensusNode.mk 2 5; ConsensusNode.mk 1 5] in
  match setConsensusNodeList l (create 2) with
  | Done sorted c' _ => sorted ≡ₚ l /\ Sorted ConsensusConfig.node_le sorted
  | _ => False
  end.
Proof.
  intros Ext l. pose proof (setConsensusNodeList_correct (Ext := Ext) l (create 2)) as H.
  destruct (setConsensusNodeList l (create 2)) as [sorted c' es|x c' es|]; [| |]; 
    (destruct H as (H1 & H2 & H3 & _) || destruct H); 
    try (intros a b; simpl; rewrite Z.ltb_lt, Z.ltb_ge; lia); try done.
Defined.

(** All the indices of one switch period have the same leader. *)
Lemma period_leader c i j v :
  0 < m_leaderSwitchPeriod c -> 0 <= i <= j ->
  (i / m_leaderSwitchPeriod c + 1) * m_leaderSwitchPeriod c < 2 ^ 63 ->
  j <= periodEnd c i -> leader_of c j v c = leader_of c i v c.
Proof.
  intros Hp Hij Hlt Hend.
  assert (Hi : 0 <= i / m_leaderSwitchPeriod c) by (apply Z.div_pos; lia).
  pose proof (Z.mul_succ_div_gt i (m_leaderSwitchPeriod c) Hp) as Hgt.
  assert (Hi64 : is_u64 i) by (unfold is_u64, two64; nia).
  assert (Hend' : periodEnd c i = (i / m_leaderSwitchPeriod c + 1) * m_leaderSwitchPeriod c - 1).
  { unfold periodEnd. rewrite (u64_id i) by done.
    rewrite u64_id by (unfold is_u64, two64; nia). apply i64_id. nia. }
  assert (Hj64 : is_u64 j) by (unfold is_u64, two64; lia).
  assert (Hdiv : j / m_leaderSwitchPeriod c = i / m_leaderSwitchPeriod c).
  { symmetry. apply Z.div_unique with (j - m_leaderSwitchPeriod c * (i / m_leaderSwitchPeriod c)).
    - left. pose proof (Z.mul_div_le i _ Hp). nia.
    - lia. }
  unfold leader_of. rewrite (u64_id i), (u64_id j) by done. by rewrite Hdiv.
Qed.

(** C19: a notification to seal is only sent to the sealer of the leader and asks for
    a non-empty range of indices that starts after everything already asked for,
    stays below the high water mark and, while sealed transactions are being reset,
    does not run past the next block; this node leads every index of the range, and
    the recorded range is the one asked for. *)
Theorem notifySealer_range `{Ext : Externals} c c' i es :
  0 < m_leaderSwitchPeriod c -> 0 <= i ->
  (i / m_leaderSwitchPeriod c + 1) * m_leaderSwitchPeriod c < 2 ^ 63 ->
  notifySealer i false c = Done tt c' es ->
  (c' = c /\ es = []) \/
  exists s e, i <= s <= e /\ m_sealEndIndex c < s /\ e < highWaterMark c /\
    canHandleNewProposal c = true /\
    (0 < TxsValidator.resettingProposalSize (m_validator c) -> s <= committed_index c + 1) /\
    (forall j, s <= j <= e -> leader_of c j (m_view c) c = Done (nodeIndex c) c []) /\
    m_sealStartIndex c' = s /\ m_sealEndIndex c' = e /\
    es = (if m_sealProposalNotifier c
          then [NotifySealProposal (u64 s) (u64 e) (blockTxCountLimit c) 0] else []).
Proof.
  intros Hp Hi Hlt. unfold notifySealer, leaderIndex, asyncNotifySealProposal, committedIndex.
  cbv [mbind eff_bind get asks deref modify emit].
  destruct (leader_of c i (m_view c) c) as [l cl el| |] eqn:El; [|done|done].
  assert (cl = c /\ el = []) as [-> ->].
  { unfold leader_of in El. destruct (_ || _); [done|]. by injection El. }
  destruct (Z.eqb_spec l (nodeIndex c)) as [->|]; cbn -[periodEnd highWaterMark];
    [|intros [= <- <-]; by left].
  destruct (canHandleNewProposal c) eqn:Ecan; cbn -[periodEnd highWaterMark];
    [|intros [= <- <-]; by left].
  set (e := Z.min (periodEnd c i) (highWaterMark c - 1)).
  destruct (Z.leb_spec e (m_sealEndIndex c)); [intros [= <- <-]; by left|].
  set (s := Z.max (m_sealEndIndex c + 1) i).
  destruct (Z.ltb_spec e s); [intros [= <- <-]; by left|].
  destruct (committedProposal c) as [p|] eqn:Ecm; [|done]. cbn -[e s].
  destruct ((_ <? _) && _) eqn:Ereset; [intros [= <- <-]; by left|].
  intros Hrun. right. exists s, e.
  assert (Hres : 0 < TxsValidator.resettingProposalSize (m_validator c) ->
    s <= committed_index c + 1).
  { intros Hpos%Z.ltb_lt. rewrite Hpos in Ereset. unfold committed_index. rewrite Ecm.
    by apply Z.ltb_ge in Ereset. }
  assert (Hlead : forall j, s <= j <= e -> leader_of c j (m_view c) c = Done (nodeIndex c) c []).
  { intros j Hj. rewrite <- El. apply period_leader; lia. }
  destruct (m_sealProposalNotifier c); cbn -[e s] in Hrun; injection Hrun as <- <-;
    repeat split; try done; lia.
Qed.

Example notifySealer_range_witness :
  let _ := Demo.externals in
  let c := (create 1) <| base := (ConsensusConfig.create 1)
      <| ConsensusConfig.m_consensusNodeList := [ConsensusNode.mk 1 1; ConsensusNode.mk 2 1] |>
      <| ConsensusConfig.m_consensusNodeNum := 2 |>
      <| ConsensusConfig.m_committedProposal := Some PBFTProposal.create |> |>
    <| m_leaderSwitchPeriod := 5 |> <| m_sealProposalNotifier := true |> in
  match notifySealer 1 false c with
  | Done _ c' es => m_sealEndIndex c' = 4 /\
      exists s e, 1 <= s <= e /\ e < highWaterMark c /\
        es = [NotifySealProposal (u64 s) (u64 e) (blockTxCountLimit c) 0]
  | _ => False
  end.
Proof.
  intros Ext c.
  assert (Hn : match notifySealer 1 false c with
    | Done _ c' _ => m_sealEndIndex c' = 4 | _ => False end) by (vm_compute; reflexivity).
  destruct (notifySealer 1 false c) as [[] c' es|x c' es|] eqn:E; [|done|done].
  split; [exact Hn|].
  destruct (notifySealer_range c c' 1 es) as [[-> _]|(s & e & H1 & _ & H2 & _ & _ & _ & _ & _ & H3)].
  - reflexivity.
  - lia.
  - vm_compute. reflexivity.
  - exact E.
  - vm_compute in Hn. congruence.
  - eauto 6.
Defined.
