(* ===== verification/CacheFacts.v ===== *)
(** CacheFacts: what the vote collections of a [PBFTCache] guarantee - every sender
    is counted once, the recorded weights are those of the cached senders, and a
    reported quorum is a set of distinct nodes of sufficient weight. *)
From S2P Require Import Prelude Types Timer Validator Config Cache Quorum.
Import PBFTCache.

(** The cached message of a sender for a proposal, and the senders. *)
Definition cached (l : CollectionCacheType) (h : HashType) (i : IndexType) : option PBFTMessage.t :=
  l !! h ≫= fun cache => cache !! i.
Definition senders (l : CollectionCacheType) (h : HashType) : gset Z :=
  dom (default ∅ (l !! h)).

Record wf_collection (config : PBFTConfig.t) (index : BlockNumber)
    (l : CollectionCacheType) (w : QuorumRecoderType) : Prop := {
  wc_message : forall h i m, cached l h i = Some m ->
    PBFTMessage.generatedFrom m = i /\ PBFTMessage.hash m = h /\ PBFTMessage.index m = index /\
    is_Some (PBFTConfig.getConsensusNodeByIndex config i);
  wc_weight : forall h, default 0 (w !! h) = voters_weight config (senders l h);
  wc_counted : forall h, 0 < default 0 (w !! h) -> is_Some (l !! h)
}.

Lemma elem_of_senders l h i : i ∈ senders l h <-> is_Some (cached l h i).
Proof.
  unfold senders, cached. rewrite elem_of_dom. by destruct (l !! h); simpl; rewrite ?lookup_empty.
Qed.

Lemma generatedFrom_u64 m : 0 <= PBFTMessage.generatedFrom m.
Proof.
  unfold PBFTMessage.generatedFrom, BaseMessage.generatedFrom.
  pose proof (u64_is_u64 (BaseMessage.raw_generatedFrom (PBFTMessage.base m))) as H.
  unfold is_u64 in H. lia.
Qed.

Lemma senders_voters config index l w h : wf_collection config index l w -> voters (senders l h).
Proof.
  intros Hwf i [m Hm]%elem_of_senders. destruct (wc_message _ _ _ _ Hwf _ _ _ Hm) as [<- _].
  apply generatedFrom_u64.
Qed.

Lemma log_access_default `{Ext : Externals} k m h :
  default 0 (log_access k m !! h) = default 0 (m !! h).
Proof.
  unfold log_access. destruct log_info; [|done]. destruct (m !! k) eqn:E; [done|].
  destruct (decide (h = k)) as [->|Hne].
  - by rewrite lookup_insert_eq, E.
  - by rewrite lookup_insert_ne.
Qed.

Section Collections.
Context (config : PBFTConfig.t) (index : BlockNumber) (Hnodes : wf_nodes config).

Lemma empty_wf : wf_collection config index ∅ ∅.
Proof.
  split.
  - intros h i m. unfold cached. by rewrite lookup_empty.
  - intros h. unfold senders. rewrite !lookup_empty. simpl. rewrite dom_empty_L.
    symmetry. apply wset_empty.
  - intros h. rewrite lookup_empty. simpl. lia.
Qed.

Lemma cached_insert l h i m h' i' :
  cached (<[ h := <[ i := m ]> (default ∅ (l !! h)) ]> l) h' i' =
  if decide (h' = h /\ i' = i) then Some m else cached l h' i'.
Proof.
  unfold cached. destruct (decide (h' = h)) as [->|Hh].
  - rewrite lookup_insert_eq. simpl. destruct (decide (i' = i)) as [->|Hi].
    + rewrite lookup_insert_eq. by rewrite decide_True.
    + rewrite lookup_insert_ne by done. rewrite decide_False by naive_solver.
      by destruct (l !! h); simpl; rewrite ?lookup_empty.
  - rewrite lookup_insert_ne by done. by rewrite decide_False by naive_solver.
Qed.

(** A fresh sender adds its weight to the weight of the proposal's senders. *)
Lemma senders_insert l h i m :
  cached l h i = None ->
  voters_weight config (senders (<[ h := <[ i := m ]> (default ∅ (l !! h)) ]> l) h) =
  node_weight config i + voters_weight config (senders l h).
Proof.
  intros Hn. unfold voters_weight, senders at 1. rewrite lookup_insert_eq. simpl.
  rewrite dom_insert_L. fold (senders l h). apply wset_insert.
  rewrite elem_of_senders, Hn. by intros [? ?].
Qed.

Lemma senders_weight_u64 l w h :
  wf_collection config index l w -> is_u64 (voters_weight config (senders l h)).
Proof using Hnodes.
  intros Hwf. split; [apply wset_pos, node_weight_pos, Hnodes|].
  pose proof (voters_weight_le config Hnodes _ (senders_voters _ _ _ _ h Hwf)).
  pose proof (wf_total _ Hnodes). lia.
Qed.

(** [addCache] counts a valid message of a new sender, and nothing else. *)
Lemma addCache_wf l w m :
  wf_collection config index l w ->
  let '(l', w') := addCache config index l w m in wf_collection config index l' w'.
Proof using Hnodes.
  intros Hwf. unfold addCache.
  destruct (Z.eqb_spec (PBFTMessage.index m) index) as [Hi|]; simpl; [|done].
  fold (cached l (PBFTMessage.hash m) (PBFTMessage.generatedFrom m)).
  destruct (cached l (PBFTMessage.hash m) (PBFTMessage.generatedFrom m)) eqn:Ec; [done|].
  destruct (PBFTConfig.getConsensusNodeByIndex config (PBFTMessage.generatedFrom m))
    as [node|] eqn:En; [|done].
  set (l' := <[ PBFTMessage.hash m := _ ]> l).
  assert (Hmsg : forall h i m', cached l' h i = Some m' ->
    PBFTMessage.generatedFrom m' = i /\ PBFTMessage.hash m' = h /\
    PBFTMessage.index m' = index /\ is_Some (PBFTConfig.getConsensusNodeByIndex config i)).
  { intros h i m'. unfold l'. rewrite cached_insert. case_decide as Hd.
    - destruct Hd as [-> ->]. intros [= <-]. by rewrite En.
    - apply (wc_message _ _ _ _ Hwf). }
  assert (Hsum : voters_weight config (senders l' (PBFTMessage.hash m)) =
    ConsensusNode.weight node + voters_weight config (senders l (PBFTMessage.hash m))).
  { unfold l'. rewrite senders_insert by done. unfold node_weight. by rewrite En. }
  assert (Hle : voters_weight config (senders l' (PBFTMessage.hash m)) < two64).
  { eapply Z.le_lt_trans; [apply voters_weight_le; [exact Hnodes|]|apply (wf_total _ Hnodes)].
    intros i [m' Hm']%elem_of_senders. destruct (Hmsg _ _ _ Hm') as [<- _].
    apply generatedFrom_u64. }
  split; [exact Hmsg| |].
  - intros h. destruct (decide (h = PBFTMessage.hash m)) as [->|Hne].
    + rewrite lookup_insert_eq. simpl. rewrite (wc_weight _ _ _ _ Hwf), Hsum.
      destruct (senders_weight_u64 l w (PBFTMessage.hash m) Hwf).
      pose proof (wf_weights _ Hnodes node (getConsensusNodeByIndex_elem _ _ _ En)).
      rewrite u64_id by (unfold is_u64; lia). lia.
    + rewrite lookup_insert_ne by done. rewrite (wc_weight _ _ _ _ Hwf).
      unfold senders, l'. by rewrite lookup_insert_ne.
  - intros h Hpos. unfold l'. destruct (decide (h = PBFTMessage.hash m)) as [->|Hne].
    + rewrite lookup_insert_eq. eauto.
    + rewrite lookup_insert_ne by done. apply (wc_counted _ _ _ _ Hwf).
      by rewrite lookup_insert_ne in Hpos.
Qed.

Lemma log_access_wf `{Ext : Externals} l w k :
  wf_collection config index l w -> wf_collection config index l (log_access k w).
Proof.
  intros [H1 H2 H3]. split; [done| |].
  - intros h. by rewrite log_access_default.
  - intros h. rewrite log_access_default. apply H3.
Qed.

(** [resetCacheAfterViewChange] keeps exactly the messages of the current and
    later views. *)
Lemma cached_reset l v h i :
  cached (resetCacheAfterViewChange l v) h i =
  match cached l h i with
  | Some m => if PBFTMessage.view m <? v then None else Some m
  | None => None
  end.
Proof.
  unfold cached, resetCacheAfterViewChange. rewrite lookup_omap.
  destruct (l !! h) as [cache|]; simpl; [|done].
  set (f := filter _ cache).
  assert (Hf : f !! i = match cache !! i with
    | Some m => if PBFTMessage.view m <? v then None else Some m | None => None end).
  { unfold f. rewrite map_lookup_filter. destruct (cache !! i) as [m|]; simpl; [|done].
    destruct (Z.ltb_spec (PBFTMessage.view m) v); [by rewrite option_guard_False by (simpl; lia)|].
    by rewrite option_guard_True by (simpl; lia). }
  case_bool_decide as He; [|exact Hf]. rewrite He, lookup_empty in Hf. exact Hf.
Qed.

(** The accumulation of [recalculateQuorum]. *)
Lemma fold_add_weight (ps : list (Z * PBFTMessage.t)) acc :
  (forall i m, (i, m) ∈ ps -> PBFTMessage.generatedFrom m = i) ->
  0 <= acc -> acc + wsum (node_weight config) ps.*1 < two64 ->
  fold_left (add_weight config) ps.*2 acc = acc + wsum (node_weight config) ps.*1.
Proof using Hnodes.
  revert acc. induction ps as [|[i m] ps IH]; intros acc Hg Hacc Hlt; [simpl; lia|].
  assert (Hm : PBFTMessage.generatedFrom m = i) by (apply Hg; constructor).
  rewrite !fmap_cons in *. unfold wsum in *. cbn [fst snd foldr fold_left] in *.
  fold (wsum (node_weight config) ps.*1) in *.
  pose proof (wsum_pos _ (node_weight_pos config Hnodes) ps.*1).
  pose proof (node_weight_pos config Hnodes i).
  assert (add_weight config acc m = acc + node_weight config i) as ->.
  { unfold add_weight, node_weight in *. rewrite Hm.
    destruct (PBFTConfig.getConsensusNodeByIndex config i); [|lia].
    rewrite u64_id; [done|unfold is_u64; lia]. }
  rewrite IH; [lia| |lia|lia]. intros j m' Hj. apply Hg. by constructor.
Qed.

Lemma recalculateQuorum_wf l :
  (forall h i m, cached l h i = Some m ->
    PBFTMessage.generatedFrom m = i /\ PBFTMessage.hash m = h /\ PBFTMessage.index m = index /\
    is_Some (PBFTConfig.getConsensusNodeByIndex config i)) ->
  wf_collection config index l (recalculateQuorum config l).
Proof using Hnodes.
  intros Hmsg. split; [done| |].
  - intros h. unfold recalculateQuorum, senders. rewrite lookup_fmap.
    destruct (l !! h) as [cache|] eqn:El; simpl; [|rewrite dom_empty_L; symmetry; apply wset_empty].
    assert (Hw : wsum (node_weight config) (in_order cache).*1 = voters_weight config (dom cache)).
    { unfold voters_weight. rewrite <- wset_list by apply NoDup_in_order. f_equal.
      apply set_eq. intros i. rewrite elem_of_list_to_set, list_elem_of_fmap, elem_of_dom.
      split.
      - intros ([j m] & -> & Hm%elem_of_in_order). eauto.
      - intros [m Hm]. exists (i, m). by rewrite elem_of_in_order. }
    assert (Hgen : forall i m, (i, m) ∈ in_order cache -> PBFTMessage.generatedFrom m = i).
    { intros i m Hm%elem_of_in_order. apply (Hmsg h). unfold cached. by rewrite El. }
    rewrite fold_add_weight; [lia|done|lia|]. rewrite Hw.
    apply Z.le_lt_trans with (total_weight config); [|apply (wf_total _ Hnodes)].
    apply voters_weight_le; [done|]. intros i [m Hm]%elem_of_dom.
    rewrite <- (Hgen i m) by by apply elem_of_in_order. apply generatedFrom_u64.
  - intros h. unfold recalculateQuorum. rewrite lookup_fmap.
    destruct (l !! h); simpl; [eauto|lia].
Qed.

Lemma reset_wf l w v :
  wf_collection config index l w ->
  let l' := resetCacheAfterViewChange l v in
  wf_collection config index l' (recalculateQuorum config l').
Proof using Hnodes.
  intros Hwf. apply recalculateQuorum_wf. intros h i m. rewrite cached_reset.
  destruct (cached l h i) as [m'|] eqn:E; [|done]. destruct (_ <? _); [done|].
  intros [= <-]. by apply (wc_message _ _ _ _ Hwf).
Qed.

(** A reported quorum is a set of distinct nodes, each with a cached message for the
    proposal, whose weight reaches [minRequiredQuorum]. *)
Lemma collectEnoughQuorum_sound l w h :
  wf_collection config index l w -> collectEnoughQuorum config h w = true ->
  PBFTConfig.m_minRequiredQuorum config <= voters_weight config (senders l h).
Proof.
  intros Hwf. unfold collectEnoughQuorum. rewrite <- (wc_weight _ _ _ _ Hwf).
  destruct (w !! h); simpl; [|done]. by rewrite Z.leb_le.
Qed.
End Collections.
