(* ===== verification/CodecFacts.v ===== *)
(** CodecFacts: the cached fields of a message object agree with the protobuf message
    it owns whatever setters have run, and decoding an encoded packet gives the
    sender's message back. *)
From S2P Require Import Prelude Types Protobuf Codec.

Import PB.
#[local] Arguments Nat.leb : simpl never.
#[local] Arguments Nat.ltb : simpl never.

(** * Objects and their protobuf messages *)
Section Synced.

(** What a receiver reads of a message: the sender and the packet type are not part of
    the protobuf message. *)
Definition received_as (p : PacketType) (m : PBFTBaseMessage.t) : PBFTBaseMessage.t :=
  PBFTBaseMessage.setFrom None (PBFTBaseMessage.setPacketType p m).

(** The cached fields are those that the raw message determines. *)
Definition synced_proposal (p : PBFTProposal.t) : Prop :=
  Proposal.of_raw (Proposal.m_rawProposal (PBFTProposal.base p)) = PBFTProposal.base p.
Definition synced (m : PBFTBaseMessage.t) : Prop :=
  PBFTBaseMessage.of_raw (PBFTBaseMessage.m_baseMessage m) = received_as PrePreparePacket m.

Lemma of_raw_pbftRawProposal p :
  synced_proposal p -> PBFTProposal.of_raw (PBFTProposal.pbftRawProposal p) = p.
Proof. destruct p as [b n s]. unfold PBFTProposal.of_raw. simpl. by intros ->. Qed.

(** Reading a raw message keeps it. *)
Lemma raw_of_raw_proposal raw : Proposal.m_rawProposal (Proposal.of_raw raw) = raw.
Proof.
  unfold Proposal.of_raw, Proposal.setRawProposal, Proposal.deserializeObject.
  by destruct (Nat.ltb _ _).
Qed.

Lemma of_raw_proposal_synced raw : synced_proposal (PBFTProposal.of_raw raw).
Proof. unfold synced_proposal, PBFTProposal.of_raw. simpl. by rewrite raw_of_raw_proposal. Qed.

Lemma raw_deserialized m :
  PBFTBaseMessage.m_baseMessage (PBFTBaseMessage.deserializeToObject m) =
  PBFTBaseMessage.m_baseMessage m.
Proof.
  unfold PBFTBaseMessage.deserializeToObject. by do 2 destruct (Nat.leb _ _).
Qed.

Lemma of_raw_other raw :
  received_as PrePreparePacket (PBFTBaseMessage.of_raw raw) = PBFTBaseMessage.of_raw raw.
Proof.
  unfold PBFTBaseMessage.of_raw, PBFTBaseMessage.deserializeToObject.
  by do 2 destruct (Nat.leb _ _).
Qed.

Lemma of_raw_synced raw : synced (PBFTBaseMessage.of_raw raw).
Proof.
  unfold synced. rewrite of_raw_other. unfold PBFTBaseMessage.of_raw at 2.
  by rewrite raw_deserialized.
Qed.

Lemma map_of_raw_proposals l :
  Forall synced_proposal l ->
  PBFTProposal.of_raw <$> (PBFTProposal.pbftRawProposal <$> l) = l.
Proof.
  induction 1 as [|p l Hp _ IH]; [done|]. csimpl. by rewrite of_raw_pbftRawProposal, IH.
Qed.

(** The objects that the constructors and the setters build. *)
Inductive built : PBFTBaseMessage.t -> Prop :=
  | built_create : built PBFTBaseMessage.create
  | built_of_raw raw : built (PBFTBaseMessage.of_raw raw)
  | built_timestamp z m : built m -> built (PBFTBaseMessage.setTimestamp z m)
  | built_version z m : built m -> built (PBFTBaseMessage.setVersion z m)
  | built_index z m : built m -> built (PBFTBaseMessage.setIndex z m)
  | built_view z m : built m -> built (PBFTBaseMessage.setView z m)
  | built_generatedFrom z m : built m -> built (PBFTBaseMessage.setGeneratedFrom z m)
  | built_hash h m : is_hash h -> built m -> built (PBFTBaseMessage.setHash h m)
  | built_packetType p m : built m -> built (PBFTBaseMessage.setPacketType p m)
  | built_from k m : built m -> built (PBFTBaseMessage.setFrom k m)
  | built_signatureData d m : built m -> built (PBFTBaseMessage.setSignatureData d m)
  | built_signatureDataHash h m :
      is_hash h -> built m -> built (PBFTBaseMessage.setSignatureDataHash h m).

Inductive built_proposal : Proposal.t -> Prop :=
  | built_proposal_create : built_proposal Proposal.create
  | built_proposal_raw raw : built_proposal (Proposal.of_raw raw)
  | built_proposal_index z p : built_proposal p -> built_proposal (Proposal.setIndex z p)
  | built_proposal_hash h p :
      is_hash h -> built_proposal p -> built_proposal (Proposal.setHash h p)
  | built_proposal_data d p : built_proposal p -> built_proposal (Proposal.setData d p)
  | built_proposal_extraData d p : built_proposal p -> built_proposal (Proposal.setExtraData d p)
  | built_proposal_signature d p : built_proposal p -> built_proposal (Proposal.setSignature d p)
  | built_proposal_sealerId z p : built_proposal p -> built_proposal (Proposal.setSealerId z p)
  | built_proposal_system b p :
      built_proposal p -> built_proposal (Proposal.setSystemProposal b p).

(** The hash that a byte string of the wire is read as. *)
Definition read_hash (b : bytes) : HashType :=
  if Nat.leb HashType_size (length b) then hash_of b else 0.

Lemma of_raw_fields raw :
  PBFTBaseMessage.of_raw raw =
  PBFTBaseMessage.mk raw (read_hash (RawBaseMessage.hash raw)) PrePreparePacket
    (read_hash (RawBaseMessage.signatureHash raw)) None.
Proof.
  destruct raw. unfold PBFTBaseMessage.of_raw, PBFTBaseMessage.deserializeToObject, read_hash.
  simpl. by destruct (Nat.leb HashType_size (length hash)); simpl; destruct (Nat.leb _ _).
Qed.

Lemma synced_iff m :
  synced m <->
  PBFTBaseMessage.m_hash m = read_hash (RawBaseMessage.hash (PBFTBaseMessage.m_baseMessage m)) /\
  PBFTBaseMessage.m_dataHash m =
    read_hash (RawBaseMessage.signatureHash (PBFTBaseMessage.m_baseMessage m)).
Proof.
  destruct m as [raw h p d k]. unfold synced. rewrite of_raw_fields. simpl. split.
  - intros H. by injection H.
  - by intros [-> ->].
Qed.

Lemma read_hash_data h : is_hash h -> read_hash (hash_data h) = h.
Proof. intros Hh. unfold read_hash. rewrite hash_data_length. by apply hash_of_data. Qed.

Lemma built_synced m : built m -> synced m.
Proof.
  induction 1 as [|raw|z m Hm IH|z m Hm IH|z m Hm IH|z m Hm IH|z m Hm IH|h m Hh Hm IH|p m Hm IH
    |k m Hm IH|d m Hm IH|h m Hh Hm IH]; [done|apply of_raw_synced|..];
    apply synced_iff in IH as [IH1 IH2]; apply synced_iff; split; try done;
    simpl; by rewrite read_hash_data.
Qed.

Lemma of_raw_proposal_fields raw :
  Proposal.of_raw raw = Proposal.mk raw (read_hash (RawProposal.hash raw)).
Proof.
  unfold Proposal.of_raw, Proposal.setRawProposal, Proposal.deserializeObject, read_hash.
  simpl. rewrite Nat.ltb_antisym. by destruct (Nat.leb _ _).
Qed.

Lemma built_proposal_synced p :
  built_proposal p -> Proposal.of_raw (Proposal.m_rawProposal p) = p.
Proof.
  assert (Hiff : forall p, Proposal.of_raw (Proposal.m_rawProposal p) = p <->
    Proposal.m_hash p = read_hash (RawProposal.hash (Proposal.m_rawProposal p))).
  { intros [raw h]. rewrite of_raw_proposal_fields. simpl.
    split; [intros H; by injection H|by intros ->]. }
  induction 1 as [|raw|z p Hp IH|h p Hh Hp IH|z p Hp IH|z p Hp IH|z p Hp IH|z p Hp IH|z p Hp IH];
    try (apply Hiff in IH; by apply Hiff); [done| |].
  - by rewrite raw_of_raw_proposal.
  - apply Hiff. simpl. by rewrite read_hash_data.
Qed.
End Synced.

(** C39: the fields a message object caches never disagree with the protobuf message it
    owns: whatever setters ran on it, in whatever order, an object made anew from its
    raw message has the same hash, the same signature hash and the same fields, and
    likewise for a proposal.  Only the sender and the packet type are not in the raw
    message. *)
Theorem objects_stay_synced (m : PBFTBaseMessage.t) (p : Proposal.t) :
  built m -> built_proposal p ->
  PBFTBaseMessage.of_raw (PBFTBaseMessage.m_baseMessage m) = received_as PrePreparePacket m /\
  Proposal.of_raw (Proposal.m_rawProposal p) = p.
Proof. intros Hm Hp. split; [by apply built_synced|by apply built_proposal_synced]. Qed.

(** A prepare request for block 5 and its proposal. *)
Example objects_stay_synced_witness :
  let m := PBFTBaseMessage.setHash 77 (PBFTBaseMessage.setIndex 5
    (PBFTBaseMessage.setPacketType PreparePacket PBFTBaseMessage.create)) in
  let p := Proposal.setIndex 5 (Proposal.setHash 77 Proposal.create) in
  PBFTBaseMessage.of_raw (PBFTBaseMessage.m_baseMessage m) = received_as PrePreparePacket m /\
  Proposal.of_raw (Proposal.m_rawProposal p) = p.
Proof.
  intros m p. apply (objects_stay_synced m p); repeat constructor; vm_compute; congruence.
Defined.

(** * Round trip *)
Lemma mapM_fmap_Some {A B C} (f : B -> option C) (g : A -> B) (h : A -> C) l :
  Forall (fun x => f (g x) = Some (h x)) l -> mapM f (g <$> l) = Some (h <$> l).
Proof. intros H. by apply mapM_Some_2, Forall2_fmap_2, Forall_Forall2_diag. Qed.

Section RoundTrip.
Context `{Ext : Externals} `{Pb : Protobuf}.

(** Messages whose hash fields can be read and whose parts are synced. *)
Definition synced_proposals (m : PBFTMessage.t) : Prop :=
  (forall p, PBFTMessage.m_consensusProposal m = Some p -> synced_proposal p) /\
  Forall synced_proposal (PBFTMessage.m_proposals m).
Definition readable (b : bytes) : Prop :=
  is_Some (decodePBObject b : option RawBaseMessage.t).
Definition complete (m : PBFTMessage.t) : Prop :=
  readable (PBFTMessage.hashFieldsData m) /\ synced_proposals m.
Definition complete_viewChange (m : PBFTViewChangeMsg.t) : Prop :=
  synced (PBFTViewChangeMsg.base m) /\
  (forall p, PBFTViewChangeMsg.m_committedProposal m = Some p -> synced_proposal p) /\
  PBFTViewChangeMsg.allocated m = PBFTViewChangeMsg.m_preparedProposalList m /\
  Forall complete (PBFTViewChangeMsg.m_preparedProposalList m).
Definition complete_newView (m : PBFTNewViewMsg.t) : Prop :=
  synced (PBFTNewViewMsg.base m) /\
  PBFTNewViewMsg.allocatedViewChanges m = PBFTNewViewMsg.m_viewChangeList m /\
  PBFTNewViewMsg.allocatedPrePrepares m = PBFTNewViewMsg.m_prePrepareList m /\
  Forall complete_viewChange (PBFTNewViewMsg.m_viewChangeList m) /\
  Forall complete (PBFTNewViewMsg.m_prePrepareList m).

(** A message inside another one is sent as its hash fields, signature and proposals: the
    base message is read from the hash fields, whatever setters ran after these were
    encoded; sender, packet type and signature hash are lost. *)
Definition fields_base (b : bytes) : PBFTBaseMessage.t :=
  PBFTBaseMessage.of_raw (default RawBaseMessage.empty (decodePBObject b)).
Definition embedded (m : PBFTMessage.t) : PBFTMessage.t :=
  PBFTMessage.mk (fields_base (PBFTMessage.hashFieldsData m))
    (PBFTMessage.hashFieldsData m) (PBFTMessage.rawSignatureData m)
    (PBFTMessage.m_consensusProposal m) (PBFTMessage.m_proposals m) 0.
Definition embedded_viewChange (m : PBFTViewChangeMsg.t) : PBFTViewChangeMsg.t :=
  let l := embedded <$> PBFTViewChangeMsg.m_preparedProposalList m in
  PBFTViewChangeMsg.mk (received_as ViewChangePacket (PBFTViewChangeMsg.base m))
    (Some (default PBFTProposal.create (PBFTViewChangeMsg.m_committedProposal m))) l l.
Definition received_newView (m : PBFTNewViewMsg.t) : PBFTNewViewMsg.t :=
  let vs := embedded_viewChange <$> PBFTNewViewMsg.m_viewChangeList m in
  let l := embedded <$> PBFTNewViewMsg.m_prePrepareList m in
  PBFTNewViewMsg.mk (received_as NewViewPacket (PBFTNewViewMsg.base m)) vs l vs l.

Lemma deserialize_fresh p raw :
  PBFTBaseMessage.deserializeToObject
    (PBFTBaseMessage.setBaseMessage raw
       (PBFTBaseMessage.setPacketType p PBFTBaseMessage.create)) =
  PBFTBaseMessage.setPacketType p (PBFTBaseMessage.of_raw raw).
Proof.
  rewrite of_raw_fields. destruct raw.
  unfold PBFTBaseMessage.deserializeToObject, read_hash. simpl.
  by destruct (Nat.leb HashType_size (length hash)); simpl; destruct (Nat.leb _ _).
Qed.

Lemma decode_base m :
  PBFTBaseMessage.decode (PBFTBaseMessage.encode m) PBFTBaseMessage.create =
  Some (PBFTBaseMessage.of_raw (PBFTBaseMessage.m_baseMessage m)).
Proof. unfold PBFTBaseMessage.decode, PBFTBaseMessage.encode. by rewrite parse_serialize. Qed.

Lemma decode_message m :
  complete m -> PBFTMessage.of_raw (PBFTMessage.pbftRawMessage m) = Some (embedded m).
Proof.
  destruct m as [b h d c l s]. intros [[raw Hr] [Hp Hl]]. simpl in *.
  unfold PBFTMessage.of_raw, PBFTMessage.deserializeToObject, PBFTBaseMessage.decode. simpl.
  rewrite Hr. simpl. rewrite (map_of_raw_proposals _ Hl).
  unfold embedded, fields_base. simpl. rewrite Hr. simpl. do 2 f_equal.
  - destruct c as [p|]; simpl; [|done]. by rewrite of_raw_pbftRawProposal by auto.
Qed.

(** Hash fields that have just been encoded are those of the base message. *)
Lemma embedded_encoded m :
  synced (PBFTMessage.base m) ->
  PBFTMessage.base (embedded (PBFTMessage.encodeHashFields m)) =
  received_as PrePreparePacket (PBFTMessage.base m).
Proof.
  intros Hb. unfold embedded, fields_base. simpl. unfold PBFTBaseMessage.encode.
  rewrite parse_serialize. exact Hb.
Qed.

Lemma decode_messages l :
  Forall complete l ->
  mapM PBFTMessage.of_raw (PBFTMessage.pbftRawMessage <$> l) = Some (embedded <$> l).
Proof.
  intros Hl. apply mapM_fmap_Some. eapply list.Forall_impl; [exact Hl|apply decode_message].
Qed.

Lemma decode_viewChange m :
  complete_viewChange m ->
  PBFTViewChangeMsg.of_raw (PBFTViewChangeMsg.rawViewChange m) = Some (embedded_viewChange m).
Proof.
  intros (Hb & Hc & Ha & Hl). destruct m as [b c l a]; simpl in *. subst a.
  unfold PBFTViewChangeMsg.of_raw, PBFTViewChangeMsg.deserializeToObject. simpl.
  rewrite (decode_messages _ Hl). simpl. unfold embedded_viewChange. simpl.
  do 2 f_equal.
  - rewrite deserialize_fresh. unfold synced in Hb. by rewrite Hb.
  - destruct c as [p|]; simpl; [|done]. by rewrite of_raw_pbftRawProposal by auto.
Qed.

Lemma decode_viewChanges l :
  Forall complete_viewChange l ->
  mapM PBFTViewChangeMsg.of_raw (PBFTViewChangeMsg.rawViewChange <$> l) =
  Some (embedded_viewChange <$> l).
Proof.
  intros Hl. apply mapM_fmap_Some. eapply list.Forall_impl; [exact Hl|].
  apply decode_viewChange.
Qed.
(** The objects the engine sends: the packet type is one of the object's class. *)
Definition well_typed (o : PBFTCodec.message) : bool :=
  match o, PBFTCodec.packetType o with
  | PBFTCodec.OPBFT _,
    (PrePreparePacket | PreparePacket | CommitPacket | CommittedProposalResponse | CheckPoint
     | RecoverRequest | RecoverResponse)
  | PBFTCodec.OViewChange _, (PreparedProposalResponse | ViewChangePacket)
  | PBFTCodec.ONewView _, NewViewPacket
  | PBFTCodec.ORequest _, (CommittedProposalRequest | PreparedProposalRequest) => true
  | _, _ => false
  end.
Definition transmittable (o : PBFTCodec.message) : Prop :=
  well_typed o = true /\
  match o with
  | PBFTCodec.OPBFT m => synced (PBFTMessage.base m) /\ synced_proposals m
  | PBFTCodec.OViewChange m => complete_viewChange m
  | PBFTCodec.ONewView m => complete_newView m
  | PBFTCodec.ORequest m => synced (PBFTRequest.base m)
  end.

Definition received (o : PBFTCodec.message) : PBFTCodec.message :=
  PBFTCodec.on_base (PBFTBaseMessage.setPacketType (PBFTCodec.packetType o))
    match o with
    | PBFTCodec.OPBFT m =>
        PBFTCodec.OPBFT (m <| PBFTMessage.base := PBFTBaseMessage.setFrom None (PBFTMessage.base m) |>)
    | PBFTCodec.OViewChange m => PBFTCodec.OViewChange (embedded_viewChange m)
    | PBFTCodec.ONewView m => PBFTCodec.ONewView (received_newView m)
    | PBFTCodec.ORequest m =>
        PBFTCodec.ORequest (m <| PBFTRequest.base := PBFTBaseMessage.setFrom None (PBFTRequest.base m) |>)
    end.

Lemma packet_of_packet_code p : PBFTCodec.packet_of_code (PBFTCodec.packet_code p) = Some p.
Proof. by destruct p. Qed.

Lemma decode_packet v p s payLoad d :
  PBFTCodec.decodePayload p payLoad = Some d ->
  PBFTCodec.decode (encodePBObject (RawMessage.mk v (PBFTCodec.packet_code p) s payLoad)) =
  inl (PBFTCodec.on_base (PBFTBaseMessage.setPacketType p)
    (if shouldHandleSignature p && bool_decide (PBFTCodec.signatureData d = [])
     then PBFTCodec.setSignatureData s
       (PBFTCodec.setSignatureDataHash (hashImpl payLoad) d)
     else d)).
Proof.
  intros Hd. unfold PBFTCodec.decode. rewrite parse_serialize. simpl.
  by rewrite packet_of_packet_code, Hd.
Qed.

(** The payload of a message, decoded by the factory. *)
Lemma createPBFTMsg_encode k m :
  synced (PBFTMessage.base m) -> synced_proposals m ->
  PBFTMessageFactoryImpl.createPBFTMsg (PBFTMessage.encode k m).1 =
  Some ((PBFTMessage.encode k m).2
    <| PBFTMessage.base := received_as PrePreparePacket (PBFTMessage.base m) |>).
Proof.
  intros Hb Hp. unfold PBFTMessageFactoryImpl.createPBFTMsg,
    PBFTMessage.decodeAndSetSignature, PBFTMessage.decode.
  set (m' := (PBFTMessage.encode k m).2).
  change (PBFTMessage.encode k m).1 with (encodePBObject (PBFTMessage.pbftRawMessage m')).
  rewrite parse_serialize. simpl.
  assert (Hr : decodePBObject (PBFTMessage.hashFieldsData m') =
    Some (PBFTBaseMessage.m_baseMessage (PBFTMessage.base m))) by apply parse_serialize.
  assert (Hm : complete m') by (split; [by eexists|exact Hp]).
  pose proof (decode_message m' Hm) as Hd. unfold PBFTMessage.of_raw in Hd.
  rewrite Hd. unfold embedded, fields_base. rewrite Hr. unfold synced in Hb.
  cbn [default id]. by rewrite Hb.
Qed.

Lemma createViewChangeMsg_encode m :
  complete_viewChange m ->
  PBFTMessageFactoryImpl.createViewChangeMsg (PBFTViewChangeMsg.encode m) =
  Some (embedded_viewChange m).
Proof.
  intros Hm. unfold PBFTMessageFactoryImpl.createViewChangeMsg, PBFTViewChangeMsg.decode,
    PBFTViewChangeMsg.encode. rewrite parse_serialize. simpl.
  pose proof (decode_viewChange m Hm) as Hd.
  unfold PBFTViewChangeMsg.of_raw, PBFTViewChangeMsg.deserializeToObject in *. simpl in *.
  destruct (mapM _ _) as [l|]; simpl in *; [|done]. injection Hd as Hb Hc Hl _.
  unfold embedded_viewChange in *. rewrite deserialize_fresh in Hb.
  rewrite Hl, Hc. f_equal. f_equal. rewrite <- Hb.
  by rewrite (deserialize_fresh PrePreparePacket).
Qed.

Lemma createNewViewMsg_encode m :
  complete_newView m ->
  PBFTMessageFactoryImpl.createNewViewMsg (PBFTNewViewMsg.encode m) = Some (received_newView m).
Proof.
  destruct m as [b vs l avs al]. intros (Hb & Hv & Hl & Hvs & Hls). simpl in *. subst avs al.
  unfold PBFTMessageFactoryImpl.createNewViewMsg, PBFTNewViewMsg.decode, PBFTNewViewMsg.encode.
  rewrite parse_serialize. unfold PBFTNewViewMsg.deserializeToObject. simpl.
  rewrite (decode_viewChanges _ Hvs). simpl. rewrite (decode_messages _ Hls). simpl.
  rewrite deserialize_fresh. unfold synced in Hb. by rewrite Hb.
Qed.

Lemma createPBFTRequest_encode m :
  synced (PBFTRequest.base m) ->
  PBFTMessageFactoryImpl.createPBFTRequest (PBFTRequest.encode m) =
  Some (m <| PBFTRequest.base := received_as PrePreparePacket (PBFTRequest.base m) |>).
Proof.
  intros Hb. unfold PBFTMessageFactoryImpl.createPBFTRequest, PBFTRequest.decode,
    PBFTRequest.encode. rewrite parse_serialize. simpl.
  change PBFTBaseMessage.create with
    (PBFTBaseMessage.setPacketType PrePreparePacket PBFTBaseMessage.create).
  rewrite deserialize_fresh. unfold synced in Hb. by rewrite Hb.
Qed.
Lemma decodePayload_typed o d :
  well_typed o = true ->
  PBFTCodec.decodePayload (PBFTCodec.packetType o) d =
  match o with
  | PBFTCodec.OPBFT _ => PBFTCodec.OPBFT <$> PBFTMessageFactoryImpl.createPBFTMsg d
  | PBFTCodec.OViewChange _ =>
      PBFTCodec.OViewChange <$> PBFTMessageFactoryImpl.createViewChangeMsg d
  | PBFTCodec.ONewView _ => PBFTCodec.ONewView <$> PBFTMessageFactoryImpl.createNewViewMsg d
  | PBFTCodec.ORequest _ => PBFTCodec.ORequest <$> PBFTMessageFactoryImpl.createPBFTRequest d
  end.
Proof. unfold well_typed. by destruct o, (PBFTCodec.packetType _). Qed.

(** Only view changes and new views are signed by the codec. *)
Lemma unsigned_payload o :
  well_typed o = true ->
  match o with PBFTCodec.OPBFT _ | PBFTCodec.ORequest _ => True | _ => False end ->
  shouldHandleSignature (PBFTCodec.packetType o) = false.
Proof. unfold well_typed. by destruct o, (PBFTCodec.packetType _). Qed.

Lemma roundtrip_PBFT k v m :
  transmittable (PBFTCodec.OPBFT m) ->
  let '(data, sent) := PBFTCodec.encode k (PBFTCodec.OPBFT m) v in
  PBFTCodec.decode data = inl (received sent).
Proof.
  intros [Ht [Hb Hp]]. pose proof (createPBFTMsg_encode k m Hb Hp) as Hd.
  unfold PBFTCodec.encode, PBFTCodec.encodePayload.
  rewrite (unsigned_payload (PBFTCodec.OPBFT m) Ht I).
  destruct (PBFTMessage.encode k m) as [d m'] eqn:E.
  assert (Hm' : PBFTMessage.base m' = PBFTMessage.base m) by (by injection E as _ <-).
  simpl in Hd.
  assert (Hd' := decodePayload_typed (PBFTCodec.OPBFT m) d Ht). rewrite Hd in Hd'.
  simpl. rewrite (decode_packet _ _ _ _ _ Hd'), (unsigned_payload (PBFTCodec.OPBFT m) Ht I).
  unfold received, PBFTCodec.packetType. simpl. by rewrite Hm'.
Qed.

Lemma roundtrip_request k v m :
  transmittable (PBFTCodec.ORequest m) ->
  let '(data, sent) := PBFTCodec.encode k (PBFTCodec.ORequest m) v in
  PBFTCodec.decode data = inl (received sent).
Proof.
  intros [Ht Hb]. unfold PBFTCodec.encode, PBFTCodec.encodePayload.
  rewrite (unsigned_payload (PBFTCodec.ORequest m) Ht I).
  assert (Hd := decodePayload_typed (PBFTCodec.ORequest m) (PBFTRequest.encode m) Ht).
  rewrite (createPBFTRequest_encode m Hb) in Hd.
  cbn. by rewrite (decode_packet _ _ _ _ _ Hd), (unsigned_payload (PBFTCodec.ORequest m) Ht I).
Qed.

Lemma roundtrip_viewChange k v m :
  transmittable (PBFTCodec.OViewChange m) ->
  let '(data, sent) := PBFTCodec.encode k (PBFTCodec.OViewChange m) v in
  PBFTCodec.decode data = inl (received sent).
Proof.
  intros [Ht Hm]. unfold PBFTCodec.encode, PBFTCodec.encodePayload. cbv beta iota.
  assert (Hd : PBFTCodec.decodePayload (PBFTCodec.packetType (PBFTCodec.OViewChange m))
    (PBFTViewChangeMsg.encode m) = Some (PBFTCodec.OViewChange (embedded_viewChange m))).
  { rewrite decodePayload_typed by done. by rewrite createViewChangeMsg_encode. }
  destruct (shouldHandleSignature _ && _) eqn:Es; cbv beta iota;
    rewrite (decode_packet _ _ _ _ _ Hd);
    change (PBFTCodec.signatureData (PBFTCodec.OViewChange (embedded_viewChange m)))
      with (PBFTCodec.signatureData (PBFTCodec.OViewChange m)); by rewrite Es.
Qed.

Lemma roundtrip_newView k v m :
  transmittable (PBFTCodec.ONewView m) ->
  let '(data, sent) := PBFTCodec.encode k (PBFTCodec.ONewView m) v in
  PBFTCodec.decode data = inl (received sent).
Proof.
  intros [Ht Hm]. unfold PBFTCodec.encode, PBFTCodec.encodePayload. cbv beta iota.
  assert (Hd : PBFTCodec.decodePayload (PBFTCodec.packetType (PBFTCodec.ONewView m))
    (PBFTNewViewMsg.encode m) = Some (PBFTCodec.ONewView (received_newView m))).
  { rewrite decodePayload_typed by done. by rewrite createNewViewMsg_encode. }
  destruct (shouldHandleSignature _ && _) eqn:Es; cbv beta iota;
    rewrite (decode_packet _ _ _ _ _ Hd);
    change (PBFTCodec.signatureData (PBFTCodec.ONewView (received_newView m)))
      with (PBFTCodec.signatureData (PBFTCodec.ONewView m)); by rewrite Es.
Qed.

Lemma encode_decode k v (o : PBFTCodec.message) :
  transmittable o ->
  let '(data, sent) := PBFTCodec.encode k o v in PBFTCodec.decode data = inl (received sent).
Proof.
  destruct o as [m|m|m|m];
    [apply roundtrip_PBFT|apply roundtrip_viewChange|apply roundtrip_newView|apply roundtrip_request].
Qed.
End RoundTrip.

(** C23: what a receiver decodes from an encoded packet.  A packet whose type belongs to its
    class, whose cached fields agree with the protobuf message, whose lists were set once
    and whose embedded messages have readable hash fields ([transmittable]) decodes to
    [received]: the same message, its own signature and signature hash included, but for the sender,
    which the receiver sets from the connection.  A message inside a view change or a
    new view loses its packet type, sender and signature hash, and gets its base message from its hash
    fields: it is that of the moment when these were encoded, so that a later
    [setGeneratedFrom], say, is undone. *)
Theorem codec_roundtrip `{Ext : Externals} `{Pb : Protobuf} (_keyPair : NodeID) (_version : Z)
    (o : PBFTCodec.message) :
  transmittable o ->
  let '(data, sent) := PBFTCodec.encode _keyPair o _version in
  PBFTCodec.decode data = inl (received sent).
Proof. apply encode_decode. Qed.

(** A view change of node 2 with one prepared message, whose sender was changed after its
    hash fields had been encoded. *)
Example codec_roundtrip_witness :
  let _ := Demo.externals in let _ := PBDemo.protobuf in
  let m := PBFTMessage.encodeHashFields
    (PBFTMessage.setConsensusProposal PBFTProposal.create PBFTMessage.create) in
  let m := m <| PBFTMessage.base := PBFTBaseMessage.setGeneratedFrom 3 (PBFTMessage.base m) |> in
  let o := PBFTCodec.OViewChange
    (PBFTViewChangeMsg.setPreparedProposals [m]
       (PBFTViewChangeMsg.setCommittedProposal PBFTProposal.create PBFTViewChangeMsg.create)) in
  transmittable o /\
  (let '(data, sent) := PBFTCodec.encode 2 o 0 in PBFTCodec.decode data = inl (received sent)).
Proof.
  intros Ext Pb m0 m o.
  assert (Ho : transmittable o).
  { split; [reflexivity|]. split; [apply built_synced; repeat constructor|]. split; [by intros p [= <-]|].
    split; [done|]. apply Forall_cons_2; [|apply Forall_nil_2].
    split; [by eexists|]. split; [by intros p [= <-]|apply Forall_nil_2]. }
  split; [exact Ho|exact (codec_roundtrip 2 0 o Ho)].
Defined.
