(* ===== verification/StorageFacts.v ===== *)
(** StorageFacts: what the table of committed proposals holds after any sequence of
    commits, failures and removals, what a node reads back from it, and how long a
    failing write is retried. *)
From Stdlib Require Import Ascii String DecimalString DecimalZ.
From stdpp Require Import strings.
From S2P Require Import Prelude Types Protobuf Codec CodecFacts Blocks Storage.
Import PB.

(** * Keys and numbers *)
Lemma to_int_not_nil z : Z.to_int z <> Decimal.Pos Decimal.Nil /\ Z.to_int z <> Decimal.Neg Decimal.Nil.
Proof.
  split; intros H; pose proof (DecimalZ.of_to z) as E; rewrite H in E; simpl in E; subst z;
    discriminate.
Qed.

Lemma int_of_print z : NilZero.int_of_string (print_int z) = Some (Z.to_int z).
Proof. unfold print_int. apply NilZero.isi; apply to_int_not_nil. Qed.

Lemma print_no_plus z s : print_int z <> String "+"%char s.
Proof.
  intros H. pose proof (int_of_print z) as E. rewrite H in E. simpl in E.
  by destruct (NilEmpty.uint_of_string s).
Qed.

Lemma parse_print z : - 2 ^ 63 <= z < 2 ^ 63 -> parse_int64 (print_int z) = Some z.
Proof.
  intros Hz. unfold parse_int64.
  assert (E : (match print_int z with
    | String "+" s => Decimal.Pos <$> NilZero.uint_of_string s
    | _ => NilZero.int_of_string (print_int z) end) = Some (Z.to_int z)).
  { rewrite int_of_print. destruct (print_int z) as [|a s] eqn:Ep; [done|].
    pose proof (print_no_plus z s) as Hp. rewrite Ep in Hp.
    destruct a as [[] [] [] [] [] [] [] []]; try done. }
  rewrite E. simpl. rewrite DecimalZ.of_to.
  rewrite (proj2 (Z.leb_le _ _)), (proj2 (Z.ltb_lt _ _)) by lia. done.
Qed.

Lemma print_inj x y : print_int x = print_int y -> x = y.
Proof.
  intros H. pose proof (int_of_print x) as Ex. rewrite H, int_of_print in Ex.
  injection Ex as Ex. by apply DecimalZ.to_int_inj.
Qed.

Lemma print_not_key z : print_int z <> LedgerStorage.m_maxCommittedProposalKey.
Proof. intros H. pose proof (int_of_print z) as E. rewrite H in E. discriminate. Qed.

Lemma print_nonempty z : string_bytes (print_int z) <> [].
Proof.
  intros H. pose proof (int_of_print z) as E. unfold string_bytes in H.
  destruct (print_int z); [done|]. discriminate.
Qed.

Lemma bytes_string_bytes s : bytes_string (string_bytes s) = s.
Proof. apply string_of_list_byte_of_string. Qed.

Lemma Forall_remove {A} (P : A -> Prop) l1 x l2 :
  Forall P (l1 ++ x :: l2) -> Forall P (l1 ++ l2).
Proof. rewrite !Forall_app. intros [? H]. by inversion H. Qed.

(** * The table

    The key-value storage is a map; a write or a removal that the class has asked for
    completes at some later point, in any order, and a write may fail. *)
Module Table.
Section Table.
Context `{Pb : Protobuf} `{Bl : Blocks}.
Notation Call := LedgerStorage.Call.

Record conf : Type := Conf {
  storage : LedgerStorage.t;
  db : gmap string bytes;
  pending : list Call;
  submitted : list PBFTProposal.t
}.

Definition index_of (p : PBFTProposal.t) : BlockNumber := Proposal.index (PBFTProposal.base p).

(** A proposal that can be written and read: its number is a positive block number and its
    encoding is not empty. *)
Definition storable (p : PBFTProposal.t) : Prop :=
  0 < index_of p < 2 ^ 63 /\ synced_proposal p /\ PBFTProposal.encode p <> [].

Definition after {A} (o : outcome Call LedgerStorage.t A) (c : conf) : conf :=
  Conf (default (storage c) (final o)) (db c) (pending c ++ events o) (submitted c).

(** The answer of the key-value storage to one request. *)
Inductive complete : conf -> conf -> Prop :=
  | step_written s m l1 d k v i r l2 ss :
      complete (Conf s m (l1 ++ LedgerStorage.Put d k v i r :: l2) ss)
        (after (LedgerStorage.onPut d k v i r false s) (Conf s (<[k := v]> m) (l1 ++ l2) ss))
  | step_failed s m l1 d k v i r l2 ss :
      complete (Conf s m (l1 ++ LedgerStorage.Put d k v i r :: l2) ss)
        (after (LedgerStorage.onPut d k v i r true s) (Conf s m (l1 ++ l2) ss))
  | step_removed s m l1 d k l2 ss :
      complete (Conf s m (l1 ++ LedgerStorage.Remove d k :: l2) ss)
        (Conf s (delete k m) (l1 ++ l2) ss).

Inductive step : conf -> conf -> Prop :=
  | step_commit c p :
      storable p ->
      step c (after (LedgerStorage.asyncCommitProposal p (storage c))
                (Conf (storage c) (db c) (pending c) (submitted c ++ [p])))
  | step_remove c i :
      step c (after (LedgerStorage.asyncRemoveStabledCheckPoint i (storage c)) c)
  | step_complete c c' : complete c c' -> step c c'.

Definition init : conf := Conf LedgerStorage.create ∅ [] [].

(** The proposals that were written: each was above all that were submitted before. *)
Definition accepted (p : PBFTProposal.t) (ss : list PBFTProposal.t) : Prop :=
  exists l1 l2, ss = l1 ++ p :: l2 /\ Forall (fun q => index_of q < index_of p) l1 /\ storable p.

(** What a key may hold. *)
Definition entry (ss : list PBFTProposal.t) (k : string) (v : bytes) : Prop :=
  exists p, accepted p ss /\
    ((k = LedgerStorage.m_maxCommittedProposalKey /\ v = string_bytes (print_int (index_of p))) \/
     (k = print_int (index_of p) /\ v = PBFTProposal.encode p)).

Lemma accepted_app p ss ss' : accepted p ss -> accepted p (ss ++ ss').
Proof.
  intros (l1 & l2 & -> & H). exists l1, (l2 ++ ss'). by rewrite <- (assoc_L (++)).
Qed.

Lemma entry_app ss ss' k v : entry ss k v -> entry (ss ++ ss') k v.
Proof. intros (p & Hp & H). exists p. by split; [apply accepted_app|]. Qed.

(** At most one proposal of a block number is written. *)
Lemma accepted_unique p q ss : accepted p ss -> accepted q ss -> index_of p = index_of q -> p = q.
Proof.
  intros (l1 & l2 & -> & Hl & _) (k1 & k2 & E & Hk & _) Hi.
  apply app_eq_inv in E as [(k & -> & E)|(k & -> & E)]; destruct k as [|x k]; simpl in *;
    try (by injection E).
  - injection E as <- ->. apply Forall_app in Hl as [_ Hl]. inversion Hl; subst. lia.
  - injection E as <- ->. apply Forall_app in Hk as [_ Hk]. inversion Hk; subst. lia.
Qed.

(** The requests that are pending are writes and removals. *)
Definition operation (e : Call) : Prop :=
  match e with LedgerStorage.Put _ _ _ _ _ | LedgerStorage.Remove _ _ => True | _ => False end.

Record faithful (c : conf) : Prop := {
  f_max : 0 <= LedgerStorage.m_maxCommittedProposalIndex (storage c);
  f_above : Forall (fun p => index_of p <= LedgerStorage.m_maxCommittedProposalIndex (storage c))
              (submitted c);
  f_reached : LedgerStorage.m_maxCommittedProposalIndex (storage c) = 0 \/
    exists p, accepted p (submitted c) /\
      index_of p = LedgerStorage.m_maxCommittedProposalIndex (storage c);
  f_pending : forall d k v i r, LedgerStorage.Put d k v i r ∈ pending c -> entry (submitted c) k v;
  f_db : forall k v, db c !! k = Some v -> entry (submitted c) k v;
  f_ops : Forall operation (pending c)
}.

(** A submitted proposal: dropped, or written under two keys. *)
Lemma commit_cases p s :
  (index_of p <= LedgerStorage.m_maxCommittedProposalIndex s /\
   LedgerStorage.asyncCommitProposal p s = Done tt s []) \/
  (LedgerStorage.m_maxCommittedProposalIndex s < index_of p /\
   LedgerStorage.asyncCommitProposal p s =
     Done tt (s <| LedgerStorage.m_maxCommittedProposalIndex := index_of p |>)
       [LedgerStorage.Put LedgerStorage.m_pbftCommitDB LedgerStorage.m_maxCommittedProposalKey
          (string_bytes (print_int (index_of p))) (index_of p) 0;
        LedgerStorage.Put LedgerStorage.m_pbftCommitDB (print_int (index_of p))
          (PBFTProposal.encode p) (index_of p) 0]).
Proof.
  unfold LedgerStorage.asyncCommitProposal, mbind, eff_bind. simpl.
  destruct (Z.leb_spec (Proposal.index (PBFTProposal.base p))
    (LedgerStorage.m_maxCommittedProposalIndex s)); [by left|right].
  unfold index_of. simpl. split; [lia|done].
Qed.

Lemma accepted_last p ss n :
  Forall (fun q => index_of q <= n) ss -> n < index_of p -> storable p -> accepted p (ss ++ [p]).
Proof.
  intros Hn Hp Hs. exists ss, []. split; [done|]. split; [|done].
  eapply list.Forall_impl; [exact Hn|]. simpl. lia.
Qed.

Lemma commit_faithful c p :
  storable p -> faithful c ->
  faithful (after (LedgerStorage.asyncCommitProposal p (storage c))
              (Conf (storage c) (db c) (pending c) (submitted c ++ [p]))).
Proof.
  intros Hp [Hm Ha Hr Hpe Hdb Hop].
  destruct (commit_cases p (storage c)) as [[Hle ->]|[Hlt ->]]; split; simpl.
  - done.
  - apply Forall_app. split; [done|]. by constructor.
  - destruct Hr as [?|(q & Hq & E)]; [by left|right]. exists q. by split; [apply accepted_app|].
  - intros d k v i r. rewrite app_nil_r. intros H. by eapply entry_app, Hpe.
  - intros k v H. by eapply entry_app, Hdb.
  - by rewrite app_nil_r.
  - destruct Hp. lia.
  - apply Forall_app. split; [|by constructor]. eapply list.Forall_impl; [exact Ha|]. simpl. lia.
  - right. exists p. split; [|done]. by eapply accepted_last.
  - assert (Hacc : accepted p (submitted c ++ [p])) by (by eapply accepted_last).
    intros d k v i r [H|H]%elem_of_app; [by eapply entry_app, Hpe|].
    exists p. split; [done|].
    apply elem_of_cons in H as [[= _ -> -> _ _]|H]; [by left|].
    apply elem_of_cons in H as [[= _ -> -> _ _]|H%elem_of_nil]; [by right|done].
  - intros k v H. by eapply entry_app, Hdb.
  - apply Forall_app. by split; [|repeat constructor].
Qed.

Lemma complete_faithful c c' : complete c c' -> faithful c -> faithful c'.
Proof.
  intros H. destruct H as [s m l1 d k v i r l2 ss|s m l1 d k v i r l2 ss|s m l1 d k l2 ss];
    intros [Hm Ha Hr Hpe Hdb Hop]; simpl in *.
  - split; try done; simpl; rewrite ?app_nil_r.
    + intros d' k' v' i' r' H. apply (Hpe d' k' v' i' r'). set_solver.
    + intros k' v' [[<- <-]|[_ H]]%lookup_insert_Some; [|by apply Hdb].
      apply (Hpe d k v i r). set_solver.
    + by eapply Forall_remove.
  - assert (Hold : forall d' k' v' i' r', LedgerStorage.Put d' k' v' i' r' ∈ l1 ++ l2 ->
      entry ss k' v') by (intros d' k' v' i' r' H; apply (Hpe d' k' v' i' r'); set_solver).
    assert (Hops : Forall operation (l1 ++ l2)) by (by eapply Forall_remove).
    unfold LedgerStorage.onPut. destruct (3 <=? r); split; try done; simpl; rewrite ?app_nil_r; try done.
    + intros d' k' v' i' r' [H|[= -> -> -> _ _]%list_elem_of_singleton]%elem_of_app;
        [by eapply Hold|]. apply (Hpe d k v i r). set_solver.
    + apply Forall_app. by split; [|repeat constructor].
  - split; try done; simpl.
    + intros d' k' v' i' r' H. apply (Hpe d' k' v' i' r'). set_solver.
    + intros k' v' [_ H]%lookup_delete_Some. by apply Hdb.
    + by eapply Forall_remove.
Qed.

Lemma step_faithful c c' : step c c' -> faithful c -> faithful c'.
Proof.
  intros H. destruct H as [c p Hp|c i|c c' H]; intros Hf.
  - by apply commit_faithful.
  - destruct Hf as [Hm Ha Hr Hpe Hdb Hop]. split; try done.
    + intros d k v j r [H|H%list_elem_of_singleton]%elem_of_app; [by eapply Hpe|done].
    + apply Forall_app. by split; [|repeat constructor].
  - by eapply complete_faithful.
Qed.

Lemma steps_faithful c : rtc step init c -> faithful c.
Proof.
  intros H. assert (H0 : faithful init).
  { split; simpl; [done|constructor|by left|by intros ????? ?%elem_of_nil| |constructor].
    intros k v. by rewrite lookup_empty. }
  revert H0. induction H as [|c1 c2 c3 Hs _ IH]; [done|]. intros H0. by eapply IH, step_faithful.
Qed.

(** ** Reading back *)
Definition read (m : gmap string bytes) (k : string) : bytes :=
  match m !! k with Some v => v | None => [] end.

(** The highest index on record. *)
Definition recorded (m : gmap string bytes) : Z :=
  default 0 (parse_int64 (bytes_string (read m LedgerStorage.m_maxCommittedProposalKey))).

Definition requested (stable n : BlockNumber) : list string :=
  print_int <$> seqZ (stable + 1) (n - stable).

(** [loadState] of a node that starts on the table [m]. *)
Definition recover (m : gmap string bytes) (stable : BlockNumber) :=
  LedgerStorage.loadState stable
    (Some (false, read m LedgerStorage.m_maxCommittedProposalKey))
    (Some (false, read m <$> requested stable (recorded m))) LedgerStorage.create.

Lemma createPBFTProposal_encode p :
  synced_proposal p ->
  PBFTMessageFactoryImpl.createPBFTProposal (PBFTProposal.encode p) = Some p.
Proof.
  intros Hp. unfold PBFTMessageFactoryImpl.createPBFTProposal, PBFTProposal.decode,
    PBFTProposal.encode. rewrite parse_serialize. simpl.
  change (Proposal.setRawProposal (Proposal.m_rawProposal (PBFTProposal.base p)) Proposal.create)
    with (Proposal.of_raw (Proposal.m_rawProposal (PBFTProposal.base p))).
  rewrite Hp. by destruct p.
Qed.

Lemma stored_proposal c z v :
  faithful c -> db c !! print_int z = Some v ->
  exists p, accepted p (submitted c) /\ index_of p = z /\ v <> [] /\
    PBFTMessageFactoryImpl.createPBFTProposal v = Some p.
Proof.
  intros Hf Hv. destruct (f_db c Hf _ _ Hv) as (p & Hp & [[Hk _]|[Hk ->]]).
  { by apply print_not_key in Hk. }
  apply print_inj in Hk. exists p. split; [done|]. split; [done|].
  destruct Hp as (_ & _ & _ & _ & _ & Hs & Hn). split; [done|]. by apply createPBFTProposal_encode.
Qed.

Lemma recorded_spec c :
  faithful c ->
  (db c !! LedgerStorage.m_maxCommittedProposalKey = None /\ recorded (db c) = 0) \/
  (exists p, accepted p (submitted c) /\ 0 < recorded (db c) < 2 ^ 63 /\
     recorded (db c) = index_of p /\
     read (db c) LedgerStorage.m_maxCommittedProposalKey =
       string_bytes (print_int (recorded (db c)))).
Proof.
  intros Hf. unfold recorded, read.
  destruct (db c !! LedgerStorage.m_maxCommittedProposalKey) as [v|] eqn:E; [right|by left].
  destruct (f_db c Hf _ _ E) as (p & Hp & [[_ ->]|[Hk _]]); [|by destruct (print_not_key _ (eq_sym Hk))].
  pose proof Hp as (_ & _ & _ & _ & Hi & _). exists p. simpl.
  rewrite bytes_string_bytes, parse_print by lia. done.
Qed.

Lemma decodeValues_stored c (zs : list Z) acc :
  faithful c ->
  ((forall z, z ∈ zs -> is_Some (db c !! print_int z)) /\
   exists l, LedgerStorage.decodeValues (read (db c) <$> (print_int <$> zs)) acc =
       Some (Some (acc ++ l)) /\
     index_of <$> l = zs /\ Forall (fun p => accepted p (submitted c)) l) \/
  ((exists z, z ∈ zs /\ db c !! print_int z = None) /\
   LedgerStorage.decodeValues (read (db c) <$> (print_int <$> zs)) acc = Some None).
Proof.
  intros Hf. revert acc. induction zs as [|z zs IH]; intros acc; csimpl.
  { left. split; [by intros z ?%elem_of_nil|]. exists []. by rewrite app_nil_r. }
  assert (Hr : read (db c) (print_int z) =
    match db c !! print_int z with Some v => v | None => [] end) by done.
  destruct (db c !! print_int z) as [v|] eqn:E; simpl in Hr; rewrite Hr.
  2: { right. split; [|done]. exists z. by split; [left|]. }
  destruct (stored_proposal c z v Hf E) as (p & Hp & Hz & Hn & ->).
  rewrite bool_decide_false by done.
  destruct (IH (acc ++ [p])) as [[Hall (l & -> & Hl & Ha)]|[(y & Hy & Ey) ->]].
  - left. split.
    + intros y [->|Hy]%elem_of_cons; [by eexists|by apply Hall].
    + exists (p :: l). rewrite <- (assoc_L (++)). csimpl. rewrite Hl, Hz.
      split; [done|]. split; [done|]. by constructor.
  - right. split; [|done]. exists y. by split; [right|].
Qed.

(** [onGetLatest] on the table's record. *)
Lemma onGetLatest_recorded c :
  faithful c ->
  LedgerStorage.onGetLatest (Bl := Bl) false (read (db c) LedgerStorage.m_maxCommittedProposalKey)
    LedgerStorage.create =
  Done tt (LedgerStorage.mk (recorded (db c)) true None false false) [].
Proof.
  intros Hf. unfold LedgerStorage.onGetLatest.
  destruct (recorded_spec c Hf) as [[E ->]|(p & _ & Hn & _ & ->)].
  - by rewrite bool_decide_true by (unfold read; by rewrite E).
  - rewrite bool_decide_false by apply print_nonempty.
    rewrite bytes_string_bytes, parse_print by lia.
    unfold mbind, eff_bind. simpl. by rewrite (proj2 (Z.ltb_lt _ _)) by lia.
Qed.

(** The range of keys that is asked for. *)
Lemma requested_range stable n :
  0 <= stable < n -> n < 2 ^ 63 ->
  print_int <$> seqZ (stable + 1)
    (Z.min (i64 (u64 (stable + 1 + (n - stable) - 1))) n - (stable + 1) + 1) =
  requested stable n.
Proof.
  intros Hs Hn. unfold requested. do 2 f_equal.
  replace (stable + 1 + (n - stable) - 1) with n by lia.
  rewrite u64_id by (unfold is_u64, two64; lia). rewrite i64_id by lia. lia.
Qed.

Lemma recover_shape c stable :
  faithful c -> 0 <= stable ->
  let n := recorded (db c) in
  (n <= stable /\ exists s es, recover (db c) stable = Done None s es) \/
  (stable < n /\ forall r,
     LedgerStorage.decodeValues (read (db c) <$> requested stable n) [] = Some r ->
     exists s es, recover (db c) stable = Done r s es /\
       LedgerStorage.GetBatch LedgerStorage.m_pbftCommitDB (requested stable n)
         LedgerStorage.ForState ∈ es).
Proof.
  intros Hf Hstable n. pose proof (onGetLatest_recorded c Hf) as Hl. fold n in Hl.
  assert (Hn : n < 2 ^ 63) by (subst n; destruct (recorded_spec c Hf) as [[_ ->]|(? & _ & ? & _)]; lia).
  unfold recover. fold n. unfold LedgerStorage.loadState, mbind, eff_bind. simpl.
  change (LedgerStorage.create <| LedgerStorage.m_maxCommittedProposalIndexFetched := false |>)
    with LedgerStorage.create. rewrite Hl. simpl.
  destruct (Z.leb_spec n stable) as [Hle|Hlt].
  { left. split; [done|]. eexists _, _. reflexivity. }
  right. split; [done|]. intros r Hr.
  unfold LedgerStorage.asyncGetCommittedProposals, mbind, eff_bind. simpl.
  rewrite (proj2 (Z.ltb_ge n (stable + 1))), requested_range, Hr by lia.
  destruct r as [[|p l]|]; eexists _, _; (split; [reflexivity|]); right; left.
Qed.

(** What [loadState] answers: all the proposals or none. *)
Lemma recovered c stable :
  faithful c -> 0 <= stable ->
  let n := recorded (db c) in
  exists r s es,
    recover (db c) stable = Done r s es /\
    ((stable < n /\ (forall z, stable < z <= n -> is_Some (db c !! print_int z)) /\
      exists l, r = Some l /\ index_of <$> l = seqZ (stable + 1) (n - stable) /\
        Forall (fun p => accepted p (submitted c)) l) \/
     ((n <= stable \/ exists z, stable < z <= n /\ db c !! print_int z = None) /\ r = None)).
Proof.
  intros Hc Hs n.
  destruct (recover_shape c stable Hc Hs) as [[Hle (s & es & E)]|[Hlt Hr]].
  { exists None, s, es. split; [exact E|]. right. auto. }
  destruct (decodeValues_stored c (seqZ (stable + 1) (n - stable)) [] Hc)
    as [[Hall (l & Hd & Hl & Ha)]|[(z & Hz%elem_of_seqZ & Ez) Hd]];
    destruct (Hr _ Hd) as (s & es & E & _); eexists _, s, es; (split; [exact E|]).
  - left. split; [done|]. split; [|by exists l].
    intros z Hz. apply Hall, elem_of_seqZ. lia.
  - right. split; [|done]. right. exists z. split; [lia|done].
Qed.

(** ** How long writes are retried

    [work] bounds the answers that the pending requests still need: a write is attempted
    four times at most. *)
Definition cost (e : Call) : nat :=
  match e with
  | LedgerStorage.Put _ _ _ _ r => Z.to_nat (Z.max 1 (4 - r))
  | _ => 1
  end.
Definition work (c : conf) : nat := sum_list_with cost (pending c).

Lemma complete_work c c' : complete c c' -> (work c' < work c)%nat.
Proof.
  intros H. destruct H as [s m l1 d k v i r l2 ss|s m l1 d k v i r l2 ss|s m l1 d k l2 ss];
    unfold work, after, LedgerStorage.onPut; simpl.
  - rewrite app_nil_r, !sum_list_with_app. simpl. lia.
  - destruct (Z.leb_spec 3 r); simpl; rewrite ?app_nil_r, !sum_list_with_app; simpl; lia.
  - rewrite !sum_list_with_app. simpl. lia.
Qed.

Lemma pending_completes c e l :
  faithful c -> pending c = e :: l -> exists c', complete c c'.
Proof.
  destruct c as [s m p ss]. intros Hf. simpl. intros ->.
  pose proof (f_ops _ Hf) as Ho. inversion Ho as [|? ? He _]; subst. destruct e; try done.
  - eexists. apply (step_written _ _ []).
  - eexists. apply (step_removed _ _ []).
Qed.
End Table.
End Table.

(** C28: what a restarting node reads back is what was committed.  On a table written by any
    sequence of commits, whatever writes failed and in whatever order writes and removals
    completed, [loadState] ends without an exception.  If the table has every index from
    the stable block to the recorded maximum, it answers exactly the proposals with these
    indices, in order, each the one that was committed first for its index; if an index
    is missing it answers none. *)
Theorem recovery_exact `{Pb : Protobuf} `{Bl : Blocks} c stable :
  rtc Table.step Table.init c -> 0 <= stable ->
  let n := Table.recorded (Table.db c) in
  exists r s es,
    Table.recover (Table.db c) stable = Done r s es /\
    ((stable < n /\ (forall z, stable < z <= n -> is_Some (Table.db c !! print_int z)) /\
      exists l, r = Some l /\ Table.index_of <$> l = seqZ (stable + 1) (n - stable) /\
        Forall (fun p => Table.accepted p (Table.submitted c)) l) \/
     ((n <= stable \/ exists z, stable < z <= n /\ Table.db c !! print_int z = None) /\ r = None)).
Proof.
  intros Hc%Table.steps_faithful Hs. by apply Table.recovered.
Qed.

(** C38: writes settle.  From any reachable state of the table no more answers of the storage
    can be absorbed than [work] counts - four for every write that was just issued, failures
    included - and until then some request can be answered. *)
Theorem writes_settle `{Pb : Protobuf} `{Bl : Blocks} c c' k :
  rtc Table.step Table.init c -> nsteps Table.complete k c c' ->
  (k + Table.work c' <= Table.work c)%nat /\
  (Table.pending c' = [] \/ exists c'', Table.complete c' c'').
Proof.
  intros Hc%Table.steps_faithful H. split.
  - clear Hc. induction H as [c|k c1 c2 c3 H _ IH]; [lia|].
    apply Table.complete_work in H. lia.
  - assert (Hf : Table.faithful c').
    { induction H as [c|k c1 c2 c3 H _ IH]; [done|]. by apply IH, (Table.complete_faithful c1). }
    destruct (Table.pending c') as [|e l] eqn:E; [by left|right].
    by eapply Table.pending_completes.
Qed.

(** C40: an error of the storage is taken for an empty table.  The callback looks at the
    value before it looks at the error, and an error comes without a value: the node
    starts as if nothing had been committed, instead of failing with an exception. *)
Theorem read_error_hides_state `{Pb : Protobuf} `{Bl : Blocks} stable batch :
  0 <= stable ->
  LedgerStorage.loadState stable (Some (true, [])) batch LedgerStorage.create =
  Done None (LedgerStorage.mk stable true None false false)
    [LedgerStorage.Get LedgerStorage.m_pbftCommitDB LedgerStorage.m_maxCommittedProposalKey].
Proof.
  intros Hs. unfold LedgerStorage.loadState, LedgerStorage.onGetLatest, mbind, eff_bind. simpl.
  by rewrite (proj2 (Z.leb_le 0 stable) Hs).
Qed.

(** ** Block 1, committed and written *)
Module TableDemo.
#[local] Existing Instance PBDemo.protobuf.
#[local] Existing Instance BlockDemo.blocks.

Definition proposal : PBFTProposal.t :=
  PBFTProposal.mk (Proposal.setHash 42 (Proposal.setIndex 1 Proposal.create)) [] [].
Definition submitted : Table.conf :=
  Table.after (LedgerStorage.asyncCommitProposal proposal LedgerStorage.create)
    (Table.Conf LedgerStorage.create ∅ [] [proposal]).
(** The first of the two writes fails once. *)
Definition writes : list LedgerStorage.Call := Table.pending submitted.
Definition written : Table.conf :=
  Table.Conf (Table.storage submitted)
    (<[LedgerStorage.m_maxCommittedProposalKey := string_bytes (print_int 1)]>
      (<[print_int 1 := PBFTProposal.encode proposal]> ∅)) [] [proposal].

Lemma proposal_storable : Table.storable proposal.
Proof.
  split; [vm_compute; split; congruence|]. split; [|vm_compute; congruence].
  apply (built_proposal_synced (PBFTProposal.base proposal)).
  repeat constructor; vm_compute; congruence.
Qed.

Lemma submitted_reachable : rtc Table.step Table.init submitted.
Proof.
  eapply rtc_l; [apply (Table.step_commit Table.init proposal), proposal_storable|].
  apply rtc_refl.
Qed.

Lemma written_nsteps : nsteps Table.complete 3 submitted written.
Proof.
  eapply nsteps_l.
  { apply (Table.step_failed _ _ [] _ _ _ _ 0 [LedgerStorage.Put LedgerStorage.m_pbftCommitDB
      (print_int 1) (PBFTProposal.encode proposal) 1 0]). }
  eapply nsteps_l; [apply (Table.step_written _ _ [] _ _ _ _ 0 [_])|].
  eapply nsteps_l; [apply (Table.step_written _ _ [] _ _ _ _ 1 [])|].
  apply nsteps_O.
Qed.

Lemma written_reachable : rtc Table.step Table.init written.
Proof.
  etransitivity; [apply submitted_reachable|].
  assert (H : rtc Table.complete submitted written) by (eapply rtc_nsteps; eexists; apply written_nsteps).
  eapply rtc_subrel; [|exact H]. intros c c'. apply Table.step_complete.
Qed.
End TableDemo.

Example recovery_exact_witness :
  let _ := PBDemo.protobuf in let _ := BlockDemo.blocks in
  exists l s es,
    Table.recover (Table.db TableDemo.written) 0 = Done (Some l) s es /\
    Table.index_of <$> l = [1].
Proof.
  intros Pb Bl.
  destruct (recovery_exact (Pb := Pb) (Bl := Bl) TableDemo.written 0 TableDemo.written_reachable)
    as (r & s & es & E & [(_ & _ & l & -> & Hl & _)|[[Hle|(z & Hz & Hn)] _]]).
  - lia.
  - exists l, s, es. split; [exact E|exact Hl].
  - exfalso. revert Hle. vm_compute. congruence.
  - exfalso. assert (z = 1) as ->.
    { assert (0 < z <= 1) by (vm_cast_no_check Hz). lia. }
    revert Hn. vm_compute. congruence.
Defined.

Example writes_settle_witness :
  let _ := PBDemo.protobuf in let _ := BlockDemo.blocks in
  (3 + Table.work TableDemo.written <= Table.work TableDemo.submitted)%nat.
Proof.
  intros Pb Bl. apply (writes_settle (Pb := Pb) (Bl := Bl) TableDemo.submitted TableDemo.written 3);
    [apply TableDemo.submitted_reachable|apply TableDemo.written_nsteps].
Defined.

Example read_error_hides_state_witness :
  let _ := PBDemo.protobuf in let _ := BlockDemo.blocks in
  value (LedgerStorage.loadState 7 (Some (true, [])) None LedgerStorage.create) = Some None.
Proof.
  intros Pb Bl. rewrite (read_error_hides_state (Pb := Pb) (Bl := Bl) 7 None); [reflexivity|lia].
Defined.
