(* ===== verification/Steps.v ===== *)
(** Steps: the handlers as sequences of elementary steps.

    [fstep] lists the elementary steps of one proposal cache, [step] those of the
    whole node (in [Node]), each with the guard under which the code takes it.
    Whatever a handler of the engine does is a finite sequence [steps] of elementary
    steps - the theorem is in [Behaviour] -, so an invariant of the steps is an
    invariant of the node. *)
From S2P Require Import Prelude Types Timer Validator Config Cache Processor LogSync Engine.
From S2P Require Import Quorum ConfigFacts.

Module C := PBFTCache.
Module P := PBFTCacheProcessor.
Module E := PBFTEngine.

(** Finite sequences of steps, with their events. *)
Inductive star {S E} (R : S -> S -> list E -> Prop) : S -> S -> list E -> Prop :=
  | star_refl s : star R s s []
  | star_step s1 s2 s3 e1 e2 : R s1 s2 e1 -> star R s2 s3 e2 -> star R s1 s3 (e1 ++ e2).

Lemma star_trans {S E} (R : S -> S -> list E -> Prop) s1 s2 s3 e1 e2 :
  star R s1 s2 e1 -> star R s2 s3 e2 -> star R s1 s3 (e1 ++ e2).
Proof.
  induction 1 as [|s1 s2 s4 e1 e3 H1 _ IH]; [done|]. intros H. rewrite <- (assoc_L (++)).
  eapply star_step; [exact H1|]. by apply IH.
Qed.

Lemma star_one {S E} (R : S -> S -> list E -> Prop) s1 s2 e : R s1 s2 e -> star R s1 s2 e.
Proof. intros H. rewrite <- (app_nil_r e). eapply star_step; [exact H|constructor]. Qed.

#[global] Instance star_transition {S E} (R : S -> S -> list E -> Prop) : Transition (star R).
Proof. split; [constructor|apply star_trans]. Qed.

(** A relation closed under composition holds of a sequence when it holds of each
    step. *)
Lemma star_lift {S E} (R : S -> S -> list E -> Prop) (T : S -> S -> list E -> Prop)
    `{!Transition T} s1 s2 es :
  (forall s s' e, R s s' e -> T s s' e) -> star R s1 s2 es -> T s1 s2 es.
Proof.
  intros H. induction 1 as [s|s1 s2 s3 e1 e2 H1 _ IH]; [apply transition_refl|].
  eapply transition_trans; [by apply H|exact IH].
Qed.

(** * What is assumed of the messages and the ledger

    The refinement holds for every policy: [any_policy] assumes nothing;
    [consistent_policy] assumes that a message names the proposal it carries, which
    the code does not check, and restricts the ledger configurations.  A policy
    holds of the pre-prepares that the node builds itself, and does not depend on the
    data, the encoding or the sender of a message.  [rollback] says whether executed
    blocks may be given up, which happens when an execution fails and when a block
    arrives from the synchronisation module. *)
Class Policy := {
  good : PBFTMessage.t -> Prop;
  good_ledger : LedgerConfig.t -> Prop;
  rollback : Prop;
  good_own p v w ts g : good (populateWith PrePreparePacket p v w ts g);
  good_fill m q d : good m -> PBFTMessage.consensusProposal m = Some q ->
    good (m <| PBFTMessage.consensusProposal := Some (q <| PBFTProposal.data := d |>) |>);
  good_encoded m : good m -> good (PBFTMessage.encodeHashFields m);
  good_from m n : good m -> good (m <| PBFTMessage.from := n |>);
  good_empty : good PBFTMessage.create
}.

Definition any_policy : Policy.
Proof. by refine {| good _ := True; good_ledger _ := True; rollback := True |}. Defined.

(** A message and the proposal it carries have the same index and hash. *)
Definition consistent (m : PBFTMessage.t) : Prop :=
  forall p, PBFTMessage.consensusProposal m = Some p ->
    PBFTProposal.index p = PBFTMessage.index m /\ PBFTProposal.hash p = PBFTMessage.hash m.

Definition consistent_policy (ledger : LedgerConfig.t -> Prop) : Policy.
Proof.
  refine {| good := consistent; good_ledger := ledger; rollback := True |}.
  - by intros p v w ts g q [= <-].
  - intros m q d H Hq p [= <-]. exact (H q Hq).
  - intros m H p Hp. exact (H p Hp).
  - intros m n H p Hp. exact (H p Hp).
  - by intros p Hp.
Defined.

Definition is_commit (m : Msg) : bool :=
  match m with
  | MPBFT m => bool_decide (PBFTMessage.packetType m = CommitPacket)
  | _ => false
  end.

(** The events whose emission is a step of its own. *)
Definition plain (e : Event) : bool :=
  match e with
  | SendMessageByNodeIDs _ m => negb (is_commit m)
  | AsyncApply _ _ _ | AsyncCommitStableCheckPoint _ => false
  | _ => true
  end.

(** * Steps of one proposal cache *)
Section CacheSteps.
Context `{Ext : Externals} `{Pol : Policy}.

(** The votes that may enter a collection of prepare or checkpoint messages: received
    ones whose proposal carries a valid signature, and this node's own ones. *)
Inductive vote (c : PBFTConfig.t) (m : PBFTMessage.t) : Prop :=
  | vote_received :
      good m ->
      E.checkProposalSignature c (PBFTMessage.generatedFrom m)
        (PBFTMessage.consensusProposal m) = true ->
      vote c m
  | vote_own p :
      PBFTMessage.generatedFrom m = u64 (PBFTConfig.nodeIndex c) ->
      PBFTMessage.consensusProposal m = Some p ->
      PBFTProposal.hash p = PBFTMessage.hash m ->
      PBFTProposal.signature p = sign (PBFTConfig.nodeID c) (PBFTProposal.hash p) ->
      vote c m.

(** The commit request of a node that has precommitted [proposal]. *)
Definition commitRequest (config : PBFTConfig.t) (proposal : PBFTProposal.t) : PBFTMessage.t :=
  PBFTMessage_encode (PBFTConfig.nodeID config)
    (populateSigned CommitPacket PBFTConfig.c_pbftMsgDefaultVersion (PBFTConfig.m_view config)
       (PBFTConfig.utcTime config) (PBFTConfig.nodeIndex config) proposal
       (PBFTConfig.nodeID config) true).

Inductive fstep : C.frame -> C.frame -> list Event -> Prop :=
  | F_config f c' es :
      config_step (C.f_config f) c' es ->
      fstep f (f <| C.f_config := c' |>) es
  | F_prepare f f' m :
      vote (C.f_config f) m -> C.addPrepareCache m f = Done tt f' [] -> fstep f f' []
  | F_commit f f' m :
      good m -> PBFTMessage.packetType m = CommitPacket ->
      C.addCommitCache m f = Done tt f' [] -> fstep f f' []
  | F_checkpoint f f' m :
      vote (C.f_config f) m -> C.addCheckPointMsg m f = Done tt f' [] -> fstep f f' []
  | F_precommit f f' es q :
      C.m_precommitted (C.f_this f) = false ->
      C.m_prePrepare (C.f_this f) = Some q ->
      (forall p, C.m_precommit (C.f_this f) = Some p ->
         PBFTMessage.view p < PBFTMessage.view q) ->
      C.collectEnoughPrepareReq (C.f_config f) (C.f_this f) = true ->
      C.intoPrecommit f = Done tt f' es ->
      fstep f f' es
  | F_sendCommit f f' p proposal without :
      C.m_precommit (C.f_this f) = Some p ->
      PBFTMessage.consensusProposal p = Some proposal ->
      PBFTProposal.index without = PBFTProposal.index proposal ->
      PBFTProposal.hash without = PBFTProposal.hash proposal ->
      let m := commitRequest (C.f_config f) without in
      C.addCommitCache m f = Done tt f' [] ->
      fstep f f' [SendMessageByNodeIDs (PBFTConfig.consensusNodeIDList (C.f_config f)) (MPBFT m)]
  | F_precommitted f : fstep f (f <| C.f_this := (C.f_this f) <| C.m_precommitted := true |> |>) []
  | F_submit f :
      C.m_submitted (C.f_this f) = false ->
      is_Some (C.m_precommit (C.f_this f)) ->
      C.collectEnoughCommitReq (C.f_config f) (C.f_this f) = true ->
      fstep f (f <| C.f_this := (C.f_this f) <| C.m_submitted := true |> |>) []
  | F_reopen f :
      fstep f (f <| C.f_this := (C.f_this f) <| C.m_submitted := false |>
                                             <| C.m_precommitted := false |> |>) []
  | F_reset f v :
      let c := C.f_this f in
      let l := C.resetCacheAfterViewChange (C.m_prepareCacheList c) v in
      let k := C.resetCacheAfterViewChange (C.m_commitCacheList c) v in
      fstep f (f <| C.f_this := c
        <| C.m_prepareCacheList := l |>
        <| C.m_commitCacheList := k |>
        <| C.m_prepareReqWeight := C.recalculateQuorum (C.f_config f) l |>
        <| C.m_commitReqWeight := C.recalculateQuorum (C.f_config f) k |> |>) []
  | F_setCheckpoint f p :
      PBFTProposal.index p = C.m_index (C.f_this f) ->
      committed_index (C.f_config f) < PBFTProposal.index p ->
      PBFTProposal.index p < PBFTConfig.m_expectedCheckPoint (C.f_config f) ->
      fstep f (f <| C.f_this := (C.f_this f)
        <| C.m_checkpointProposal := Some p |>
        <| C.m_timer := PBFTTimer.start (C.m_timer (C.f_this f)) |> |>) []
  | F_stable f f' p p' :
      C.m_stableCommitted (C.f_this f) = false ->
      C.m_checkpointProposal (C.f_this f) = Some p ->
      C.collectEnoughCheckpoint (C.f_config f) (C.f_this f) = true ->
      C.setSignatureList p (C.m_checkpointCacheList (C.f_this f)) f = Done p' f [] ->
      f' = f <| C.f_this := (C.f_this f) <| C.m_checkpointProposal := Some p' |>
                                         <| C.m_stableCommitted := true |> |> ->
      fstep f f' []
  | F_timer f (g : PBFTTimer.t -> PBFTTimer.t) :
      fstep f (f <| C.f_this := (C.f_this f) <| C.m_timer := g (C.m_timer (C.f_this f)) |> |>) []
  | F_emit f es : Forall (fun e => plain e = true) es -> fstep f f es.

(** Reading the configuration from a frame. *)
Lemma frame_config_step {A} (m : Eff Event PBFTConfig.t A) :
  respects any_fault config_step m -> respects any_fault (star fstep) (zoom C.f_config m).
Proof.
  intros H. eapply respects_zoom; [exact H|]. intros f c es Hs. by apply star_one, F_config.
Qed.

Lemma F_committedIndex : respects any_fault (star fstep) C.committedIndex.
Proof. apply frame_config_step. auto with eff. Qed.

Lemma star_fstep_one f f' es : fstep f f' es -> star fstep f f' es.
Proof. apply star_one. Qed.
End CacheSteps.

Ltac pose_wp_bind := apply wp_bind; simpl.

Section CacheRefinement.
Context `{Ext : Externals} `{Pol : Policy}.

Lemma addPrepareCache_steps m f :
  vote (C.f_config f) m ->
  wp any_fault (C.addPrepareCache m f) (fun _ f' es => star fstep f f' es).
Proof. intros Hv. apply star_one. by apply (F_prepare _ _ m). Qed.

Lemma addCommitCache_steps m :
  good m -> PBFTMessage.packetType m = CommitPacket ->
  respects any_fault (star fstep) (C.addCommitCache m).
Proof. intros Hm Ht f. apply star_one. by apply (F_commit _ _ m). Qed.

Lemma addCheckPointMsg_steps m f :
  vote (C.f_config f) m ->
  wp any_fault (C.addCheckPointMsg m f) (fun _ f' es => star fstep f f' es).
Proof. intros Hv. apply star_one. by apply (F_checkpoint _ _ m). Qed.

(** [setSignatureList] only computes. *)
Lemma appendProofs_pure l p f :
  wp any_fault (C.appendProofs l p f) (fun r f' es => f' = f /\ es = [] /\ exists p', r = inl p').
Proof.
  revert p. induction l as [|[i m] l IH]; intros p; simpl; [by eauto|].
  destruct (PBFTMessage.consensusProposal m) as [q|]; simpl; [|exact I].
  unfold mbind, eff_bind. simpl. specialize (IH (PBFTProposal.appendSignatureProof p i
    (PBFTProposal.signature q))). by destruct (C.appendProofs _ _ _).
Qed.

Lemma setSignatureList_pure p l f :
  wp any_fault (C.setSignatureList p l f)
    (fun r f' es => f' = f /\ es = [] /\ exists p', r = inl p').
Proof.
  unfold C.setSignatureList, assert_. case_bool_decide; [|exact I].
  unfold mbind, eff_bind. simpl.
  pose proof (appendProofs_pure (in_order (default ∅ (l !! PBFTProposal.hash p)))
    (PBFTProposal.clearSignatureProof p) f) as Hp.
  by destruct (C.appendProofs _ _ _).
Qed.

Lemma appendProofs_key l p f :
  wp any_fault (C.appendProofs l p f) (fun r _ _ => forall p', r = inl p' ->
    PBFTProposal.index p' = PBFTProposal.index p /\ PBFTProposal.hash p' = PBFTProposal.hash p).
Proof.
  revert p. induction l as [|[i m] l IH]; intros p; simpl; [by intros p' [= <-]|].
  destruct (PBFTMessage.consensusProposal m) as [q|]; simpl; [|exact I].
  apply wp_bind. simpl.
  eapply wp_mono; [apply (IH (PBFTProposal.appendSignatureProof p i (PBFTProposal.signature q)))|].
  intros r f' es H p' ->. exact (H p' eq_refl).
Qed.

Lemma setSignatureList_key p l f p' f' es :
  C.setSignatureList p l f = Done p' f' es ->
  PBFTProposal.index p' = PBFTProposal.index p /\ PBFTProposal.hash p' = PBFTProposal.hash p.
Proof.
  unfold C.setSignatureList, assert_. case_bool_decide; [|done].
  unfold mbind, eff_bind. simpl.
  pose proof (appendProofs_key (in_order (default ∅ (l !! PBFTProposal.hash p)))
    (PBFTProposal.clearSignatureProof p) f) as Hk.
  destruct (C.appendProofs _ _ f); [|done|done]. intros [= -> _ _]. exact (Hk p' eq_refl).
Qed.

Lemma checkAndCommit_steps : respects any_fault (star fstep) C.checkAndCommit.
Proof.
  unfold C.checkAndCommit. apply respects_bind_get. intros f.
  destruct (C.m_submitted (C.f_this f)) eqn:Es; [constructor|].
  destruct (C.m_precommit (C.f_this f)) as [p|] eqn:Ep; [|constructor].
  destruct (C.collectEnoughCommitReq _ _) eqn:Ec; [|constructor].
  apply wp_log_deref; [by left|]. apply star_one, F_submit; eauto.
Qed.

(** A copy keeps the index and the hash. *)
Lemma populateProposal_key p p' d pr :
  populateProposal p d pr = Some p' ->
  PBFTProposal.index p' = PBFTProposal.index p /\ PBFTProposal.hash p' = PBFTProposal.hash p.
Proof.
  unfold populateProposal.
  set (step := fun (acc : option PBFTProposal.t) (i : nat) =>
    p0 ← acc; proof ← PBFTProposal.signatureProof p i;
    Some (PBFTProposal.appendSignatureProof p0 proof.1 proof.2)).
  assert (Hfold : forall l acc r, fold_left step l acc = Some r ->
    exists a, acc = Some a /\ PBFTProposal.index r = PBFTProposal.index a /\
      PBFTProposal.hash r = PBFTProposal.hash a).
  { induction l as [|i l IH]; simpl; intros acc r H; [by eauto|].
    destruct (IH _ _ H) as (a & Ha & Hi & Hh). unfold step in Ha.
    destruct acc as [b|]; [|done]. simpl in Ha.
    destruct (PBFTProposal.signatureProof p i); [|done]. simpl in Ha. injection Ha as <-.
    eauto. }
  destruct d, pr; intros H; try (by injection H as <-);
    destruct (Hfold _ _ _ H) as (a & [= <-] & Hi & Hh); by rewrite Hi, Hh.
Qed.

(** What [intoPrecommit] does when it returns. *)
Lemma intoPrecommit_spec f :
  wp any_fault (C.intoPrecommit f) (fun r f' es =>
    r = inl tt /\ es = [] /\ C.f_config f' = C.f_config f /\
    exists q proposal signed without data,
      C.m_prePrepare (C.f_this f) = Some q /\
      PBFTMessage.consensusProposal q = Some proposal /\
      C.setSignatureList proposal (C.m_prepareCacheList (C.f_this f)) f = Done signed f [] /\
      populateProposal signed false true = Some without /\
      PBFTMessage.consensusProposal data = Some without /\
      let p := (PBFTMessage.setGeneratedFrom (PBFTConfig.nodeIndex (C.f_config f)) q)
                 <| PBFTMessage.consensusProposal := Some signed |> in
      C.f_this f' = (C.f_this f) <| C.m_prePrepare := Some p |>
        <| C.m_precommit := Some p |> <| C.m_precommitWithoutData := Some data |>).
Proof.
  unfold C.intoPrecommit. apply wp_bind. simpl.
  destruct (C.m_prePrepare (C.f_this f)) as [q|] eqn:Eq; [|exact I].
  cbn [deref]. apply wp_bind. simpl.
  destruct (PBFTMessage.consensusProposal q) as [proposal|] eqn:Ep; [|exact I].
  cbn [deref]. apply wp_bind. simpl. apply wp_bind.
  pose proof (setSignatureList_pure proposal (C.m_prepareCacheList (C.f_this f)) f) as Hs.
  destruct (C.setSignatureList _ _ f) as [signed f1 e1|x f1 e1|] eqn:Es;
    [|by destruct Hs as (_ & _ & ? & ?)|exact I].
  destruct Hs as (-> & -> & _). simpl.
  destruct (populateProposal signed false true) as [without|] eqn:Ew; [|exact I].
  simpl. split; [done|]. split; [done|]. split; [done|].
  eexists q, proposal, signed, without, _.
  repeat split; eauto.
Qed.

(** The fields that collecting a message leaves alone. *)
Lemma addPrepareCache_fields m f f' :
  C.addPrepareCache m f = Done tt f' [] ->
  exists l w, f' = f <| C.f_this := (C.f_this f) <| C.m_prepareCacheList := l |>
                                                 <| C.m_prepareReqWeight := w |> |>.
Proof.
  unfold C.addPrepareCache, modify. destruct (C.addCache _ _ _ _ _). intros [= <-]. eauto.
Qed.
Lemma addCommitCache_fields m f f' :
  C.addCommitCache m f = Done tt f' [] ->
  exists l w, f' = f <| C.f_this := (C.f_this f) <| C.m_commitCacheList := l |>
                                                 <| C.m_commitReqWeight := w |> |>.
Proof.
  unfold C.addCommitCache, modify. destruct (C.addCache _ _ _ _ _). intros [= <-]. eauto.
Qed.
Lemma addCheckPointMsg_fields m f f' :
  C.addCheckPointMsg m f = Done tt f' [] ->
  exists l w, f' = f <| C.f_this := (C.f_this f) <| C.m_checkpointCacheList := l |>
                                                 <| C.m_checkpointCacheWeight := w |> |>.
Proof.
  unfold C.addCheckPointMsg, modify. destruct (C.addCache _ _ _ _ _). intros [= <-]. eauto.
Qed.

Lemma addCommitCache_spec m f :
  exists f', C.addCommitCache m f = Done tt f' [] /\ C.f_config f' = C.f_config f /\
    C.m_precommit (C.f_this f') = C.m_precommit (C.f_this f).
Proof.
  unfold C.addCommitCache, modify. destruct (C.addCache _ _ _ _ _) as [l w]. eauto.
Qed.

Lemma checkAndPreCommit_steps : respects any_fault (star fstep) C.checkAndPreCommit.
Proof.
  unfold C.checkAndPreCommit. apply respects_bind_get. intros f.
  destruct (C.m_precommitted (C.f_this f)) eqn:Epre; [constructor|].
  destruct (C.m_prePrepare (C.f_this f)) as [q|] eqn:Eq.
  2:{ apply wp_bind. destruct (C.m_precommit (C.f_this f)); simpl; [exact I|].
      unfold C.collectEnoughPrepareReq. rewrite Eq. rewrite andb_false_r. constructor. }
  set (stale := match C.m_precommit (C.f_this f) with
    | Some p => PBFTMessage.view q <=? PBFTMessage.view p | None => false end).
  assert (Hst : forall k : bool -> C.M bool, ((match C.m_precommit (C.f_this f) with
    | None => mret false
    | Some precommit => prePrepare ← deref (Some q);
        mret (PBFTMessage.view prePrepare <=? PBFTMessage.view precommit) end) ≫= k) f =
    (mret stale ≫= k) f).
  { intros k. unfold stale. by destruct (C.m_precommit (C.f_this f)). }
  rewrite Hst. apply wp_bind. simpl.
  destruct stale eqn:Estale; [constructor|].
  destruct (C.collectEnoughPrepareReq _ _) eqn:Ecol; simpl; [|constructor].
  apply wp_bind. pose proof (intoPrecommit_spec f) as Hin.
  destruct (C.intoPrecommit f) as [[] f1 e1|x f1 e1|] eqn:Einto; [|by destruct Hin|exact I].
  destruct Hin as (_ & -> & Hc1 & q' & proposal & signed & without & data & Hq' & Hp & Hsig
    & Hpop & Hdata & Hthis).
  simpl. apply wp_bind. simpl. apply wp_bind. rewrite Hthis. simpl. apply wp_bind.
  rewrite Hdata. simpl. apply wp_bind.
  assert (H1 : star fstep f f1 []).
  { apply star_one. apply (F_precommit f f1 [] q); try done.
    intros p Hp'. unfold stale in Estale. rewrite Hp' in Estale. by apply Z.leb_gt in Estale. }
  set (m := commitRequest (C.f_config f1) without).
  destruct (populateProposal_key _ _ _ _ Hpop) as [Hidx Hhash].
  match goal with |- wp _ (C.addCommitCache ?m' f1) _ => change m' with m end.
  destruct (addCommitCache_spec m f1) as (f2 & Hadd & Hc2 & Hp2). rewrite Hadd. simpl.
  apply wp_bind. simpl. apply wp_bind. simpl.
  assert (H3 : star fstep f1 f2
    [SendMessageByNodeIDs (PBFTConfig.consensusNodeIDList (C.f_config f1)) (MPBFT m)]).
  { apply star_one. by eapply (F_sendCommit f1 f2 _ signed without); [rewrite Hthis|..]. }
  assert (H4 : star fstep f2 (f2 <| C.f_this := (C.f_this f2) <| C.m_precommitted := true |> |>) [])
    by apply star_one, F_precommitted.
  eapply wp_respects; [apply checkAndCommit_steps|]. intros r f3 e3 H5. simpl.
  pose proof (star_trans _ _ _ _ _ _ H1
    (star_trans _ _ _ _ _ _ H3 (star_trans _ _ _ _ _ _ H4 H5))) as H. exact H.
Qed.

Lemma resetTxs_frame d b : respects any_fault (star fstep)
  (zoom C.f_config (zoom PBFTConfig.m_validator (TxsValidator.asyncResetTxsFlag d b))).
Proof. apply frame_config_step. auto with eff. Qed.

Lemma resetCache_steps v : respects any_fault (star fstep) (C.resetCache v).
Proof.
  unfold C.resetCache. apply respects_bind; [apply _| |intros _].
  { intros f. apply star_one, F_reopen. }
  apply respects_bind; [apply _|apply respects_get, _|intros s].
  apply respects_bind; [apply _| |intros _].
  { destruct (C.m_precommit (C.f_this s)); [apply respects_ret, _|].
    destruct (C.m_prePrepare (C.f_this s)) as [q|]; [|apply respects_ret, _].
    destruct (PBFTMessage.consensusProposal q); [|apply respects_ret, _].
    apply respects_when; [apply _|]. intros _. apply resetTxs_frame. }
  intros f. apply wp_bind. simpl. apply star_one. apply (F_reset f v).
Qed.

Lemma setCheckPointProposal_steps p f :
  PBFTProposal.index p < PBFTConfig.m_expectedCheckPoint (C.f_config f) ->
  wp any_fault (C.setCheckPointProposal p f) (fun _ f' es => star fstep f f' es).
Proof.
  intros Hexp. unfold C.setCheckPointProposal. apply wp_bind. simpl. apply wp_bind.
  unfold C.committedIndex, PBFTConfig.committedIndex, zoom, mbind, eff_bind. simpl.
  destruct (PBFTConfig.committedProposal (C.f_config f)) as [q|] eqn:Eq; simpl; [|exact I].
  destruct f as [cf this]. simpl in *.
  destruct (Z.leb_spec (PBFTProposal.index p) (PBFTProposal.index q)); [constructor|].
  destruct (Z.eqb_spec (PBFTProposal.index p) (C.m_index this)) as [He|]; simpl; [|constructor].
  apply star_one. apply (F_setCheckpoint (C.Frame cf this) p); simpl; [done| |done].
  unfold committed_index. by rewrite Eq.
Qed.

Lemma checkAndCommitStableCheckPoint_steps :
  respects any_fault (star fstep) C.checkAndCommitStableCheckPoint.
Proof.
  unfold C.checkAndCommitStableCheckPoint. apply respects_bind_get. intros f.
  destruct (C.m_stableCommitted (C.f_this f)) eqn:Es; [constructor|].
  destruct (C.collectEnoughCheckpoint _ _) eqn:Ec; simpl; [|constructor].
  apply wp_bind. destruct (C.m_checkpointProposal (C.f_this f)) as [p|] eqn:Ep; [|exact I].
  simpl. apply wp_bind.
  pose proof (setSignatureList_pure p (C.m_checkpointCacheList (C.f_this f)) f) as Hs.
  destruct (C.setSignatureList _ _ f) as [p' f1 e1|x f1 e1|] eqn:Esig;
    [|by destruct Hs as (_ & _ & ? & ?)|exact I].
  destruct Hs as (-> & -> & _). simpl. apply wp_bind. simpl. apply wp_bind.
  set (f2 := f <| C.f_this := _ |>).
  assert (H : star fstep f f2 []) by by apply star_one, (F_stable f f2 p p').
  eapply wp_respects; [apply F_committedIndex|]. intros [n|x] f3 e3 H3; simpl.
  - rewrite app_nil_r. exact (star_trans _ _ _ _ _ _ H H3).
  - exact (star_trans _ _ _ _ _ _ H H3).
Qed.

Lemma shouldStopTimer_steps : respects any_fault (star fstep) C.shouldStopTimer.
Proof. unfold C.shouldStopTimer. eff_auto. apply F_committedIndex. Qed.

Lemma emit_frame e : plain e = true -> respects any_fault (star fstep) (emit e).
Proof. intros H f. apply star_one, F_emit. by repeat constructor. Qed.

Lemma onCheckPointTimeout_steps notifier :
  (forall i, respects any_fault (star fstep) (notifier i)) ->
  respects any_fault (star fstep) (C.onCheckPointTimeout notifier).
Proof.
  intros Hn. unfold C.onCheckPointTimeout. eff_auto.
  - apply F_committedIndex.
  - by apply emit_frame.
  - intros f. apply star_one. apply (F_timer f PBFTTimer.restart).
Qed.
End CacheRefinement.

(** The cache after a step that collects a message or precommits. *)
Ltac step_fields :=
  match goal with
  | H : C.addPrepareCache _ _ = Done _ _ _ |- _ =>
      destruct (addPrepareCache_fields _ _ _ H) as (?l & ?w & ?Hf)
  | H : C.addCommitCache _ _ = Done _ _ _ |- _ =>
      destruct (addCommitCache_fields _ _ _ H) as (?l & ?w & ?Hf)
  | H : C.addCheckPointMsg _ _ = Done _ _ _ |- _ =>
      destruct (addCheckPointMsg_fields _ _ _ H) as (?l & ?w & ?Hf)
  end; subst.
Ltac precommit_fields :=
  match goal with
  | H : C.intoPrecommit ?f = Done _ _ _ |- _ =>
      let Hi := fresh "Hi" in
      pose proof (intoPrecommit_spec f) as Hi; rewrite H in Hi;
      destruct Hi as (_ & ?He & ?Hcfg & ?q & ?proposal & ?signed & ?without & ?data & ?Hq & ?Hp &
        ?Hsig & ?Hwithout & ?Hdata & ?Hthis)
  end.
#[export] Hint Resolve
  checkAndCommit_steps checkAndPreCommit_steps resetCache_steps
  checkAndCommitStableCheckPoint_steps shouldStopTimer_steps : eff.
