(* ===== verification/Node.v ===== *)
(** Node: the elementary steps of the whole node and the refinement theorem - every
    handler of the engine is a sequence of them. *)
From S2P Require Import Prelude Types Timer Validator Config Cache Processor LogSync Engine.
From S2P Require Import Quorum ConfigFacts Steps.

(** * The elementary steps of a node *)
Section NodeSteps.
Context `{Ext : Externals} `{Pol : Policy}.

(** Replace the cache of [index] and the configuration by those of a frame. *)
Definition put_frame (s : P.t) (index : BlockNumber) (f : C.frame) : P.t :=
  s <| P.m_config := C.f_config f |>
    <| P.m_caches := <[ index := C.f_this f ]> (P.m_caches s) |>.

(** The guard under which a pre-prepare enters the cache of its index. *)
Record acceptable (c : PBFTConfig.t) (this : C.t) (m : PBFTMessage.t) : Prop := {
  acc_proposal : is_Some (PBFTMessage.consensusProposal m);
  acc_low : PBFTConfig.m_lowWaterMark c <= PBFTMessage.index m;
  acc_expected : PBFTConfig.m_expectedCheckPoint c <= PBFTMessage.index m;
  acc_view : PBFTConfig.m_view c <= PBFTMessage.view m;
  acc_prePrepare : forall q, C.m_prePrepare this = Some q ->
    PBFTMessage.view q < PBFTMessage.view m;
  acc_precommit : forall p, C.m_precommit this = Some p ->
    PBFTConfig.progressedIndex c <= PBFTMessage.index p ->
    PBFTMessage.index m = PBFTMessage.index p -> PBFTMessage.hash m = PBFTMessage.hash p
}.

(** [p] is the executed proposal of [this] for which a quorum of checkpoint messages has
    been collected, with their signatures. *)
Definition sealed (c : PBFTConfig.t) (this : C.t) (p : PBFTProposal.t) : Prop :=
  C.m_stableCommitted this = true /\ C.m_checkpointProposal this = Some p /\
  C.collectEnoughCheckpoint c this = true /\
  exists q f, C.setSignatureList q (C.m_checkpointCacheList this) f = Done p f [].

Inductive step : P.t -> P.t -> list Event -> Prop :=
  | S_config s c' es :
      config_step (P.m_config s) c' es -> step s (s <| P.m_config := c' |>) es
  | S_emit s es : Forall (fun e => plain e = true) es -> step s s es
  | S_create s i :
      P.m_caches s !! i = None ->
      step s (s <| P.m_caches := <[ i := C.create (P.m_config s) i ]> (P.m_caches s) |>) []
  | S_cache s i c f es :
      P.m_caches s !! i = Some c ->
      fstep (C.Frame (P.m_config s) c) f es ->
      step s (put_frame s i f) es
  | S_prePrepare s c m :
      P.m_caches s !! PBFTMessage.index m = Some c ->
      acceptable (P.m_config s) c m -> good m ->
      step s (s <| P.m_caches :=
        <[ PBFTMessage.index m := c <| C.m_prePrepare := Some m |> ]> (P.m_caches s) |>) []
  | S_encode s m r s' : E.encodeHandled m s = Done r s' [] -> step s s' []
  | S_enqueue s p :
      P.m_executingProposals s !! PBFTProposal.hash p = None ->
      step s (s
        <| P.m_committedQueue := pq_push PBFTProposal.index p (P.m_committedQueue s) |>
        <| P.m_committedProposalList :=
             {[ PBFTProposal.index p ]} ∪ P.m_committedProposalList s |>) []
  | S_dropExpired s :
      step s (s <| P.m_committedQueue :=
        P.dropExpired (PBFTConfig.m_expectedCheckPoint (P.m_config s))
          (P.m_committedQueue s) |>) []
  | S_apply s p rest last c' es timeout :
      P.m_committedQueue s = p :: rest ->
      PBFTProposal.index p = PBFTConfig.m_expectedCheckPoint (P.m_config s) ->
      ((PBFTConfig.committedProposal (P.m_config s) = Some last /\
        PBFTProposal.index last = PBFTProposal.index p - 1) \/
       exists c, P.m_caches s !! (PBFTProposal.index p - 1) = Some c /\
         C.m_checkpointProposal c = Some last) ->
      P.m_executingProposals s !! PBFTProposal.hash p = None ->
      config_step (P.m_config s) c' es ->
      step s (s <| P.m_committedQueue := rest |>
                <| P.m_executingProposals :=
                     <[ PBFTProposal.hash p := PBFTProposal.index p ]>
                       (P.m_executingProposals s) |>
                <| P.m_config := c' |>) (es ++ [AsyncApply timeout last p])
  | S_executing s ex :
      ex ⊆ P.m_executingProposals s -> step s (s <| P.m_executingProposals := ex |>) []
  | S_committedList s l : step s (s <| P.m_committedProposalList := l |>) []
  | S_notifyIndex s n : step s (s <| P.m_maxNotifyIndex := n |>) []
  | S_stablePush s i c p :
      P.m_caches s !! i = Some c ->
      sealed (P.m_config s) c p ->
      step s (s <| P.m_stableCheckPointQueue :=
        pq_push PBFTProposal.index p (P.m_stableCheckPointQueue s) |>) []
  | S_stableDrop s q l :
      q `suffix_of` P.m_stableCheckPointQueue s ->
      step s (s <| P.m_stableCheckPointQueue := q |> <| P.m_committedProposalList := l |>) []
  | S_commitStable s p rest l last :
      P.m_stableCheckPointQueue s = p :: rest ->
      PBFTConfig.committedProposal (P.m_config s) = Some last ->
      PBFTProposal.index p = PBFTProposal.index last + 1 ->
      step s (s <| P.m_committedProposalList := l |> <| P.m_stableCheckPointQueue := rest |>)
        [AsyncCommitStableCheckPoint p]
  | S_clearQueues s :
      step s (s <| P.m_committedQueue := [] |> <| P.m_committedProposalList := ∅ |>
                <| P.m_stableCheckPointQueue := [] |>) []
  | S_viewChange s s' v : P.addViewChangeReq v s = Done tt s' [] -> step s s' []
  | S_removeViewChange s s' v n : P.removeInvalidViewChange v n s = Done tt s' [] -> step s s' []
  | S_clearMax s :
      step s (s <| P.m_maxPrecommitIndex := ∅ |> <| P.m_maxCommittedIndex := ∅ |>
                <| P.m_newViewGenerated := false |>) []
  | S_newView s : step s (s <| P.m_newViewGenerated := true |>) []
  | S_recover s k w : step s (s <| P.m_recoverReqCache := k |> <| P.m_recoverCacheWeight := w |>) []
  | S_removeCaches s n :
      n <= committed_index (P.m_config s) ->
      step s (s <| P.m_caches :=
        filter (fun kv => ~ kv.1 <= n /\ C.m_stableCommitted kv.2 = false) (P.m_caches s) |>) []
  | S_setExpected s last i :
      PBFTConfig.committedProposal (P.m_config s) = Some last ->
      (rollback \/ PBFTConfig.m_expectedCheckPoint (P.m_config s) <= i) ->
      PBFTProposal.index last < i ->
      step s (s <| P.m_config := (P.m_config s) <| PBFTConfig.m_expectedCheckPoint := i |> |>) []
  | S_removeFuture s i c :
      rollback ->
      P.m_caches s !! i = Some c ->
      is_Some (C.m_checkpointProposal c) ->
      step s (s <| P.m_caches := delete i (P.m_caches s) |>) []
  | S_syncing s n :
      let c := P.m_config s in
      step s (s <| P.m_config := c <| PBFTConfig.base := (PBFTConfig.base c)
                     <| ConsensusConfig.m_syncingHighestNumber := n |> |> |>) []
  | S_resetConfig s cfg synced c' es :
      0 <= LedgerConfig.blockNumber cfg -> good_ledger cfg ->
      final (PBFTConfig.resetConfig cfg synced (P.m_config s)) = Some c' ->
      events (PBFTConfig.resetConfig cfg synced (P.m_config s)) = es ->
      step s (s <| P.m_config := c' |>) es.

Definition steps : P.t -> P.t -> list Event -> Prop := star step.
#[global] Instance steps_transition : Transition steps.
Proof. apply star_transition. Qed.

Lemma steps_one s s' es : step s s' es -> steps s s' es.
Proof. apply star_one. Qed.

(** ** Lifting *)
Lemma config_steps {A} (m : Eff Event PBFTConfig.t A) :
  respects any_fault config_step m -> respects any_fault steps (zoom P.m_config m).
Proof. intros H. eapply respects_zoom; [exact H|]. intros s c es Hs. by apply steps_one, S_config. Qed.

Lemma on_config_steps f :
  (forall c, evolves c (f c)) -> respects any_fault steps (P.on_config f).
Proof.
  intros H s. apply steps_one, S_config. split; [apply H|constructor].
Qed.

Lemma on_timer_steps f : respects any_fault steps (P.on_timer f).
Proof. apply on_config_steps. intros c. apply on_timer_evolves. Qed.

Lemma emit_steps e : plain e = true -> respects any_fault steps (emit e).
Proof. intros H s. apply steps_one, S_emit. by repeat constructor. Qed.

Lemma modify_steps f : (forall s, step s (f s) []) -> respects any_fault steps (modify f).
Proof. intros H s. apply steps_one, H. Qed.

Lemma committedIndex_steps : respects any_fault steps P.committedIndex.
Proof. apply config_steps. auto with eff. Qed.

Lemma resetTxsFlag_steps d b : respects any_fault steps (P.resetTxsFlag d b).
Proof. apply config_steps. auto with eff. Qed.

(** The steps of a cache are steps of the node that holds it. *)
Lemma frame_steps s i f f' es :
  P.m_caches s !! i = Some (C.f_this f) -> P.m_config s = C.f_config f ->
  star fstep f f' es -> steps s (put_frame s i f') es.
Proof.
  intros Hi Hc H. revert s Hi Hc. induction H as [f|f1 f2 f3 e1 e2 H1 _ IH]; intros s Hi Hc.
  - assert (put_frame s i f = s) as ->; [|constructor].
    unfold put_frame. rewrite <- Hc. destruct s. simpl in *. by rewrite insert_id.
  - eapply star_step; [apply (S_cache s i (C.f_this f1) f2 e1); [done|]|].
    + rewrite Hc. destruct f1. exact H1.
    + assert (put_frame s i f3 = put_frame (put_frame s i f2) i f3) as ->.
      { unfold put_frame. simpl. by rewrite insert_insert_eq. }
      apply IH; [|done]. simpl. by rewrite lookup_insert_eq.
Qed.

Lemma on_cache_at {A} i (m : Eff Event C.frame A) s :
  (forall c, P.m_caches s !! i = Some c ->
     wp any_fault (m (C.Frame (P.m_config s) c))
       (fun _ f' es => star fstep (C.Frame (P.m_config s) c) f' es)) ->
  wp any_fault (P.on_cache i m s) (fun _ s' es => steps s s' es).
Proof.
  intros H. unfold P.on_cache. destruct (P.m_caches s !! i) as [c|] eqn:Ec; [|exact I].
  specialize (H c eq_refl).
  destruct (m (C.Frame (P.m_config s) c)) as [a f es|x f es|]; simpl in *; [| |exact I];
    by apply (frame_steps s i (C.Frame (P.m_config s) c) f es).
Qed.

Lemma on_cache_steps {A} i (m : Eff Event C.frame A) :
  respects any_fault (star fstep) m -> respects any_fault steps (P.on_cache i m).
Proof. intros H s. apply on_cache_at. intros c _. apply H. Qed.

(** On the cache that [ensureCache] finds or creates. *)
Lemma ensure_on_cache {A} i (m : Eff Event C.frame A) s :
  (forall c, wp any_fault (m (C.Frame (P.m_config s) c))
     (fun _ f' es => star fstep (C.Frame (P.m_config s) c) f' es)) ->
  wp any_fault ((P.ensureCache i ;; P.on_cache i m) s) (fun _ s' es => steps s s' es).
Proof.
  intros H. apply wp_bind. unfold P.ensureCache, mbind at 1, eff_bind. simpl.
  destruct (P.m_caches s !! i) as [c|] eqn:E; simpl.
  - apply on_cache_at. intros d _. apply H.
  - set (s1 := s <| P.m_caches := _ |>).
    eapply wp_mono; [apply (on_cache_at i m s1); intros d _; apply H|].
    intros r s' es Hs. exact (star_step step s s1 s' [] es (S_create s i E) Hs).
Qed.

Lemma ensureCache_steps i : respects any_fault steps (P.ensureCache i).
Proof.
  unfold P.ensureCache. apply respects_bind_get. intros s.
  destruct (P.m_caches s !! i) eqn:E; [constructor|]. by apply steps_one, S_create.
Qed.
End NodeSteps.
#[export] Hint Resolve on_timer_steps committedIndex_steps resetTxsFlag_steps ensureCache_steps
  : eff.

(** * The operations of the cache processor *)
Section ProcessorRefinement.
Context `{Ext : Externals} `{Pol : Policy}.

(** Computations that only change the configuration. *)
Definition config_only (s s' : P.t) (es : list Event) : Prop :=
  exists c', s' = s <| P.m_config := c' |> /\ config_step (P.m_config s) c' es.

#[local] Instance config_only_transition : Transition config_only.
Proof.
  split.
  - intros s. exists (P.m_config s). split; [by destruct s|apply transition_refl].
  - intros s1 s2 s3 e1 e2 (c1 & -> & H1) (c2 & -> & H2). exists c2. split; [done|].
    by eapply transition_trans.
Qed.

Lemma zoom_config_only {A} (m : Eff Event PBFTConfig.t A) :
  respects any_fault config_step m -> respects any_fault config_only (zoom P.m_config m).
Proof. intros H. eapply respects_zoom; [exact H|]. intros s c es Hs. by exists c. Qed.

Lemma on_config_only f :
  (forall c, evolves c (f c)) -> respects any_fault config_only (P.on_config f).
Proof.
  intros H s. exists (f (P.m_config s)). split; [done|]. split; [apply H|constructor].
Qed.

Lemma config_only_steps s s' es : config_only s s' es -> steps s s' es.
Proof. intros (c' & -> & H). by apply steps_one, S_config. Qed.

Lemma notifyToSealNextBlock_config p :
  respects any_fault config_only (P.notifyToSealNextBlock p).
Proof.
  unfold P.notifyToSealNextBlock. eff_auto.
  - apply zoom_config_only. auto with eff.
  - apply on_config_only. auto with evolves.
Qed.

Lemma notifyToSealNextBlock_nothrow p : nothrow (P.notifyToSealNextBlock p).
Proof.
  unfold P.notifyToSealNextBlock, PBFTConfig.notifySealer, PBFTConfig.leaderIndex,
    PBFTConfig.leader_of, PBFTConfig.committedIndex, PBFTConfig.asyncNotifySealProposal.
  nothrow_auto.
Qed.

(** Continuing after the steps made so far. *)
Lemma wp_after {A} (m : Eff Event P.t A) s s1 :
  steps s s1 [] -> wp any_fault (m s1) (fun _ s' es => steps s1 s' es) ->
  wp any_fault (m s1) (fun _ s' es => steps s s' es).
Proof.
  intros H Hm. eapply wp_mono; [exact Hm|]. intros r s' es Hs.
  exact (transition_trans (R := steps) _ _ _ [] es H Hs).
Qed.

(** Sequencing when the first part establishes [J] for the second. *)
Lemma steps_bind {A B} (J : A -> P.t -> Prop) (m : Eff Event P.t A) (k : A -> Eff Event P.t B) s :
  wp any_fault (m s) (fun r s1 e => steps s s1 e /\ forall a, r = inl a -> J a s1) ->
  (forall a s1, J a s1 -> wp any_fault (k a s1) (fun _ s' es => steps s1 s' es)) ->
  wp any_fault ((m ≫= k) s) (fun _ s' es => steps s s' es).
Proof.
  intros Hm Hk. apply wp_bind. eapply wp_mono; [exact Hm|]. intros [a|x] s1 e1 [H1 HJ]; [|done].
  eapply wp_mono; [by apply Hk, HJ|]. intros r s2 e2 H2.
  by apply (transition_trans (R := steps) _ s1).
Qed.

Lemma steps_then {A B} (m : Eff Event P.t A) (k : A -> Eff Event P.t B) s :
  wp any_fault (m s) (fun _ s1 e => steps s s1 e) ->
  (forall a, respects any_fault steps (k a)) ->
  wp any_fault ((m ≫= k) s) (fun _ s' es => steps s s' es).
Proof.
  intros Hm Hk. apply (steps_bind (fun _ _ => True)); [|intros; apply Hk].
  eapply wp_mono; [exact Hm|]. by intros.
Qed.

(** Steps that keep the expected checkpoint and this node's place among the nodes. *)
Definition same_place (c c' : PBFTConfig.t) : Prop :=
  PBFTConfig.base c' = PBFTConfig.base c /\
  PBFTConfig.m_expectedCheckPoint c' = PBFTConfig.m_expectedCheckPoint c.
Definition calm (s s' : P.t) (es : list Event) : Prop :=
  steps s s' es /\ same_place (P.m_config s) (P.m_config s').
#[global] Instance calm_transition : Transition calm.
Proof.
  split; [split; [apply (transition_refl (R := steps))|done]|].
  intros s1 s2 s3 e1 e2 [H1 [B1 X1]] [H2 [B2 X2]]. split; [|split; congruence].
  by apply (transition_trans (R := steps) _ s2).
Qed.

Lemma calm_then {A B} c (m : Eff Event P.t A) (k : A -> Eff Event P.t B) s :
  wp any_fault (m s) (fun _ s1 e => calm s s1 e) -> same_place c (P.m_config s) ->
  (forall a s1, same_place c (P.m_config s1) ->
     wp any_fault (k a s1) (fun _ s' es => steps s1 s' es)) ->
  wp any_fault ((m ≫= k) s) (fun _ s' es => steps s s' es).
Proof.
  intros Hm [Hb Hx] Hk. apply (steps_bind (fun _ s1 => same_place c (P.m_config s1))); [|exact Hk].
  eapply wp_mono; [exact Hm|]. intros r s1 e1 [H1 [Hb1 Hx1]]. split; [done|].
  split; congruence.
Qed.

Lemma addPrepareCache_node m s :
  vote (P.m_config s) m ->
  wp any_fault (P.addPrepareCache m s) (fun _ s' es => steps s s' es).
Proof. intros Hv. apply ensure_on_cache. intros c. by apply addPrepareCache_steps. Qed.

Lemma addCommitReq_node m :
  good m -> PBFTMessage.packetType m = CommitPacket ->
  respects any_fault steps (P.addCommitReq m).
Proof. intros Hm Ht s. apply ensure_on_cache. intros c. by apply addCommitCache_steps. Qed.

Lemma addCheckPointMsg_node m s :
  vote (P.m_config s) m ->
  wp any_fault (P.addCheckPointMsg m s) (fun _ s' es => steps s s' es).
Proof. intros Hv. apply ensure_on_cache. intros c. by apply addCheckPointMsg_steps. Qed.

(** Collecting a message leaves the configuration alone. *)
Lemma addCheckPointMsg_config m s :
  wp any_fault (P.addCheckPointMsg m s) (fun _ s' _ => P.m_config s' = P.m_config s).
Proof.
  unfold P.addCheckPointMsg, P.addCache. apply wp_bind.
  unfold P.ensureCache, mbind at 1, eff_bind. simpl.
  assert (Hc : forall s1, P.m_config s1 = P.m_config s ->
    wp any_fault (P.on_cache (PBFTMessage.index m) (C.addCheckPointMsg m) s1)
      (fun _ s' _ => P.m_config s' = P.m_config s)).
  { intros s1 H1. unfold P.on_cache. destruct (P.m_caches s1 !! _); [|exact I].
    unfold C.addCheckPointMsg, modify. by destruct (C.addCache _ _ _ _ _). }
  destruct (P.m_caches s !! PBFTMessage.index m); by apply Hc.
Qed.

Lemma notifyCommittedProposalIndex_steps i :
  respects any_fault steps (P.notifyCommittedProposalIndex i).
Proof. unfold P.notifyCommittedProposalIndex. eff_auto. by apply emit_steps. Qed.

Lemma notifyMaxProposalIndex_steps i : respects any_fault steps (P.notifyMaxProposalIndex i).
Proof.
  unfold P.notifyMaxProposalIndex. eff_auto; [|apply notifyCommittedProposalIndex_steps].
  apply modify_steps. constructor.
Qed.

(** [getAppliedCheckPointProposal] returns the committed proposal or the checkpoint
    proposal of the cache of that index. *)
Lemma getApplied_spec i s :
  wp any_fault (P.getAppliedCheckPointProposal i s) (fun r s' es =>
    s' = s /\ es = [] /\ forall last, r = inl (Some last) ->
      (PBFTConfig.committedProposal (P.m_config s) = Some last /\ PBFTProposal.index last = i) \/
      exists c, P.m_caches s !! i = Some c /\ C.m_checkpointProposal c = Some last).
Proof.
  unfold P.getAppliedCheckPointProposal, P.committedIndex, PBFTConfig.committedIndex, zoom.
  apply wp_bind. unfold mbind, eff_bind. simpl.
  destruct (PBFTConfig.committedProposal (P.m_config s)) as [q|] eqn:Eq; simpl; [|exact I].
  destruct (Z.eqb_spec i (PBFTProposal.index q)) as [->|]; simpl;
    (split; [by destruct s|split; [done|]]); intros last [= Hl].
  - left. rewrite Eq in Hl. by injection Hl as ->.
  - right. destruct (P.m_caches s !! i) as [c|]; [|done]. eauto.
Qed.

Lemma tryToApplyCommitQueue_steps : respects any_fault steps P.tryToApplyCommitQueue.
Proof.
  unfold P.tryToApplyCommitQueue. apply respects_bind_get. intros s0.
  apply wp_bind. cbn [modify wp]. apply wp_bind. cbn [get wp app].
  assert (H0 := steps_one _ _ _ (S_dropExpired s0)).
  set (s := s0 <| P.m_committedQueue := _ |>) in *.
  apply wp_after; [exact H0|].
  assert (Hcfg : P.m_config s0 = P.m_config s) by done. rewrite Hcfg. clearbody s. clear.
  destruct (P.m_committedQueue s) as [|p rest] eqn:Eq; [constructor|].
  destruct (Z.eqb_spec (PBFTProposal.index p) (PBFTConfig.m_expectedCheckPoint (P.m_config s)))
    as [Hi|]; simpl; [|constructor].
  apply wp_bind. eapply wp_mono; [apply getApplied_spec|].
  intros [[last|]|x] s1 es (-> & -> & Hlast); [|constructor..].
  specialize (Hlast last eq_refl).
  destruct (P.m_executingProposals s !! PBFTProposal.hash p) eqn:Ee.
  { apply wp_bind. simpl. apply steps_one, S_config. split; [apply on_timer_evolves|constructor]. }
  apply wp_bind. cbn [modify wp]. apply wp_bind. cbn [app].
  unfold P.applyStateMachine. apply wp_bind. apply wp_nothrow; [apply notifyToSealNextBlock_nothrow|].
  eapply wp_mono; [apply notifyToSealNextBlock_config|].
  intros [a|x] s2 es (c' & -> & Hc); simpl.
  - rewrite app_nil_r. apply steps_one. 
    apply (S_apply s p rest last c' es); [done|done| |done|done]. by rewrite Hi.
  - exact I.
Qed.

Lemma updateCommitQueue_steps p : respects any_fault steps (P.updateCommitQueue p).
Proof.
  unfold P.updateCommitQueue. apply respects_bind_get. intros s.
  destruct (P.m_executingProposals s !! PBFTProposal.hash p) eqn:Ee; [constructor|].
  apply wp_bind. unfold P.notifyMaxProposalIndex.
  assert (Hn : forall i, respects any_fault (fun s s' es => steps s s' es /\
    P.m_executingProposals s' = P.m_executingProposals s) (P.notifyMaxProposalIndex i)).
  { intros i s1. unfold P.notifyMaxProposalIndex. apply wp_bind. simpl.
    destruct (_ <? _); simpl; [|split; [constructor|done]].
    unfold P.notifyCommittedProposalIndex. apply wp_bind. simpl. apply wp_bind. simpl.
    destruct (P.m_committedProposalNotifier s1); simpl; (split; [|done]).
    - eapply (transition_trans (R := steps) _ _ _ []); [apply steps_one, S_notifyIndex|].
      apply steps_one, S_emit. by repeat constructor.
    - apply steps_one, S_notifyIndex. }
  eapply wp_mono; [apply (Hn (PBFTProposal.index p))|].
  intros [[]|x] s1 e1 [H1 Hex]; simpl; [|done].
  apply wp_bind. simpl. apply wp_bind. eapply wp_mono; [apply tryToApplyCommitQueue_steps|].
  assert (H2 : steps s1 (s1
    <| P.m_committedQueue := pq_push PBFTProposal.index p (P.m_committedQueue s1) |>
    <| P.m_committedProposalList :=
         {[ PBFTProposal.index p ]} ∪ P.m_committedProposalList s1 |>) []).
  { apply steps_one, S_enqueue. by rewrite Hex. }
  intros [b|x] s2 e2 H3; simpl; rewrite ?app_nil_r;
    (eapply (transition_trans (R := steps)); [exact H1|]);
    exact (transition_trans (R := steps) _ _ _ [] e2 H2 H3).
Qed.

Lemma commitPrecommit_steps i : respects any_fault steps (P.commitPrecommit i).
Proof. unfold P.commitPrecommit. eff_auto. apply updateCommitQueue_steps. Qed.

Lemma checkAndPreCommit_node : respects any_fault steps P.checkAndPreCommit.
Proof.
  unfold P.checkAndPreCommit. eff_auto; [|apply commitPrecommit_steps].
  apply on_cache_steps. auto with eff.
Qed.

Lemma eraseExecutedProposal_steps h : respects any_fault steps (P.eraseExecutedProposal h).
Proof. apply modify_steps. intros s. apply S_executing, delete_subseteq. Qed.

Lemma clearExpired_steps : respects any_fault steps P.clearExpiredExecutingProposal.
Proof.
  unfold P.clearExpiredExecutingProposal. eff_auto. apply modify_steps. intros s.
  apply S_executing, map_filter_subseteq.
Qed.

Lemma eraseCommittedProposalList_steps i :
  respects any_fault steps (P.eraseCommittedProposalList i).
Proof. apply modify_steps. constructor. Qed.

(** ** Loading proposals *)
Lemma loadAndVerifyProposal_steps from p r :
  respects any_fault steps (P.loadAndVerifyProposal from p r).
Proof. unfold P.loadAndVerifyProposal. eff_auto. apply config_steps. auto with eff. Qed.

Lemma initState_steps l from : respects any_fault steps (P.initState l from).
Proof. unfold P.initState. eff_auto. apply loadAndVerifyProposal_steps. Qed.

Lemma onProposalVerified_steps err ok from p r :
  respects any_fault steps (P.onProposalVerified err ok from p r).
Proof.
  assert (Hlow : respects any_fault steps (P.on_config (fun c =>
    let waterMark := Z.min (PBFTConfig.m_lowWaterMark c) (PBFTProposal.index p - 1) in
    let waterMark := Z.max waterMark (PBFTConfig.progressedIndex c) in
    c <| PBFTConfig.m_lowWaterMark := waterMark |>))).
  { apply on_config_steps. intros c.
    split; simpl; first [reflexivity | lia | by left | right; lia]. }
  unfold P.onProposalVerified.
  destruct err; [destruct ok|..]; eff_auto;
    first [exact Hlow | apply updateCommitQueue_steps | apply loadAndVerifyProposal_steps].
Qed.

(** ** Checkpoints *)
Lemma setExpected_spec i c :
  wp any_fault (PBFTConfig.setExpectedCheckPoint i c) (fun r c' es =>
    r = inl tt /\ es = [] /\ exists last, PBFTConfig.committedProposal c = Some last /\
    c' = c <| PBFTConfig.m_expectedCheckPoint := Z.max (PBFTProposal.index last + 1) i |>).
Proof.
  unfold PBFTConfig.setExpectedCheckPoint, PBFTConfig.committedIndex.
  cbv [mbind eff_bind asks modify mret eff_ret deref].
  destruct (PBFTConfig.committedProposal c) as [last|] eqn:E; simpl; [|exact I].
  split; [done|]. split; [done|]. by exists last.
Qed.

Lemma setExpected_steps i s :
  (rollback \/ PBFTConfig.m_expectedCheckPoint (P.m_config s) <= i) ->
  wp any_fault (zoom P.m_config (PBFTConfig.setExpectedCheckPoint i) s)
    (fun _ s' es => steps s s' es).
Proof.
  intros Hr. unfold zoom. pose proof (setExpected_spec i (P.m_config s)) as H.
  destruct (PBFTConfig.setExpectedCheckPoint i (P.m_config s)) as [[] c' es|x c' es|]; simpl in *;
    [|by destruct H|exact I].
  destruct H as (_ & -> & last & Hl & ->). apply steps_one.
  apply (S_setExpected s last); [done| |lia].
  destruct Hr; [by left|right; lia].
Qed.

(** A proposal becomes the checkpoint of its cache and the expected checkpoint moves
    past it: as both only depend on the committed proposal, the order is the same. *)
Lemma executed_steps p s :
  (rollback \/ PBFTConfig.m_expectedCheckPoint (P.m_config s) <= PBFTProposal.index p + 1) ->
  wp any_fault ((P.setCheckPointProposal p ;;
    zoom P.m_config (PBFTConfig.setExpectedCheckPoint (PBFTProposal.index p + 1))) s)
    (fun _ s' es => steps s s' es).
Proof.
  intros Hr. set (i := PBFTProposal.index p) in *.
  destruct (PBFTConfig.committedProposal (P.m_config s)) as [last|] eqn:El.
  2:{ apply wp_bind. unfold P.setCheckPointProposal, P.ensureCache, P.on_cache,
        C.setCheckPointProposal, C.committedIndex, PBFTConfig.committedIndex, zoom, mbind, eff_bind.
      simpl. fold i. destruct (P.m_caches s !! i) as [c|] eqn:Ec; simpl; rewrite ?Ec, ?lookup_insert_eq;
      simpl; rewrite El; exact I. }
  set (x := Z.max (PBFTProposal.index last + 1) (i + 1)).
  set (s1 := s <| P.m_config := (P.m_config s) <| PBFTConfig.m_expectedCheckPoint := x |> |>).
  assert (H1 : step s s1 []).
  { apply (S_setExpected s last x El); [destruct Hr; [by left|right; lia]|lia]. }
  assert (H2 : wp any_fault (P.setCheckPointProposal p s1) (fun _ s' es => steps s1 s' es)).
  { apply (ensure_on_cache i (C.setCheckPointProposal p) s1). intros c.
    apply setCheckPointProposal_steps. simpl. lia. }
  assert (El1 : PBFTConfig.committedProposal
    ((P.m_config s) <| PBFTConfig.m_expectedCheckPoint := x |>) = Some last) by exact El.
  assert (Hset : PBFTConfig.setExpectedCheckPoint (i + 1) (P.m_config s) =
    Done tt ((P.m_config s) <| PBFTConfig.m_expectedCheckPoint := x |>) []).
  { unfold PBFTConfig.setExpectedCheckPoint, PBFTConfig.committedIndex.
    cbv [mbind eff_bind asks modify mret eff_ret deref]. by rewrite El. }
  apply wp_bind. revert H2.
  unfold P.setCheckPointProposal, P.ensureCache, P.on_cache, C.setCheckPointProposal,
    C.committedIndex, PBFTConfig.committedIndex, zoom, mbind, eff_bind. simpl. fold i.
  destruct (P.m_caches s !! i) as [c|] eqn:Ec; simpl; rewrite ?Ec, ?lookup_insert_eq; simpl;
    rewrite El, El1; simpl; fold i.
  all: destruct (i <=? PBFTProposal.index last); simpl;
    [|destruct (i =? _); simpl]; rewrite ?Hset; simpl.
  all: intros H2; exact (star_step step s s1 _ [] [] H1 H2).
Qed.

Lemma dropCommitted_suffix n q l : (P.dropCommitted n q l).1 `suffix_of` q.
Proof.
  revert l. induction q as [|p q IH]; intros l; simpl; [done|].
  destruct (_ <=? _); [|done]. by apply suffix_cons_r.
Qed.

(** Steps that leave the caches and the configuration alone. *)
Record keeps_caches (s s' : P.t) (es : list Event) : Prop := {
  kc_steps : steps s s' es;
  kc_caches : P.m_caches s' = P.m_caches s;
  kc_config : P.m_config s' = P.m_config s
}.

#[local] Instance keeps_caches_transition : Transition keeps_caches.
Proof.
  split; [split; [apply transition_refl|done|done]|].
  intros s1 s2 s3 e1 e2 [H1 E1 C1] [H2 E2 C2]. split; [by eapply transition_trans|congruence..].
Qed.

Lemma keeps_one s s' es :
  step s s' es -> P.m_caches s' = P.m_caches s -> P.m_config s' = P.m_config s ->
  keeps_caches s s' es.
Proof. intros H E F. split; [by apply steps_one|done|done]. Qed.

Lemma tryToCommitStable_keeps : respects any_fault keeps_caches P.tryToCommitStableCheckPoint.
Proof.
  unfold P.tryToCommitStableCheckPoint, P.committedIndex, PBFTConfig.committedIndex.
  intros s. apply wp_bind. unfold zoom, mbind, eff_bind. simpl.
  destruct (PBFTConfig.committedProposal (P.m_config s)) as [last|] eqn:El; simpl; [|exact I].
  assert (s <| P.m_config := P.m_config s |> = s) as -> by by destruct s.
  pose proof (dropCommitted_suffix (PBFTProposal.index last) (P.m_stableCheckPointQueue s)
    (P.m_committedProposalList s)) as Hsuf.
  destruct (P.dropCommitted _ _ _) as [q l]. simpl in *.
  pose proof (S_stableDrop s q l Hsuf) as H1.
  set (s1 := s <| P.m_stableCheckPointQueue := q |> <| P.m_committedProposalList := l |>) in *.
  destruct q as [|p rest] eqn:Eq; simpl; [by apply keeps_one|].
  destruct (Z.eqb_spec (PBFTProposal.index p) (PBFTProposal.index last + 1)); simpl;
    [|by apply keeps_one].
  split; [|done|done]. apply (transition_trans (R := steps) _ s1 _ [] [_]); [by apply steps_one|].
  apply steps_one. by apply (S_commitStable s1 p rest _ last).
Qed.

(** A cache whose stable checkpoint is ready for the queue. *)
Definition sealed_at (s : P.t) (i : BlockNumber) : Prop :=
  exists c p, P.m_caches s !! i = Some c /\ sealed (P.m_config s) c p.

(** The check leaves the cache alone or makes its checkpoint stable. *)
Lemma checkStable_spec f :
  wp any_fault (C.checkAndCommitStableCheckPoint f) (fun r f' _ =>
    C.f_config f' = C.f_config f /\
    ((f' = f /\ r = inl false) \/ exists p, sealed (C.f_config f) (C.f_this f') p)).
Proof.
  unfold C.checkAndCommitStableCheckPoint. apply wp_bind. simpl.
  destruct (C.m_stableCommitted (C.f_this f)) eqn:Es; simpl; [by auto|].
  destruct (C.collectEnoughCheckpoint _ _) eqn:Ec; simpl; [|by auto].
  destruct (C.m_checkpointProposal (C.f_this f)) as [p|] eqn:Ep; [|exact I].
  cbn [deref]. apply wp_bind. simpl. apply wp_bind.
  pose proof (setSignatureList_pure p (C.m_checkpointCacheList (C.f_this f)) f) as Hp.
  destruct (C.setSignatureList _ _ f) as [p' f1 es|x f1 es|] eqn:Esig;
    [|by destruct Hp as (_ & _ & ? & ?)|exact I].
  destruct Hp as (-> & -> & _). simpl. apply wp_bind. simpl. apply wp_bind.
  unfold C.committedIndex, PBFTConfig.committedIndex, zoom, mbind, eff_bind. simpl.
  destruct (PBFTConfig.committedProposal (C.f_config f)) as [q|]; simpl; [|exact I].
  split; [done|]. right. exists p'. split; [done|]. split; [done|]. split.
  - destruct (setSignatureList_key _ _ _ _ _ _ Esig) as [_ Hh].
    unfold C.collectEnoughCheckpoint in *. simpl. rewrite Hh. by rewrite Ep in Ec.
  - simpl. by exists p, f.
Qed.

Lemma collectStable_spec l s :
  wp any_fault (P.collectStable l s) (fun r s' es => steps s s' es /\
    (forall i, sealed_at s i -> sealed_at s' i) /\
    (forall l', r = inl l' -> forall i, i ∈ l' -> sealed_at s' i)).
Proof.
  revert s. induction l as [|j l IH]; intros s; simpl.
  { split; [constructor|]. split; [done|]. intros l' [= <-] i Hi%elem_of_nil. done. }
  apply wp_bind. unfold P.on_cache.
  destruct (P.m_caches s !! j) as [c|] eqn:Ec; [|exact I].
  set (f := C.Frame (P.m_config s) c).
  pose proof (checkStable_spec f) as Ht.
  pose proof (checkAndCommitStableCheckPoint_steps f) as Hst.
  assert (Hput : forall f', C.f_config f' = C.f_config f ->
    (f' = f \/ exists p, sealed (C.f_config f) (C.f_this f') p) ->
    forall i, sealed_at s i -> sealed_at (put_frame s j f') i).
  { intros f' Hc Hf i (c' & p & Hc' & Hs'). unfold sealed_at. simpl. rewrite Hc.
    destruct (decide (i = j)) as [->|Hne]; [|by rewrite lookup_insert_ne by done; eauto].
    rewrite lookup_insert_eq. destruct Hf as [->|[p' Hp']]; [|by eauto].
    assert (c' = c) as -> by congruence. by exists c, p. }
  destruct (C.checkAndCommitStableCheckPoint f) as [b f' e1|x f' e1|]; simpl in *; [| |exact I].
  2:{ destruct Ht as [Hc Hf]. split; [by apply (frame_steps s j f)|].
      split; [|done]. apply (Hput f' Hc). destruct Hf as [[? _]|?]; auto. }
  destruct Ht as [Hc Hf].
  assert (H1 : steps s (put_frame s j f') e1) by by apply (frame_steps s j f).
  assert (Hmono : forall i, sealed_at s i -> sealed_at (put_frame s j f') i).
  { apply (Hput f' Hc). destruct Hf as [[? _]|?]; auto. }
  assert (Hb : b = true -> sealed_at (put_frame s j f') j).
  { intros ->. destruct Hf as [[_ ?]|[p Hp]]; [done|]. exists (C.f_this f'), p. simpl.
    rewrite lookup_insert_eq. split; [done|]. by rewrite Hc. }
  fold (put_frame s j f'). apply wp_bind. eapply wp_mono; [apply IH|].
  intros [l'|x] s2 e2 (H2 & Hmono2 & Hl'); simpl.
  - rewrite app_nil_r. split; [by eapply transition_trans|]. split; [eauto|].
    intros l'' [= <-] i Hi. destruct b; [|by eapply Hl'].
    apply elem_of_cons in Hi as [->|Hi]; [by apply Hmono2, Hb|by eapply Hl'].
  - split; [by eapply transition_trans|]. split; [eauto|done].
Qed.

Lemma pushStable_keeps s i c p :
  P.m_caches s !! i = Some c -> sealed (P.m_config s) c p ->
  wp any_fault (P.updateStableCheckPointQueue p s) (fun _ s' es => keeps_caches s s' es).
Proof.
  intros Hi Hs. unfold P.updateStableCheckPointQueue. apply wp_bind. simpl.
  eapply wp_mono; [apply tryToCommitStable_keeps|]. intros r s' es H.
  eapply (transition_trans (R := keeps_caches) _ _ _ []); [|exact H].
  apply keeps_one; [by apply (S_stablePush s i c p)|done|done].
Qed.

Lemma checkAndCommitStable_node : respects any_fault steps P.checkAndCommitStableCheckPoint.
Proof.
  unfold P.checkAndCommitStableCheckPoint. apply respects_bind_get. intros s.
  apply wp_bind. eapply wp_mono; [apply collectStable_spec|].
  intros [l|x] s1 e1 (H1 & _ & Hl); [|done]. specialize (Hl l eq_refl).
  enough (Hloop : forall l s, (forall i, i ∈ l -> sealed_at s i) ->
    wp any_fault (for_each l (fun index => s ← get;
      match P.m_caches s !! index ≫= C.m_checkpointProposal with
      | None => crash AssertFailed | Some p => P.updateStableCheckPointQueue p end) s)
      (fun _ s' es => steps s s' es)).
  { eapply wp_mono; [by apply Hloop|]. intros r s2 e2 H2. by eapply transition_trans. }
  clear. induction l as [|i l IH]; intros s Hl; [constructor|]. cbn [for_each].
  apply wp_bind. apply wp_bind. simpl.
  destruct (Hl i) as (c & p & Hc & Hs); [constructor|]. rewrite Hc. simpl.
  destruct (Hs) as (_ & -> & _).
  eapply wp_mono; [by apply (pushStable_keeps s i c p)|].
  intros [[]|x] s' es [H Hk Hcf]; simpl; [|done].
  eapply wp_mono; [apply IH|].
  - intros j Hj. unfold sealed_at. rewrite Hk, Hcf. apply Hl. by constructor.
  - intros r s2 e2 H2. by eapply transition_trans.
Qed.

Lemma tryToCommitStable_node : respects any_fault steps P.tryToCommitStableCheckPoint.
Proof. eapply respects_weaken; [apply tryToCommitStable_keeps|]. by intros s s' es []. Qed.

Lemma shouldRequestCheckPoint_steps m : respects any_fault steps (P.shouldRequestCheckPoint m).
Proof.
  unfold P.shouldRequestCheckPoint. eff_auto. apply modify_steps. constructor.
Qed.
End ProcessorRefinement.
