(* ===== verification/Growth.v ===== *)
(** Growth: what every step preserves - views, committed blocks and water marks only
    grow, and the invariants of single caches lift to the node. *)
From S2P Require Import Prelude Types Timer Validator Config Cache Processor LogSync Engine.
From S2P Require Import Quorum ConfigFacts CacheFacts Steps Node.

(** A property of states that every step preserves, and a property of the events of
    every step from such a state. *)
Lemma star_invariant {S E} (R : S -> S -> list E -> Prop) (I : S -> Prop) (Ev : E -> Prop)
    s s' es :
  (forall s s' es, I s -> R s s' es -> I s' /\ Forall Ev es) ->
  star R s s' es -> I s -> I s' /\ Forall Ev es.
Proof.
  intros H. induction 1 as [s|s1 s2 s3 e1 e2 H1 _ IH]; intros Hs; [by split|].
  destruct (H _ _ _ Hs H1) as [H2 E1]. destruct (IH H2) as [H3 E2].
  split; [done|]. by apply Forall_app.
Qed.

Section Growth.
Context `{Ext : Externals} `{Pol : Policy}.

(** * Views, committed blocks and water marks only grow *)
Lemma fstep_config f f' es : fstep f f' es -> evolves (C.f_config f) (C.f_config f').
Proof.
  destruct 1; simpl; try apply evolves_refl; try (step_fields; apply evolves_refl).
  - apply H.
  - precommit_fields. rewrite Hcfg. apply evolves_refl.
  - subst. apply evolves_refl.
Qed.

Lemma encodeHandled_config m s r s' :
  E.encodeHandled m s = Done r s' [] -> P.m_config s' = P.m_config s.
Proof.
  unfold E.encodeHandled, mbind, eff_bind. simpl.
  destruct (E.P.m_caches s !! _); simpl; by intros [= _ <-].
Qed.

Lemma addViewChangeReq_config v :
  respects any_fault (fun s s' _ => P.m_config s' = P.m_config s /\
    P.m_caches s' = P.m_caches s) (P.addViewChangeReq v).
Proof.
  assert (Transition (E := Event) (fun (s s' : P.t) _ => P.m_config s' = P.m_config s /\
    P.m_caches s' = P.m_caches s)).
  { split; [done|]. intros s1 s2 s3 e1 e2 [-> ->] [-> ->]. done. }
  unfold P.addViewChangeReq. eff_auto; by intros s.
Qed.

Lemma step_advances s s' es : step s s' es -> advances (P.m_config s) (P.m_config s') es.
Proof.
  destruct 1; simpl; try apply advances_refl; try (by apply evolves_advances, H).
  - apply evolves_advances. by apply (fstep_config _ _ _ H0).
  - rewrite (encodeHandled_config _ _ _ _ H). apply advances_refl.
  - by apply evolves_advances, H3.
  - pose proof (addViewChangeReq_config v s) as Hc. rewrite H in Hc. destruct Hc as [-> _].
    apply advances_refl.
  - by injection H as <-; apply advances_refl.
  - split; try apply Z.le_refl. intros []. split; [done| |done].
    unfold committed_index in *. simpl. change (PBFTConfig.committedProposal _) with
      (PBFTConfig.committedProposal (P.m_config s)). rewrite H. lia.
  - split; try apply Z.le_refl. intros []. by split.
  - pose proof (resetConfig_rises cfg synced (P.m_config s) H) as Ha. subst es.
    destruct (PBFTConfig.resetConfig cfg synced (P.m_config s)); simpl in *; [..|done];
      injection H1 as <-; apply Ha.
Qed.

Lemma steps_advance s s' es : steps s s' es -> advances (P.m_config s) (P.m_config s') es.
Proof.
  pose (T := fun s s' es => advances (P.m_config s) (P.m_config s') es).
  assert (Transition T).
  { split; [intros; apply advances_refl|]. intros s1 s2 s3 e1 e2.
    apply (transition_trans (R := advances)). }
  apply (star_lift step T). exact step_advances.
Qed.

(** * What a step does to the cache of one index *)
Definition on_messages (f : PBFTMessage.t -> PBFTMessage.t) (c : C.t) : C.t :=
  c <| C.m_prePrepare := f <$> C.m_prePrepare c |> <| C.m_precommit := f <$> C.m_precommit c |>.

Lemma encodeHandled_caches m s r s' :
  E.encodeHandled m s = Done r s' [] ->
  P.m_caches s' = P.m_caches s \/
  exists c f, P.m_caches s !! PBFTMessage.index m = Some c /\
    (forall p, f p = p \/ f p = PBFTMessage_encode (PBFTConfig.nodeID (P.m_config s)) p) /\
    P.m_caches s' = <[ PBFTMessage.index m := on_messages f c ]> (P.m_caches s).
Proof.
  unfold E.encodeHandled, mbind, eff_bind. simpl.
  destruct (P.m_caches s !! PBFTMessage.index m) as [c|] eqn:Ec; simpl; intros [= _ <-];
    [right|by left].
  eexists c, _. split; [done|]. split; [|reflexivity].
  intros p. simpl. destruct (E.same_message m p); [by right|by left].
Qed.

Inductive cache_change (c : PBFTConfig.t) (n : BlockNumber) (es : list Event) :
    option C.t -> PBFTConfig.t -> option C.t -> Prop :=
  | CC_same x c' : cache_change c n es x c' x
  | CC_create : cache_change c n es None c (Some (C.create c n))
  | CC_step this f :
      fstep (C.Frame c this) f es ->
      cache_change c n es (Some this) (C.f_config f) (Some (C.f_this f))
  | CC_prePrepare this m :
      PBFTMessage.index m = n -> acceptable c this m -> good m ->
      cache_change c n es (Some this) c (Some (this <| C.m_prePrepare := Some m |>))
  | CC_encode this f :
      (forall p, f p = p \/ f p = PBFTMessage_encode (PBFTConfig.nodeID c) p) ->
      cache_change c n es (Some this) c (Some (on_messages f this))
  | CC_remove this :
      (n <= committed_index c \/ C.m_stableCommitted this = true \/ rollback) ->
      cache_change c n es (Some this) c None.

Lemma cache_change_insert c c' n es i (m : gmap Z C.t) x :
  (i = n -> cache_change c n es (m !! n) c' (Some x)) ->
  cache_change c n es (m !! n) c' (<[ i := x ]> m !! n).
Proof.
  intros H. destruct (decide (i = n)) as [<-|Hne].
  - rewrite lookup_insert_eq. by apply H.
  - rewrite lookup_insert_ne by done. constructor.
Qed.

Lemma step_change s s' es n :
  step s s' es ->
  cache_change (P.m_config s) n es (P.m_caches s !! n) (P.m_config s') (P.m_caches s' !! n).
Proof.
  intros H. destruct H; simpl; try constructor.
  - apply cache_change_insert. intros <-. rewrite H. constructor.
  - apply cache_change_insert. intros <-. rewrite H. by econstructor.
  - apply cache_change_insert. intros <-. rewrite H. by constructor.
  - pose proof (encodeHandled_config _ _ _ _ H) as Ec.
    destruct (encodeHandled_caches _ _ _ _ H) as [->|(c & f & Hc & Hf & ->)]; [constructor|].
    rewrite Ec. apply cache_change_insert. intros <-. rewrite Hc. by constructor.
  - pose proof (addViewChangeReq_config v s) as Hc. rewrite H in Hc. destruct Hc as [_ ->].
    constructor.
  - injection H as <-. constructor.
  - rewrite map_lookup_filter. destruct (P.m_caches s !! n) as [c|] eqn:Ec; simpl; [|constructor].
    case_guard as Hg; [constructor|]. constructor. simpl in Hg.
    destruct (decide (n <= n0)); [left; lia|].
    right; left. destruct (C.m_stableCommitted c); [done|]. by destruct Hg.
  - destruct (decide (i = n)) as [<-|Hne].
    + rewrite lookup_delete_eq, H0. constructor. auto.
    + rewrite lookup_delete_ne by done. constructor.
Qed.

(** * Invariants of the caches

    A property of a cache, its index and the configuration that holds of every cache
    because the steps of caches preserve it.  [ok] is an invariant of the
    configuration, [ev] holds of the events, [related] is a relation that every step
    respects. *)
Class CacheInvariant (ok : PBFTConfig.t -> Prop) (ev : list Event -> Prop)
    (related : PBFTConfig.t -> PBFTConfig.t -> Prop)
    (I : PBFTConfig.t -> BlockNumber -> C.t -> Prop) : Prop := {
  ci_create : forall c i, I c i (C.create c i);
  ci_fstep : forall i f f' es, ok (C.f_config f) -> ev es -> fstep f f' es ->
    I (C.f_config f) i (C.f_this f) -> I (C.f_config f') i (C.f_this f');
  ci_prePrepare : forall c this m, ok c -> acceptable c this m -> good m ->
    I c (PBFTMessage.index m) this ->
    I c (PBFTMessage.index m) (this <| C.m_prePrepare := Some m |>);
  ci_encode : forall c i this f,
    (forall p, f p = p \/ f p = PBFTMessage_encode (PBFTConfig.nodeID c) p) ->
    I c i this -> I c i (on_messages f this);
  ci_config : forall c c' i this, related c c' -> I c i this -> I c' i this
}.

Definition all_caches (I : PBFTConfig.t -> BlockNumber -> C.t -> Prop) (s : P.t) : Prop :=
  forall i c, P.m_caches s !! i = Some c -> I (P.m_config s) i c.

Lemma step_cachewise ok ev related I (Inv : CacheInvariant ok ev related I) s s' es :
  ok (P.m_config s) -> ev es -> related (P.m_config s) (P.m_config s') ->
  step s s' es -> all_caches I s -> all_caches I s'.
Proof.
  intros Hok Hev Hr H Ha i c'. specialize (Ha i).
  pose proof (step_change _ _ _ i H) as Hch. revert Hch Hr Ha.
  generalize (P.m_caches s !! i), (P.m_config s'), (P.m_caches s' !! i).
  intros x c1 y Hch Hr Ha ->. destruct Inv as [Icreate Ifstep Ipre Ienc Icfg].
  inversion Hch; subst.
  - eapply Icfg; [exact Hr|]. by apply Ha.
  - apply Icreate.
  - apply (Ifstep i (C.Frame (P.m_config s) this) f es); [done..|]. by apply Ha.
  - apply Ipre; [done..|]. by apply Ha.
  - apply Ienc; [done|]. by apply Ha.
Qed.
End Growth.
