(* ===== verification/Refine.v ===== *)
(** Refine: the rest of the refinement - view changes, cleaning up, the timer and
    the handlers of the engine are sequences of the elementary steps of [Node]. *)
From S2P Require Import Prelude Types Timer Validator Config Cache Processor LogSync Engine.
From S2P Require Import Quorum ConfigFacts Steps Node Growth.

Section ViewChangeRefinement.
Context `{Ext : Externals} `{Pol : Policy}.

(** ** View-change requests *)

(** [addViewChangeReq] neither throws nor emits. *)
Definition silent (s s' : P.t) (es : list Event) : Prop := es = [].
#[local] Instance silent_transition : Transition silent.
Proof. split; [done|]. by intros s1 s2 s3 e1 e2 -> ->. Qed.

Lemma nothrow_for_each {A} (l : list A) (f : A -> Eff Event P.t unit) :
  (forall a, nothrow (f a)) -> nothrow (for_each l f).
Proof. intros H. induction l; simpl; [by intros ?|]. by apply nothrow_bind. Qed.

Lemma addViewChangeReq_silent v : respects any_fault silent (P.addViewChangeReq v).
Proof.
  unfold P.addViewChangeReq. eff_auto; by intros s.
Qed.

Lemma addViewChangeReq_nothrow v : nothrow (P.addViewChangeReq v).
Proof.
  unfold P.addViewChangeReq. nothrow_auto; apply nothrow_for_each; intros; nothrow_auto.
Qed.

Lemma addViewChangeReq_steps v : respects any_fault steps (P.addViewChangeReq v).
Proof.
  intros s. apply wp_nothrow; [apply addViewChangeReq_nothrow|].
  pose proof (addViewChangeReq_silent v s) as Hs.
  destruct (P.addViewChangeReq v s) as [[] s' es| |] eqn:E; simpl; [|done..].
  change (es = []) in Hs. rewrite Hs in *. by eapply steps_one, S_viewChange.
Qed.

Lemma removeInvalidViewChange_steps v n :
  respects any_fault steps (P.removeInvalidViewChange v n).
Proof. intros s. eapply steps_one, S_removeViewChange. reflexivity. Qed.

Lemma clearMax_steps : respects any_fault steps (modify (fun s => s
  <| P.m_maxPrecommitIndex := ∅ |> <| P.m_maxCommittedIndex := ∅ |>
  <| P.m_newViewGenerated := false |>)).
Proof. apply modify_steps. constructor. Qed.

Lemma prePrepareFor_steps c ps i : respects any_fault steps (P.prePrepareFor c ps i).
Proof. unfold P.prePrepareFor. eff_auto. Qed.

Lemma prePreparesFor_steps c ps l : respects any_fault steps (P.prePreparesFor c ps l).
Proof. induction l; simpl; eff_auto; apply prePrepareFor_steps. Qed.

Lemma generatePrePrepareMsg_steps l : respects any_fault steps (P.generatePrePrepareMsg l).
Proof. unfold P.generatePrePrepareMsg. eff_auto. apply prePreparesFor_steps. Qed.

Lemma checkAndTryIntoNewView_steps : respects any_fault steps P.checkAndTryIntoNewView.
Proof.
  unfold P.checkAndTryIntoNewView. eff_auto.
  all: try (apply config_steps; auto with eff).
  - apply generatePrePrepareMsg_steps.
  - by apply emit_steps.
  - apply modify_steps. constructor.
Qed.

Lemma fastViewChange_steps : respects any_fault steps P.tryToTriggerFastViewChange.
Proof.
  unfold P.tryToTriggerFastViewChange. eff_auto.
  apply on_config_steps. intros c. split; simpl; first [reflexivity | lia | by left].
Qed.

Lemma proofWeight_steps c p l w : respects any_fault steps (P.proofWeight c p l w).
Proof. revert w. induction l; simpl; intros w; eff_auto. Qed.

Lemma checkPrecommitMsg_steps m : respects any_fault steps (P.checkPrecommitMsg m).
Proof.
  unfold P.checkPrecommitMsg, P.checkPrecommitWeight. eff_auto. apply proofWeight_steps.
Qed.

(** ** Cleaning up *)
Lemma removeInvalidRecoverCache_steps v :
  respects any_fault steps (P.removeInvalidRecoverCache v).
Proof. intros s. apply steps_one. apply (S_recover s). Qed.

Lemma removeConsensusedCache_steps v n s :
  n <= committed_index (P.m_config s) ->
  wp any_fault (P.removeConsensusedCache v n s) (fun _ s' es => steps s s' es).
Proof.
  intros Hn. unfold P.removeConsensusedCache.
  apply steps_then; [by apply steps_one, S_removeCaches|]. intros _.
  eff_auto; [apply removeInvalidViewChange_steps|apply clearMax_steps].
Qed.

Lemma resetCacheAfterViewChange_steps v n :
  respects any_fault steps (P.resetCacheAfterViewChange v n).
Proof.
  unfold P.resetCacheAfterViewChange. eff_auto.
  - apply on_cache_steps. auto with eff.
  - apply clearMax_steps.
  - apply removeInvalidViewChange_steps.
  - apply removeInvalidRecoverCache_steps.
Qed.

Lemma removeFutureCache_steps n i :
  rollback -> respects any_fault steps (P.removeFutureCache n i).
Proof.
  intros Hroll. unfold P.removeFutureCache. apply respects_bind_get. intros s.
  destruct (P.m_caches s !! i) as [c|] eqn:Ec; [|constructor].
  destruct (C.m_checkpointProposal c) as [p|] eqn:Ep; [|constructor].
  destruct (_ <? n); [constructor|].
  assert (Hreset : respects any_fault config_only (match C.m_precommit c with
    | Some precommitMsg =>
        match PBFTMessage.consensusProposal precommitMsg with
        | Some p => when (PBFTMessage.index precommitMsg <? n)
            (P.resetTxsFlag (PBFTProposal.data p) false)
        | None => mret tt
        end
    | None => mret tt
    end)).
  { pose proof config_only_transition. eff_auto. apply zoom_config_only. auto with eff. }
  apply wp_bind. eapply wp_mono; [apply Hreset|].
  intros [[]|x] s1 e1 H1; [|by apply config_only_steps].
  apply wp_bind. simpl.
  assert (Hc : P.m_caches s1 !! i = Some c) by (destruct H1 as (c' & -> & _); exact Ec).
  apply config_only_steps in H1. eapply (transition_trans (R := steps)); [exact H1|].
  apply (transition_trans (R := steps) _ s1 _ [_] []).
  - apply steps_one, S_emit. by repeat constructor.
  - apply steps_one, (S_removeFuture s1 i c); [done|done|by eexists].
Qed.

Lemma removeFutureProposals_steps :
  rollback -> respects any_fault steps P.removeFutureProposals.
Proof.
  intros Hroll. unfold P.removeFutureProposals. eff_auto.
  - intros s. apply setExpected_steps. by left.
  - apply modify_steps. constructor.
  - by apply removeFutureCache_steps.
Qed.

(** ** View recovery *)
Lemma recover_modify_steps k w :
  respects any_fault steps (modify (fun s =>
    s <| P.m_recoverReqCache := k s |> <| P.m_recoverCacheWeight := w s |>)).
Proof. apply modify_steps. intros s. apply S_recover. Qed.

Lemma addRecoverReqCache_steps m : respects any_fault steps (P.addRecoverReqCache m).
Proof.
  unfold P.addRecoverReqCache. eff_auto.
  - eapply respects_weaken; [apply (recover_modify_steps _ P.m_recoverCacheWeight)|done].
  - eapply respects_weaken; [apply (recover_modify_steps P.m_recoverReqCache)|done].
Qed.

Lemma checkAndTryToRecover_steps : respects any_fault steps P.checkAndTryToRecover.
Proof.
  unfold P.checkAndTryToRecover. eff_auto.
  - apply on_config_steps. auto with evolves.
  - apply resetCacheAfterViewChange_steps.
  - apply modify_steps. intros s. apply S_recover.
Qed.

(** ** The timer *)
Context (handler : Eff Event P.t unit) (Hhandler : respects any_fault steps handler).

Lemma tryTriggerFastViewChange_steps fuel l :
  respects any_fault steps (PBFTConfig.tryTriggerFastViewChange P.m_config handler fuel l).
Proof using Hhandler.
  revert l. induction fuel as [|fuel IH]; intros l; cbn [PBFTConfig.tryTriggerFastViewChange];
    eff_auto.
  apply config_steps. auto with eff.
Qed.

Lemma anyInConsensus_steps l : respects any_fault steps (P.anyInConsensus l).
Proof.
  induction l; simpl; eff_auto. apply on_cache_steps. auto with eff.
Qed.

Lemma resetTimer_steps : respects any_fault steps (P.resetTimer handler).
Proof using Hhandler.
  unfold P.resetTimer. eff_auto.
  - apply anyInConsensus_steps.
  - apply on_config_steps. auto with evolves.
  - apply config_steps. auto with eff.
  - apply tryTriggerFastViewChange_steps.
Qed.

Lemma checkAndCommit_node : respects any_fault steps (P.checkAndCommit handler).
Proof using Hhandler.
  unfold P.checkAndCommit. eff_auto.
  - apply on_cache_steps. auto with eff.
  - apply commitPrecommit_steps.
  - apply on_config_steps. auto with evolves.
  - apply resetTimer_steps.
Qed.

Lemma onCheckPointTimeout_node i : respects any_fault steps (P.onCheckPointTimeout i).
Proof using Type.
  unfold P.onCheckPointTimeout. eff_auto. apply on_cache_steps, onCheckPointTimeout_steps.
  intros n. eff_auto. by apply emit_frame.
Qed.
End ViewChangeRefinement.

(** * The handlers of the engine *)
Section EngineRefinement.
Context `{Ext : Externals} `{Pol : Policy}.

Lemma broadcast_steps m : is_commit m = false -> respects any_fault steps (E.broadcast m).
Proof.
  intros H. unfold E.broadcast. apply respects_bind_get. intros s.
  apply steps_one, S_emit. repeat constructor. simpl. by rewrite H.
Qed.

Lemma isSyncingHigher_pure s :
  wp any_fault (E.isSyncingHigher s) (fun _ s' es => s' = s /\ es = []).
Proof.
  unfold E.isSyncingHigher, E.committedIndex, P.committedIndex, PBFTConfig.committedIndex.
  unfold zoom, mbind, eff_bind. simpl.
  destruct (PBFTConfig.committedProposal (P.m_config s)); simpl; [|exact I].
  by destruct s.
Qed.

Lemma leaderIndex_pure i s :
  wp any_fault (zoom P.m_config (PBFTConfig.leaderIndex i) s) (fun _ s' es => s' = s /\ es = []).
Proof.
  unfold PBFTConfig.leaderIndex, PBFTConfig.leader_of, zoom, mbind, eff_bind. simpl.
  destruct (_ || _); simpl; [exact I|]. by destruct s.
Qed.

(** ** Pre-prepares *)

(** What [checkPrePrepareMsg] checks before a pre-prepare is accepted. *)
Definition new_cache (s : P.t) (i : BlockNumber) : C.t :=
  default (C.create (P.m_config s) i) (P.m_caches s !! i).

Lemma checkPrePrepareMsg_acceptable s m :
  E.checkPrePrepareMsg s m = VALID ->
  acceptable (P.m_config s) (new_cache s (PBFTMessage.index m)) m.
Proof.
  unfold E.checkPrePrepareMsg, E.checkPBFTMsgState, E.config_of, new_cache,
    P.existPrePrepare, P.conflictWithProcessedReq, P.conflictWithPrecommitReq.
  destruct (PBFTMessage.consensusProposal m) as [p|] eqn:Ep; [|done].
  destruct (Z.ltb_spec (PBFTMessage.index m) (PBFTConfig.m_lowWaterMark (P.m_config s))); [done|].
  destruct (Z.ltb_spec (PBFTMessage.index m) (PBFTConfig.m_expectedCheckPoint (P.m_config s)));
    [done|].
  destruct (PBFTConfig.highWaterMark _ <=? _); [done|].
  destruct (_ <=? PBFTConfig.syncingHighestNumber _); [done|]. simpl.
  destruct (Z.ltb_spec (PBFTMessage.view m) (PBFTConfig.m_view (P.m_config s))); [done|].
  destruct (P.m_caches s !! PBFTMessage.index m) as [c|] eqn:Ec; simpl.
  2:{ intros _. split; simpl; by eauto. }
  destruct (C.existPrePrepare c m) eqn:Eex; [done|].
  destruct (C.conflictWithProcessedReq _ _ _) eqn:Epr; [done|].
  destruct (C.conflictWithPrecommitReq _ _ _) eqn:Epc; [done|]. intros _.
  split; [by eexists|lia|lia|lia|..].
  - intros q Hq. revert Eex Epr. unfold C.existPrePrepare, C.conflictWithProcessedReq.
    rewrite Hq. destruct (Z.ltb_spec (PBFTMessage.view m) (PBFTConfig.m_view (P.m_config s))); [lia|].
    destruct (Z.ltb_spec (PBFTMessage.view m) (PBFTMessage.view q)); [done|].
    destruct (Z.eqb_spec (PBFTMessage.view m) (PBFTMessage.view q)) as [Hv|]; [|intros; lia].
    destruct (Z.eqb_spec (PBFTMessage.hash m) (PBFTMessage.hash q)); [|done].
    by rewrite Hv, Z.leb_refl.
  - intros p' Hp' Hprog Hi. revert Epc. unfold C.conflictWithPrecommitReq. rewrite Hp'.
    destruct (Z.ltb_spec (PBFTMessage.index p') (PBFTConfig.progressedIndex (P.m_config s))); [lia|].
    rewrite Hi, Z.eqb_refl. simpl.
    by destruct (Z.eqb_spec (PBFTMessage.hash m) (PBFTMessage.hash p')).
Qed.

Lemma cache_addPrePrepare_cases m f :
  wp any_fault (C.addPrePrepareCache m f) (fun r f' es => r = inl tt /\ es = [] /\
    (f' = f \/ f' = f <| C.f_this := (C.f_this f) <| C.m_prePrepare := Some m |> |>)).
Proof.
  unfold C.addPrePrepareCache. apply wp_bind. simpl.
  destruct (C.m_stableCommitted _); [simpl; by auto 6|].
  destruct (C.m_checkpointProposal _); [destruct (C.m_prePrepare _) as [q|]|];
    apply wp_bind; simpl;
    try (apply wp_bind; simpl; apply wp_log; [by left|simpl; by auto 6]).
  unfold mbind, eff_bind.
  destruct (PBFTMessage.consensusProposal m); simpl; [|exact I].
  destruct (PBFTMessage.consensusProposal q); simpl; [|exact I].
  destruct (negb _); simpl; [|destruct (logged INFO); simpl]; auto 6.
Qed.

Lemma addPrePrepareCache_steps s m :
  good m -> acceptable (P.m_config s) (new_cache s (PBFTMessage.index m)) m ->
  wp any_fault (P.addPrePrepareCache m s) (fun _ s' es => steps s s' es).
Proof.
  intros Hgood Hacc. unfold P.addPrePrepareCache, P.addCache. apply wp_bind. apply wp_bind.
  set (i := PBFTMessage.index m) in *.
  set (s1 := s <| P.m_caches := <[ i := new_cache s i ]> (P.m_caches s) |>).
  assert (H1 : P.ensureCache i s = Done tt s1 [] /\ steps s s1 []).
  { unfold P.ensureCache, s1, new_cache, mbind, eff_bind. simpl.
    destruct (P.m_caches s !! i) as [c|] eqn:Ec; simpl.
    - rewrite insert_id by done. destruct s. split; [done|constructor].
    - split; [done|]. by apply steps_one, S_create. }
  destruct H1 as [-> H1]. cbn [wp app].
  assert (Hc : P.m_caches s1 !! i = Some (new_cache s i)) by apply lookup_insert_eq.
  unfold P.on_cache. rewrite Hc.
  pose proof (cache_addPrePrepare_cases m (C.Frame (P.m_config s1) (new_cache s i))) as Hf.
  destruct (C.addPrePrepareCache m _) as [[] f es|x f es|]; [|by destruct Hf|exact I].
  destruct Hf as (_ & -> & Hf). cbn [wp app].
  assert (H2 : steps s1 (put_frame s1 i f) []).
  { destruct Hf as [->| ->].
    - assert (put_frame s1 i (C.Frame (P.m_config s1) (new_cache s i)) = s1) as ->; [|constructor].
      unfold put_frame. simpl. by rewrite insert_insert_eq.
    - apply steps_one. apply (S_prePrepare s1 (new_cache s i) m); done. }
  fold (put_frame s1 i f).
  eapply wp_mono; [apply notifyMaxProposalIndex_steps|]. intros r s' es H3.
  exact (transition_trans (R := steps) _ _ _ [] es H1
    (transition_trans (R := steps) _ _ _ [] es H2 H3)).
Qed.

(** The messages that this node signs about a proposal are votes. *)
Lemma own_vote c c' ty v w ts p :
  PBFTConfig.base c' = PBFTConfig.base c ->
  vote c' (PBFTMessage_encode (PBFTConfig.nodeID c)
    (populateSigned ty v w ts (PBFTConfig.nodeIndex c) p (PBFTConfig.nodeID c) true)).
Proof.
  intros Hb. eapply vote_own; unfold PBFTConfig.nodeIndex, PBFTConfig.nodeID; rewrite ?Hb;
    [apply u64_i64|reflexivity..].
Qed.

Lemma own_vote_at c ty v w ts p i :
  vote c (PBFTMessage_encode (PBFTConfig.nodeID c) (PBFTMessage.setIndex i
    (populateSigned ty v w ts (PBFTConfig.nodeIndex c) p (PBFTConfig.nodeID c) true))).
Proof. eapply vote_own; [apply u64_i64|reflexivity..]. Qed.

Lemma broadcastPrepareMsg_steps m : respects any_fault steps (E.broadcastPrepareMsg m).
Proof.
  unfold E.broadcastPrepareMsg. apply respects_bind_get. intros s. apply wp_bind.
  destruct (PBFTMessage.consensusProposal m) as [p|]; [|exact I]. cbn [deref mret eff_ret wp app].
  apply steps_then; [apply addPrepareCache_node, own_vote_at|].
  intros _. eff_auto; [by apply broadcast_steps|apply checkAndPreCommit_node].
Qed.

(** Marking transactions leaves the rest of the configuration alone. *)
Lemma resetTxsFlag_validator d b s :
  wp any_fault (P.resetTxsFlag d b s) (fun _ s' es =>
    exists v, s' = s <| P.m_config := (P.m_config s) <| PBFTConfig.m_validator := v |> |>).
Proof.
  unfold P.resetTxsFlag, zoom.
  destruct (TxsValidator.asyncResetTxsFlag d b _) as [a v es|x v es|]; simpl; [..|exact I];
    by exists v.
Qed.

Lemma acceptPrePrepare_steps s m :
  good m -> acceptable (P.m_config s) (new_cache s (PBFTMessage.index m)) m ->
  wp any_fault (E.acceptPrePrepare m s) (fun _ s' es => steps s s' es).
Proof.
  intros Hgood Hacc. unfold E.acceptPrePrepare.
  destruct (acc_proposal _ _ _ Hacc) as [p Hp]. rewrite Hp. apply wp_bind. simpl. apply wp_bind.
  eapply wp_mono; [apply wp_both; [apply resetTxsFlag_steps|apply resetTxsFlag_validator]|].
  intros [[]|x] s1 e1 [H1 [v ->]]; [|exact H1].
  apply wp_bind. eapply wp_mono; [apply addPrePrepareCache_steps; [exact Hgood|]|].
  { destruct Hacc. unfold new_cache in *. simpl in *.
    destruct (P.m_caches s !! PBFTMessage.index m); by split. }
  intros [[]|x] s2 e2 H2; [|by eapply transition_trans].
  assert (Hrest : respects any_fault steps
    (P.on_timer PBFTTimer.restart ;; E.broadcastPrepareMsg m ;; P.checkAndPreCommit)).
  { eff_auto; [apply broadcastPrepareMsg_steps|apply checkAndPreCommit_node]. }
  eapply wp_mono; [apply Hrest|]. intros r s3 e3 H3. simpl.
  eapply transition_trans; [exact H1|]. by eapply transition_trans.
Qed.

Lemma handlePrePrepareMsg_steps m v n g :
  good m -> respects any_fault steps (E.handlePrePrepareMsg m v n g).
Proof.
  intros Hgood. unfold E.handlePrePrepareMsg. intros s. apply wp_bind.
  eapply wp_mono; [apply isSyncingHigher_pure|]. intros [b|x] s' es [-> ->]; [|constructor].
  apply wp_bind. simpl. destruct b; [constructor|]. case_bool_decide; [constructor|].
  destruct (E.checkPrePrepareMsg s m) eqn:Echeck; [|constructor].
  apply checkPrePrepareMsg_acceptable in Echeck.
  assert (Hrest : forall accepted : bool, wp any_fault
    ((if negb accepted then mret false
      else if negb v then E.acceptPrePrepare m ;; mret true
      else match PBFTConfig.getConsensusNodeByIndex (E.config_of s)
                   (PBFTMessage.generatedFrom m) with
           | None => mret false
           | Some leaderNodeInfo =>
               proposal ← deref (PBFTMessage.consensusProposal m);
               zoom P.m_config (zoom PBFTConfig.m_validator
                 (TxsValidator.verifyProposal (Some (ConsensusNode.nodeID leaderNodeInfo)) proposal
                   (OnPrePrepareVerified m n))) ;;
               mret true
           end) s) (fun _ s' es => steps s s' es)).
  { intros []; simpl; [|constructor]. destruct v; simpl.
    - destruct (PBFTConfig.getConsensusNodeByIndex _ _); [|constructor].
      match goal with |- wp _ (?k s) _ => enough (respects any_fault steps k) as Hk by apply Hk end.
      eff_auto. apply config_steps. auto with eff.
    - apply wp_bind. eapply wp_mono; [by apply acceptPrePrepare_steps|].
      intros [[]|x] s1 e1 H1; simpl; rewrite ?app_nil_r; exact H1. }
  destruct n; [apply wp_bind; apply (Hrest true)|].
  apply wp_bind. apply wp_bind. eapply wp_mono; [apply leaderIndex_pure|].
  intros [l|x] s' es [-> ->]; [|constructor].
  destruct (negb (l =? _)); [simpl; apply (Hrest false)|].
  destruct g; [|apply (Hrest true)].
  destruct (E.checkSignature _ _); [apply (Hrest true)|].
  apply wp_bind. eapply wp_mono; [apply config_steps; by auto with eff|].
  intros [[]|x] s1 e1 H1; simpl; rewrite ?app_nil_r; exact H1.
Qed.

Lemma isSyncingHigher_steps : respects any_fault steps E.isSyncingHigher.
Proof.
  intros s. eapply wp_mono; [apply isSyncingHigher_pure|]. intros r s' es [-> ->]. constructor.
Qed.

(** Lifting a computation of the configuration. *)
Lemma config_zoom_steps {A} (m : Eff Event PBFTConfig.t A) :
  respects any_fault config_step m -> respects any_fault steps (zoom E.P.m_config m).
Proof. apply config_steps. Qed.

Ltac engine_auto :=
  eff_auto;
  try first
    [ apply config_zoom_steps; by auto with eff
    | apply handlePrePrepareMsg_steps; by auto using good_own
    | apply committedIndex_steps
    | apply isSyncingHigher_steps
    | apply checkAndPreCommit_node
    | apply tryToApplyCommitQueue_steps
    | apply updateCommitQueue_steps
    | apply eraseExecutedProposal_steps
    | apply resetTxsFlag_steps
    | apply emit_steps; reflexivity
    | apply broadcast_steps; reflexivity ].

Lemma onPrePrepareVerified_steps e v m g :
  good m -> respects any_fault steps (E.onPrePrepareVerified e v m g).
Proof. intros Hgood. unfold E.onPrePrepareVerified. engine_auto. Qed.

Lemma resetSealedTxs_steps m : respects any_fault steps (E.resetSealedTxs m).
Proof. unfold E.resetSealedTxs. engine_auto. Qed.

Lemma encodeHandled_spec m s :
  exists r s', E.encodeHandled m s = Done r s' [] /\
    PBFTMessage.packetType r = PBFTMessage.packetType m.
Proof.
  unfold E.encodeHandled, mbind, eff_bind. simpl.
  destruct (E.P.m_caches s !! PBFTMessage.index m) as [c|]; simpl; [|by do 2 eexists].
  do 2 eexists. split; [reflexivity|].
  destruct (PBFTCache.m_prePrepare c) as [p|]; [|done].
  destruct (E.same_message m p) eqn:Es; [|done].
  do 3 apply andb_prop in Es as [Es _].
  by apply bool_decide_eq_true in Es.
Qed.

(** The leader's own pre-prepare is encoded and broadcast. *)
Lemma encodeHandled_broadcast_steps m :
  PBFTMessage.packetType m = PrePreparePacket ->
  respects any_fault steps (encoded ← E.encodeHandled m; E.broadcast (MPBFT encoded)).
Proof.
  intros Hm s. apply wp_bind. destruct (encodeHandled_spec m s) as (r & s' & E & Hr).
  rewrite E. cbn [wp app]. eapply wp_mono; [apply broadcast_steps|].
  - simpl. rewrite Hr, Hm. reflexivity.
  - intros r' s2 es H. apply (transition_trans (R := steps) _ s' _ [] es); [|exact H].
    by eapply steps_one, S_encode.
Qed.

Lemma onRecvProposal_steps sys d i h : respects any_fault steps (E.onRecvProposal sys d i h).
Proof.
  pose proof (fun m H => encodeHandled_broadcast_steps m H) as Hsend.
  unfold E.onRecvProposal. engine_auto; apply resetSealedTxs_steps.
Qed.

Lemma handlePrepareMsg_steps m : good m -> respects any_fault steps (E.handlePrepareMsg m).
Proof.
  intros Hm. unfold E.handlePrepareMsg. apply respects_bind_get. intros s.
  destruct (E.checkPBFTMsg s m); [|constructor].
  destruct (E.checkProposalSignature _ _ _) eqn:Hs; [|constructor]. simpl.
  apply steps_then; [apply addPrepareCache_node; by constructor|]. intros _. engine_auto.
Qed.

(** ** View changes *)
Lemma reachNewView_steps v : respects any_fault steps (E.reachNewView v).
Proof.
  unfold E.reachNewView. engine_auto; [|apply resetCacheAfterViewChange_steps].
  apply on_config_steps. auto with evolves.
Qed.

Lemma tryToFillProposal_steps m : respects any_fault steps (P.tryToFillProposal m).
Proof. unfold P.tryToFillProposal. eff_auto. Qed.

Lemma tryToFillProposal_good m :
  good m -> returns (P.tryToFillProposal m) (fun r => forall m', r = Some m' -> good m').
Proof.
  intros Hgood. unfold P.tryToFillProposal. eapply returns_bind; [apply returns_any|].
  intros s _. destruct (_ ≫= _) as [p|]; [|by apply returns_ret].
  destruct (_ && _); [|by apply returns_ret].
  eapply returns_bind; [apply returns_any|]. intros pr _.
  eapply (returns_bind _ _ (fun q => PBFTMessage.consensusProposal m = Some q));
    [by apply returns_deref|]. intros q Hq. apply returns_ret. intros m' [= <-].
  by apply good_fill.
Qed.

Lemma reHandlePrePrepare_steps m :
  good m -> respects any_fault steps (E.reHandlePrePrepare m).
Proof.
  intros Hgood. unfold E.reHandlePrePrepare, PBFTLogSync.requestPrecommitData,
    PBFTLogSync.requestPBFTData.
  apply respects_bind; [apply _|eff_auto|intros p].
  destruct (negb _); [engine_auto|].
  eapply respects_bind_returns; [apply _|apply tryToFillProposal_steps|
    by apply tryToFillProposal_good|].
  intros [m'|] Hm'; [specialize (Hm' m' eq_refl)|]; engine_auto.
Qed.

Definition good_newView (m : NewViewMsg.t) : Prop := Forall good (NewViewMsg.prePrepareList m).

Lemma reHandlePrePrepareProposals_steps m :
  good_newView m -> respects any_fault steps (E.reHandlePrePrepareProposals m).
Proof.
  intros Hgood. unfold E.reHandlePrePrepareProposals. engine_auto.
  - apply reachNewView_steps.
  - apply reHandlePrePrepare_steps. by apply (proj1 (list.Forall_forall _ _) Hgood).
  - apply on_config_steps. intros c. split; simpl; first [reflexivity | lia | by left].
Qed.

Lemma generateViewChange_steps : respects any_fault steps E.generateViewChange.
Proof. unfold E.generateViewChange. engine_auto. Qed.

(** Entering a new view: afterwards the view is at least that of the message. *)
Lemma reHandlePrePrepareProposals_enters m s :
  good_newView m ->
  wp any_fault (E.reHandlePrePrepareProposals m s) (fun _ s' _ =>
    NewViewMsg.view m <= PBFTConfig.m_view (P.m_config s')).
Proof.
  intros Hgood.
  assert (Hview : forall c, NewViewMsg.view m <= PBFTConfig.m_view
    (PBFTConfig.resetNewViewState (NewViewMsg.view m) c)).
  { intros c. unfold PBFTConfig.resetNewViewState.
    destruct (Z.ltb_spec (NewViewMsg.view m) (PBFTConfig.m_view c)); simpl; lia. }
  assert (Hstay : forall A (k : Eff Event P.t A) s0, respects any_fault steps k ->
    NewViewMsg.view m <= PBFTConfig.m_view (P.m_config s0) ->
    wp any_fault (k s0) (fun _ s' _ => NewViewMsg.view m <= PBFTConfig.m_view (P.m_config s'))).
  { intros A k s0 Hk H0. eapply wp_respects; [exact Hk|]. intros _ s' es Hst%steps_advance.
    pose proof (adv_view _ _ _ Hst). lia. }
  unfold E.reHandlePrePrepareProposals. apply wp_bind. unfold E.reachNewView. apply wp_bind. simpl.
  eapply wp_mono; [apply Hstay; [|apply Hview]|].
  { engine_auto. apply resetCacheAfterViewChange_steps. }
  intros [[]|x] s1 e1 H1; [|exact H1]. apply Hstay; [|exact H1]. engine_auto.
  - by apply reHandlePrePrepare_steps, (proj1 (list.Forall_forall _ _) Hgood).
  - apply on_config_steps. intros c. split; simpl; first [reflexivity | lia | by left].
Qed.

(** A new view that the node generates carries good pre-prepares. *)
Lemma prePreparesFor_good c ps l :
  returns (P.prePreparesFor c ps l) (Forall good).
Proof.
  induction l as [|i l IH]; simpl; [by apply returns_ret|].
  eapply (returns_bind _ _ good).
  - unfold P.prePrepareFor. eapply returns_bind; [apply returns_any|]. intros [p g] _.
    apply returns_ret, good_own.
  - intros m Hm. eapply returns_bind; [exact IH|]. intros ms Hms. apply returns_ret. by constructor.
Qed.

Lemma checkAndTryIntoNewView_good :
  returns P.checkAndTryIntoNewView (fun r => forall m, r = Some m -> good_newView m).
Proof.
  unfold P.checkAndTryIntoNewView. eapply returns_bind; [apply returns_any|]. intros n _.
  eapply returns_bind; [apply returns_any|]. intros s _.
  destruct (_ <? _); [by apply returns_ret|].
  eapply returns_bind; [apply returns_any|]. intros [] _; [by apply returns_ret|].
  destruct (P.m_viewChangeWeight s !! _); [|by apply returns_ret].
  destruct (_ <? _); [by apply returns_ret|].
  eapply returns_bind; [apply returns_any|]. intros p _.
  eapply (returns_bind _ _ (Forall good)).
  { unfold P.generatePrePrepareMsg. do 2 (eapply returns_bind; [apply returns_any|]; intros ? _).
    apply prePreparesFor_good. }
  intros l Hl. do 2 (eapply returns_bind; [apply returns_any|]; intros ? _).
  apply returns_ret. intros m [= <-]. unfold good_newView. simpl.
  apply Forall_fmap. eapply list.Forall_impl; [exact Hl|]. intros q Hq. by apply good_encoded.
Qed.

Lemma tryIntoNewView_steps {A} (k : option NewViewMsg.t -> Eff Event P.t A) :
  respects any_fault steps (k None) ->
  (forall m, good_newView m -> respects any_fault steps (k (Some m))) ->
  respects any_fault steps (P.checkAndTryIntoNewView ≫= k).
Proof.
  intros Hnone Hsome. eapply respects_bind_returns; [apply _|apply checkAndTryIntoNewView_steps|
    apply checkAndTryIntoNewView_good|].
  intros [m|] Hm; [|exact Hnone]. by apply Hsome, Hm.
Qed.

Lemma collectOwnViewChange_steps v : respects any_fault steps (E.collectOwnViewChange v).
Proof.
  unfold E.collectOwnViewChange.
  apply respects_bind; [apply _|apply addViewChangeReq_steps|intros _].
  apply tryIntoNewView_steps; [apply respects_ret, _|]. apply reHandlePrePrepareProposals_steps.
Qed.

Lemma sendViewChange_steps n : respects any_fault steps (E.sendViewChange n).
Proof.
  unfold E.sendViewChange. engine_auto; [apply generateViewChange_steps|].
  apply collectOwnViewChange_steps.
Qed.

Lemma broadcastViewChangeReq_steps : respects any_fault steps E.broadcastViewChangeReq.
Proof.
  unfold E.broadcastViewChangeReq. engine_auto; [apply generateViewChange_steps|].
  apply collectOwnViewChange_steps.
Qed.

Lemma sendRecoverResponse_steps n : respects any_fault steps (E.sendRecoverResponse n).
Proof. unfold E.sendRecoverResponse. engine_auto. Qed.

Lemma triggerTimeout_steps b : respects any_fault steps (E.triggerTimeout b).
Proof.
  unfold E.triggerTimeout. engine_auto.
  - apply on_config_steps. auto with evolves.
  - apply removeInvalidViewChange_steps.
  - apply notifyCommittedProposalIndex_steps.
  - apply broadcastViewChangeReq_steps.
Qed.

Lemma checkPrepared_steps l : respects any_fault steps (E.checkPrepared l).
Proof. induction l; simpl; engine_auto. apply checkPrecommitMsg_steps. Qed.

Lemma isValidViewChangeMsg_steps n v b :
  respects any_fault steps (E.isValidViewChangeMsg n v b).
Proof.
  unfold E.isValidViewChangeMsg. engine_auto.
  - apply sendViewChange_steps.
  - apply sendRecoverResponse_steps.
  - apply checkPrepared_steps.
Qed.

Lemma handleViewChangeMsg_steps v : respects any_fault steps (E.handleViewChangeMsg v).
Proof.
  unfold E.handleViewChangeMsg.
  apply respects_bind; [apply _|apply isValidViewChangeMsg_steps|intros valid].
  destruct (negb valid); [apply respects_ret, _|].
  apply respects_bind; [apply _|apply addViewChangeReq_steps|intros _].
  apply respects_bind; [apply _|engine_auto|intros leader].
  apply respects_bind; [apply _| |intros _].
  { engine_auto; [apply fastViewChange_steps|apply triggerTimeout_steps]. }
  apply tryIntoNewView_steps; [apply respects_ret, _|]. intros m Hm.
  apply respects_bind; [apply _|by apply reHandlePrePrepareProposals_steps|intros _].
  apply respects_ret, _.
Qed.

Lemma viewChangeWeight_steps n l w : respects any_fault steps (E.viewChangeWeight n l w).
Proof.
  revert w. induction l; simpl; intros w; engine_auto. apply isValidViewChangeMsg_steps.
Qed.

Lemma handleNewViewMsg_steps m :
  good_newView m -> respects any_fault steps (E.handleNewViewMsg m).
Proof.
  intros Hgood. unfold E.handleNewViewMsg, E.isValidNewViewMsg. engine_auto.
  - apply viewChangeWeight_steps.
  - by apply reHandlePrePrepareProposals_steps.
Qed.

(** ** Commit and checkpoint messages *)
Lemma handleCommitMsg_steps m :
  good m -> PBFTMessage.packetType m = CommitPacket ->
  respects any_fault steps (E.handleCommitMsg m).
Proof.
  intros Hm Ht. unfold E.handleCommitMsg. engine_auto; [by apply addCommitReq_node|].
  apply checkAndCommit_node, triggerTimeout_steps.
Qed.

Lemma handleCheckPointMsg_steps m : good m -> respects any_fault steps (E.handleCheckPointMsg m).
Proof.
  intros Hm. unfold E.handleCheckPointMsg, PBFTLogSync.requestCommittedProposals,
    PBFTLogSync.requestPBFTData.
  apply respects_bind; [apply _|apply committedIndex_steps|intros n].
  destruct (_ <=? n); [apply respects_ret, _|].
  apply respects_bind; [apply _|apply isSyncingHigher_steps|intros syncing].
  apply respects_bind_get. intros s. destruct syncing; [constructor|].
  destruct (E.checkSignature _ _); [|constructor].
  destruct (E.checkProposalSignature _ _ _) eqn:Hs; [|constructor]. simpl.
  apply steps_then; [apply addCheckPointMsg_node; by constructor|]. intros _.
  engine_auto; [apply checkAndCommitStable_node|apply shouldRequestCheckPoint_steps].
Qed.

Lemma handleRecoverResponse_steps m : respects any_fault steps (E.handleRecoverResponse m).
Proof.
  unfold E.handleRecoverResponse. engine_auto; [apply addRecoverReqCache_steps|].
  apply checkAndTryToRecover_steps.
Qed.

Lemma handleRecoverRequest_steps m : respects any_fault steps (E.handleRecoverRequest m).
Proof. unfold E.handleRecoverRequest. engine_auto. apply sendRecoverResponse_steps. Qed.

(** The pre-prepares that a packet asks the node to accept are good. *)
Definition good_msg (m : Msg) : Prop :=
  match m with MPBFT m => good m | MNewView m => good_newView m | _ => True end.

Lemma handleMsg_steps m : good_msg m -> respects any_fault steps (E.handleMsg m).
Proof.
  intros Hgood. unfold E.handleMsg, E.ignore. engine_auto; subst; simpl in Hgood;
    try (by apply handlePrePrepareMsg_steps).
  all: first [ by apply handlePrepareMsg_steps | by apply handleCommitMsg_steps
    | apply handleViewChangeMsg_steps | by apply handleNewViewMsg_steps
    | by apply handleCheckPointMsg_steps | apply handleRecoverRequest_steps
    | apply handleRecoverResponse_steps ].
Qed.

(** ** Time-outs, execution, committed blocks *)
Lemma onTimeout_steps : respects any_fault steps E.onTimeout.
Proof.
  unfold E.onTimeout. engine_auto; [apply clearExpired_steps|apply triggerTimeout_steps].
Qed.

Lemma onProposalApplyFailed_steps p :
  rollback -> respects any_fault steps (E.onProposalApplyFailed p).
Proof.
  intros Hroll. unfold E.onProposalApplyFailed. engine_auto.
  intros s. apply setExpected_steps. by left.
Qed.

Lemma emit_calm e : plain e = true -> respects any_fault calm (emit e).
Proof. intros H s. split; [by apply emit_steps|done]. Qed.

Lemma onProposalApplySuccess_steps p q s :
  (rollback \/ PBFTConfig.m_expectedCheckPoint (P.m_config s) <= PBFTProposal.index q + 1) ->
  wp any_fault (E.onProposalApplySuccess p q s) (fun _ s' es => steps s s' es).
Proof.
  intros Hr. unfold E.onProposalApplySuccess.
  apply (calm_then (P.m_config s)); [by apply emit_calm|done|intros _ s0 H0].
  apply wp_bind. cbn [get wp app].
  apply (calm_then (P.m_config s)); [|exact H0|intros _ s1 H1].
  { refine ((_ : respects any_fault calm _) s0). unfold E.broadcast. eff_auto. by apply emit_calm. }
  apply (calm_then (P.m_config s)); [|exact H1|intros _ s2 H2].
  { refine ((_ : respects any_fault calm _) s1). eff_auto.
    intros s'. split; [apply on_timer_steps|done]. }
  apply (calm_then (P.m_config s)); [|exact H2|intros _ s3 H3].
  { assert (Hv : PBFTConfig.base (P.m_config s2) = PBFTConfig.base (P.m_config s0))
      by (destruct H0, H2; congruence).
    eapply wp_mono; [apply wp_both; [by apply addCheckPointMsg_node, own_vote
      |apply addCheckPointMsg_config]|].
    intros r s' es [Hs Hc]. split; [exact Hs|by rewrite Hc]. }
  rewrite bind_assoc. apply steps_then.
  - apply executed_steps. destruct H3 as [_ ->]. exact Hr.
  - intros _. engine_auto. apply checkAndCommitStable_node.
Qed.

Lemma onProposalApplied_steps ok p q s :
  (rollback \/ (ok = true /\
    PBFTConfig.m_expectedCheckPoint (P.m_config s) <= PBFTProposal.index q + 1)) ->
  wp any_fault (E.onProposalApplied ok p q s) (fun _ s' es => steps s s' es).
Proof.
  intros Hr. unfold E.onProposalApplied. destruct ok; simpl.
  - apply onProposalApplySuccess_steps. destruct Hr as [|[]]; auto.
  - destruct Hr as [Hr|[]]; [by apply onProposalApplyFailed_steps|done].
Qed.

Lemma resetConfig_steps cfg b :
  0 <= LedgerConfig.blockNumber cfg -> good_ledger cfg ->
  respects any_fault steps (zoom P.m_config (PBFTConfig.resetConfig cfg b)).
Proof.
  intros Hn Hl s. pose proof (S_resetConfig s cfg b) as Hstep. unfold zoom.
  destruct (PBFTConfig.resetConfig cfg b (P.m_config s)) as [a c' es|x c' es|]; simpl; [..|exact I];
    by apply steps_one, Hstep.
Qed.

Lemma finalizeConsensus_steps cfg b :
  0 <= LedgerConfig.blockNumber cfg -> good_ledger cfg -> (b = true -> rollback) ->
  respects any_fault steps (E.finalizeConsensus cfg b).
Proof.
  intros Hn Hl Hb s. unfold E.finalizeConsensus.
  apply (steps_bind (fun _ s1 => LedgerConfig.blockNumber cfg <= committed_index (P.m_config s1))).
  { eapply wp_mono; [apply wp_both; [by apply resetConfig_steps|]|].
    - instantiate (1 := fun _ s' _ => LedgerConfig.blockNumber cfg <= committed_index (P.m_config s')).
      unfold zoom. pose proof (resetConfig_rises cfg b (P.m_config s) Hn) as H.
      destruct (PBFTConfig.resetConfig cfg b (P.m_config s)); [apply H..|exact I].
    - intros r s1 es [H1 H2]. by split. }
  intros _ s1 H1.
  apply (steps_bind (fun _ s2 => LedgerConfig.blockNumber cfg <= committed_index (P.m_config s2))).
  { eapply wp_mono; [apply tryToApplyCommitQueue_steps|]. intros r s2 es H2. split; [exact H2|].
    intros _ _. pose proof (adv_committed _ _ _ (steps_advance _ _ _ H2)). lia. }
  intros _ s2 H2. apply wp_bind. cbn [get wp app].
  apply steps_then; [by apply removeConsensusedCache_steps|]. intros _. engine_auto.
  - apply tryToCommitStable_node.
  - apply resetTimer_steps, triggerTimeout_steps.
  - by apply removeFutureProposals_steps, Hb.
Qed.

Lemma asyncNotifyNewBlock_steps cfg :
  0 <= LedgerConfig.blockNumber cfg -> good_ledger cfg -> rollback ->
  respects any_fault steps (E.asyncNotifyNewBlock cfg).
Proof.
  intros Hn Hl Hb. unfold E.asyncNotifyNewBlock. engine_auto. by apply finalizeConsensus_steps.
Qed.

(** ** Requests and responses *)
Lemma sendCommitted_steps l : respects any_fault steps (E.sendCommittedProposalResponse l).
Proof. unfold E.sendCommittedProposalResponse. engine_auto. Qed.

Lemma onReceiveCommittedProposalRequest_steps m :
  respects any_fault steps (E.onReceiveCommittedProposalRequest m).
Proof. unfold E.onReceiveCommittedProposalRequest. engine_auto. apply sendCommitted_steps. Qed.

Lemma onGetCommittedProposals_steps l : respects any_fault steps (E.onGetCommittedProposals l).
Proof. unfold E.onGetCommittedProposals. engine_auto. apply sendCommitted_steps. Qed.

Lemma onReceivePrecommitRequest_steps m :
  respects any_fault steps (E.onReceivePrecommitRequest m).
Proof. unfold E.onReceivePrecommitRequest. engine_auto. Qed.

Lemma decode_steps d : respects any_fault steps (PBFTLogSync.decode d).
Proof. unfold PBFTLogSync.decode. eff_auto. Qed.

Lemma onRecvCommittedProposalsResponse_steps e n d i o :
  respects any_fault steps (PBFTLogSync.onRecvCommittedProposalsResponse e n d i o).
Proof.
  unfold PBFTLogSync.onRecvCommittedProposalsResponse. engine_auto.
  all: first [apply decode_steps | apply initState_steps | apply eraseCommittedProposalList_steps].
Qed.

Lemma onRecvPrecommitResponse_steps e n d m :
  good m -> respects any_fault steps (E.onRecvPrecommitResponse e n d m).
Proof.
  intros Hgood. unfold E.onRecvPrecommitResponse, PBFTLogSync.onRecvPrecommitResponse.
  apply respects_bind; [apply _|eff_auto|intros _].
  apply respects_bind; [apply _|apply decode_steps|intros response].
  case_bool_decide; [apply respects_ret, _|].
  destruct response as [|v| |]; try (by apply respects_crash).
  apply respects_bind; [apply _|eff_auto|intros _].
  apply respects_bind; [apply _|eff_auto|intros p].
  destruct (PBFTMessage.consensusProposal p) as [pr|]; [|apply respects_ret, _].
  eapply (respects_bind_returns _ _ _ _ (fun q => PBFTMessage.consensusProposal m = Some q));
    [eff_auto|by apply returns_deref|]. intros q Hq.
  destruct (_ || _); [apply respects_ret, _|].
  apply respects_bind; [apply _|apply checkPrecommitMsg_steps|intros valid].
  destruct (negb valid); [apply respects_ret, _|].
  apply respects_bind; [apply _| |intros _; apply respects_ret, _].
  by apply handlePrePrepareMsg_steps, good_fill.
Qed.
End EngineRefinement.
