(* ===== verification/Behaviour.v ===== *)
(** Behaviour: the refinement theorem.  Whatever a running node does in response to
    any sequence of inputs is a sequence of the elementary steps of [Node]. *)
From S2P Require Import Prelude Types Timer Validator Config Cache Processor LogSync Engine.
From S2P Require Import Quorum ConfigFacts Steps Node Growth Refine Impl.

Section Behaviour.
Context `{Ext : Externals} `{Pol : Policy}.

(** The waiting packets are good. *)
Definition good_engine (e : E.t) : Prop := Forall good_msg (E.m_msgQueue e).

(** Steps of the engine object are steps of its cache processor. *)
Definition esteps (e e' : E.t) (es : list Event) : Prop :=
  good_engine e -> steps (E.m_cacheProcessor e) (E.m_cacheProcessor e') es /\ good_engine e'.

#[export] Instance esteps_transition : Transition esteps.
Proof.
  split.
  - intros e H. split; [apply (transition_refl (R := steps))|done].
  - intros e1 e2 e3 es es' H1 H2 H. destruct (H1 H) as [S1 G1]. destruct (H2 G1) as [S2 G2].
    split; [|done]. by eapply (transition_trans (R := steps)).
Qed.

Lemma zoom_esteps {A} (m : Eff Event P.t A) :
  respects any_fault steps m -> respects any_fault esteps (zoom E.m_cacheProcessor m).
Proof. intros H. by apply (respects_zoom _ steps). Qed.

Lemma zoom_esteps_at {A} (m : Eff Event P.t A) e :
  wp any_fault (m (E.m_cacheProcessor e)) (fun _ s' es => steps (E.m_cacheProcessor e) s' es) ->
  wp any_fault (zoom E.m_cacheProcessor m e) (fun _ e' es => esteps e e' es).
Proof.
  intros H. unfold zoom. by destruct (m (E.m_cacheProcessor e)).
Qed.

Lemma push_esteps m : good_msg m -> respects any_fault esteps (E.pushMsg m).
Proof.
  intros Hm e H. split; [apply (transition_refl (R := steps))|].
  apply Forall_app. split; [exact H|]. by repeat constructor.
Qed.

Lemma on_config_esteps {A} (m : Eff Event PBFTConfig.t A) :
  respects any_fault config_step m -> respects any_fault esteps (PBFTImpl.on_config m).
Proof. intros H. by apply zoom_esteps, config_steps. Qed.

(** ** Packets *)
Definition good_wire (d : Wire) : Prop :=
  match d with Packet m => good_msg m | _ => True end.

Lemma decode_good d : good_wire d -> returns (PBFTLogSync.decode d) good_msg.
Proof.
  intros H. unfold PBFTLogSync.decode. destruct d; [apply returns_ret, good_empty|by intros s|].
  by apply returns_ret.
Qed.

Lemma setFrom_good n m : good_msg m -> good_msg (E.setFrom n m).
Proof. destruct m; simpl; auto using good_from. Qed.

Lemma returns_zoom {S T A} (proj : S -> T) `{!Settable proj} (m : Eff Event T A) Q :
  returns m Q -> returns (zoom proj m) Q.
Proof. intros H s. specialize (H (proj s)). unfold zoom. by destruct (m (proj s)). Qed.

Lemma onReceivePBFTMessage_esteps e n d :
  good_wire d -> respects any_fault esteps (E.onReceivePBFTMessage e n d).
Proof.
  intros Hd. unfold E.onReceivePBFTMessage.
  apply respects_try_catch; [apply _| |intros x; apply respects_ret, _].
  apply respects_bind; [apply _|apply respects_get, _|intros s].
  destruct e; [apply respects_ret, _|]. destruct (negb _); [apply respects_ret, _|].
  eapply respects_bind_returns; [apply _|apply zoom_esteps, decode_steps|
    by eapply returns_zoom, decode_good|].
  intros m Hm. destruct (_ || _); [|by apply push_esteps, setFrom_good].
  intros s' Hs'. split; [|exact Hs']. apply steps_one, S_emit. by repeat constructor.
Qed.

Lemma executeWorker_esteps : respects any_fault esteps E.executeWorker.
Proof.
  unfold E.executeWorker. apply respects_bind_get. intros e.
  destruct (negb _); [apply (transition_refl (R := esteps))|].
  apply wp_bind. eapply wp_mono.
  { instantiate (1 := fun _ e' es => e' = e /\ es = []). unfold zoom.
    pose proof (isSyncingHigher_pure (E.m_cacheProcessor e)) as H.
    destruct (E.isSyncingHigher _); simpl in *; [..|exact I]; destruct H as [-> ->];
      by destruct e. }
  intros [b|x] e' es [-> ->]; [|apply (transition_refl (R := esteps))].
  destruct b; [apply (transition_refl (R := esteps))|].
  destruct (E.m_msgQueue e) as [|m rest] eqn:Eq; [apply (transition_refl (R := esteps))|].
  apply wp_impl; [done|]. intros Hgood. unfold good_engine in Hgood. rewrite Eq in Hgood.
  apply list.Forall_cons in Hgood as [Hm Hrest].
  apply wp_bind. cbn [modify wp app].
  set (e1 := e <| E.m_msgQueue := rest |>).
  match goal with |- wp _ (?k e1) _ => enough (respects any_fault esteps k) as Hk end.
  { eapply wp_mono; [apply Hk|]. intros r e2 es2 H2. apply H2. exact Hrest. }
  eff_auto.
  all: first [ by apply push_esteps
    | apply zoom_esteps; first [ by apply handleMsg_steps
        | apply committedIndex_steps | apply config_steps; by auto with eff ] ].
Qed.

(** ** The callbacks of the validator and of the configuration *)
Lemma validator_step (m : Eff Event TxsValidator.t unit) :
  (forall v, wp any_fault (m v) (fun _ _ es => Forall (fun e => quiet e = true) es)) ->
  respects any_fault config_step (zoom PBFTConfig.m_validator m).
Proof.
  intros H. apply (respects_zoom PBFTConfig.m_validator
    (fun _ _ es => Forall (fun e => quiet e = true) es)); [exact H|].
  intros c v es Hq. split; [|exact Hq]. split; simpl; first [reflexivity | lia | by left].
Qed.

Lemma resetTxsTask_step b f :
  respects any_fault config_step (zoom PBFTConfig.m_validator (TxsValidator.resetTxsTask b f)).
Proof.
  apply validator_step. intros v. unfold TxsValidator.resetTxsTask, TxsValidator.markTxs.
  case_bool_decide; simpl; by repeat constructor.
Qed.

Lemma onMarkTxs_step e b l f r :
  respects any_fault config_step (zoom PBFTConfig.m_validator (TxsValidator.onMarkTxs e b l f r)).
Proof.
  apply validator_step. intros v.
  unfold TxsValidator.onMarkTxs, TxsValidator.markTxs, TxsValidator.eraseResettingProposal,
    TxsValidator.insertResettingProposal, when, mbind, eff_bind.
  destruct f, e; simpl; try (destruct (3 <=? r)); simpl; try (case_bool_decide; simpl);
    by repeat constructor.
Qed.

Lemma modify_config_step (f : PBFTConfig.t -> PBFTConfig.t) :
  (forall c, evolves c (f c)) -> respects any_fault config_step (modify f).
Proof. intros H c. split; [apply H|constructor]. Qed.

Lemma setUnSealedTxsSize_evolves n c : evolves c (PBFTConfig.setUnSealedTxsSize n c).
Proof.
  unfold PBFTConfig.setUnSealedTxsSize. destruct (_ && _); split; simpl;
    first [reflexivity | lia | by left].
Qed.

Lemma onApplyFinished_steps ok p q : respects any_fault steps (P.onApplyFinished ok p q).
Proof. unfold P.onApplyFinished. eff_auto. by apply emit_steps. Qed.

(** What is assumed of the inputs: block numbers are not negative, the policy holds
    of the messages and the ledger configurations, and without [rollback] no execution
    fails, no block comes from the synchronisation module and blocks are executed in
    order. *)
Definition input_ok (c : PBFTConfig.t) (i : PBFTImpl.input) : Prop :=
  match i with
  | PBFTImpl.StableCheckPointCommitted cfg =>
      0 <= LedgerConfig.blockNumber cfg /\ good_ledger cfg
  | PBFTImpl.NotifyNewBlockSynced cfg =>
      0 <= LedgerConfig.blockNumber cfg /\ good_ledger cfg /\ rollback
  | PBFTImpl.ConsensusMessage _ _ d => good_wire d
  | PBFTImpl.PrePrepareVerified _ _ m _ | PBFTImpl.PrecommitResponse _ _ _ m => good m
  | PBFTImpl.ProposalApplied ok _ executed =>
      rollback \/ (ok = true /\
        PBFTConfig.m_expectedCheckPoint c <= PBFTProposal.index executed + 1)
  | _ => True
  end.

Definition config_of (e : E.t) : PBFTConfig.t := P.m_config (E.m_cacheProcessor e).

(** Every input of a run meets the assumptions when it is handled. *)
Fixpoint inputs_ok (l : list PBFTImpl.input) (e : E.t) : Prop :=
  match l with
  | [] => True
  | i :: l =>
      input_ok (config_of e) i /\
      match PBFTImpl.handle i e with
      | Done _ e' _ | Threw _ e' _ => inputs_ok l e'
      | Crashed _ => True
      end
  end.

Lemma handle_esteps i e :
  input_ok (config_of e) i ->
  wp any_fault (PBFTImpl.handle i e) (fun _ e' es => esteps e e' es).
Proof.
  intros Hi. destruct i; cbn [PBFTImpl.handle input_ok] in *.
  - apply zoom_esteps, onRecvProposal_steps.
  - by apply onReceivePBFTMessage_esteps.
  - destruct Hi as (? & ? & ?). by apply zoom_esteps, asyncNotifyNewBlock_steps.
  - apply zoom_esteps. intros s. apply steps_one, S_syncing.
  - apply on_config_esteps, modify_config_step, setUnSealedTxsSize_evolves.
  - apply on_config_esteps, modify_config_step. intros c.
    split; simpl; first [reflexivity | lia | by left].
  - apply respects_try_catch; [apply _|apply executeWorker_esteps|]. intros x.
    apply respects_ret, _.
  - case_bool_decide; apply zoom_esteps;
      [apply onReceiveCommittedProposalRequest_steps|apply onReceivePrecommitRequest_steps].
  - by apply zoom_esteps_at, onProposalApplied_steps.
  - apply on_config_esteps, resetTxsTask_step.
  - apply zoom_esteps, onTimeout_steps.
  - apply zoom_esteps, onCheckPointTimeout_node.
  - apply on_config_esteps, modify_config_step. intros c.
    split; simpl; first [reflexivity | lia | by left].
  - by apply zoom_esteps, onPrePrepareVerified_steps.
  - apply zoom_esteps, onProposalVerified_steps.
  - apply zoom_esteps, onApplyFinished_steps.
  - apply on_config_esteps, onMarkTxs_step.
  - apply on_config_esteps. auto with eff.
  - apply on_config_esteps. unfold PBFTConfig.onSealProposalNotified.
    destruct _error; simpl; [apply asyncNotifySealProposal_step|apply respects_ret, _].
  - destruct Hi. by apply zoom_esteps, finalizeConsensus_steps.
  - apply zoom_esteps, onGetCommittedProposals_steps.
  - apply zoom_esteps, onRecvCommittedProposalsResponse_steps.
  - by apply zoom_esteps, onRecvPrecommitResponse_steps.
Qed.

Lemma run_esteps l e e' es :
  inputs_ok l e -> PBFTImpl.run l e = Some (e', es) -> esteps e e' es.
Proof.
  revert e es. induction l as [|i l IH]; intros e es; cbn [PBFTImpl.run inputs_ok].
  { intros _ [= -> <-]. apply (transition_refl (R := esteps)). }
  intros [Hi Hok]. pose proof (handle_esteps i e Hi) as Hh.
  destruct (PBFTImpl.handle i e) as [a e1 es1|x e1 es1|]; [..|done]; simpl in Hh;
    (destruct (PBFTImpl.run l e1) as [[e2 es2]|] eqn:E; [|done]); intros [= -> <-];
    (eapply (transition_trans (R := esteps)); [exact Hh|by apply IH]).
Qed.

(** Inputs that meet the assumptions in every state. *)
Lemma inputs_ok_static l e :
  Forall (fun i => forall c, input_ok c i) l -> inputs_ok l e.
Proof.
  intros H. revert e. induction H as [|i l Hi _ IH]; intros e; simpl; [done|].
  split; [apply Hi|]. by destruct (PBFTImpl.handle i e).
Qed.
End Behaviour.

(** C13: every run of a node, whatever the inputs and their order, is a sequence of
    the elementary guarded steps of [Node]. *)
Theorem node_refines_steps `{Ext : Externals} `{Pol : Policy} l e e' es :
  good_engine e -> inputs_ok l e -> PBFTImpl.run l e = Some (e', es) ->
  star step (PBFTEngine.m_cacheProcessor e) (PBFTEngine.m_cacheProcessor e') es.
Proof. intros Hgood Hok Hrun. by apply (run_esteps l e e' es). Qed.
