(* ===== verification/Votes.v ===== *)
(** Votes: while the consensus nodes stay the same, every cache counts every node's
    vote once, so a quorum that a node observes is a set of distinct nodes. *)
From S2P Require Import Prelude Types Timer Validator Config Cache Processor LogSync Engine.
From S2P Require Import Quorum ConfigFacts CacheFacts Steps Node Growth Refine Impl Behaviour Invariants.

(** The ledger configurations that name the nodes [L]. *)
Definition same_nodes `{Ext : Externals} (L : list ConsensusNode.t) (cfg : LedgerConfig.t) : Prop :=
  ConsensusConfig.compareConsensusNode
    (merge_sort ConsensusConfig.node_le (LedgerConfig.consensusNodeList cfg)) L = true.

(** What stays the same with the node list. *)
Record keeps_nodes (c c' : PBFTConfig.t) : Prop := {
  kn_list : PBFTConfig.consensusNodeList c' = PBFTConfig.consensusNodeList c;
  kn_index : PBFTConfig.nodeIndex c' = PBFTConfig.nodeIndex c;
  kn_id : PBFTConfig.nodeID c' = PBFTConfig.nodeID c;
  kn_quorum : PBFTConfig.m_minRequiredQuorum c' = PBFTConfig.m_minRequiredQuorum c;
  kn_faulty : PBFTConfig.m_maxFaultyQuorum c' = PBFTConfig.m_maxFaultyQuorum c
}.

Lemma keeps_nodes_refl c : keeps_nodes c c.
Proof. by split. Qed.

Lemma keeps_nodes_trans c1 c2 c3 : keeps_nodes c1 c2 -> keeps_nodes c2 c3 -> keeps_nodes c1 c3.
Proof. intros [] []. split; congruence. Qed.

Lemma evolves_keeps c c' : evolves c c' -> keeps_nodes c c'.
Proof.
  intros [B F M L P V W X]. unfold PBFTConfig.consensusNodeList, PBFTConfig.nodeIndex,
    PBFTConfig.nodeID. split; unfold PBFTConfig.consensusNodeList, PBFTConfig.nodeIndex,
    PBFTConfig.nodeID; congruence.
Qed.

Section FixedNodes.
Context `{Ext : Externals} `{Pol : Policy}.
Context (L : list ConsensusNode.t) (Hledger : forall cfg, good_ledger cfg -> same_nodes L cfg).

Definition fixed (c c' : PBFTConfig.t) (es : list Event) : Prop :=
  PBFTConfig.consensusNodeList c = L -> keeps_nodes c c'.

#[local] Instance fixed_transition : Transition fixed.
Proof.
  split; [intros c _; apply keeps_nodes_refl|].
  intros c1 c2 c3 e1 e2 H1 H2 H. specialize (H1 H). eapply keeps_nodes_trans; [exact H1|].
  apply H2. by rewrite (kn_list _ _ H1).
Qed.

Lemma config_step_fixed {A} (m : Eff Event PBFTConfig.t A) :
  respects any_fault config_step m -> respects any_fault fixed m.
Proof. intros H. eapply respects_weaken; [exact H|]. intros c c' es [He _] _. by apply evolves_keeps. Qed.

Lemma setConsensusNodeList_fixed cfg :
  good_ledger cfg ->
  respects any_fault fixed (PBFTConfig.setConsensusNodeList (LedgerConfig.consensusNodeList cfg)).
Proof.
  intros Hcfg. unfold PBFTConfig.setConsensusNodeList.
  apply respects_bind; [apply _| |intros sorted].
  - intros c. apply wp_impl; [by intros f|]. intros Hc. specialize (Hledger cfg Hcfg).
    unfold same_nodes in Hledger. rewrite <- Hc in Hledger.
    unfold ConsensusConfig.setConsensusNodeList. case_bool_decide; [by split|].
    unfold mbind, eff_bind. simpl. fold (PBFTConfig.consensusNodeList c). rewrite Hledger. by split.
  - eff_auto; apply config_step_fixed; auto with eff.
Qed.

Lemma resetConfig_fixed cfg b :
  good_ledger cfg -> respects any_fault fixed (PBFTConfig.resetConfig cfg b).
Proof.
  intros Hcfg. unfold PBFTConfig.resetConfig, PBFTConfig.setLeaderSwitchPeriod.
  assert (Hmod : forall f, (forall c, keeps_nodes c (f c)) -> respects any_fault fixed (modify f)).
  { intros f Hf c _. apply Hf. }
  eff_auto; try (by apply setConsensusNodeList_fixed);
    try (by apply config_step_fixed; auto with eff);
    try (by apply respects_emit; intros c _; apply keeps_nodes_refl);
    try (by apply Hmod; intros c; split).
  - apply Hmod. intros c. unfold PBFTConfig.setCommittedProposal,
      ConsensusConfig.setCommittedProposal. split; cbn -[Z.ltb];
      repeat (destruct (_ <? _); cbn -[Z.ltb]); done.
  - apply Hmod. intros c. unfold PBFTConfig.resetTimer, PBFTConfig.freshTimer.
    destruct (0 <? PBFTConfig.m_unsealedTxsSize _); by split.
Qed.

Lemma step_fixed s s' es : step s s' es -> fixed (P.m_config s) (P.m_config s') es.
Proof.
  intros H Hc. destruct H; simpl; try apply keeps_nodes_refl.
  - by apply evolves_keeps, H.
  - by apply evolves_keeps, (fstep_config _ _ _ H0).
  - rewrite (encodeHandled_config _ _ _ _ H). apply keeps_nodes_refl.
  - by apply evolves_keeps, H3.
  - pose proof (addViewChangeReq_config v s) as Hv. rewrite H in Hv. destruct Hv as [-> _].
    apply keeps_nodes_refl.
  - injection H as <-. apply keeps_nodes_refl.
  - by split.
  - by split.
  - subst es. pose proof (resetConfig_fixed cfg synced H0 (P.m_config s)) as Hr.
    destruct (PBFTConfig.resetConfig cfg synced (P.m_config s)); simpl in *; [..|done];
      injection H1 as <-; by apply Hr.
Qed.

(** ** The collections of a cache *)
Lemma getConsensusNode_list c c' i :
  PBFTConfig.consensusNodeList c' = PBFTConfig.consensusNodeList c ->
  PBFTConfig.getConsensusNodeByIndex c' i = PBFTConfig.getConsensusNodeByIndex c i.
Proof.
  unfold PBFTConfig.consensusNodeList, PBFTConfig.getConsensusNodeByIndex,
    ConsensusConfig.getConsensusNodeByIndex. by intros ->.
Qed.

Lemma voters_weight_list c c' X :
  PBFTConfig.consensusNodeList c' = PBFTConfig.consensusNodeList c ->
  voters_weight c' X = voters_weight c X.
Proof.
  intros H. unfold voters_weight, wset. generalize (elements X) as l.
  induction l as [|i l IH]; [done|]. unfold wsum in *. cbn [foldr].
  rewrite IH. unfold node_weight. by rewrite (getConsensusNode_list c c').
Qed.

Lemma wf_collection_list c c' i l w :
  PBFTConfig.consensusNodeList c' = PBFTConfig.consensusNodeList c ->
  wf_collection c i l w -> wf_collection c' i l w.
Proof.
  intros H [H1 H2 H3]. split; [|intros h; by rewrite (voters_weight_list c c')|done].
  intros h j m Hm. rewrite (getConsensusNode_list c c') by done. by apply H1.
Qed.

(** Every collection of every cache counts each sender once. *)
Record counted (config : PBFTConfig.t) (this : C.t) : Prop := {
  ct_prepare : wf_collection config (C.m_index this) (C.m_prepareCacheList this)
    (C.m_prepareReqWeight this);
  ct_commit : wf_collection config (C.m_index this) (C.m_commitCacheList this)
    (C.m_commitReqWeight this);
  ct_checkpoint : wf_collection config (C.m_index this) (C.m_checkpointCacheList this)
    (C.m_checkpointCacheWeight this)
}.

Definition all_counted : P.t -> Prop := all_caches (fun c _ this => counted c this).

Lemma counted_list c c' this :
  PBFTConfig.consensusNodeList c' = PBFTConfig.consensusNodeList c ->
  counted c this -> counted c' this.
Proof. intros H []. split; by eapply wf_collection_list. Qed.

Lemma counted_create config i : counted config (C.create config i).
Proof. split; apply empty_wf. Qed.

Lemma addCache_counted config this l w m :
  wf_nodes config -> wf_collection config (C.m_index this) l w ->
  let '(l', w') := C.addCache config (C.m_index this) l w m in
  wf_collection config (C.m_index this) l' (log_access (PBFTMessage.hash m) w').
Proof.
  intros Hn Hw. pose proof (addCache_wf _ _ Hn _ _ m Hw) as Ha.
  destruct (C.addCache _ _ _ _ m). by apply log_access_wf.
Qed.

Lemma fstep_counted f f' es :
  wf_nodes (C.f_config f) -> fstep f f' es -> counted (C.f_config f) (C.f_this f) ->
  counted (C.f_config f') (C.f_this f').
Proof.
  intros Hn H Hc.
  assert (Hkeep : counted (C.f_config f') (C.f_this f)).
  { eapply counted_list; [|exact Hc]. by apply kn_list, evolves_keeps, (fstep_config _ _ _ H). }
  destruct Hc as [Hp Hk Hx].
  pose proof (fun m => addCache_counted _ _ _ _ m Hn Hp) as Ap.
  pose proof (fun m => addCache_counted _ _ _ _ m Hn Hk) as Ak.
  pose proof (fun m => addCache_counted _ _ _ _ m Hn Hx) as Ax.
  destruct H; simpl in *; try exact Hkeep; try (by destruct Hkeep).
  - unfold C.addPrepareCache, modify in H0. specialize (Ap m).
    destruct (C.addCache _ _ _ _ m). injection H0 as <-. by split.
  - unfold C.addCommitCache, modify in H1. specialize (Ak m).
    destruct (C.addCache _ _ _ _ m). injection H1 as <-. by split.
  - unfold C.addCheckPointMsg, modify in H0. specialize (Ax m).
    destruct (C.addCache _ _ _ _ m). injection H0 as <-. by split.
  - precommit_fields. rewrite Hcfg, Hthis. by split.
  - unfold C.addCommitCache, modify in H3. specialize (Ak m).
    destruct (C.addCache _ _ _ _ m). injection H3 as <-. by split.
  - split; simpl; [by apply (reset_wf _ _ Hn _ _ v Hp)|by apply (reset_wf _ _ Hn _ _ v Hk)|done].
  - subst f'. by split.
Qed.

#[local] Instance counted_invariant :
  CacheInvariant wf_nodes (fun _ => True)
    (fun c c' => PBFTConfig.consensusNodeList c' = PBFTConfig.consensusNodeList c)
    (fun c _ this => counted c this).
Proof.
  split.
  - intros c i. apply counted_create.
  - intros i f f' es Hn _ H. by apply (fstep_counted f f' es).
  - intros c this m _ _ _ []. by split.
  - intros c i this f _ []. by split.
  - intros c c' _ this. apply counted_list.
Qed.

(** The nodes are [L], their weights do not overflow, and votes are counted once. *)
Record fair (s : P.t) : Prop := {
  fair_list : PBFTConfig.consensusNodeList (P.m_config s) = L;
  fair_nodes : wf_nodes (P.m_config s);
  fair_counted : all_counted s
}.

Lemma wf_nodes_list c c' :
  PBFTConfig.consensusNodeList c' = PBFTConfig.consensusNodeList c -> wf_nodes c -> wf_nodes c'.
Proof. intros H [H1 H2]. split; [by rewrite H|]. unfold total_weight in *. by rewrite H. Qed.

Lemma step_fair s s' es : fair s -> step s s' es -> fair s'.
Proof.
  intros [Hl Hn Ha] H. pose proof (kn_list _ _ (step_fixed _ _ _ H Hl)) as Hlist.
  split; [by rewrite Hlist|by eapply wf_nodes_list|].
  by apply (step_cachewise _ _ _ _ counted_invariant s s' es).
Qed.

Lemma steps_fair s s' es : fair s -> steps s s' es -> fair s'.
Proof.
  intros Hf H.
  apply (star_invariant step fair (fun _ => True) s s' es); [|done..].
  intros s1 s2 e H1 H2. split; [by eapply step_fair|]. by apply list.Forall_forall.
Qed.
End FixedNodes.

(** The distinct consensus nodes that voted for a proposal. *)
Definition supporters (config : PBFTConfig.t) (l : gmap Z (gmap Z PBFTMessage.t))
    (index : BlockNumber) (h : HashType) (X : gset Z) : Prop :=
  voters X /\ PBFTConfig.m_minRequiredQuorum config <= voters_weight config X /\
  forall i, i ∈ X -> exists m, cached l h i = Some m /\ PBFTMessage.generatedFrom m = i /\
    PBFTMessage.hash m = h /\ PBFTMessage.index m = index /\
    is_Some (PBFTConfig.getConsensusNodeByIndex config i).

Lemma collected_supporters config index l w h :
  wf_collection config index l w -> PBFTCache.collectEnoughQuorum config h w = true ->
  supporters config l index h (senders l h).
Proof.
  intros Hwf Hq. split; [by eapply senders_voters|].
  split; [by eapply collectEnoughQuorum_sound|].
  intros i [m Hm]%elem_of_senders. exists m. split; [done|].
  by apply (wc_message _ _ _ _ Hwf).
Qed.

(** C14: as long as the blocks committed name the same consensus nodes, a node counts
    every other node's vote once, however often and in whatever order messages come:
    whenever its cache reports a prepare, commit or checkpoint quorum, there is a set
    of distinct consensus nodes that sent that message for that index and hash, and
    whose weights reach [m_minRequiredQuorum]. *)
Theorem quorums_are_distinct_voters `{Ext : Externals} `{Pol : Policy} L l e e' es i this :
  let config e := PBFTCacheProcessor.m_config (PBFTEngine.m_cacheProcessor e) in
  (forall cfg, good_ledger cfg -> same_nodes L cfg) ->
  good_engine e -> fair L (PBFTEngine.m_cacheProcessor e) ->
  inputs_ok l e -> PBFTImpl.run l e = Some (e', es) ->
  PBFTCacheProcessor.m_caches (PBFTEngine.m_cacheProcessor e') !! i = Some this ->
  (PBFTCache.collectEnoughPrepareReq (config e') this = true ->
   exists q X, PBFTCache.m_prePrepare this = Some q /\
    supporters (config e') (PBFTCache.m_prepareCacheList this) (PBFTCache.m_index this)
       (PBFTMessage.hash q) X) /\
 (PBFTCache.collectEnoughCommitReq (config e') this = true ->
   exists q X, PBFTCache.m_prePrepare this = Some q /\
    supporters (config e') (PBFTCache.m_commitCacheList this) (PBFTCache.m_index this)
       (PBFTMessage.hash q) X) /\
 (PBFTCache.collectEnoughCheckpoint (config e') this = true ->
   exists p X, PBFTCache.m_checkpointProposal this = Some p /\
    supporters (config e') (PBFTCache.m_checkpointCacheList this) (PBFTCache.m_index this)
       (PBFTProposal.hash p) X).
Proof.
  intros config HL Hg Hf Hok Hrun Hi. destruct (run_esteps l e e' es Hok Hrun Hg) as [H _].
  destruct (fair_counted _ _ (steps_fair L HL _ _ _ Hf H) i this Hi) as [Hp Hk Hx].
  fold (config e') in Hp, Hk, Hx.
  unfold PBFTCache.collectEnoughPrepareReq, PBFTCache.collectEnoughCommitReq,
    PBFTCache.collectEnoughCheckpoint.
  destruct (PBFTCache.m_prePrepare this) as [q|];
    destruct (PBFTCache.m_checkpointProposal this) as [p|]; rewrite ?andb_false_r;
    (split; [|split]); try done; try (intros [_ Hq]%andb_true_iff); try intros Hq;
    eauto using collected_supporters.
Qed.

(** Two tables that agree in the weight of every hash report the same quorums. *)
Lemma collectEnoughQuorum_default config h w w' :
  0 < PBFTConfig.m_minRequiredQuorum config ->
  default 0 (w !! h) = default 0 (w' !! h) ->
  PBFTCache.collectEnoughQuorum config h w = PBFTCache.collectEnoughQuorum config h w'.
Proof.
  intros Hq. unfold PBFTCache.collectEnoughQuorum.
  destruct (w !! h), (w' !! h); simpl; intros H; subst; try done;
    [|symmetry]; apply Z.leb_gt; lia.
Qed.

Lemma collection_recount config i l w :
  wf_nodes config -> wf_collection config i l w ->
  forall h, default 0 (w !! h) = default 0 (PBFTCache.recalculateQuorum config l !! h) /\
    (0 < PBFTConfig.m_minRequiredQuorum config ->
     PBFTCache.collectEnoughQuorum config h w =
     PBFTCache.collectEnoughQuorum config h (PBFTCache.recalculateQuorum config l)).
Proof.
  intros Hn Hwf h.
  assert (He : default 0 (w !! h) = default 0 (PBFTCache.recalculateQuorum config l !! h)).
  { pose proof (recalculateQuorum_wf config i Hn l (wc_message _ _ _ _ Hwf)) as Hr.
    by rewrite (wc_weight _ _ _ _ Hwf), (wc_weight _ _ _ _ Hr). }
  split; [done|]. intros Hq. by apply collectEnoughQuorum_default.
Qed.

(** C15: the weight tables, which every message updates as it is added, are at any time
    what counting the cached messages afresh gives, and report the same quorums: as
    long as the node list stays the same, in every cache that a run reaches and for
    every proposal, prepare, commit and checkpoint weights equal those of
    [recalculateQuorum] on the messages collected. *)
Theorem tables_equal_recount `{Ext : Externals} `{Pol : Policy} L l e e' es i this :
  let config e := PBFTCacheProcessor.m_config (PBFTEngine.m_cacheProcessor e) in
  let recount cache table := forall h,
    default 0 (table !! h) =
      default 0 (PBFTCache.recalculateQuorum (config e') cache !! h) /\
    (0 < PBFTConfig.m_minRequiredQuorum (config e') ->
     PBFTCache.collectEnoughQuorum (config e') h table =
     PBFTCache.collectEnoughQuorum (config e') h
       (PBFTCache.recalculateQuorum (config e') cache)) in
  (forall cfg, good_ledger cfg -> same_nodes L cfg) ->
  good_engine e -> fair L (PBFTEngine.m_cacheProcessor e) ->
  inputs_ok l e -> PBFTImpl.run l e = Some (e', es) ->
  PBFTCacheProcessor.m_caches (PBFTEngine.m_cacheProcessor e') !! i = Some this ->
  recount (PBFTCache.m_prepareCacheList this) (PBFTCache.m_prepareReqWeight this) /\
  recount (PBFTCache.m_commitCacheList this) (PBFTCache.m_commitReqWeight this) /\
  recount (PBFTCache.m_checkpointCacheList this) (PBFTCache.m_checkpointCacheWeight this).
Proof.
  intros config recount HL Hg Hf Hok Hrun Hi.
  destruct (run_esteps l e e' es Hok Hrun Hg) as [H _].
  pose proof (steps_fair L HL _ _ _ Hf H) as Hf'.
  destruct (fair_counted _ _ Hf' i this Hi) as [Hp Hk Hx].
  pose proof (fair_nodes _ _ Hf') as Hn.
  split; [|split]; intros h; (eapply collection_recount; [exact Hn|eassumption]).
Qed.
