(* ===== verification/Safety.v ===== *)
(** Safety: a node never commits to two proposals for one block number, and nodes that
    run this code never agree on two proposals for one block number. *)
From S2P Require Import Prelude Types Timer Validator Config Cache Processor LogSync Engine.
From S2P Require Import Quorum ConfigFacts CacheFacts Steps Node Growth Refine Impl Behaviour.
From S2P Require Import Invariants Votes.

Lemma encode_consistent `{Ext : Externals} k m : consistent m -> consistent (PBFTMessage_encode k m).
Proof. intros H p Hp. exact (H p Hp). Qed.

(** The commit requests among the events, as index and hash. *)
Definition commit_of (e : Event) : option (BlockNumber * HashType) :=
  match e with
  | SendMessageByNodeIDs _ (MPBFT m) =>
      if bool_decide (PBFTMessage.packetType m = CommitPacket)
      then Some (PBFTMessage.index m, PBFTMessage.hash m) else None
  | _ => None
  end.
Definition commits (es : list Event) : list (BlockNumber * HashType) := omap commit_of es.

Section Lock.
Context `{Ext : Externals} `{Pol : Policy}.
Context (Hroll : ~ rollback) (Hgood : forall m, good m -> consistent m).

Lemma step_expected s s' es :
  step s s' es ->
  PBFTConfig.m_expectedCheckPoint (P.m_config s) <= PBFTConfig.m_expectedCheckPoint (P.m_config s').
Proof.
  intros H. destruct H; simpl; try apply Z.le_refl; try (by apply ev_expected, H).
  - by apply ev_expected, (fstep_config _ _ _ H0).
  - rewrite (encodeHandled_config _ _ _ _ H). apply Z.le_refl.
  - by apply ev_expected, H3.
  - pose proof (addViewChangeReq_config v s) as Hc. rewrite H in Hc. destruct Hc as [-> _].
    apply Z.le_refl.
  - injection H as <-. apply Z.le_refl.
  - by destruct H0.
  - pose proof (resetConfig_rises cfg synced (P.m_config s) H) as Hr. subst es.
    destruct (PBFTConfig.resetConfig cfg synced (P.m_config s)); simpl in *; [..|done];
      injection H1 as <-; apply Hr.
Qed.

(** The messages of a cache belong to its index; once there is a precommitted message
    the pre-prepare has its hash; an executed proposal is behind the expected
    checkpoint. *)
Record locked (c : PBFTConfig.t) (i : BlockNumber) (this : C.t) : Prop := {
  lk_index : C.m_index this = i;
  lk_prePrepare : forall q, C.m_prePrepare this = Some q -> consistent q /\ PBFTMessage.index q = i;
  lk_precommit : forall p, C.m_precommit this = Some p ->
    consistent p /\ PBFTMessage.index p = i /\
    exists q, C.m_prePrepare this = Some q /\ PBFTMessage.hash q = PBFTMessage.hash p;
  lk_executed : C.m_stableCommitted this = true \/ is_Some (C.m_checkpointProposal this) ->
    i < PBFTConfig.m_expectedCheckPoint c
}.

(** What a step of a cache does to its precommitted message. *)
Lemma intoPrecommit_locked f f' es i :
  C.intoPrecommit f = Done tt f' es -> locked (C.f_config f) i (C.f_this f) ->
  locked (C.f_config f') i (C.f_this f') /\
  exists q p, C.m_prePrepare (C.f_this f) = Some q /\ C.m_precommit (C.f_this f') = Some p /\
    PBFTMessage.hash p = PBFTMessage.hash q.
Proof.
  intros H L. precommit_fields. rewrite Hcfg, Hthis.
  destruct (lk_prePrepare _ _ _ L _ Hq) as [Hcons Hi].
  assert (Hc : consistent ((PBFTMessage.setGeneratedFrom (PBFTConfig.nodeIndex (C.f_config f)) q)
    <| PBFTMessage.consensusProposal := Some signed |>)).
  { intros p [= <-]. destruct (setSignatureList_key _ _ _ _ _ _ Hsig) as [-> ->].
    exact (Hcons _ Hp). }
  split; [|by eexists q, _].
  split; simpl; [apply (lk_index _ _ _ L)| | |apply (lk_executed _ _ _ L)].
  - by intros q' [= <-].
  - intros p [= <-]. split; [exact Hc|]. split; [exact Hi|]. eauto.
Qed.

Lemma locked_config c c' i this :
  PBFTConfig.m_expectedCheckPoint c <= PBFTConfig.m_expectedCheckPoint c' ->
  locked c i this -> locked c' i this.
Proof. intros H []. split; try done. intros Hx. specialize (lk_executed0 Hx). lia. Qed.

Lemma fstep_locked f f' es i :
  fstep f f' es -> locked (C.f_config f) i (C.f_this f) -> locked (C.f_config f') i (C.f_this f').
Proof.
  intros H L.
  assert (Hkeep : locked (C.f_config f') i (C.f_this f)).
  { eapply locked_config; [|exact L]. apply ev_expected, (fstep_config _ _ _ H). }
  destruct H; simpl in *; try exact Hkeep; try (step_fields; by destruct L);
    try (by destruct L).
  - by apply (intoPrecommit_locked f f' es i).
  - destruct L. split; simpl; try done. intros _. lia.
  - subst f'. destruct L. split; simpl; try done. intros _. apply lk_executed0. right. by eexists.
Qed.

#[local] Instance locked_invariant :
  CacheInvariant marks (fun _ => True) (fun c c' =>
    PBFTConfig.m_expectedCheckPoint c <= PBFTConfig.m_expectedCheckPoint c') locked.
Proof.
  split.
  - intros c i. split; simpl; [done..|]. by intros [?|[? ?]].
  - intros i f f' es _ _. apply fstep_locked.
  - intros c this m Hm Ha Hg []. split; simpl; try done.
    + intros q [= <-]. split; [by apply Hgood|done].
    + intros p Hp. destruct (lk_precommit0 p Hp) as (Hcons & Hi & _).
      split; [done|]. split; [done|]. eexists. split; [done|].
      apply (acc_precommit _ _ _ Ha p Hp); [|done].
      pose proof (marks_low _ Hm). pose proof (acc_low _ _ _ Ha). lia.
  - intros c i this f Hf []. unfold on_messages.
    assert (Hk : forall p, PBFTMessage.index (f p) = PBFTMessage.index p /\
      PBFTMessage.hash (f p) = PBFTMessage.hash p /\ (consistent p -> consistent (f p))).
    { intros p. destruct (Hf p) as [->| ->]; [done|].
      split; [done|]. split; [done|]. apply encode_consistent. }
    split; simpl; try done.
    + intros q. destruct (C.m_prePrepare this) as [q0|]; [|done]. intros [= <-].
      destruct (lk_prePrepare0 q0 eq_refl), (Hk q0) as (-> & _ & ?). auto.
    + intros p. destruct (C.m_precommit this) as [p0|]; [|done]. intros [= <-].
      destruct (lk_precommit0 p0 eq_refl) as (? & ? & q & -> & Hq).
      destruct (Hk p0) as (-> & -> & ?). split; [auto|]. split; [done|].
      exists (f q). split; [done|]. by destruct (Hk q) as (_ & -> & _).
  - intros c c' i this. apply locked_config.
Qed.

Record safe (s : P.t) : Prop := {
  safe_marks : marks (P.m_config s);
  safe_caches : all_caches locked s
}.

Lemma step_safe s s' es : step s s' es -> safe s -> safe s'.
Proof.
  intros H [Hm Ha]. split; [by apply (adv_marks _ _ _ (step_advances _ _ _ H))|].
  eapply (step_cachewise _ _ _ _ locked_invariant s s' es); [done|done| |done|done].
  by eapply step_expected.
Qed.

Lemma steps_safe s s' es : steps s s' es -> safe s -> safe s'.
Proof. induction 1; eauto using step_safe. Qed.

(** ** The lock *)

(** No pre-prepare is accepted any more for an index that is gone. *)
Definition gone (c : PBFTConfig.t) (n : BlockNumber) : Prop :=
  n < PBFTConfig.progressedIndex c \/ n < PBFTConfig.m_expectedCheckPoint c.

(** The proposal with hash [h] is the only one that can be precommitted for [n]. *)
Definition holds_lock (c : PBFTConfig.t) (n : BlockNumber) (h : HashType) (x : option C.t) : Prop :=
  match x with
  | Some this =>
      (exists p, C.m_precommit this = Some p /\ PBFTMessage.hash p = h) \/
      (gone c n /\ C.m_prePrepare this = None)
  | None => gone c n
  end.

Lemma fstep_prePrepare_none f f' es :
  fstep f f' es -> C.m_prePrepare (C.f_this f) = None -> C.m_prePrepare (C.f_this f') = None.
Proof.
  intros H Hn. destruct H; simpl; try done; try (by step_fields); [congruence|by subst f'].
Qed.

Lemma fstep_precommit f f' es i p :
  fstep f f' es -> locked (C.f_config f) i (C.f_this f) -> C.m_precommit (C.f_this f) = Some p ->
  exists p', C.m_precommit (C.f_this f') = Some p' /\ PBFTMessage.hash p' = PBFTMessage.hash p.
Proof.
  intros H L Hp. destruct H; simpl; eauto; try (step_fields; simpl; eauto).
  - destruct (intoPrecommit_locked _ _ _ i H3 L) as (_ & q' & p' & Hq & Hp' & Hh).
    destruct (lk_precommit _ _ _ L _ Hp) as (_ & _ & q0 & Hq0 & Hh0). exists p'. split; [done|].
    rewrite Hh, <- Hh0. congruence.
  - subst f'. eauto.
Qed.

Lemma change_lock c n es x c' y h :
  cache_change c n es x c' y -> marks c ->
  (gone c n -> gone c' n) -> (forall this, x = Some this -> locked c n this) ->
  holds_lock c n h x -> holds_lock c' n h y.
Proof.
  intros H Hm Hgone Hlk Hl. destruct H; simpl in *.
  - destruct x as [this|]; [|by apply Hgone]. destruct Hl as [?|[]]; [by left|right; auto].
  - right. by split.
  - specialize (Hlk this eq_refl). destruct Hl as [(p & Hp & Hh)|[Hg Hn]].
    + left. destruct (fstep_precommit _ _ _ n p H Hlk Hp) as (p' & Hp' & Hh'). exists p'.
      split; [done|congruence].
    + right. split; [by apply Hgone|]. by apply (fstep_prePrepare_none _ _ _ H).
  - destruct Hl as [Hl|[Hg Hn]]; [by left|].
    pose proof (marks_low _ Hm). pose proof (acc_low _ _ _ H0). pose proof (acc_expected _ _ _ H0).
    destruct Hg; lia.
  - destruct Hl as [(p & Hp & Hh)|[Hg Hn]].
    + left. unfold on_messages. simpl. rewrite Hp. exists (f p). split; [done|].
      rewrite <- Hh. by destruct (H p) as [->| ->].
    + right. split; [done|]. unfold on_messages. simpl. by rewrite Hn.
  - destruct Hl as [_|[Hg _]]; [|by apply Hgone]. apply Hgone.
    destruct H as [H|[H|H]]; [| |done].
    + left. pose proof (marks_progressed _ Hm). lia.
    + right. apply (lk_executed _ _ _ (Hlk this eq_refl)). by left.
Qed.

Definition node_lock (s : P.t) (n : BlockNumber) (h : HashType) : Prop :=
  holds_lock (P.m_config s) n h (P.m_caches s !! n).

Lemma step_lock s s' es n h : step s s' es -> safe s -> node_lock s n h -> node_lock s' n h.
Proof.
  intros H [Hm Ha] Hl. eapply change_lock; [by eapply step_change|done| |by intros ? ?; apply Ha|done].
  pose proof (step_expected _ _ _ H). pose proof (adv_progressed _ _ _ (step_advances _ _ _ H)).
  intros [Hg|Hg]; [left|right]; lia.
Qed.

(** ** The commit requests of a step *)
Lemma plain_commits es : Forall (fun e => plain e = true) es -> commits es = [].
Proof.
  induction 1 as [|e es He _ IH]; [done|]. unfold commits in *. simpl.
  assert (commit_of e = None) as ->; [|exact IH].
  destruct e; try done. destruct m; try done.
  simpl in *. by case_bool_decide.
Qed.

Lemma quiet_commits es : Forall (fun e => quiet e = true) es -> commits es = [].
Proof.
  intros H. apply plain_commits. eapply list.Forall_impl; [exact H|]. by intros [].
Qed.

Lemma fstep_commits f f' es i n h :
  fstep f f' es -> locked (C.f_config f) i (C.f_this f) -> (n, h) ∈ commits es ->
  n = i /\ exists p, C.m_precommit (C.f_this f) = Some p /\ PBFTMessage.hash p = h.
Proof.
  intros H L Hin. destruct H; try (by apply elem_of_nil in Hin).
  - destruct H as [_ H]. rewrite quiet_commits in Hin by done. by apply elem_of_nil in Hin.
  - precommit_fields. subst es. by apply elem_of_nil in Hin.
  - apply list_elem_of_singleton in Hin. injection Hin as -> ->.
    destruct (lk_precommit _ _ _ L _ H) as (Hcons & Hi & _).
    destruct (Hcons _ H0) as [Hpi Hph]. simpl.
    unfold PBFTMessage.index, PBFTMessage.hash in *. simpl.
    split; [congruence|]. exists p. split; [done|congruence].
  - rewrite plain_commits in Hin by done. by apply elem_of_nil in Hin.
Qed.

Lemma commits_app es es' : commits (es ++ es') = commits es ++ commits es'.
Proof. apply omap_app. Qed.

Lemma step_commits s s' es n h :
  step s s' es -> safe s -> (n, h) ∈ commits es ->
  exists c p, P.m_caches s !! n = Some c /\ C.m_precommit c = Some p /\ PBFTMessage.hash p = h.
Proof.
  intros H [Hm Ha] Hin.
  assert (Hno : forall l, commits l = [] -> (n, h) ∈ commits l -> False).
  { intros l ->. apply elem_of_nil. }
  destruct H; try (by apply elem_of_nil in Hin).
  - by apply Hno in Hin; [|apply quiet_commits, H].
  - by apply Hno in Hin; [|apply plain_commits].
  - destruct (fstep_commits _ _ _ i n h H0 (Ha _ _ H) Hin) as (-> & p & Hp & Hh). eauto.
  - rewrite commits_app in Hin. apply elem_of_app in Hin as [Hin|Hin];
      [|by apply elem_of_nil in Hin].
    by apply Hno in Hin; [|apply quiet_commits, H3].
  - pose proof (resetConfig_quiet cfg synced (P.m_config s)) as Hq. subst es.
    destruct (PBFTConfig.resetConfig cfg synced (P.m_config s)); simpl in *;
      [by apply Hno in Hin; [|apply quiet_commits]..|by apply elem_of_nil in Hin].
Qed.

(** A commit request is only sent for the proposal that is locked, and locks it. *)
Lemma step_commit_locked s s' es n h h' :
  step s s' es -> safe s -> node_lock s n h -> (n, h') ∈ commits es -> h' = h.
Proof.
  intros H Hs Hl Hin. destruct (step_commits _ _ _ _ _ H Hs Hin) as (c & p & Hc & Hp & <-).
  unfold node_lock, holds_lock in Hl. rewrite Hc in Hl.
  destruct Hl as [(p' & Hp' & Hh)|[_ Hn]]; [congruence|].
  destruct (lk_precommit _ _ _ (safe_caches _ Hs _ _ Hc) p Hp) as (_ & _ & q & Hq & _). congruence.
Qed.

Lemma step_commit_locks s s' es n h :
  step s s' es -> safe s -> (n, h) ∈ commits es -> node_lock s' n h.
Proof.
  intros H Hs Hin. eapply step_lock; [exact H|done|].
  destruct (step_commits _ _ _ _ _ H Hs Hin) as (c & p & Hc & Hp & Hh).
  unfold node_lock, holds_lock. rewrite Hc. left. eauto.
Qed.

Lemma steps_commit_locked s s' es n h h' :
  steps s s' es -> safe s -> node_lock s n h -> (n, h') ∈ commits es -> h' = h.
Proof.
  induction 1 as [|s1 s2 s3 e1 e2 H1 _ IH]; intros Hs Hl Hin; [by apply elem_of_nil in Hin|].
  rewrite commits_app in Hin. apply elem_of_app in Hin as [Hin|Hin].
  - by eapply step_commit_locked.
  - by apply IH; [eapply step_safe|eapply step_lock|].
Qed.

Lemma steps_commits_agree s s' es n h h' :
  steps s s' es -> safe s -> (n, h) ∈ commits es -> (n, h') ∈ commits es -> h = h'.
Proof.
  induction 1 as [|s1 s2 s3 e1 e2 H1 H2 IH]; intros Hs; [by intros ?%elem_of_nil|].
  rewrite commits_app. intros [Hin|Hin]%elem_of_app [Hin'|Hin']%elem_of_app.
  - destruct (step_commits _ _ _ _ _ H1 Hs Hin) as (c & p & Hc & Hp & <-).
    destruct (step_commits _ _ _ _ _ H1 Hs Hin') as (c' & p' & Hc' & Hp' & <-). congruence.
  - symmetry. eapply steps_commit_locked; [exact H2|by eapply step_safe| |exact Hin'].
    by eapply step_commit_locks.
  - eapply steps_commit_locked; [exact H2|by eapply step_safe| |exact Hin].
    by eapply step_commit_locks.
  - by apply IH; [eapply step_safe|..].
Qed.
End Lock.

(** The policy of a node that does not give up executed blocks, where [authentic from
    index hash] holds of the commit requests that may be received. *)
Definition safe_policy (ledger : LedgerConfig.t -> Prop)
    (authentic : IndexType -> BlockNumber -> HashType -> Prop) : Policy.
Proof.
  refine {| good m := consistent m /\ (PBFTMessage.packetType m = CommitPacket ->
              authentic (PBFTMessage.generatedFrom m) (PBFTMessage.index m) (PBFTMessage.hash m));
            good_ledger := ledger; rollback := False |}.
  - intros p v w ts g. split; [by intros q [= <-]|done].
  - intros m q d [H Ha] Hq. split; [|exact Ha]. intros p [= <-]. exact (H q Hq).
  - intros m H. exact H.
  - intros m n H. exact H.
  - split; [by intros p Hp|done].
Defined.

(** C2: the commit lock.  However many views a node goes through, all commit requests that it
    sends for one block number are for the same proposal, over every run of [safe_policy]:
    the node starts in a state in which the cached precommits lock their indices ([safe]:
    the state that [init] leaves, for instance), the index and hash of every pre-prepare,
    prepare, commit and checkpoint message that it takes up are those of the proposal that it carries
    - the code does not compare them -, no execution fails or comes out of order, and no
    block arrives from the synchronisation module: these are the ways in which the node
    gives up executed blocks and with them their caches. *)
Theorem commit_lock `{Ext : Externals} ledger authentic l e e' es n h h' :
  let _ := safe_policy ledger authentic in
  good_engine e -> safe (PBFTEngine.m_cacheProcessor e) ->
  inputs_ok l e -> PBFTImpl.run l e = Some (e', es) ->
  (n, h) ∈ commits es -> (n, h') ∈ commits es -> h = h'.
Proof.
  intros Pol Hg Hs Hok Hrun. destruct (run_esteps l e e' es Hok Hrun Hg) as [H _].
  eapply (steps_commits_agree (Pol := Pol)); [by intros []|by intros m []|exact H|exact Hs].
Qed.
