(* ===== verification/Agreement.v ===== *)
(** Agreement: nodes that run this code never report commit quorums for two different
    proposals of one block number, whatever a faulty minority sends. *)
From S2P Require Import Prelude Types Timer Validator Config Cache Processor LogSync Engine.
From S2P Require Import Quorum ConfigFacts CacheFacts Steps Node Growth Refine Impl Behaviour.
From S2P Require Import Invariants Votes Safety.

(** What is collected is what was added. *)
Lemma addCache_cached config index l w m l' w' h i m' :
  C.addCache config index l w m = (l', w') -> cached l' h i = Some m' ->
  cached l h i = Some m' \/ m' = m.
Proof.
  unfold C.addCache. destruct (negb _); [intros [= <- <-]; by left|].
  destruct (_ ≫= _); [intros [= <- <-]; by left|].
  destruct (PBFTConfig.getConsensusNodeByIndex _ _); intros [= <- <-]; [|by left].
  rewrite cached_insert. case_decide; [|by left]. intros [= <-]. by right.
Qed.

(** ** The commit requests in the caches *)
Section Backed.
Context `{Ext : Externals} `{Pol : Policy}.
Context (A : IndexType -> BlockNumber -> HashType -> Prop) (k : IndexType).
Context (Hgood : forall m, good m -> PBFTMessage.packetType m = CommitPacket ->
  A (PBFTMessage.generatedFrom m) (PBFTMessage.index m) (PBFTMessage.hash m)).

Definition backed (this : C.t) : Prop :=
  forall h i m, cached (C.m_commitCacheList this) h i = Some m ->
    A (PBFTMessage.generatedFrom m) (PBFTMessage.index m) (PBFTMessage.hash m).

Lemma addCommitCache_backed m f f' :
  C.addCommitCache m f = Done tt f' [] ->
  A (PBFTMessage.generatedFrom m) (PBFTMessage.index m) (PBFTMessage.hash m) ->
  backed (C.f_this f) -> backed (C.f_this f').
Proof.
  unfold C.addCommitCache, modify. destruct (C.addCache _ _ _ _ m) as [l w] eqn:E.
  intros [= <-] Hm Hb h i m' Hc. simpl in Hc.
  destruct (addCache_cached _ _ _ _ _ _ _ _ _ _ E Hc) as [Ho| ->]; [by eapply Hb|done].
Qed.

Lemma fstep_backed f f' es :
  PBFTConfig.nodeIndex (C.f_config f) = k ->
  (forall n h, (n, h) ∈ commits es -> A (u64 k) n h) ->
  fstep f f' es -> backed (C.f_this f) -> backed (C.f_this f').
Proof.
  intros Hk Hes H Hb. destruct H; simpl; try done; try (by step_fields).
  - by apply (addCommitCache_backed _ _ _ H1); [apply Hgood|].
  - precommit_fields. by rewrite Hthis.
  - apply (addCommitCache_backed _ _ _ H3); [|done].
    assert (PBFTMessage.generatedFrom m = u64 k) as -> by (rewrite <- Hk; apply u64_i64).
    apply Hes. by apply list_elem_of_singleton.
  - intros h i m Hm. change (cached (C.resetCacheAfterViewChange
      (C.m_commitCacheList (C.f_this f)) v) h i = Some m) in Hm. rewrite cached_reset in Hm.
    destruct (cached _ h i) as [m'|] eqn:E; [|done]. destruct (_ <? _); [done|].
    injection Hm as <-. by eapply Hb.
  - by subst f'.
Qed.

#[local] Instance backed_invariant :
  CacheInvariant (fun c => PBFTConfig.nodeIndex c = k)
    (fun es => forall n h, (n, h) ∈ commits es -> A (u64 k) n h)
    (fun _ _ => True) (fun _ _ this => backed this).
Proof.
  split.
  - intros c i h j m. unfold cached. simpl. by rewrite lookup_empty.
  - intros i f f' es Hk He H. by apply (fstep_backed f f' es).
  - done.
  - done.
  - done.
Qed.

(** On a node whose place among the nodes is fixed. *)
Context (L : list ConsensusNode.t) (Hledger : forall cfg, good_ledger cfg -> same_nodes L cfg).

Definition placed (s : P.t) : Prop :=
  PBFTConfig.consensusNodeList (P.m_config s) = L /\ PBFTConfig.nodeIndex (P.m_config s) = k /\
  all_caches (fun _ _ this => backed this) s.

Lemma step_placed s s' es :
  (forall n h, (n, h) ∈ commits es -> A (u64 k) n h) ->
  step s s' es -> placed s -> placed s'.
Proof.
  intros He H (Hl & Hk & Ha). pose proof (step_fixed L Hledger _ _ _ H Hl) as Hf.
  split; [by rewrite (kn_list _ _ Hf)|]. split; [by rewrite (kn_index _ _ Hf)|].
  by eapply (step_cachewise _ _ _ _ backed_invariant s s' es).
Qed.

Lemma steps_placed s s' es :
  (forall n h, (n, h) ∈ commits es -> A (u64 k) n h) ->
  steps s s' es -> placed s -> placed s'.
Proof.
  intros He H. induction H as [|s1 s2 s3 e1 e2 H1 _ IH]; [done|]. intros Hp.
  apply IH; [|eapply step_placed; [|exact H1|exact Hp]]; intros n h Hin; apply He;
    rewrite commits_app, elem_of_app; auto.
Qed.

Lemma steps_keep s s' es :
  steps s s' es -> PBFTConfig.consensusNodeList (P.m_config s) = L ->
  keeps_nodes (P.m_config s) (P.m_config s').
Proof.
  induction 1 as [s|s1 s2 s3 e1 e2 H1 _ IH]; intros Hl; [apply keeps_nodes_refl|].
  pose proof (step_fixed L Hledger _ _ _ H1 Hl) as Hf.
  eapply keeps_nodes_trans; [exact Hf|]. apply IH. by rewrite (kn_list _ _ Hf).
Qed.
End Backed.

(** ** A network *)

(** The state of a node that starts on a committed block. *)
Record fresh (L : list ConsensusNode.t) (k : IndexType) (e : E.t) : Prop := {
  fresh_queue : E.m_msgQueue e = [];
  fresh_caches : P.m_caches (E.m_cacheProcessor e) = ∅;
  fresh_marks : marks (config_of e);
  fresh_list : PBFTConfig.consensusNodeList (config_of e) = L;
  fresh_nodes : wf_nodes (config_of e);
  fresh_weight : 0 < total_weight (config_of e);
  fresh_quorum : quorum_set (config_of e);
  fresh_index : PBFTConfig.nodeIndex (config_of e) = k
}.

(** A run of every node [k] of the list outside the faulty set [F]: a commit request that names
    one of them was sent by it.  That is what signatures are meant to enforce; those of
    the wire format do not (see [Forgery]), so here it is a hypothesis. *)
Section Network.
Context `{Ext : Externals} (L : list ConsensusNode.t) (F : gset Z).
Context (inputs : IndexType -> list PBFTImpl.input) (start finish : IndexType -> E.t)
  (output : IndexType -> list Event).

Definition authentic (i : IndexType) (n : BlockNumber) (h : HashType) : Prop :=
  i ∈ F \/ (n, h) ∈ commits (output i).

Definition network_policy : Policy := safe_policy (same_nodes L) authentic.

Definition correct (k : IndexType) : Prop :=
  0 <= k < Z.of_nat (length L) /\ is_u64 k /\ (k ∉ F).

Record network : Prop := {
  net_fresh : forall k, correct k -> fresh L k (start k);
  net_inputs : forall k, correct k -> inputs_ok (Pol := network_policy) (inputs k) (start k);
  net_run : forall k, correct k -> PBFTImpl.run (inputs k) (start k) = Some (finish k, output k)
}.

Context (Hnet : network).
#[local] Instance net_policy : Policy := network_policy.

Lemma net_steps k :
  correct k -> steps (E.m_cacheProcessor (start k)) (E.m_cacheProcessor (finish k)) (output k).
Proof.
  intros Hk. apply (run_esteps (inputs k)); [by apply net_inputs|by apply net_run|].
  unfold good_engine. rewrite (fresh_queue _ _ _ (net_fresh Hnet k Hk)). constructor.
Qed.

Lemma fresh_all k I : correct k -> all_caches I (E.m_cacheProcessor (start k)).
Proof.
  intros Hk i c. rewrite (fresh_caches _ _ _ (net_fresh Hnet k Hk)). by rewrite lookup_empty.
Qed.

Lemma net_safe k : correct k -> safe (E.m_cacheProcessor (start k)).
Proof. intros Hk. split; [apply (net_fresh Hnet k Hk)|by apply fresh_all]. Qed.

(** The nodes of a commit quorum that are not faulty sent the commit requests. *)
Lemma net_commit_quorum k n this q :
  correct k -> P.m_caches (E.m_cacheProcessor (finish k)) !! n = Some this ->
  C.m_prePrepare this = Some q -> C.collectEnoughCommitReq (config_of (finish k)) this = true ->
  exists X, voters X /\
    PBFTConfig.m_minRequiredQuorum (config_of (start k)) <= voters_weight (config_of (start k)) X /\
    forall i, i ∈ X -> is_u64 i /\ ((i ∉ F) -> (n, PBFTMessage.hash q) ∈ commits (output i)).
Proof.
  intros Hk Hn Hq Hc. pose proof (net_fresh Hnet k Hk) as Hf. pose proof (net_steps k Hk) as Hsteps.
  assert (Hfair : fair L (E.m_cacheProcessor (start k))).
  { split; [apply Hf|apply Hf|by apply fresh_all]. }
  pose proof (fair_counted _ _ (steps_fair L (fun _ H => H) _ _ _ Hfair Hsteps) n this Hn) as Hcnt.
  set (A := fun i n h => authentic i n h \/ (i = u64 k /\ (n, h) ∈ commits (output k))).
  assert (Hp : placed A k L (E.m_cacheProcessor (finish k))).
  { eapply (steps_placed A k); [| |right; split; [done|exact H]|exact Hsteps|].
    - intros m [_ Hm] Ht. left. by apply Hm.
    - done.
    - split; [apply Hf|]. split; [apply Hf|]. by apply fresh_all. }
  destruct Hp as (_ & _ & Hb).
  assert (Hsafe : safe (E.m_cacheProcessor (finish k))).
  { eapply steps_safe; [by intros []|by intros m []|exact Hsteps|by apply net_safe]. }
  pose proof (lk_index _ _ _ (safe_caches _ Hsafe n this Hn)) as Hi.
  pose proof (steps_keep L (fun _ H => H) _ _ _ Hsteps (fresh_list _ _ _ Hf)) as Hkeep.
  unfold C.collectEnoughCommitReq in Hc. rewrite Hq in Hc. apply andb_true_iff in Hc as [_ Hc].
  destruct (collected_supporters _ _ _ _ _ (ct_commit _ _ Hcnt) Hc) as (HX & Hw & Hm).
  eexists. split; [exact HX|]. split.
  - unfold config_of in *. rewrite <- (kn_quorum _ _ Hkeep).
    erewrite <- voters_weight_list; [exact Hw|exact (kn_list _ _ Hkeep)].
  - intros i Hin. destruct (Hm i Hin) as (m & Hcm & <- & Hh & Hx & _).
    split; [apply u64_is_u64|]. intros HF.
    specialize (Hb n this Hn _ _ _ Hcm). rewrite Hh, Hx, Hi in Hb.
    destruct Hb as [[Hin'|Ha]|[Hk' Ha]]; [done|exact Ha|].
    destruct Hk as (_ & Hu & _). rewrite u64_id in Hk' by done. by rewrite Hk'.
Qed.

(** What the quorum is on every correct node. *)
Lemma same_quorum j k X :
  correct j -> correct k ->
  PBFTConfig.m_minRequiredQuorum (config_of (start k)) =
    PBFTConfig.m_minRequiredQuorum (config_of (start j)) /\
  voters_weight (config_of (start k)) X = voters_weight (config_of (start j)) X.
Proof.
  intros Hj Hk. pose proof (net_fresh Hnet j Hj) as Fj. pose proof (net_fresh Hnet k Hk) as Fk.
  assert (Hl : PBFTConfig.consensusNodeList (config_of (start k)) =
    PBFTConfig.consensusNodeList (config_of (start j))).
  { by rewrite (fresh_list _ _ _ Fj), (fresh_list _ _ _ Fk). }
  split; [|by apply voters_weight_list].
  destruct (fresh_quorum _ _ _ Fj) as [F1 ->], (fresh_quorum _ _ _ Fk) as [F2 ->].
  rewrite F1, F2. unfold total_weight. by rewrite Hl.
Qed.
End Network.

(** C1: agreement.  Let every node outside a set [F], whose weight is at most the
    tolerated one, run this code from a fresh state, each with its own inputs in its
    own order; [F] may send anything, but the commit requests that name another node
    come from that node.  If two of the nodes, each at some point of its run, have
    collected a commit quorum for the same block number, it is for the same proposal. *)
Theorem agreement `{Ext : Externals} L F inputs start finish output j k n this this' q q' :
  network L F inputs start finish output ->
  voters_weight (config_of (start j)) F <= PBFTConfig.m_maxFaultyQuorum (config_of (start j)) ->
  correct L F j -> correct L F k ->
  PBFTCacheProcessor.m_caches (PBFTEngine.m_cacheProcessor (finish j)) !! n = Some this ->
  PBFTCacheProcessor.m_caches (PBFTEngine.m_cacheProcessor (finish k)) !! n = Some this' ->
  PBFTCache.m_prePrepare this = Some q -> PBFTCache.m_prePrepare this' = Some q' ->
  PBFTCache.collectEnoughCommitReq (config_of (finish j)) this = true ->
  PBFTCache.collectEnoughCommitReq (config_of (finish k)) this' = true ->
  PBFTMessage.hash q = PBFTMessage.hash q'.
Proof.
  intros Hnet HF Hj Hk Hn Hn' Hq Hq' Hc Hc'.
  destruct (net_commit_quorum L F _ _ _ _ Hnet j n this q Hj Hn Hq Hc) as (X & HX & HwX & HcX).
  destruct (net_commit_quorum L F _ _ _ _ Hnet k n this' q' Hk Hn' Hq' Hc') as (Y & HY & HwY & HcY).
  destruct (same_quorum L F _ _ _ _ Hnet j k Y Hj Hk) as [Em Ew]. rewrite Em, Ew in HwY.
  pose proof (net_fresh _ _ _ _ _ _ Hnet j Hj) as Fj.
  destruct (quorum_common _ X Y F (fresh_nodes _ _ _ Fj) (fresh_weight _ _ _ Fj)
    (fresh_quorum _ _ _ Fj) HX HY HwX HwY HF) as (i & node & HiX & HiY & HiF & Hnode).
  assert (Hi : correct L F i).
  { pose proof (HX i HiX). apply getConsensusNodeByIndex_lookup in Hnode; [|done].
    rewrite (fresh_list _ _ _ Fj) in Hnode. apply lookup_lt_Some in Hnode.
    split; [lia|]. split; [by apply HcX|done]. }
  eapply (steps_commits_agree (Pol := network_policy L F output)); [by intros []|by intros m []
    |by eapply net_steps|by eapply net_safe|by apply HcX|by apply HcY].
Qed.
