(* ===== verification/Certificates.v ===== *)
(** Certificates: the stable checkpoint that a node hands to the ledger carries verifying
    signatures of a quorum of distinct nodes, so that every node that knows the same
    consensus nodes accepts the block with them. *)
From S2P Require Import Prelude Types Protobuf Codec Blocks Timer Validator Config Cache Processor LogSync Engine.
From S2P Require Import Storage Quorum BlockValidator ConfigFacts CacheFacts Steps Node Growth Refine.
From S2P Require Import Impl Behaviour Invariants Votes Safety Agreement.

(** ** The signatures that [setSignatureList] collects *)
Definition proves (x : IndexType * PBFTMessage.t) (y : Z * bytes) : Prop :=
  exists q, PBFTMessage.consensusProposal x.2 = Some q /\
    y = (i64 x.1, PBFTProposal.signature q).

Lemma appendProofs_exact l p f p' f' es :
  C.appendProofs l p f = Done p' f' es ->
  exists ps, Forall2 proves l ps /\
    PBFTProposal.nodeList p' = PBFTProposal.nodeList p ++ ps.*1 /\
    PBFTProposal.signatureList p' = PBFTProposal.signatureList p ++ ps.*2.
Proof.
  revert p p' f' es. induction l as [|[i m] l IH]; intros p p' f' es; simpl.
  { intros [= <- _ _]. exists []. by rewrite !app_nil_r. }
  destruct (PBFTMessage.consensusProposal m) as [q|] eqn:Eq; simpl; [|done].
  unfold mbind, eff_bind. simpl.
  destruct (C.appendProofs l _ f) as [p1 f1 e1|x f1 e1|] eqn:E; intros H; try discriminate.
  injection H as -> _ _. destruct (IH _ _ _ _ E) as (ps & Hps & Hn & Hs).
  exists ((i64 i, PBFTProposal.signature q) :: ps). rewrite Hn, Hs. simpl.
  rewrite <- !(assoc_L (++)). split; [|done]. constructor; [by exists q|done].
Qed.

Lemma setSignatureList_exact p l f p' f' es :
  C.setSignatureList p l f = Done p' f' es ->
  exists ps, Forall2 proves (in_order (default ∅ (l !! PBFTProposal.hash p))) ps /\
    PBFTProposal.nodeList p' = ps.*1 /\ PBFTProposal.signatureList p' = ps.*2.
Proof.
  unfold C.setSignatureList, assert_. case_bool_decide; [|done].
  unfold mbind, eff_bind. simpl. intros Ha.
  destruct (C.appendProofs _ _ f) as [p1 f1 e1|x f1 e1|] eqn:E; try discriminate.
  injection Ha as -> _ _. destruct (appendProofs_exact _ _ _ _ _ _ E) as (ps & ? & Hn & Hs).
  by exists ps.
Qed.

Lemma combine_fst_snd {A B} (l : list (A * B)) : combine l.*1 l.*2 = l.
Proof. induction l as [|[a b] l IH]; simpl; [done|]. f_equal. exact IH. Qed.

Lemma proves_elem l ps y : Forall2 proves l ps -> y ∈ ps -> exists x, x ∈ l /\ proves x y.
Proof.
  intros H Hy. apply list_elem_of_lookup in Hy as [i Hi].
  destruct (Forall2_lookup_r _ _ _ _ _ H Hi) as (x & Hx & Hp).
  exists x. split; [by eapply list_elem_of_lookup_2|done].
Qed.

Lemma proves_signers l ps :
  (forall i m, (i, m) ∈ l -> is_u64 i) -> Forall2 proves l ps -> signers ps = l.*1.
Proof.
  intros Hu H. revert Hu.
  induction H as [|[i m] y l ps (q & _ & ->) _ IH]; intros Hu; [done|].
  unfold signers in *. cbn [fmap list_fmap fst]. f_equal.
  - rewrite u64_i64. apply u64_id, (Hu i m). left.
  - apply IH. intros i' m' Hin. apply (Hu i' m'). by right.
Qed.

Section Totality.
Context `{Ext : Externals} (c : PBFTConfig.t).

(** A list of which every signature verifies is weighed. *)
Lemma signatureWeight_total hash l w :
  Forall (fun x => exists node, PBFTConfig.getConsensusNodeByIndex c (u64 x.1) = Some node /\
    verify (ConsensusNode.nodeID node) hash x.2 = true) l ->
  is_Some (BlockValidator.signatureWeight c hash l w).
Proof.
  intros H. revert w. induction H as [|[i s] l (node & Hn & Hv) _ IH]; intros w; simpl; [by eexists|].
  simpl in *. rewrite Hn, Hv. simpl. apply IH.
Qed.

Lemma signatureWeight_list c' hash l w :
  PBFTConfig.consensusNodeList c' = PBFTConfig.consensusNodeList c ->
  BlockValidator.signatureWeight c' hash l w = BlockValidator.signatureWeight c hash l w.
Proof.
  intros H. revert w. induction l as [|[i s] l IH]; intros w; simpl; [done|].
  rewrite (getConsensusNode_list c c') by done.
  destruct (PBFTConfig.getConsensusNodeByIndex c (u64 i)); [|done]. by rewrite IH.
Qed.
End Totality.

(** ** Certificates *)
Record certified `{Ext : Externals} (c : PBFTConfig.t) (p : PBFTProposal.t) : Prop := {
  cert_shape : length (PBFTProposal.nodeList p) = length (PBFTProposal.signatureList p);
  cert_distinct : NoDup (signers (PBFTProposal.signatureProofs p));
  cert_weight : exists w,
    BlockValidator.signatureWeight c (PBFTProposal.hash p) (PBFTProposal.signatureProofs p) 0 =
      Some w /\ PBFTConfig.m_minRequiredQuorum c <= w
}.

Lemma certified_keeps `{Ext : Externals} c c' p :
  PBFTConfig.consensusNodeList c' = PBFTConfig.consensusNodeList c ->
  PBFTConfig.m_minRequiredQuorum c' = PBFTConfig.m_minRequiredQuorum c ->
  certified c p -> certified c' p.
Proof.
  intros Hl Hq [H1 H2 (w & Hw & Hle)]. split; [done..|].
  exists w. by rewrite (signatureWeight_list c c'), Hq.
Qed.

(** A cached checkpoint message carries a signature of its sender on its hash. *)
Definition endorses `{Ext : Externals} (c : PBFTConfig.t) (h : HashType) (m : PBFTMessage.t) : Prop :=
  exists p node, PBFTMessage.consensusProposal m = Some p /\
    PBFTConfig.getConsensusNodeByIndex c (PBFTMessage.generatedFrom m) = Some node /\
    verify (ConsensusNode.nodeID node) h (PBFTProposal.signature p) = true.

Definition endorsed `{Ext : Externals} (c : PBFTConfig.t) (this : C.t) : Prop :=
  forall h i m, cached (C.m_checkpointCacheList this) h i = Some m -> endorses c h m.

(** This node's place in the list is that of its own key. *)
Definition knows_itself (c : PBFTConfig.t) : Prop :=
  forall node, PBFTConfig.getConsensusNodeByIndex c (u64 (PBFTConfig.nodeIndex c)) = Some node ->
    ConsensusNode.nodeID node = PBFTConfig.nodeID c.

Lemma in_order_cached (l : C.CollectionCacheType) h i m :
  (i, m) ∈ in_order (default ∅ (l !! h)) -> cached l h i = Some m.
Proof. rewrite elem_of_in_order. unfold cached. by destruct (l !! h). Qed.

(** The signatures of a collection that counts each node once certify its proposal. *)
Lemma sealed_certified `{Ext : Externals} c this p :
  wf_nodes c -> counted c this -> endorsed c this -> sealed c this p -> certified c p.
Proof.
  intros Hn Hcnt He (_ & Hp & Hq & q & f & Hsig).
  destruct (setSignatureList_key _ _ _ _ _ _ Hsig) as [_ Hh].
  destruct (setSignatureList_exact _ _ _ _ _ _ Hsig) as (ps & Hps & Hnl & Hsl).
  rewrite <- Hh in Hps. set (h := PBFTProposal.hash p) in *.
  set (l := C.m_checkpointCacheList this) in *.
  pose proof (ct_checkpoint _ _ Hcnt) as Hwf. fold l in Hwf.
  assert (Hmsg : forall i m, (i, m) ∈ in_order (default ∅ (l !! h)) ->
    PBFTMessage.generatedFrom m = i /\ endorses c h m).
  { intros i m Hin%in_order_cached. split; [by apply (wc_message _ _ _ _ Hwf) in Hin as [-> _]|].
    by eapply He. }
  assert (Hproofs : PBFTProposal.signatureProofs p = ps).
  { unfold PBFTProposal.signatureProofs. rewrite Hnl, Hsl. apply combine_fst_snd. }
  assert (Hsigners : signers ps = (in_order (default ∅ (l !! h))).*1).
  { apply proves_signers; [|done]. intros i m Hin. destruct (Hmsg i m Hin) as [<- _].
    apply u64_is_u64. }
  assert (Hnd : NoDup (signers ps)) by (rewrite Hsigners; apply NoDup_in_order).
  split; [by rewrite Hnl, Hsl, !length_fmap|by rewrite Hproofs|]. rewrite Hproofs.
  destruct (signatureWeight_total c h ps 0) as [w Hw].
  { apply list.Forall_forall. intros x Hx. destruct (proves_elem _ _ _ Hps Hx) as ([i m] & Hin & q' & Hq' & ->).
    destruct (Hmsg i m Hin) as [Hi (r & node & Hr & Hnode & Hv)]. simpl in *.
    assert (q' = r) as -> by congruence.
    exists node. rewrite u64_i64, u64_id by (rewrite <- Hi; apply u64_is_u64). by rewrite <- Hi. }
  exists w. split; [done|]. revert Hw. replace 0 with (voters_weight c ∅) by apply wset_empty.
  intros Hw. apply signatureWeight_distinct in Hw as [-> _]; [|done..| |by intros i ?%not_elem_of_empty].
  2:{ intros i _. apply not_elem_of_empty. }
  rewrite (right_id_L ∅ (∪)), Hsigners.
  assert (list_to_set (in_order (default ∅ (l !! h))).*1 = senders l h) as ->.
  { apply set_eq. intros i. rewrite elem_of_list_to_set, elem_of_senders, list_elem_of_fmap.
    unfold cached. split.
    - intros ([j m] & -> & Hin%in_order_cached). by exists m.
    - intros [m Hm]. exists (i, m). split; [done|]. apply elem_of_in_order.
      by destruct (l !! h). }
  apply (collectEnoughQuorum_sound _ _ _ _ h Hwf).
  unfold C.collectEnoughCheckpoint in Hq. by rewrite Hp in Hq.
Qed.

(** ** Every stable checkpoint of a run is certified *)
Section Attested.
Context `{Ext : Externals} `{Pol : Policy}.
Context (L : list ConsensusNode.t) (Hledger : forall cfg, good_ledger cfg -> same_nodes L cfg).
Context (Hgood : forall m, good m -> consistent m).
Context (Hsign : forall k h, verify k h (sign k h) = true).

Lemma vote_endorses c m node :
  knows_itself c -> vote c m ->
  PBFTConfig.getConsensusNodeByIndex c (PBFTMessage.generatedFrom m) = Some node ->
  endorses c (PBFTMessage.hash m) m.
Proof using Hgood Hsign.
  intros Hself [Hg Hv|p Hfrom Hp Hh Hs] Hnode.
  - unfold E.checkProposalSignature in Hv.
    destruct (PBFTMessage.consensusProposal m) as [p|] eqn:Ep; [|done].
    destruct (Hgood m Hg p Ep) as [_ Hh]. case_bool_decide; [done|].
    rewrite Hnode in Hv. exists p, node. by rewrite <- Hh.
  - exists p, node. split; [done|]. split; [done|].
    rewrite Hfrom in Hnode. by rewrite (Hself _ Hnode), <- Hh, Hs.
Qed.

Lemma endorsed_list c c' this :
  PBFTConfig.consensusNodeList c' = PBFTConfig.consensusNodeList c ->
  endorsed c this -> endorsed c' this.
Proof using Type.
  intros H He h i m Hm. destruct (He h i m Hm) as (p & node & Hp & Hn & Hv).
  exists p, node. by rewrite (getConsensusNode_list c c').
Qed.

Lemma addCheckPointMsg_endorsed m f f' :
  wf_nodes (C.f_config f) -> counted (C.f_config f) (C.f_this f) ->
  knows_itself (C.f_config f) -> vote (C.f_config f) m ->
  C.addCheckPointMsg m f = Done tt f' [] ->
  endorsed (C.f_config f) (C.f_this f) -> endorsed (C.f_config f) (C.f_this f').
Proof using Hgood Hsign.
  intros Hn Hcnt Hself Hv. unfold C.addCheckPointMsg, modify.
  pose proof (addCache_wf _ _ Hn _ _ m (ct_checkpoint _ _ Hcnt)) as Hwf.
  destruct (C.addCache _ _ _ _ m) as [l w] eqn:E. intros [= <-] He h i m' Hc. simpl in Hc.
  destruct (addCache_cached _ _ _ _ _ _ _ _ _ _ E Hc) as [Ho| ->]; [by eapply He|].
  destruct (wc_message _ _ _ _ Hwf _ _ _ Hc) as (Hi & <- & _ & node & Hnode).
  rewrite <- Hi in Hnode. by eapply vote_endorses.
Qed.

Lemma fstep_endorsed f f' es :
  wf_nodes (C.f_config f) -> knows_itself (C.f_config f) -> counted (C.f_config f) (C.f_this f) ->
  fstep f f' es -> endorsed (C.f_config f) (C.f_this f) -> endorsed (C.f_config f') (C.f_this f').
Proof using Hgood Hsign.
  intros Hn Hself Hcnt H He.
  apply (endorsed_list (C.f_config f)); [by apply kn_list, evolves_keeps, (fstep_config _ _ _ H)|].
  destruct H; simpl; try done; try (by apply (addCheckPointMsg_endorsed m f f')); try (by step_fields).
  - precommit_fields. by rewrite Hthis.
  - by subst f'.
Qed.

#[local] Instance attested_invariant :
  CacheInvariant (fun c => wf_nodes c /\ knows_itself c) (fun _ => True)
    (fun c c' => PBFTConfig.consensusNodeList c' = PBFTConfig.consensusNodeList c)
    (fun c _ this => counted c this /\ endorsed c this).
Proof using Hgood Hsign.
  split.
  - intros c i. split; [apply counted_create|]. intros h j m. unfold cached. simpl.
    by rewrite lookup_empty.
  - intros i f f' es [Hn Hself] _ H [Hc He].
    split; [by apply (fstep_counted f f' es)|by apply (fstep_endorsed f f' es)].
  - intros c this m _ _ _ [[] ?]. by split.
  - intros c i this f _ [[] ?]. by split.
  - intros c c' _ this H [Hc He]. split; [by eapply counted_list|by eapply endorsed_list].
Qed.

Record attested (s : P.t) : Prop := {
  at_fair : fair L s;
  at_self : knows_itself (P.m_config s);
  at_caches : all_caches (fun c _ this => counted c this /\ endorsed c this) s;
  at_queue : Forall (certified (P.m_config s)) (P.m_stableCheckPointQueue s)
}.

Lemma encodeHandled_queue m s r s' :
  E.encodeHandled m s = Done r s' [] ->
  P.m_stableCheckPointQueue s' = P.m_stableCheckPointQueue s.
Proof using Type.
  unfold E.encodeHandled, mbind, eff_bind. simpl.
  destruct (E.P.m_caches s !! _); simpl; by intros [= _ <-].
Qed.

Lemma addViewChangeReq_queue v :
  respects any_fault (fun s s' (_ : list Event) =>
    P.m_stableCheckPointQueue s' = P.m_stableCheckPointQueue s) (P.addViewChangeReq v).
Proof using Type.
  assert (Transition (E := Event) (fun (s s' : P.t) _ =>
    P.m_stableCheckPointQueue s' = P.m_stableCheckPointQueue s)).
  { split; [done|]. intros s1 s2 s3 e1 e2. congruence. }
  unfold P.addViewChangeReq. eff_auto; by intros s.
Qed.

(** What enters the queue of stable checkpoints is sealed. *)
Lemma step_queue s s' es p :
  step s s' es -> p ∈ P.m_stableCheckPointQueue s' ->
  p ∈ P.m_stableCheckPointQueue s \/
  exists i this, P.m_caches s !! i = Some this /\ sealed (P.m_config s) this p.
Proof using Type.
  intros H Hp. destruct H; simpl in *; try (by left).
  - left. by rewrite <- (encodeHandled_queue _ _ _ _ H).
  - apply elem_of_pq_push in Hp as [->|Hp]; [right; eauto|by left].
  - left. destruct H as [k ->]. apply elem_of_app. by right.
  - left. rewrite H. by right.
  - by apply elem_of_nil in Hp.
  - left. pose proof (addViewChangeReq_queue v s) as Hq. rewrite H in Hq. simpl in Hq.
    by rewrite <- Hq.
  - injection H as <-. by left.
Qed.

(** The events other than the hand-over of a stable checkpoint. *)
Definition no_hand_over (e : Event) : bool :=
  match e with AsyncCommitStableCheckPoint _ => false | _ => true end.
Definition certifies (c : PBFTConfig.t) (e : Event) : Prop :=
  match e with AsyncCommitStableCheckPoint p => certified c p | _ => True end.

Lemma quiet_no_hand_over es :
  Forall (fun e => quiet e = true) es -> Forall (fun e => no_hand_over e = true) es.
Proof using Type. intros H. eapply list.Forall_impl; [exact H|]. by intros []. Qed.

Lemma plain_no_hand_over es :
  Forall (fun e => plain e = true) es -> Forall (fun e => no_hand_over e = true) es.
Proof using Type. intros H. eapply list.Forall_impl; [exact H|]. by intros []. Qed.

Lemma commit_event s s' es :
  step s s' es ->
  Forall (fun e => no_hand_over e = true) es \/
  exists p rest, P.m_stableCheckPointQueue s = p :: rest /\ es = [AsyncCommitStableCheckPoint p].
Proof using Type.
  intros H. destruct H; try (by left; constructor); try (by right; eauto); left.
  - by apply quiet_no_hand_over, H.
  - by apply plain_no_hand_over.
  - destruct H0; try (by repeat constructor).
    + by apply quiet_no_hand_over, H0.
    + precommit_fields. by rewrite He.
    + by apply plain_no_hand_over.
  - apply Forall_app_2; [by apply quiet_no_hand_over, H3|by repeat constructor].
  - subst es. pose proof (resetConfig_quiet cfg synced (P.m_config s)) as Hq.
    destruct (PBFTConfig.resetConfig cfg synced (P.m_config s)); simpl in *;
      [by apply quiet_no_hand_over..|constructor].
Qed.

Lemma step_attested s s' es :
  step s s' es -> attested s ->
  attested s' /\
  Forall (certifies (P.m_config s)) es.
Proof using Hledger Hgood Hsign.
  intros H [Hf Hself Ha Hq].
  pose proof (step_fixed L Hledger _ _ _ H (fair_list _ _ Hf)) as [Kl Ki Kid Kq _].
  split; [split|].
  - by eapply step_fair.
  - intros node Hn. rewrite Ki in Hn. rewrite Kid. apply Hself.
    by rewrite (getConsensusNode_list (P.m_config s) (P.m_config s')) in Hn.
  - apply (step_cachewise _ _ _ _ attested_invariant s s' es); [|done..].
    split; [apply Hf|done].
  - apply list.Forall_forall. intros p Hp. apply (certified_keeps (P.m_config s)); [done..|].
    destruct (step_queue _ _ _ _ H Hp) as [Ho|(i & this & Hi & Hs)].
    + rewrite list.Forall_forall in Hq. by apply Hq.
    + destruct (Ha i this Hi). eapply sealed_certified; [apply Hf|done..].
  - destruct (commit_event _ _ _ H) as [He|(p & rest & Hp & ->)].
    + eapply list.Forall_impl; [exact He|]. by intros [].
    + rewrite Hp in Hq. constructor; [|constructor]. by inversion Hq.
Qed.

Lemma steps_attested s s' es :
  steps s s' es -> attested s -> Forall (certifies (P.m_config s)) es.
Proof using Hledger Hgood Hsign.
  induction 1 as [s|s1 s2 s3 e1 e2 H1 _ IH]; intros Ha; [constructor|].
  destruct (step_attested _ _ _ H1 Ha) as [H2 E1].
  pose proof (step_fixed L Hledger _ _ _ H1 (fair_list _ _ (at_fair _ Ha))) as [Kl _ _ Kq _].
  apply Forall_app_2; [done|]. eapply list.Forall_impl; [by apply IH|].
  intros [] He; try done. simpl in *. by apply (certified_keeps (P.m_config s2)).
Qed.
End Attested.

(** ** The ledger and the validator *)

Lemma lookup_combine {A B} (l : list A) (k : list B) i a b :
  combine l k !! i = Some (a, b) -> l !! i = Some a /\ k !! i = Some b.
Proof.
  revert k i. induction l as [|a' l IH]; intros [|b' k] [|i]; simpl; try done.
  - by intros [= -> ->].
  - apply IH.
Qed.

(** All the proofs of a proposal are in range when its two lists are equally long. *)
Lemma mapM_signatureProof (x : PB.PBFTProposal.t) :
  length (PB.PBFTProposal.nodeList x) = length (PB.PBFTProposal.signatureList x) ->
  mapM (PB.PBFTProposal.signatureProof x) (seq 0 (PB.PBFTProposal.signatureProofSize x)) =
  Some (combine (PB.PBFTProposal.nodeList x) (PB.PBFTProposal.signatureList x)).
Proof.
  intros Hlen. apply mapM_Some, Forall2_same_length_lookup.
  unfold PB.PBFTProposal.signatureProofSize.
  assert (Hc : length (combine (PB.PBFTProposal.nodeList x) (PB.PBFTProposal.signatureList x)) =
    length (PB.PBFTProposal.signatureList x)) by (rewrite length_combine; lia).
  split; [by rewrite length_seq, Hc|].
  intros i k [n s] Hk Hns. apply lookup_seq in Hk as [-> Hi]. simpl.
  destruct (lookup_combine _ _ _ _ _ Hns) as [Hn Hs].
  unfold PB.PBFTProposal.signatureProof. by rewrite Hn, Hs.
Qed.

(** C3: what one node commits every node accepts.  Let the node know itself, let the index and
    hash of every message that it takes up be those of the proposal that it carries
    ([consistent_policy]; the code collects checkpoint messages by their own hash and checks
    the signature on the hash of the proposal, without comparing the two, so one faulty message
    would spoil the certificate), and let the committed and synchronised blocks name the
    same consensus nodes throughout.  Then the run
    hands to the ledger only stable checkpoints that carry the
    signatures of distinct nodes, as the ledger attaches them to the block's header and
    any node with the same consensus nodes checks them: the signatures verify and weigh
    at least the required quorum.  The header decoded from the checkpoint's data is taken
    to have the checkpoint's hash, as the state machine leaves it. *)
Theorem committed_blocks_are_accepted `{Ext : Externals} `{Bl : Blocks} `{!BlockLaws}
    L ledgers l e e' es (x : PB.PBFTProposal.t) h s c' :
  (forall cfg, ledgers cfg -> same_nodes L cfg) ->
  (forall k h, verify k h (sign k h) = true) ->
  let Pol := consistent_policy ledgers in
  PBFTEngine.m_msgQueue e = [] -> attested L (PBFTEngine.m_cacheProcessor e) ->
  inputs_ok l e -> PBFTImpl.run l e = Some (e', es) ->
  AsyncCommitStableCheckPoint (PB.PBFTProposal.contents x) ∈ es ->
  createBlockHeader (PB.Proposal.data (PB.PBFTProposal.base x)) = Some h ->
  header_hash h = PB.Proposal.hash (PB.PBFTProposal.base x) ->
  PBFTConfig.consensusNodeList c' = L ->
  PBFTConfig.m_minRequiredQuorum c' = PBFTConfig.m_minRequiredQuorum (config_of e) ->
  exists h',
    LedgerStorage.asyncCommitStableCheckPoint x s =
      Done tt s [LedgerStorage.EnqueueCommit h' x] /\
    header_number h' = header_number h /\ header_hash h' = header_hash h /\
    NoDup (signers (header_signatureList h')) /\
    BlockValidator.checkSignatureList c' h' = true.
Proof.
  intros HL Hsign Pol Hq Ha Hok Hrun Hin Hh Hhash Hl Hmin.
  assert (Hg : good_engine e) by (unfold good_engine; rewrite Hq; constructor).
  destruct (run_esteps l e e' es Hok Hrun Hg) as [Hst _].
  assert (Hc : certified (config_of e) (PB.PBFTProposal.contents x)).
  { pose proof (steps_attested L HL (fun _ Hm => Hm) Hsign _ _ _ Hst Ha) as Hall.
    rewrite list.Forall_forall in Hall. exact (Hall _ Hin). }
  destruct (certified_keeps (config_of e) c' (PB.PBFTProposal.contents x)) as [Hshape Hnd (w & Hw & Hle)]; [|done|done|].
  { rewrite Hl. symmetry. apply (fair_list _ _ (at_fair _ _ Ha)). }
  simpl in Hshape. unfold LedgerStorage.asyncCommitStableCheckPoint.
  rewrite mapM_signatureProof, Hh by done. eexists. split; [reflexivity|].
  rewrite number_setSignatureList, hash_setSignatureList, signatureList_set.
  split; [done|]. split; [done|]. split; [exact Hnd|].
  unfold BlockValidator.checkSignatureList.
  rewrite hash_setSignatureList, signatureList_set, Hhash. unfold PBFTProposal.signatureProofs in Hw.
  simpl in Hw. rewrite Hw. by apply Z.leb_le.
Qed.
