(* ===== verification/FastView.v ===== *)
(** FastView: the fast view change stops.  Each round of [tryTriggerFastViewChange] moves
    the node's target view, hence the leader, on by one; after at most as many rounds as
    there are consensus nodes the leader is a connected node or the node itself. *)
From S2P Require Import Prelude Types Timer Validator Config Cache Processor LogSync Engine.
From S2P Require Import Quorum ConfigFacts Steps.

(** What decides the next leader. *)
Record same_race (c c' : PBFTConfig.t) : Prop := {
  sr_base : PBFTConfig.base c' = PBFTConfig.base c;
  sr_period : PBFTConfig.m_leaderSwitchPeriod c' = PBFTConfig.m_leaderSwitchPeriod c;
  sr_toView : PBFTConfig.m_toView c' = PBFTConfig.m_toView c
}.

Lemma same_race_refl c : same_race c c.
Proof. by split. Qed.

Definition race (c c' : PBFTConfig.t) (es : list Event) : Prop := same_race c c'.
#[export] Instance race_transition : Transition race.
Proof.
  split; [apply same_race_refl|]. intros c1 c2 c3 e1 e2 [] []. split; congruence.
Qed.

Definition node_race (s s' : P.t) (es : list Event) : Prop :=
  same_race (P.m_config s) (P.m_config s').
#[export] Instance node_race_transition : Transition node_race.
Proof.
  split; [intros s; apply same_race_refl|]. intros s1 s2 s3 e1 e2. apply (transition_trans (R := race) _ _ _ [] []).
Qed.

Section Race.
Context `{Ext : Externals}.

Lemma modify_race f : (forall c, same_race c (f c)) -> respects not_fuel race (modify f).
Proof. intros H c. apply H. Qed.

Lemma emit_race e : respects not_fuel race (emit e).
Proof. intros c. apply same_race_refl. Qed.

Lemma committedIndex_race : respects not_fuel race PBFTConfig.committedIndex.
Proof. unfold PBFTConfig.committedIndex. eff_auto. Qed.

Lemma leader_of_race c i v : respects not_fuel race (PBFTConfig.leader_of c i v).
Proof. unfold PBFTConfig.leader_of. eff_auto. Qed.

Hint Resolve committedIndex_race leader_of_race emit_race : eff.

Lemma leaderAfterViewChange_race : respects not_fuel race PBFTConfig.leaderAfterViewChange.
Proof.
  unfold PBFTConfig.leaderAfterViewChange, PBFTConfig.leaderIndexInNewViewPeriod,
    PBFTConfig.leaderIndexInNewViewPeriod_at. eff_auto.
Qed.

Lemma notifySealer_race i b : respects not_fuel race (PBFTConfig.notifySealer i b).
Proof.
  unfold PBFTConfig.notifySealer, PBFTConfig.leaderIndex, PBFTConfig.asyncNotifySealProposal.
  eff_auto; apply modify_race; intros c; by split.
Qed.

Lemma reNotifySealer_race i : respects not_fuel race (PBFTConfig.reNotifySealer i).
Proof.
  unfold PBFTConfig.reNotifySealer. eff_auto; [|apply notifySealer_race].
  apply modify_race. intros c. by split.
Qed.

Lemma notifyResetSealing_race o : respects not_fuel race (PBFTConfig.notifyResetSealing o).
Proof.
  unfold PBFTConfig.notifyResetSealing. eff_auto; apply modify_race; intros c; by split.
Qed.

Lemma zoom_race {A} (m : Eff Event PBFTConfig.t A) :
  respects not_fuel race m -> respects not_fuel node_race (zoom P.m_config m).
Proof. intros H. eapply respects_zoom; [exact H|]. by intros s c es. Qed.

Lemma on_config_race f :
  (forall c, same_race c (f c)) -> respects not_fuel node_race (P.on_config f).
Proof. intros H s. apply H. Qed.

Lemma modify_node_race f :
  (forall s, P.m_config (f s) = P.m_config s) -> respects not_fuel node_race (modify f).
Proof. intros H s. simpl. unfold node_race. rewrite H. apply same_race_refl. Qed.

Lemma emit_node_race e : respects not_fuel node_race (emit e).
Proof. intros s. apply same_race_refl. Qed.

Lemma node_committedIndex_race : respects not_fuel node_race P.committedIndex.
Proof. apply zoom_race. auto with eff. Qed.
Hint Resolve node_committedIndex_race emit_node_race : eff.

(** ** What a round does after it has moved the target view *)
Definition frame_race (f f' : C.frame) (es : list Event) : Prop :=
  same_race (C.f_config f) (C.f_config f').
#[export] Instance frame_race_transition : Transition frame_race.
Proof.
  split; [intros f; apply same_race_refl|]. intros f1 f2 f3 e1 e2.
  apply (transition_trans (R := race) _ _ _ [] []).
Qed.

Lemma modify_frame_race f :
  (forall s, C.f_config (f s) = C.f_config s) -> respects not_fuel frame_race (modify f).
Proof. intros H s. simpl. unfold frame_race. rewrite H. apply same_race_refl. Qed.

Lemma resetTxs_race d b :
  respects not_fuel race (zoom PBFTConfig.m_validator (TxsValidator.asyncResetTxsFlag d b)).
Proof.
  apply (respects_zoom _ (fun _ _ _ => True)); [|by intros c v es _].
  assert (Transition (E := Event) (fun (_ _ : TxsValidator.t) _ => True)) by by split.
  unfold TxsValidator.asyncResetTxsFlag, TxsValidator.insertResettingProposal. eff_auto; by intros v.
Qed.

Lemma resetCache_race v : respects not_fuel frame_race (C.resetCache v).
Proof.
  unfold C.resetCache, C.set_this. eff_auto; try (by apply modify_frame_race).
  eapply respects_zoom; [apply resetTxs_race|]. by intros f c es.
Qed.

Lemma on_cache_race {A} i (m : Eff Event C.frame A) :
  respects not_fuel frame_race m -> respects not_fuel node_race (P.on_cache i m).
Proof.
  intros H s. unfold P.on_cache. destruct (P.m_caches s !! i) as [c|]; [|by simpl].
  specialize (H (C.Frame (P.m_config s) c)).
  by destruct (m (C.Frame (P.m_config s) c)).
Qed.

Lemma removeInvalidViewChange_race v n : respects not_fuel node_race (P.removeInvalidViewChange v n).
Proof. intros s. apply same_race_refl. Qed.

Lemma resetCacheAfterViewChange_race v n :
  respects not_fuel node_race (P.resetCacheAfterViewChange v n).
Proof.
  unfold P.resetCacheAfterViewChange, P.removeInvalidRecoverCache.
  eff_auto; try (by apply modify_node_race).
  apply on_cache_race, resetCache_race.
Qed.

Lemma addViewChangeReq_race v : respects not_fuel node_race (P.addViewChangeReq v).
Proof. unfold P.addViewChangeReq. eff_auto; by apply modify_node_race. Qed.

(** The pre-prepares of a new view are first sent to the verifier. *)
Lemma rehandle_race m g c : respects not_fuel node_race (E.handlePrePrepareMsg m true g c).
Proof.
  unfold E.handlePrePrepareMsg, E.isSyncingHigher, E.committedIndex. simpl.
  eff_auto; try (apply zoom_race); unfold PBFTConfig.leaderIndex; eff_auto;
    try apply notifySealer_race.
  apply (respects_zoom _ (fun _ _ _ => True)); [by intros v|]. by intros c' v es _.
Qed.

Lemma tryToFillProposal_race m : respects not_fuel node_race (P.tryToFillProposal m).
Proof. unfold P.tryToFillProposal. eff_auto. Qed.

Lemma reHandlePrePrepare_race m : respects not_fuel node_race (E.reHandlePrePrepare m).
Proof.
  unfold E.reHandlePrePrepare, PBFTLogSync.requestPrecommitData, PBFTLogSync.requestPBFTData.
  eff_auto; try apply rehandle_race. apply tryToFillProposal_race.
Qed.

(** Sequencing from a given state. *)
Lemma wp_seq {A B} (m : Eff Event P.t A) (k : A -> Eff Event P.t B) s :
  wp not_fuel (m s) (fun _ s' es => node_race s s' es) ->
  (forall a s', same_race (P.m_config s) (P.m_config s') ->
     wp not_fuel (k a s') (fun _ s'' es => node_race s' s'' es)) ->
  wp not_fuel ((m ≫= k) s) (fun _ s' es => node_race s s' es).
Proof.
  intros Hm Hk. apply wp_bind. eapply wp_mono; [exact Hm|]. intros [a|x] s1 e1 H1; [|exact H1].
  eapply wp_mono; [by apply Hk|]. intros r s2 e2 H2. exact (transition_trans (R := node_race) _ _ _ [] [] H1 H2).
Qed.

Lemma generatePrePrepareMsg_race l : respects not_fuel node_race (P.generatePrePrepareMsg l).
Proof.
  unfold P.generatePrePrepareMsg. eff_auto.
  match goal with |- respects _ _ (P.prePreparesFor _ _ ?l) => generalize l end.
  intros k. induction k as [|i k IH]; simpl; unfold P.prePrepareFor; eff_auto.
Qed.

(** Entering the target view leaves it the target view. *)
Lemma resetNewViewState_race v c :
  PBFTConfig.m_toView c = v -> same_race c (PBFTConfig.resetNewViewState v c).
Proof.
  intros H. unfold PBFTConfig.resetNewViewState, PBFTConfig.resetTimer, PBFTConfig.freshTimer.
  destruct (_ <? _); [apply same_race_refl|].
  repeat (case_match; cbn -[Z.ltb] in *); by split.
Qed.

Lemma reHandlePrePrepareProposals_race m s :
  PBFTConfig.m_toView (P.m_config s) = NewViewMsg.view m ->
  wp not_fuel (E.reHandlePrePrepareProposals m s) (fun _ s' es => node_race s s' es).
Proof.
  intros Hv. unfold E.reHandlePrePrepareProposals, E.reachNewView, E.committedIndex.
  apply wp_seq.
  - apply wp_seq; [by apply resetNewViewState_race|]. intros _ s1 _.
    apply (wp_respects node_race); [|done]. eff_auto. apply resetCacheAfterViewChange_race.
  - intros _ s1 _. apply (wp_respects node_race); [|done]. eff_auto.
    + apply zoom_race, notifyResetSealing_race.
    + apply reHandlePrePrepare_race.
    + apply on_config_race. intros c. by split.
    + apply zoom_race, reNotifySealer_race.
Qed.

(** The new view message is for the target view. *)
Lemma checkAndTryIntoNewView_race s :
  is_u64 (PBFTConfig.m_toView (P.m_config s)) ->
  wp not_fuel (P.checkAndTryIntoNewView s) (fun r s' es => node_race s s' es /\
    forall m, r = inl (Some m) -> NewViewMsg.view m = PBFTConfig.m_toView (P.m_config s)).
Proof.
  intros Hu. unfold P.checkAndTryIntoNewView. apply wp_bind.
  eapply wp_respects; [apply node_committedIndex_race|].
  intros [n|x] s1 e1 H1; [|by split]. apply wp_bind. simpl.
  destruct (_ <? _); [by split|]. apply wp_bind.
  eapply (wp_respects node_race).
  { eff_auto. apply zoom_race, leaderAfterViewChange_race. }
  intros [b|x] s2 e2 H2;
    pose proof (transition_trans (R := node_race) _ _ _ [] [] H1 H2) as H12; [|by split].
  destruct b; [by split|]. destruct (P.m_viewChangeWeight s1 !! _); [|by split].
  destruct (_ <? _); [by split|]. apply wp_bind.
  destruct (PBFTConfig.committedProposal (P.m_config s1)) as [p|]; [|done]. cbn [deref].
  apply wp_bind. eapply wp_respects; [apply generatePrePrepareMsg_race|].
  intros [l|x] s3 e3 H3;
    pose proof (transition_trans (R := node_race) _ _ _ [] [] H12 H3) as H13; [|by split].
  simpl. split; [exact H13|]. intros m [= <-].
  unfold NewViewMsg.view, BaseMessage.view. simpl. rewrite u64_i64, u64_id; apply sr_toView in H1.
  - exact H1.
  - by rewrite H1.
Qed.

Lemma collectOwnViewChange_race v s :
  is_u64 (PBFTConfig.m_toView (P.m_config s)) ->
  wp not_fuel (E.collectOwnViewChange v s) (fun _ s' es => node_race s s' es).
Proof.
  intros Hu. unfold E.collectOwnViewChange. apply wp_bind.
  eapply wp_respects; [apply addViewChangeReq_race|]. intros [[]|x] s1 e1 H1; [|exact H1].
  apply wp_bind. eapply wp_mono.
  { apply checkAndTryIntoNewView_race. by rewrite (sr_toView _ _ H1). }
  intros [m|x] s2 e2 [H2 Hm]; pose proof (transition_trans (R := node_race) _ _ _ [] [] H1 H2) as H12;
    [|exact H12].
  destruct m as [m|]; [|exact H12].
  eapply wp_mono.
  { apply reHandlePrePrepareProposals_race. rewrite (Hm m eq_refl). apply (sr_toView _ _ H2). }
  intros r s3 e3 H3. exact (transition_trans (R := node_race) _ _ _ [] [] H12 H3).
Qed.

Lemma broadcastViewChangeReq_race s :
  is_u64 (PBFTConfig.m_toView (P.m_config s)) ->
  wp not_fuel (E.broadcastViewChangeReq s) (fun _ s' es => node_race s s' es).
Proof.
  intros Hu. unfold E.broadcastViewChangeReq. apply wp_bind.
  eapply (wp_respects node_race); [unfold E.generateViewChange; eff_auto|].
  intros [m|x] s1 e1 H1; [|exact H1]. apply wp_bind. simpl. apply wp_bind. simpl.
  eapply wp_mono.
  { apply collectOwnViewChange_race. by rewrite (sr_toView _ _ H1). }
  intros r s2 e2 H2. exact (transition_trans (R := node_race) _ _ _ [] [] H1 H2).
Qed.

(** ** A round moves the target view on by one *)
Definition next_race (c c' : PBFTConfig.t) : Prop :=
  PBFTConfig.base c' = PBFTConfig.base c /\
  PBFTConfig.m_leaderSwitchPeriod c' = PBFTConfig.m_leaderSwitchPeriod c /\
  PBFTConfig.m_toView c' = u64 (PBFTConfig.m_toView c + 1).

Lemma fastViewChangeHandler_race s :
  wp not_fuel (E.fastViewChangeHandler s)
    (fun _ s' _ => next_race (P.m_config s) (P.m_config s')).
Proof.
  unfold E.fastViewChangeHandler, E.triggerTimeout, E.committedIndex.
  apply wp_bind. simpl.
  set (s1 := s <| E.P.m_config := PBFTConfig.resetTimeoutState false (E.P.m_config s) |>).
  assert (Hu : is_u64 (PBFTConfig.m_toView (P.m_config s1))) by apply u64_is_u64.
  assert (H1 : next_race (P.m_config s) (P.m_config s1)) by done. clearbody s1.
  eapply wp_mono with (Q := fun _ s' es => node_race s1 s' es).
  2:{ intros r s' es []. destruct H1 as (? & ? & ?). split; [congruence|]. split; congruence. }
  apply wp_seq; [apply node_committedIndex_race|]. intros n s2 H2.
  apply wp_seq; [apply same_race_refl|]. intros s0 s3 H3.
  apply wp_seq; [apply removeInvalidViewChange_race|]. intros [] s4 H4.
  apply wp_seq.
  { apply (wp_respects node_race); [|done]. unfold P.notifyCommittedProposalIndex. eff_auto. }
  intros [] s5 H5. apply broadcastViewChangeReq_race.
  by rewrite (sr_toView _ _ H5), (sr_toView _ _ H4), (sr_toView _ _ H3), (sr_toView _ _ H2).
Qed.
End Race.

(** ** The race ends *)

(** The number that the leader of the target view is the remainder of. *)
Definition race_base (c : PBFTConfig.t) : Z :=
  u64 (PBFTConfig.progressedIndex c) / PBFTConfig.m_leaderSwitchPeriod c.
Definition target (c : PBFTConfig.t) : Z := u64 (race_base c + PBFTConfig.m_toView c).

(** The leader of the target view, and the conditions under which the race stops at a leader. *)
Definition lead (c : PBFTConfig.t) : IndexType := target c mod PBFTConfig.consensusNodesNum c.
Definition stopped (c : PBFTConfig.t) (l : IndexType) : Prop :=
  PBFTConfig.m_fastViewChangeHandler c = false \/
  PBFTConfig.m_connectedNodeList c = ∅ \/
  PBFTConfig.isConsensusNode c = false \/
  l = PBFTConfig.nodeIndex c \/
  PBFTConfig.getConsensusNodeByIndex c l = None \/
  exists node, PBFTConfig.getConsensusNodeByIndex c l = Some node /\
    ConsensusNode.nodeID node ∈ PBFTConfig.m_connectedNodeList c.

(** How many times [t] is increased until its remainder by [n] is [i]; the second case is
    that it wraps around before. *)
Definition turns (n i t : Z) : Z :=
  let d := (i - t) mod n in
  if t + d <? two64 then d else two64 - t + i.

Definition distance (c : PBFTConfig.t) : Z :=
  turns (PBFTConfig.consensusNodesNum c) (PBFTConfig.nodeIndex c) (target c).

Lemma mod_pred y n : 0 < n -> y mod n <> 0 -> (y - 1) mod n = y mod n - 1.
Proof.
  intros Hn Hd. pose proof (Z.mod_pos_bound y n Hn).
  symmetry. apply (Z.mod_unique_pos _ _ (y / n)); [lia|]. pose proof (Z.div_mod y n). lia.
Qed.

Lemma mod_zero_eq x y n : 0 <= x < n -> (x - y) mod n = 0 -> y mod n = x.
Proof.
  intros Hx Hd. apply Z.mod_divide in Hd as [k Hk]; [|lia].
  symmetry. apply (Z.mod_unique_pos _ _ (- k)); lia.
Qed.

Lemma turns_bound n i t : 0 <= i < n -> is_u64 t -> 0 <= turns n i t < 2 * n.
Proof.
  intros Hi Ht. unfold is_u64 in Ht. unfold turns.
  pose proof (Z.mod_pos_bound (i - t) n ltac:(lia)). destruct (Z.ltb_spec (t + (i - t) mod n) two64); lia.
Qed.

Lemma turns_step n i t :
  0 <= i < n -> n <= two64 -> is_u64 t -> t mod n <> i ->
  turns n i (u64 (t + 1)) = turns n i t - 1.
Proof.
  intros Hi Hn Ht Hne. unfold is_u64 in Ht.
  assert (Hd : (i - t) mod n <> 0) by (intros E; by apply Hne, mod_zero_eq).
  pose proof (Z.mod_pos_bound (i - t) n ltac:(lia)) as Hb.
  destruct (Z.eq_dec (t + 1) two64) as [E|E].
  - rewrite E. change (u64 two64) with 0. unfold turns. rewrite Z.sub_0_r, Z.mod_small by lia.
    destruct (Z.ltb_spec (0 + i) two64), (Z.ltb_spec (t + (i - t) mod n) two64); lia.
  - rewrite u64_id by (unfold is_u64; lia). unfold turns.
    replace (i - (t + 1)) with (i - t - 1) by lia. rewrite mod_pred by lia.
    replace (t + 1 + ((i - t) mod n - 1)) with (t + (i - t) mod n) by lia.
    destruct (Z.ltb_spec (t + (i - t) mod n) two64); lia.
Qed.

(** A node of the list. *)
Record racing (c : PBFTConfig.t) : Prop := {
  rc_num : 0 < PBFTConfig.consensusNodesNum c <= two64;
  rc_node : PBFTConfig.isConsensusNode c = true ->
    0 <= PBFTConfig.nodeIndex c < PBFTConfig.consensusNodesNum c
}.

(** [t'] is [t] after at most [b] increments. *)
Definition moved (b t t' : Z) : Prop := exists k, 0 <= k <= b /\ u64 t' = u64 (t + k).

Lemma moved_refl b t : 0 <= b -> moved b t t.
Proof. intros Hb. exists 0. split; [lia|]. by rewrite Z.add_0_r. Qed.

Lemma moved_next b t t' : moved b (u64 (t + 1)) t' -> moved (b + 1) t t'.
Proof.
  intros (k & Hk & E). exists (k + 1). split; [lia|]. rewrite E, u64_add_l. f_equal. lia.
Qed.

Lemma moved_weaken b b' t t' : b <= b' -> moved b t t' -> moved b' t t'.
Proof. intros Hb (k & Hk & E). exists k. split; [lia|done]. Qed.

Lemma next_race_racing c c' :
  next_race c c' ->
  target c' = u64 (target c + 1) /\ PBFTConfig.nodeIndex c' = PBFTConfig.nodeIndex c /\
  PBFTConfig.consensusNodesNum c' = PBFTConfig.consensusNodesNum c /\
  PBFTConfig.isConsensusNode c' = PBFTConfig.isConsensusNode c /\ (racing c -> racing c').
Proof.
  intros (B & Q & V).
  assert (T : target c' = u64 (target c + 1)).
  { unfold target, race_base, PBFTConfig.progressedIndex. rewrite B, Q, V.
    rewrite u64_add_l, u64_add_r. f_equal. lia. }
  unfold PBFTConfig.nodeIndex, PBFTConfig.consensusNodesNum, PBFTConfig.isConsensusNode.
  rewrite B. do 4 (split; [done|]).
  intros [Hn Hi]. split; unfold PBFTConfig.nodeIndex, PBFTConfig.consensusNodesNum,
    PBFTConfig.isConsensusNode in *; by rewrite B.
Qed.

Lemma same_race_racing c c' :
  same_race c c' ->
  PBFTConfig.m_toView c' = PBFTConfig.m_toView c /\
  PBFTConfig.consensusNodesNum c' = PBFTConfig.consensusNodesNum c /\
  PBFTConfig.consensusNodeList c' = PBFTConfig.consensusNodeList c /\ (racing c -> racing c').
Proof.
  intros [B Q V]. unfold PBFTConfig.consensusNodesNum, PBFTConfig.consensusNodeList. rewrite B.
  do 3 (split; [done|]). intros [Hn Hi].
  split; unfold PBFTConfig.nodeIndex, PBFTConfig.consensusNodesNum, PBFTConfig.isConsensusNode in *;
    by rewrite B.
Qed.

Lemma same_race_moved c c' n :
  same_race c c' -> 0 <= n -> moved n (PBFTConfig.m_toView c) (PBFTConfig.m_toView c').
Proof. intros H Hn. rewrite (sr_toView _ _ H). by apply moved_refl. Qed.

Lemma freshTimer_race c : same_race c (PBFTConfig.freshTimer c).
Proof. unfold PBFTConfig.freshTimer. by destruct (0 <? _). Qed.

Section Termination.
Context `{Ext : Externals}.
Notation race_from fuel l := (PBFTConfig.tryTriggerFastViewChange P.m_config E.fastViewChangeHandler fuel l).
Notation toView s := (PBFTConfig.m_toView (P.m_config s)).

(** Where the race ends when it does not end in an exception. *)
Definition ended (b : Z) (s : P.t) (r : bool + exn) (s' : P.t) : Prop :=
  moved b (toView s) (toView s') /\
  forall x, r = inl x -> stopped (P.m_config s') (lead (P.m_config s')).

(** One round: the race stops, or it goes on from the next leader. *)
Lemma race_round fuel l s b :
  0 <= b ->
  (PBFTConfig.isConsensusNode (P.m_config s) = true -> l <> PBFTConfig.nodeIndex (P.m_config s) ->
   forall s', next_race (P.m_config s) (P.m_config s') ->
     0 < b /\
     wp not_fuel (race_from fuel (lead (P.m_config s')) s') (fun r s'' _ => ended (b - 1) s' r s'')) ->
  wp not_fuel (race_from (S fuel) l s)
    (fun r s' _ => (s' = s /\ stopped (P.m_config s) l) \/ ended b s r s').
Proof.
  intros Hb Hk. cbn [PBFTConfig.tryTriggerFastViewChange]. apply wp_bind. simpl.
  unfold stopped at 1.
  destruct (PBFTConfig.m_fastViewChangeHandler _); simpl; [|by simpl; auto 10].
  case_bool_decide as Hemp; [by simpl; auto 10|].
  destruct (PBFTConfig.isConsensusNode (P.m_config s)) eqn:Ec; simpl; [|by simpl; auto 10].
  destruct (Z.eqb_spec l (PBFTConfig.nodeIndex (P.m_config s))) as [|n]; [by simpl; auto 10|].
  destruct (PBFTConfig.getConsensusNodeByIndex (P.m_config s) l) as [node|]; [|by simpl; auto 10].
  case_bool_decide; [by left; split; [|right; right; right; right; right; exists node]|].
  specialize (Hk eq_refl n). apply wp_bind.
  eapply wp_mono; [apply fastViewChangeHandler_race|]. intros r s1 e1 Hn. simpl.
  destruct (Hk s1 Hn) as [Hpos Hnext]. pose proof (proj2 (proj2 Hn)) as Hv.
  assert (Hback : forall w, moved (b - 1) (toView s1) w -> moved b (toView s) w).
  { rewrite Hv. intros w Hw. apply moved_next in Hw. by rewrite Z.sub_add in Hw. }
  destruct r as [[]|x]; [|by right; split; [apply Hback, moved_refl; lia|]].
  apply wp_bind. simpl. apply wp_bind.
  unfold PBFTConfig.leaderIndexInNewViewPeriod, PBFTConfig.leaderIndexInNewViewPeriod_at,
    PBFTConfig.leader_of, zoom, mbind, eff_bind. simpl.
  destruct ((_ =? 0) || _); simpl; [done|].
  replace (s1 <| P.m_config := P.m_config s1 |>) with s1 by by destruct s1.
  eapply wp_mono; [exact Hnext|]. intros r s2 e2 [Hm Hs]. right. split; [by apply Hback|exact Hs].
Qed.

Lemma anyInConsensus_race l : respects not_fuel node_race (P.anyInConsensus l).
Proof.
  induction l as [|i l IH]; simpl; [by apply respects_ret, _|]. eff_auto.
  apply on_cache_race. unfold C.shouldStopTimer. eff_auto.
  eapply respects_zoom; [apply committedIndex_race|]. by intros f c es.
Qed.

(** From the leader of the target view the race ends within the distance. *)
Lemma race_ends fuel s b :
  let c := P.m_config s in
  racing c -> 0 <= b < Z.of_nat fuel ->
  (PBFTConfig.isConsensusNode c = true -> distance c <= b) ->
  wp not_fuel (race_from fuel (lead c) s) (fun r s' _ => ended b s r s').
Proof.
  revert s b. induction fuel as [|fuel IH]; intros s b c Hr Hb Hd; [lia|].
  eapply wp_mono; [apply (race_round _ _ _ b); [lia|]|].
  2:{ intros r s' es [[-> Hs]|He]; [|exact He]. split; [apply moved_refl; lia|by intros _ _]. }
  fold c. intros Hc Hl s' Hn. specialize (Hd Hc).
  destruct (next_race_racing c (P.m_config s') Hn) as (Ht & Hi & Hnum & Hcons & Hr').
  destruct Hr as [[Hpos Hmax] Hnode]. specialize (Hnode Hc).
  assert (Hstep : distance (P.m_config s') = distance c - 1).
  { unfold distance. rewrite Ht, Hi, Hnum. apply turns_step; [done..|apply u64_is_u64|done]. }
  pose proof (turns_bound _ _ (target (P.m_config s')) Hnode (u64_is_u64 _)) as H0.
  unfold distance in Hstep at 1. rewrite Hi, Hnum in Hstep.
  split; [lia|]. apply IH; [by apply Hr'; split|lia|].
  intros _. unfold distance. rewrite Hi, Hnum. lia.
Qed.

(** How far the race can go: one turn, unless the target wraps around on the way. *)
Definition reach (c : PBFTConfig.t) : Z :=
  if target c + PBFTConfig.consensusNodesNum c <? two64 then PBFTConfig.consensusNodesNum c
  else 2 * PBFTConfig.consensusNodesNum c.

Lemma reach_bound c :
  0 < PBFTConfig.consensusNodesNum c ->
  0 < reach c <= 2 * PBFTConfig.consensusNodesNum c.
Proof. intros H. unfold reach. destruct (_ <? _); lia. Qed.

Lemma turns_reach c :
  0 <= PBFTConfig.nodeIndex c < PBFTConfig.consensusNodesNum c ->
  turns (PBFTConfig.consensusNodesNum c) (PBFTConfig.nodeIndex c) (u64 (target c + 1)) <= reach c - 1.
Proof.
  intros Hi. pose proof (turns_bound _ _ (u64 (target c + 1)) Hi (u64_is_u64 _)) as Hb.
  unfold reach. destruct (Z.ltb_spec (target c + PBFTConfig.consensusNodesNum c) two64) as [H|H];
    [|lia].
  assert (Ht : is_u64 (target c)) by apply u64_is_u64. unfold is_u64 in Ht.
  rewrite u64_id by (unfold is_u64; lia). unfold turns.
  pose proof (Z.mod_pos_bound (PBFTConfig.nodeIndex c - (target c + 1))
    (PBFTConfig.consensusNodesNum c) ltac:(lia)).
  destruct (Z.ltb_spec (target c + 1 + (PBFTConfig.nodeIndex c - (target c + 1)) mod
    PBFTConfig.consensusNodesNum c) two64); lia.
Qed.

(** From any leader, with the fuel of [resetTimer]. *)
Lemma race_from_any l s :
  let c := P.m_config s in
  racing c -> PBFTConfig.consensusNodesNum c = Z.of_nat (length (PBFTConfig.consensusNodeList c)) ->
  wp not_fuel (race_from (P.fastViewChangeFuel s) l s)
    (fun r s' _ => s' = s \/ ended (reach c) s r s').
Proof.
  intros c Hr Hnum. pose proof (rc_num _ Hr) as Hpos. unfold P.fastViewChangeFuel.
  pose proof (reach_bound c ltac:(lia)) as Hreach.
  eapply wp_mono; [apply (race_round _ _ _ (reach c)); [lia|]|].
  2:{ intros r s' es [[-> _]|He]; by auto. }
  intros Hc Hl s' Hn. split; [lia|].
  destruct (next_race_racing c (P.m_config s') Hn) as (Ht & Hi & Hnum' & _ & Hr').
  apply race_ends; [by apply Hr'|fold c; lia|]. intros _. unfold distance.
  rewrite Hi, Hnum', Ht. apply turns_reach, (rc_node _ Hr Hc).
Qed.

(** The race of [resetTimer]: it may stop at once, at the leader that the node waits for. *)
Definition ended_or_idle (s : P.t) (r : unit + exn) (s' : P.t) : Prop :=
  toView s' = toView s \/
  moved (reach (P.m_config s)) (toView s) (toView s') /\
  (r = inl tt -> stopped (P.m_config s') (lead (P.m_config s'))).

Lemma resetTimer_ends s :
  let c := P.m_config s in
  racing c ->
  PBFTConfig.consensusNodesNum c = Z.of_nat (length (PBFTConfig.consensusNodeList c)) ->
  wp not_fuel (P.resetTimer E.fastViewChangeHandler s) (fun r s' _ => ended_or_idle s r s').
Proof.
  intros c Hr Hnum. unfold PBFTCacheProcessor.resetTimer.
  apply wp_bind. simpl. apply wp_bind. eapply wp_respects; [apply anyInConsensus_race|].
  intros [b|x] s1 e1 H1; [|left; apply (sr_toView _ _ H1)].
  destruct b.
  { apply (wp_respects node_race).
    - unfold P.on_timer. eff_auto. apply on_config_race. intros c1. by split.
    - intros r s2 e2 H2. left.
      exact (sr_toView _ _ (transition_trans (R := node_race) s s1 s2 [] [] H1 H2)). }
  apply wp_bind. simpl.
  set (s2 := s1 <| P.m_config := PBFTConfig.freshTimer (P.m_config s1) |>).
  assert (H2 : same_race c (P.m_config s2)).
  { eapply (transition_trans (R := race) _ _ _ [] []); [exact H1|]. apply freshTimer_race. }
  clearbody s2. apply wp_bind. eapply wp_respects.
  { apply zoom_race. unfold PBFTConfig.getLeader, PBFTConfig.leaderIndex. eff_auto. apply leader_of_race. }
  intros [leader|x] s3 e3 H3; pose proof (transition_trans (R := race) _ _ _ [] [] H2 H3) as H23;
    [|left; apply (sr_toView _ _ H23)].
  apply wp_bind. simpl. apply wp_bind.
  destruct (same_race_racing c (P.m_config s3) H23) as (Ev & En & El & Er).
  assert (Et : target (P.m_config s3) = target c).
  { unfold target, race_base, PBFTConfig.progressedIndex.
    by rewrite Ev, (sr_base _ _ H23), (sr_period _ _ H23). }
  eapply wp_mono; [apply race_from_any; [by apply Er|by rewrite En, El]|].
  assert (Hreach : reach (P.m_config s3) = reach c) by (unfold reach; by rewrite Et, En).
  intros r s4 e4 [-> |[Hm Hs]]; [destruct r; left; exact Ev|]. rewrite Hreach, Ev in Hm.
  destruct r as [b|x]; right; (split; [exact Hm|]); [intros _; by apply (Hs b)|done].
Qed.
End Termination.

(** C32: the fast view change terminates.  Whatever leaders are disconnected, resetting
    the timer of a node ends without using up the recursion depth - two more than twice
    the number of consensus nodes - although every round broadcasts a view change and
    may enter the new view.  Either the target view is as before, or it has moved on by at
    most the number of consensus nodes - by at most twice that number, where the
    64-bit sum that the leader is computed from wraps around on the way - and, unless a
    round threw an exception, the race has stopped at the leader of the new target
    view: because the node has no connected peers, no handler or is no consensus node, or
    because that leader is the node itself, is not in the list or is connected. *)
Theorem fast_view_change_terminates `{Ext : Externals} s :
  let c := PBFTCacheProcessor.m_config s in
  racing c ->
  PBFTConfig.consensusNodesNum c = Z.of_nat (length (PBFTConfig.consensusNodeList c)) ->
  wp not_fuel (PBFTCacheProcessor.resetTimer PBFTEngine.fastViewChangeHandler s)
    (fun r s' _ =>
       let c' := PBFTCacheProcessor.m_config s' in
       exists k, 0 <= k <= 2 * PBFTConfig.consensusNodesNum c /\
         u64 (PBFTConfig.m_toView c') = u64 (PBFTConfig.m_toView c + k) /\
         (target c + PBFTConfig.consensusNodesNum c < two64 -> k <= PBFTConfig.consensusNodesNum c) /\
         (0 < k -> r = inl tt -> stopped c' (lead c'))).
Proof.
  intros c Hr Hnum. pose proof (reach_bound c (proj1 (rc_num _ Hr))) as Hb.
  eapply wp_mono; [by apply resetTimer_ends|]. intros r s' es [Hv|[(k & Hk & Ev) Hs]].
  - exists 0. rewrite Hv, Z.add_0_r. repeat split; lia.
  - exists k. fold c in Hk, Ev. split; [lia|]. split; [exact Ev|]. split; [|by intros _].
    intros H%Z.ltb_lt. unfold reach in Hk. rewrite H in Hk. lia.
Qed.
