(* ===== verification/Sane.v ===== *)
(** Sane: what a state, the messages in it and the packets it meets must be like for the
    code not to fault - a committed proposal, node list, leader period and quorum in the
    configuration; proposals behind the pointers of the caches; signers in the list of
    nodes - and that the configuration and the caches keep it and send nothing else. *)
From S2P Require Import Prelude Types Timer Validator Config Cache Processor LogSync Engine.
From S2P Require Import Quorum ConfigFacts CacheFacts Steps.

(** [N] is the number of consensus nodes, in every configuration of the ledger. *)
Section Sane.
Context `{Ext : Externals} (N : nat).

(** Every signature of the proposal has a signer. *)
Definition balanced (p : PBFTProposal.t) : Prop :=
  (length (PBFTProposal.signatureList p) <= length (PBFTProposal.nodeList p))%nat.

Definition member (i : IndexType) : Prop := 0 <= i < Z.of_nat N.

Record sane_config (c : PBFTConfig.t) : Prop := {
  sc_committed : exists p, PBFTConfig.committedProposal c = Some p /\ balanced p;
  sc_period : 0 < PBFTConfig.m_leaderSwitchPeriod c;
  sc_list : length (PBFTConfig.consensusNodeList c) = N;
  sc_num : PBFTConfig.consensusNodesNum c = Z.of_nat N;
  sc_some : 0 < Z.of_nat N < NON_CONSENSUS_NODE;
  sc_index : PBFTConfig.isConsensusNode c = true -> member (PBFTConfig.nodeIndex c);
  sc_quorum : 0 < PBFTConfig.m_minRequiredQuorum c
}.

(** A pre-prepare that may be cached: a cached pre-prepare becomes a prepared proposal,
    whose base message is decoded from the hash fields. *)
Definition sane_fields (m : PBFTMessage.t) : Prop :=
  forall b, PBFTMessage.hashFieldsData m = Some b -> member (BaseMessage.generatedFrom b).

Record sane_prePrepare (m : PBFTMessage.t) : Prop := {
  sp_proposal : exists p, PBFTMessage.consensusProposal m = Some p /\
    PBFTProposal.hash p = PBFTMessage.hash m;
  sp_fields : sane_fields m
}.

(** A prepared proposal whose proofs can be checked. *)
Definition checkable (m : PBFTMessage.t) : Prop :=
  forall p, PBFTMessage.consensusProposal m = Some p -> balanced p.

(** A prepared proposal in a view change that has been accepted. *)
Record sane_prepared (m : PBFTMessage.t) : Prop := {
  sq_proposal : is_Some (PBFTMessage.consensusProposal m);
  sq_from : member (PBFTMessage.generatedFrom m);
  sq_fields : sane_fields m;
  sq_checkable : checkable m
}.

Record sane_viewChange (v : ViewChangeMsg.t) : Prop := {
  sv_from : member (ViewChangeMsg.generatedFrom v);
  sv_committed : is_Some (ViewChangeMsg.committedProposal v);
  sv_prepared : Forall sane_prepared (ViewChangeMsg.preparedProposals v)
}.

(** A pre-prepare of a new view: its hash fields are encoded. *)
Record sane_reproposal (m : PBFTMessage.t) : Prop := {
  sr_prePrepare : sane_prePrepare m;
  sr_from : member (PBFTMessage.generatedFrom m);
  sr_base : PBFTMessage.base m = default BaseMessage.empty (PBFTMessage.hashFieldsData m)
}.

(** ** Packets and events *)

(** What is taken for granted of packets.  A pre-prepare carries the proposal that it names,
    if any. *)
Record prePrepare_wire (m : PBFTMessage.t) : Prop := {
  pw_hash : forall p, PBFTMessage.consensusProposal m = Some p ->
    PBFTProposal.hash p = PBFTMessage.hash m;
  pw_fields : sane_fields m
}.

(** A prepared proposal of a view change: signers for its signatures, and a sender that is
    a consensus node, in the message and in its hash fields. *)
Definition prepared_wire (m : PBFTMessage.t) : Prop :=
  checkable m /\ member (PBFTMessage.generatedFrom m) /\ sane_fields m.

Record viewChange_wire (v : ViewChangeMsg.t) : Prop := {
  vw_committed : is_Some (ViewChangeMsg.committedProposal v);
  vw_prepared : Forall prepared_wire (ViewChangeMsg.preparedProposals v)
}.

(** The object has the type that the packet type announces, which is what the codec
    gives; the pre-prepares of a new view have a proposal and a sender. *)
Definition sane_msg (m : Msg) : Prop :=
  match msg_packetType m, m with
  | PrePreparePacket, MPBFT m => prePrepare_wire m
  | ViewChangePacket, MViewChange v => viewChange_wire v
  | PreparedProposalResponse, MViewChange v =>
      length (ViewChangeMsg.preparedProposals v) = 1%nat /\
      Forall checkable (ViewChangeMsg.preparedProposals v)
  | NewViewPacket, MNewView n =>
      Forall viewChange_wire (NewViewMsg.viewChangeMsgList n) /\
      Forall sane_reproposal (NewViewMsg.prePrepareList n)
  | (CommittedProposalRequest | PreparedProposalRequest), MRequest _ => True
  | (PreparePacket | CommitPacket | CheckPoint | RecoverRequest
     | RecoverResponse | CommittedProposalResponse), MPBFT _ => True
  | _, _ => False
  end.

(** The peer that a received message comes from, which the front service sets. *)
Definition msg_from (m : Msg) : option NodeID :=
  match m with
  | MPBFT m => PBFTMessage.from m
  | MViewChange m => ViewChangeMsg.from m
  | MNewView m => NewViewMsg.from m
  | MRequest m => PBFTRequest.from m
  end.

Definition sane_wire (d : Wire) : Prop :=
  match d with Packet m => sane_msg m | _ => True end.

(** The packets that an event sends, and what its callback gets back: the message, or the
    peer, whose name is logged. *)
Definition sane_event (e : Event) : Prop :=
  match e with
  | SendMessageByNodeIDs _ m | SendMessageByNodeID _ m | SendResponse (Some m) => sane_msg m
  | RequestPBFTData _ req (OnRecvPrecommitResponse m) => sane_msg (MRequest req) /\ sane_prePrepare m
  | RequestPBFTData _ req _ => sane_msg (MRequest req)
  | VerifyProposal _ _ (OnPrePrepareVerified m _) => sane_prePrepare m
  | VerifyProposal _ _ (OnProposalVerified from _ _) => is_Some from
  | EnqueueRequest m => exists r, m = MRequest r
  | _ => True
  end.

(** ** The state *)

(** A proposal with weight has messages. *)
Definition covered (l : C.CollectionCacheType) (w : C.QuorumRecoderType) : Prop :=
  forall h, 0 < default 0 (w !! h) -> is_Some (l !! h).
Definition with_proposals (l : C.CollectionCacheType) : Prop :=
  forall h i m, cached l h i = Some m -> is_Some (PBFTMessage.consensusProposal m).

Record sane_cache (this : C.t) : Prop := {
  sk_prepares : with_proposals (C.m_prepareCacheList this);
  sk_checkpoints : with_proposals (C.m_checkpointCacheList this);
  sk_prepared : covered (C.m_prepareCacheList this) (C.m_prepareReqWeight this);
  sk_stable : covered (C.m_checkpointCacheList this) (C.m_checkpointCacheWeight this);
  sk_prePrepare : forall m, C.m_prePrepare this = Some m -> sane_prePrepare m;
  sk_precommit : forall m, C.m_precommit this = Some m ->
    (exists p, PBFTMessage.consensusProposal m = Some p /\ balanced p) /\
    is_Some (C.m_prePrepare this);
  sk_withoutData : forall m, C.m_precommitWithoutData this = Some m -> sane_prepared m
}.

Definition sane_frame (f : C.frame) : Prop :=
  sane_config (C.f_config f) /\ sane_cache (C.f_this f).

(** The node, with a cache for every index in [D]. *)
Record sane_node (D : BlockNumber -> Prop) (s : P.t) : Prop := {
  sn_config : sane_config (P.m_config s);
  sn_caches : forall i this, P.m_caches s !! i = Some this -> sane_cache this;
  sn_viewChanges : forall v l k m, P.m_viewChangeCache s !! v = Some l -> l !! k = Some m ->
    sane_viewChange m;
  sn_indices : forall i, D i -> is_Some (P.m_caches s !! i)
}.

Notation config_ok := (keeps no_fault sane_event sane_config).

(** A change of fields that [sane_config] does not mention. *)
Lemma config_modify f :
  (forall c, PBFTConfig.committedProposal (f c) = PBFTConfig.committedProposal c /\
     PBFTConfig.consensusNodeList (f c) = PBFTConfig.consensusNodeList c /\
     PBFTConfig.consensusNodesNum (f c) = PBFTConfig.consensusNodesNum c /\
     PBFTConfig.nodeIndex (f c) = PBFTConfig.nodeIndex c /\
     PBFTConfig.m_leaderSwitchPeriod (f c) = PBFTConfig.m_leaderSwitchPeriod c /\
     PBFTConfig.m_minRequiredQuorum (f c) = PBFTConfig.m_minRequiredQuorum c) ->
  forall c, sane_config c -> sane_config (f c).
Proof.
  intros H c [H1 H2 H3 H4 H5 H6 H7]. destruct (H c) as (Ec & El & En & Ei & Q & W).
  unfold PBFTConfig.isConsensusNode, ConsensusConfig.isConsensusNode in *.
  fold (PBFTConfig.nodeIndex c) in H6.
  split; unfold PBFTConfig.isConsensusNode, ConsensusConfig.isConsensusNode;
    fold (PBFTConfig.nodeIndex (f c)); by rewrite ?Ec, ?El, ?En, ?Ei, ?Q, ?W.
Qed.

Lemma node_of_list c i :
  sane_config c -> member i -> is_Some (PBFTConfig.getConsensusNodeByIndex c i).
Proof.
  intros Hc [Hi Hlt]. unfold PBFTConfig.getConsensusNodeByIndex,
    ConsensusConfig.getConsensusNodeByIndex. pose proof (sc_list _ Hc) as Hl.
  unfold PBFTConfig.consensusNodeList in Hl. rewrite Hl.
  rewrite (proj2 (Z.ltb_lt _ _) Hlt). apply lookup_lt_is_Some. lia.
Qed.

Lemma member_of_node c i node :
  sane_config c -> 0 <= i -> PBFTConfig.getConsensusNodeByIndex c i = Some node -> member i.
Proof.
  intros Hc Hi. unfold PBFTConfig.getConsensusNodeByIndex, ConsensusConfig.getConsensusNodeByIndex.
  pose proof (sc_list _ Hc) as Hl. unfold PBFTConfig.consensusNodeList in Hl. rewrite Hl.
  destruct (Z.ltb_spec i (Z.of_nat N)); [|done]. by split.
Qed.

(** ** The configuration *)
Ltac config_fields := apply keeps_modify, config_modify; intros ?; by repeat split.

Lemma committed_some c : sane_config c -> is_Some (PBFTConfig.committedProposal c).
Proof. intros [(p & Hp & _) _ _ _ _ _ _]. by exists p. Qed.

Lemma committedIndex_config : config_ok PBFTConfig.committedIndex.
Proof. unfold PBFTConfig.committedIndex. keep_auto. by apply committed_some. Qed.

Lemma leader_of_config c i v : sane_config c -> config_ok (PBFTConfig.leader_of c i v).
Proof.
  intros Hc. unfold PBFTConfig.leader_of. pose proof (sc_period _ Hc). pose proof (sc_num _ Hc).
  pose proof (sc_some _ Hc). destruct (Z.eqb_spec (PBFTConfig.m_leaderSwitchPeriod c) 0),
    (Z.eqb_spec (PBFTConfig.consensusNodesNum c) 0); simpl; first [lia|apply keeps_ret].
Qed.
Hint Resolve committedIndex_config leader_of_config committed_some : keep.

Lemma leaderIndex_config i : config_ok (PBFTConfig.leaderIndex i).
Proof. unfold PBFTConfig.leaderIndex. keep_auto. Qed.
Lemma leaderIndexInNewViewPeriod_at_config i v :
  config_ok (PBFTConfig.leaderIndexInNewViewPeriod_at i v).
Proof. unfold PBFTConfig.leaderIndexInNewViewPeriod_at. keep_auto. Qed.
Hint Resolve leaderIndex_config leaderIndexInNewViewPeriod_at_config : keep.
Lemma leaderIndexInNewViewPeriod_config v : config_ok (PBFTConfig.leaderIndexInNewViewPeriod v).
Proof. unfold PBFTConfig.leaderIndexInNewViewPeriod. keep_auto. Qed.
Lemma getLeader_config : config_ok PBFTConfig.getLeader.
Proof. unfold PBFTConfig.getLeader. keep_auto. Qed.
Hint Resolve leaderIndexInNewViewPeriod_config getLeader_config : keep.
Lemma leaderAfterViewChange_config : config_ok PBFTConfig.leaderAfterViewChange.
Proof. unfold PBFTConfig.leaderAfterViewChange. keep_auto. Qed.

Lemma canHandleNewProposalMsg_config i : config_ok (PBFTConfig.canHandleNewProposalMsg i).
Proof. unfold PBFTConfig.canHandleNewProposalMsg. keep_auto. Qed.
Lemma asyncNotifySealProposal_config i j m r :
  config_ok (PBFTConfig.asyncNotifySealProposal i j m r).
Proof. unfold PBFTConfig.asyncNotifySealProposal. keep_auto. Qed.
Hint Resolve leaderAfterViewChange_config canHandleNewProposalMsg_config
  asyncNotifySealProposal_config : keep.
Lemma onSealProposalNotified_config e i j m r :
  config_ok (PBFTConfig.onSealProposalNotified e i j m r).
Proof. unfold PBFTConfig.onSealProposalNotified. keep_auto. Qed.
Lemma notifySealer_config i b : config_ok (PBFTConfig.notifySealer i b).
Proof. unfold PBFTConfig.notifySealer. keep_auto; config_fields. Qed.
Hint Resolve notifySealer_config onSealProposalNotified_config : keep.
Lemma reNotifySealer_config i : config_ok (PBFTConfig.reNotifySealer i).
Proof. unfold PBFTConfig.reNotifySealer. keep_auto; config_fields. Qed.
Lemma notifyResetSealing_config i : config_ok (PBFTConfig.notifyResetSealing i).
Proof. unfold PBFTConfig.notifyResetSealing. keep_auto; config_fields. Qed.
Hint Resolve reNotifySealer_config notifyResetSealing_config : keep.
Lemma onSealerReset_config e i n : config_ok (PBFTConfig.onSealerReset e i n).
Proof. unfold PBFTConfig.onSealerReset. keep_auto. Qed.
Lemma setExpectedCheckPoint_config i : config_ok (PBFTConfig.setExpectedCheckPoint i).
Proof. unfold PBFTConfig.setExpectedCheckPoint. keep_auto; config_fields. Qed.
Hint Resolve onSealerReset_config setExpectedCheckPoint_config : keep.

(** Code of the validator. *)
Lemma validator_config {A} (m : Eff Event TxsValidator.t A) :
  keeps no_fault sane_event (fun _ => True) m -> config_ok (zoom PBFTConfig.m_validator m).
Proof.
  intros Hm. apply (keeps_zoom _ (fun _ => True)); [done..|]. intros c v Hc _.
  revert c Hc. apply config_modify. intros c. by repeat split.
Qed.
Lemma resetTxs_config d b :
  config_ok (zoom PBFTConfig.m_validator (TxsValidator.asyncResetTxsFlag d b)).
Proof.
  apply validator_config. unfold TxsValidator.asyncResetTxsFlag, TxsValidator.insertResettingProposal.
  destruct (createBlock d); [|by split]. keep_auto; by apply keeps_modify.
Qed.
Lemma resetTxsTask_config b f : config_ok (zoom PBFTConfig.m_validator (TxsValidator.resetTxsTask b f)).
Proof.
  apply validator_config. unfold TxsValidator.resetTxsTask, TxsValidator.markTxs. keep_auto.
Qed.
Lemma onMarkTxs_config e b l f r :
  config_ok (zoom PBFTConfig.m_validator (TxsValidator.onMarkTxs e b l f r)).
Proof.
  apply validator_config. unfold TxsValidator.onMarkTxs, TxsValidator.markTxs,
    TxsValidator.eraseResettingProposal, TxsValidator.insertResettingProposal.
  keep_auto; by apply keeps_modify.
Qed.
Lemma verifyProposal_config n p k :
  sane_event (VerifyProposal n p k) -> config_ok (zoom PBFTConfig.m_validator (TxsValidator.verifyProposal n p k)).
Proof. intros Hk. apply validator_config. unfold TxsValidator.verifyProposal. keep_auto. Qed.
Hint Resolve resetTxs_config resetTxsTask_config onMarkTxs_config verifyProposal_config : keep.

(** The quorum is positive even where the total weight is zero. *)
Lemma updateQuorum_positive c : 0 < PBFTConfig.m_minRequiredQuorum (PBFTConfig.updateQuorum c).
Proof.
  unfold PBFTConfig.updateQuorum. simpl.
  set (W := fold_left _ _ 0).
  assert (HW : is_u64 W).
  { unfold W. generalize (PBFTConfig.consensusNodeList c). intros l.
    assert (H0 : is_u64 0) by (unfold is_u64, two64; lia). revert H0. generalize 0.
    induction l as [|node l IH]; intros z Hz; simpl; [done|]. apply IH, u64_is_u64. }
  clearbody W. unfold is_u64 in HW. destruct (Z.eq_dec W 0) as [->|Hne]; [by vm_compute|].
  rewrite (u64_id (W - 1)) by (unfold is_u64; lia).
  pose proof (Z.div_pos (W - 1) 3 ltac:(lia) ltac:(lia)).
  pose proof (Z.mul_div_le (W - 1) 3 ltac:(lia)).
  rewrite u64_id by (unfold is_u64; lia). lia.
Qed.

Lemma setCommittedProposal_config p c :
  balanced p -> sane_config c -> sane_config (PBFTConfig.setCommittedProposal p c).
Proof.
  intros Hp [H1 H2 H3 H4 H5 H6 H7]. unfold PBFTConfig.setCommittedProposal, ConsensusConfig.setCommittedProposal.
  split; unfold PBFTConfig.committedProposal, PBFTConfig.consensusNodeList,
    PBFTConfig.consensusNodesNum, PBFTConfig.isConsensusNode, PBFTConfig.nodeIndex in *;
    repeat case_match; simpl; eauto.
Qed.

Lemma setConsensusNodeList_config l : length l = N -> config_ok (PBFTConfig.setConsensusNodeList l).
Proof.
  intros Hl. unfold PBFTConfig.setConsensusNodeList. apply keeps_bind; [|intros sorted; keep_auto].
  unfold ConsensusConfig.setConsensusNodeList.
  assert (Hs : length (merge_sort ConsensusConfig.node_le l) = N).
  { by rewrite (Permutation_length (merge_sort_Permutation _ l)). }
  keep_auto; apply keeps_modify; intros c0 [H1 H2 H3 H4 H5 H6 H7];
    split; unfold PBFTConfig.committedProposal, PBFTConfig.consensusNodeList,
    PBFTConfig.consensusNodesNum, PBFTConfig.isConsensusNode, PBFTConfig.nodeIndex in *;
    simpl; try done.
  - by rewrite Hs.
  - unfold ConsensusConfig.isConsensusNode. simpl. intros Hc.
    destruct (index_from_spec (ConsensusConfig.m_keyPair (PBFTConfig.base c0))
      (ConsensusConfig.m_consensusNodeList (PBFTConfig.base c0)) 0) as [[Hi _]|[Hi _]];
      [lia|rewrite H3; lia| |].
    + change (ConsensusConfig.index_from 0 _ _) with (ConsensusConfig.getNodeIndexByNodeID
        (PBFTConfig.base c0) (ConsensusConfig.m_keyPair (PBFTConfig.base c0))) in Hi.
      rewrite Hi in Hc. done.
    + rewrite H3 in Hi. exact Hi.
  - apply updateQuorum_positive.
Qed.

Record sane_ledger (cfg : LedgerConfig.t) : Prop := {
  sl_nodes : length (LedgerConfig.consensusNodeList cfg) = N;
  sl_period : 0 < LedgerConfig.leaderSwitchPeriod cfg
}.

Lemma setLeaderSwitchPeriod_config n : 0 < n -> config_ok (PBFTConfig.setLeaderSwitchPeriod n).
Proof.
  intros Hn. unfold PBFTConfig.setLeaderSwitchPeriod. keep_auto. apply keeps_modify.
  intros c0 []. by split.
Qed.

Lemma resetConfig_config cfg b : sane_ledger cfg -> config_ok (PBFTConfig.resetConfig cfg b).
Proof.
  intros [Hl Hp]. unfold PBFTConfig.resetConfig.
  pose proof (setConsensusNodeList_config _ Hl). pose proof (setLeaderSwitchPeriod_config _ Hp).
  keep_auto; try by config_fields.
  - apply keeps_modify. intros c0 Hc. apply setCommittedProposal_config; [|done]. unfold balanced. simpl. lia.
  - apply keeps_modify, config_modify. intros c0. unfold PBFTConfig.resetTimer, PBFTConfig.freshTimer.
    repeat split; match goal with |- context [if ?b then _ else _] => by destruct b end.
  - apply validator_config. unfold TxsValidator.updateValidatorConfig. keep_auto.
Qed.
Hint Resolve resetConfig_config : keep.

(** ** Proposals and the collections *)
Lemma signatureProof_balanced p k :
  balanced p -> (k < PBFTProposal.signatureProofSize p)%nat ->
  is_Some (PBFTProposal.signatureProof p k).
Proof.
  intros Hp Hk. unfold PBFTProposal.signatureProof, PBFTProposal.signatureProofSize, balanced in *.
  destruct (lookup_lt_is_Some_2 (PBFTProposal.signatureList p) k Hk) as [x ->].
  destruct (lookup_lt_is_Some_2 (PBFTProposal.nodeList p) k ltac:(lia)) as [y ->]. by eexists.
Qed.

Lemma append_balanced p k b : balanced p -> balanced (PBFTProposal.appendSignatureProof p k b).
Proof.
  unfold balanced, PBFTProposal.appendSignatureProof. simpl. rewrite !length_app. simpl. lia.
Qed.

Lemma populateProposal_balanced p d w :
  balanced p -> exists q, populateProposal p d w = Some q /\ balanced q.
Proof.
  intros Hp. unfold populateProposal.
  set (p0 := if d then _ else _).
  assert (H0 : balanced p0) by (unfold p0, balanced; destruct d; simpl; lia). clearbody p0.
  destruct w; [|by eexists].
  assert (Hl : Forall (fun k => (k < PBFTProposal.signatureProofSize p)%nat)
    (seq 0 (PBFTProposal.signatureProofSize p))) by (apply Forall_seq; lia).
  revert p0 H0 Hl. generalize (seq 0 (PBFTProposal.signatureProofSize p)). intros l.
  induction l as [|k l IH]; intros a Ha Hl; simpl; [by eexists|].
  inversion_clear Hl as [|? ? Hk Hl'].
  destruct (signatureProof_balanced p k Hp Hk) as [x ->]. simpl.
  apply IH; [|done]. by apply append_balanced.
Qed.

Lemma covered_log l w h : covered l w -> covered l (log_access h w).
Proof.
  intros H h'. unfold log_access. destruct log_info; [|apply H]. destruct (w !! h) eqn:E; [apply H|].
  destruct (decide (h' = h)) as [->|Hne]; [by rewrite lookup_insert_eq|].
  rewrite lookup_insert_ne by done. apply H.
Qed.

Lemma addCache_sane c i l w m l' w' :
  C.addCache c i l w m = (l', w') -> is_Some (PBFTMessage.consensusProposal m) ->
  with_proposals l -> covered l w -> with_proposals l' /\ covered l' w'.
Proof.
  unfold C.addCache. intros E Hm Hl Hw. revert E.
  destruct (negb _); [by intros [= <- <-]|]. destruct (_ ≫= _); [by intros [= <- <-]|].
  destruct (PBFTConfig.getConsensusNodeByIndex _ _); intros [= <- <-]; [|done]. split.
  - intros h k m'. rewrite cached_insert. case_decide; [by intros [= <-]|apply Hl].
  - intros h. destruct (decide (h = PBFTMessage.hash m)) as [->|Hne].
    + rewrite !lookup_insert_eq. by eexists.
    + rewrite !lookup_insert_ne by done. apply Hw.
Qed.

Lemma reset_sane l v : with_proposals l -> with_proposals (C.resetCacheAfterViewChange l v).
Proof.
  intros H h k m. rewrite cached_reset. destruct (cached l h k) as [m'|] eqn:E; [|done].
  destruct (_ <? _); [done|]. intros [= <-]. by eapply H.
Qed.

Lemma recalculate_covered c l : covered l (C.recalculateQuorum c l).
Proof.
  intros h. unfold C.recalculateQuorum. rewrite lookup_fmap. destruct (l !! h); simpl; [by eexists|lia].
Qed.

Lemma quorum_covered c l w h :
  sane_config c -> covered l w -> C.collectEnoughQuorum c h w = true -> is_Some (l !! h).
Proof.
  intros Hc Hw. unfold C.collectEnoughQuorum. intros H. apply Hw.
  pose proof (sc_quorum _ Hc). destruct (w !! h); [|done]. simpl. lia.
Qed.

(** ** One cache *)
Notation frame_ok := (keeps no_fault sane_event sane_frame).

Lemma frame_config {A} (m : Eff Event PBFTConfig.t A) :
  config_ok m -> frame_ok (zoom C.f_config m).
Proof. intros Hm. apply (keeps_zoom _ sane_config); [done|by intros f []|]. by intros f c [_ Hf] Hc. Qed.

Lemma set_this_ok g : (forall this, sane_cache this -> sane_cache (g this)) -> frame_ok (C.set_this g).
Proof. intros H. apply keeps_modify. intros f [Hc Hk]. split; [done|]. by apply H. Qed.

Lemma committedIndex_frame : frame_ok C.committedIndex.
Proof. apply frame_config. auto with keep. Qed.
Hint Resolve committedIndex_frame frame_config : keep.

(** Fields that [sane_cache] does not mention. *)
Ltac cache_fields := apply set_this_ok; intros ? []; by split.

Lemma set_prePrepare_ok m :
  sane_prePrepare m -> frame_ok (C.set_this (fun c => c <| C.m_prePrepare := Some m |>)).
Proof.
  intros Hm. apply set_this_ok. intros this [H1 H2 H3 H4 H5 H6 H7]. split; simpl; try done.
  - by intros m' [= <-].
  - intros m' Hm'. by destruct (H6 m' Hm').
Qed.

Lemma addPrePrepareCache_ok m : sane_prePrepare m -> frame_ok (C.addPrePrepareCache m).
Proof.
  intros Hm. pose proof (set_prePrepare_ok m Hm).
  assert (is_Some (PBFTMessage.consensusProposal m)) by (destruct Hm as [(p & Hp & _) _]; by exists p).
  unfold C.addPrePrepareCache. keep_auto.
  match goal with H : sane_frame _ |- _ => destruct H as [_ Hk] end.
  destruct (sk_prePrepare _ Hk _ ltac:(eassumption)) as [(p' & Hp' & _) _]. by exists p'.
Qed.

Lemma addPrepareCache_ok m :
  is_Some (PBFTMessage.consensusProposal m) -> frame_ok (C.addPrepareCache m).
Proof.
  intros Hm. apply keeps_modify. intros f [Hc [H1 H2 H3 H4 H5 H6 H7]].
  destruct (C.addCache _ _ _ _ m) as [l w] eqn:E.
  destruct (addCache_sane _ _ _ _ _ _ _ E Hm H1 H3). split; [done|].
  split; simpl; try done. by apply covered_log.
Qed.

Lemma addCommitCache_ok m : frame_ok (C.addCommitCache m).
Proof.
  apply keeps_modify. intros f [Hc []]. destruct (C.addCache _ _ _ _ m) as [l w].
  split; [done|]. by split.
Qed.

Lemma addCheckPointMsg_ok m :
  is_Some (PBFTMessage.consensusProposal m) -> frame_ok (C.addCheckPointMsg m).
Proof.
  intros Hm. apply keeps_modify. intros f [Hc [H1 H2 H3 H4 H5 H6 H7]].
  destruct (C.addCache _ _ _ _ m) as [l w] eqn:E.
  destruct (addCache_sane _ _ _ _ _ _ _ E Hm H2 H4). split; [done|].
  split; simpl; try done. by apply covered_log.
Qed.
Hint Resolve addPrePrepareCache_ok addPrepareCache_ok addCommitCache_ok addCheckPointMsg_ok : keep.

(** [setSignatureList] on messages that are there: a balanced proposal with the hash. *)
Lemma appendProofs_returns l p f :
  Forall (fun kv => is_Some (PBFTMessage.consensusProposal (snd kv))) l -> balanced p ->
  exists p', C.appendProofs l p f = Done p' f [] /\ balanced p' /\
    PBFTProposal.hash p' = PBFTProposal.hash p.
Proof.
  intros Hl. revert p. induction Hl as [|[k m] l [q Hq] Hl IH]; intros p Hp; simpl in *; [by eauto|].
  rewrite Hq. destruct (IH (PBFTProposal.appendSignatureProof p k (PBFTProposal.signature q)))
    as (p' & E & Hp' & Hh).
  { by apply append_balanced. }
  exists p'. unfold mbind, eff_bind. simpl. rewrite E. eauto.
Qed.

Lemma setSignatureList_returns p l f :
  with_proposals l -> is_Some (l !! PBFTProposal.hash p) ->
  exists p', C.setSignatureList p l f = Done p' f [] /\ balanced p' /\
    PBFTProposal.hash p' = PBFTProposal.hash p.
Proof.
  intros Hl Hh. unfold C.setSignatureList, assert_. rewrite bool_decide_eq_true_2 by done.
  destruct (appendProofs_returns (in_order (default ∅ (l !! PBFTProposal.hash p)))
    (PBFTProposal.clearSignatureProof p) f) as (p' & E & Hp' & Hh').
  - apply Forall_forall. intros [k m] Hin%list_elem_of_In%elem_of_in_order. simpl. apply (Hl (PBFTProposal.hash p) k).
    unfold cached. by destruct (l !! PBFTProposal.hash p).
  - unfold balanced. simpl. lia.
  - exists p'. unfold mbind, eff_bind. simpl. rewrite E. eauto.
Qed.

Lemma withoutData_sane m w :
  sane_prePrepare m -> 0 < Z.of_nat N -> balanced w ->
  sane_prepared (PBFTMessage.populateWithoutProposal m <| PBFTMessage.consensusProposal := Some w |>).
Proof.
  intros [_ Hb] HN Hw. split; [by eexists| |exact Hb|by intros p [= <-]].
  unfold PBFTMessage.generatedFrom. simpl. destruct (PBFTMessage.hashFieldsData m) as [b|] eqn:E; [by apply Hb|].
  unfold member, BaseMessage.generatedFrom. simpl. change (u64 0) with 0. lia.
Qed.

(** [intoPrecommit] after the prepare quorum has been checked. *)
Lemma intoPrecommit_ok f :
  sane_frame f -> C.collectEnoughPrepareReq (C.f_config f) (C.f_this f) = true ->
  exists f', C.intoPrecommit f = Done tt f' [] /\ sane_frame f' /\
    is_Some (C.m_precommitWithoutData (C.f_this f')).
Proof.
  intros [Hc [H1 H2 H3 H4 H5 H6 H7]] Hq. unfold C.collectEnoughPrepareReq in Hq.
  apply andb_true_iff in Hq as [_ Hq].
  destruct (C.m_prePrepare (C.f_this f)) as [m|] eqn:Em; [|done].
  pose proof (H5 m eq_refl) as Hm. destruct (Hm) as [(p & Hp & Hh) _].
  apply (quorum_covered _ _ _ _ Hc H3) in Hq. rewrite <- Hh in Hq.
  destruct (setSignatureList_returns p _ f H1 Hq) as (p' & E & Hb & Hh').
  destruct (populateProposal_balanced p' false true Hb) as (w & Ew & Hw).
  unfold C.intoPrecommit, mbind, eff_bind. cbn [get]. rewrite Em. cbn [deref mret eff_ret].
  cbn. rewrite Hp. cbn [deref mret eff_ret]. rewrite E. rewrite Ew.
  assert (Hs : forall m', PBFTMessage.consensusProposal m' = Some p' ->
    PBFTMessage.hash m' = PBFTMessage.hash m -> PBFTMessage.hashFieldsData m' =
      PBFTMessage.hashFieldsData m -> sane_prePrepare m').
  { intros m' E1 E2 E3. split; [exists p'; by rewrite E2, Hh'|]. unfold sane_fields. rewrite E3. apply Hm. }
  eexists. split; [reflexivity|]. split; [|by eexists]. split; [done|]. split; simpl; try done.
  - intros m' [= <-]. by apply Hs.
  - intros m' [= <-]. split; [|by eexists]. by exists p'.
  - intros m' [= <-]. apply (withoutData_sane (_ <| PBFTMessage.consensusProposal := Some p' |>)).
    + by apply Hs.
    + apply Hc.
    + exact Hw.
Qed.

(** The answer [true] promises [P] of the cache. *)
Definition promises (P : C.t -> Prop) (m : Eff Event C.frame bool) : Prop :=
  forall f, sane_frame f ->
    wp no_fault (m f) (fun r f' es => (sane_frame f' /\ (r = inl true -> P (C.f_this f'))) /\
      Forall sane_event es).

Definition precommitted (this : C.t) : Prop := is_Some (C.m_precommit this).
Definition has_checkpoint (this : C.t) : Prop := is_Some (C.m_checkpointProposal this).

Lemma promises_keeps P m : promises P m -> frame_ok m.
Proof. intros H f Hf. eapply wp_mono; [by apply H|]. by intros r f' es [[] Hv]. Qed.

Lemma promises_false P f' :
  sane_frame f' -> wp no_fault (Done false f' [] : outcome Event C.frame bool) (fun r f' es =>
    (sane_frame f' /\ (r = inl true -> P (C.f_this f'))) /\ Forall sane_event es).
Proof. intros Hf. split; [by split|constructor]. Qed.

Lemma checkAndCommit_ok : promises precommitted C.checkAndCommit.
Proof.
  intros f Hf. unfold C.checkAndCommit. apply wp_bind. cbn [wp get].
  destruct (C.m_submitted _); [by apply promises_false|].
  destruct (C.m_precommit (C.f_this f)) eqn:E; [|by apply promises_false].
  destruct (negb _); [by apply promises_false|].
  destruct (sk_precommit _ (proj2 Hf) _ E) as [(p & Hp & _) _]. destruct Hf as [Hc []].
  apply wp_log_deref; [right; by exists p|].
  split; [|constructor]. split; [split; [done|by split]|].
  intros _. unfold precommitted. simpl. by rewrite E.
Qed.

Lemma checkAndPreCommit_ok : promises precommitted C.checkAndPreCommit.
Proof.
  intros f Hf. unfold C.checkAndPreCommit. apply wp_bind. cbn [wp get].
  destruct (C.m_precommitted _); [by apply promises_false|]. apply wp_bind.
  assert (Hstale : exists b, (match C.m_precommit (C.f_this f) with
    | Some precommit => prePrepare ← deref (C.m_prePrepare (C.f_this f));
        mret (PBFTMessage.view prePrepare <=? PBFTMessage.view precommit)
    | None => mret false end : Eff Event C.frame bool) f = Done b f []).
  { destruct (C.m_precommit (C.f_this f)) as [m|] eqn:E; [|by eexists].
    destruct (sk_precommit _ (proj2 Hf) m E) as [_ [q ->]]. by eexists. }
  destruct Hstale as [b ->]. destruct b; [by apply promises_false|].
  destruct (C.collectEnoughPrepareReq _ _) eqn:Eq; simpl; [|by apply promises_false].
  apply wp_bind. destruct (intoPrecommit_ok f Hf Eq) as (f1 & -> & Hf1 & [w Hw]). simpl.
  apply wp_bind. simpl. rewrite Hw. apply wp_bind. simpl.
  destruct (sq_proposal _ (sk_withoutData _ (proj2 Hf1) w Hw)) as [p Hp]. rewrite Hp.
  apply wp_bind. simpl.
  eapply (wp_mono _ (fun r f' es => (sane_frame f' /\ (r = inl true -> precommitted (C.f_this f'))) /\
    Forall sane_event es)); [|by intros r f' es].
  set (encoded := PBFTMessage_encode _ _).
  assert (Hm : sane_msg (MPBFT encoded)) by exact I. clearbody encoded.
  eapply (wp_bind_post _ _ _ (fun _ => sane_frame)); [by apply addCommitCache_ok|by split|]. intros [] f2 Hf2.
  eapply (wp_bind_post _ _ _ (fun _ => sane_frame)); [by apply (keeps_emit (C := no_fault))|by split|].
  intros [] f3 Hf3.
  eapply (wp_bind_post _ _ _ (fun _ => sane_frame)); [|by split|intros [] f4 Hf4; by apply checkAndCommit_ok].
  apply (set_this_ok (fun c => c <| C.m_precommitted := true |>)); [|done]. intros ? []. by split.
Qed.

Lemma shouldStopTimer_ok : frame_ok C.shouldStopTimer.
Proof. unfold C.shouldStopTimer. keep_auto. Qed.

Lemma resetCache_ok v : frame_ok (C.resetCache v).
Proof.
  unfold C.resetCache. apply keeps_bind; [by cache_fields|intros []].
  apply keeps_bind_get. intros f Hf. apply keeps_bind.
  { keep_auto. }
  intros []. unfold C.set_this. apply keeps_modify_twice. intros f0 [Hc [H1 H2 H3 H4 H5 H6 H7]].
  split; [done|]. split; simpl; try done; [by apply reset_sane|apply recalculate_covered].
Qed.

Lemma setCheckPointProposal_ok p : frame_ok (C.setCheckPointProposal p).
Proof. unfold C.setCheckPointProposal. keep_auto. cache_fields. Qed.

Lemma checkAndCommitStableCheckPoint_ok : promises has_checkpoint C.checkAndCommitStableCheckPoint.
Proof.
  intros f Hf. unfold C.checkAndCommitStableCheckPoint. apply wp_bind. simpl.
  destruct (_ || _) eqn:Eq; [by apply promises_false|]. apply orb_false_iff in Eq as [_ Eq%negb_false_iff].
  unfold C.collectEnoughCheckpoint in Eq.
  destruct (C.m_checkpointProposal (C.f_this f)) as [p|] eqn:Ep; [|done].
  destruct Hf as [Hc Hk]. apply (quorum_covered _ _ _ _ Hc (sk_stable _ Hk)) in Eq.
  apply wp_bind. simpl. apply wp_bind.
  destruct (setSignatureList_returns p _ f (sk_checkpoints _ Hk) Eq) as (p' & -> & _ & _).
  simpl. apply wp_bind. simpl. apply wp_bind.
  set (f1 := f <| C.f_this := _ |>).
  assert (Hf1 : sane_frame f1) by (split; [done|]; destruct Hk; by split).
  assert (Hp1 : has_checkpoint (C.f_this f1)) by by eexists. clearbody f1.
  unfold C.committedIndex, PBFTConfig.committedIndex, zoom, mbind, eff_bind, asks. simpl.
  destruct (committed_some _ (proj1 Hf1)) as [q ->]. simpl.
  split; [|constructor]. by destruct f1.
Qed.

Lemma onCheckPointTimeout_ok n : (forall i, frame_ok (n i)) -> frame_ok (C.onCheckPointTimeout n).
Proof. intros Hn. unfold C.onCheckPointTimeout. keep_auto. cache_fields. Qed.
Hint Resolve shouldStopTimer_ok resetCache_ok setCheckPointProposal_ok onCheckPointTimeout_ok : keep.
End Sane.
Arguments balanced p : simpl never.
Arguments checkable m : simpl never.

#[export] Hint Resolve committedIndex_config leader_of_config committed_some leaderIndex_config
  leaderIndexInNewViewPeriod_at_config leaderIndexInNewViewPeriod_config getLeader_config leaderAfterViewChange_config
  canHandleNewProposalMsg_config asyncNotifySealProposal_config notifySealer_config onSealProposalNotified_config
  reNotifySealer_config notifyResetSealing_config onSealerReset_config setExpectedCheckPoint_config
  resetTxs_config resetTxsTask_config onMarkTxs_config verifyProposal_config
  resetConfig_config committedIndex_frame frame_config addPrePrepareCache_ok
  addPrepareCache_ok addCommitCache_ok addCheckPointMsg_ok shouldStopTimer_ok
  resetCache_ok setCheckPointProposal_ok onCheckPointTimeout_ok : keep.
#[export] Hint Extern 1 (is_Some (Some _)) => eexists; reflexivity : keep.
#[export] Hint Extern 1 (sane_event _ _) => exact I : keep.
#[export] Hint Extern 1 (sane_msg _ _) => exact I : keep.
