(* ===== verification/SaneNode.v ===== *)
(** SaneNode: the cache processor keeps the invariant of [Sane] and does not fault. *)
From S2P Require Import Prelude Types Timer Validator Config Cache Processor LogSync Engine.
From S2P Require Import Quorum ConfigFacts CacheFacts Steps Sane.

Section SaneNode.
Context `{Ext : Externals} (N : nat).
Notation config_ok := (keeps no_fault (sane_event N) (sane_config N)).
Notation frame_ok := (keeps no_fault (sane_event N) (sane_frame N)).
Notation node_ok D := (keeps no_fault (sane_event N) (sane_node N D)).

Lemma sane_node_weaken (D D' : BlockNumber -> Prop) s :
  (forall i, D' i -> D i) -> sane_node N D s -> sane_node N D' s.
Proof. intros H []. split; eauto. Qed.

Section Any.
Context (D : BlockNumber -> Prop).

Lemma node_config {A} (m : Eff Event PBFTConfig.t A) : config_ok m -> node_ok D (zoom P.m_config m).
Proof.
  intros Hm. apply (keeps_zoom _ (sane_config N)); [done|by intros s []|].
  intros s c [] Hc. by split.
Qed.

Lemma on_config_kept f :
  (forall c, sane_config N c -> sane_config N (f c)) -> node_ok D (P.on_config f).
Proof. intros H. apply keeps_modify. intros s []. split; simpl; auto. Qed.

Lemma on_timer_kept f : node_ok D (P.on_timer f).
Proof. apply on_config_kept, config_modify. intros c. by repeat split. Qed.

(** Fields that [sane_node] does not mention. *)
Lemma modify_kept f :
  (forall s, P.m_config (f s) = P.m_config s /\ P.m_caches (f s) = P.m_caches s /\
     P.m_viewChangeCache (f s) = P.m_viewChangeCache s) -> node_ok D (modify f).
Proof.
  intros H. apply keeps_modify. intros s [H1 H2 H3 H4]. destruct (H s) as (E1 & E2 & E3).
  split; by rewrite ?E1, ?E2, ?E3.
Qed.

Lemma committedIndex_kept : node_ok D P.committedIndex.
Proof. apply node_config. auto with keep. Qed.
Hint Resolve committedIndex_kept on_timer_kept : keep.

Lemma resetTxsFlag_kept d b : node_ok D (P.resetTxsFlag d b).
Proof. apply node_config. auto with keep. Qed.

Lemma on_cache_wp {A} i (m : Eff Event C.frame A) s (Q : A + exn -> C.t -> Prop) :
  sane_node N D s -> D i ->
  (forall this, P.m_caches s !! i = Some this -> sane_cache N this ->
     wp no_fault (m (C.Frame (P.m_config s) this))
       (fun r f es => (sane_frame N f /\ Q r (C.f_this f)) /\ Forall (sane_event N) es)) ->
  wp no_fault (P.on_cache i m s) (fun r s' es => (sane_node N D s' /\
    exists this, P.m_caches s' !! i = Some this /\ Q r this) /\ Forall (sane_event N) es).
Proof.
  intros [H1 H2 H3 H4] Hi Hm. unfold P.on_cache. destruct (H4 i Hi) as [this Hthis]. rewrite Hthis.
  specialize (Hm this Hthis (H2 _ _ Hthis)).
  assert (Hput : forall f, sane_frame N f -> sane_node N D (s <| P.m_config := C.f_config f |>
    <| P.m_caches := <[ i := C.f_this f ]> (P.m_caches s) |>)).
  { intros f [Hc Hk]. split; simpl; try done.
    - intros j this'. destruct (decide (j = i)) as [->|Hne].
      + rewrite lookup_insert_eq. by intros [= <-].
      + rewrite lookup_insert_ne by done. apply H2.
    - intros j Hj. destruct (decide (j = i)) as [->|Hne].
      + rewrite lookup_insert_eq. by eexists.
      + rewrite lookup_insert_ne by done. by apply H4. }
  destruct (m _) as [a f es|x f es|]; simpl in *; [| |done]; destruct Hm as [[Hf HQ] Hv];
    (split; [|exact Hv]); (split; [by apply Hput|]); exists (C.f_this f); (split; [apply lookup_insert_eq|done]).
Qed.

Lemma on_cache_kept {A} i (m : Eff Event C.frame A) :
  frame_ok m -> D i -> node_ok D (P.on_cache i m).
Proof.
  intros Hm Hi s Hs. eapply wp_mono; [apply (on_cache_wp i m s (fun _ _ => True)); [done..|]|].
  - intros this _ Hk. eapply wp_mono; [apply Hm|by intros r f es []].
    split; [by destruct Hs|done].
  - by intros r s' es [[] Hv].
Qed.

(** A cache for one more index. *)
Lemma create_sane c i : sane_cache N (C.create c i).
Proof.
  split; simpl; try done; intros h; try (intros k m; unfold cached; by rewrite lookup_empty);
    rewrite lookup_empty; simpl; lia.
Qed.

Lemma ensureCache_wp i s :
  sane_node N D s ->
  wp no_fault (P.ensureCache i s) (kept (sane_event N) (sane_node N (fun j => D j \/ j = i))).
Proof.
  intros [H1 H2 H3 H4]. unfold P.ensureCache. apply wp_bind. simpl.
  destruct (P.m_caches s !! i) eqn:E; (split; [|constructor]); simpl.
  - split; try done. intros j [Hj| ->]; [by apply H4|by eexists].
  - split; simpl; try done.
    + intros j this. destruct (decide (j = i)) as [->|Hne].
      * rewrite lookup_insert_eq. intros [= <-]. apply create_sane.
      * rewrite lookup_insert_ne by done. apply H2.
    + intros j Hj. destruct (decide (j = i)) as [->|Hne].
      * rewrite lookup_insert_eq. by eexists.
      * rewrite lookup_insert_ne by done. apply H4. by destruct Hj.
Qed.

End Any.

Lemma ensured_kept {A} D i (m : Eff Event C.frame A) :
  frame_ok m -> node_ok D (P.ensureCache i ;; P.on_cache i m).
Proof.
  intros Hm s Hs. apply wp_bind_kept. eapply wp_mono; [by apply ensureCache_wp|].
  intros [[]|x] s1 e1 [H1 V1]; (split; [done|]);
    [|by eapply sane_node_weaken; [|exact H1]; simpl; auto].
  eapply wp_mono; [apply (on_cache_wp (fun j => D j \/ j = i) i m s1 (fun _ _ => True)); [exact H1|by right|]|].
  - intros this _ Hk. eapply wp_mono; [apply Hm|by intros r f es []]. split; [by destruct H1|done].
  - intros r s2 es [[H2 _] Hv]. split; [|done]. by eapply sane_node_weaken; [|exact H2]; simpl; auto.
Qed.
Hint Resolve committedIndex_kept on_timer_kept resetTxsFlag_kept node_config ensured_kept : keep.

(** A loop over the caches that are there. *)
Lemma node_bind_get {B} D (k : P.t -> Eff Event P.t B) :
  (forall s, sane_node N D s -> node_ok (fun i => is_Some (P.m_caches s !! i)) (k s)) ->
  node_ok D (get ≫= k).
Proof.
  intros Hk s Hs. apply wp_bind_kept. split; [constructor|]. eapply keeps_impl; [by apply Hk| |].
  - destruct Hs. by split.
  - intros s' [H1 H2 H3 H4]. split; try done. intros i Hi. apply H4. by apply Hs.
Qed.

Lemma in_caches (s : P.t) i : i ∈ (in_order (P.m_caches s)).*1 -> is_Some (P.m_caches s !! i).
Proof. intros ([j c] & -> & Hin%elem_of_in_order)%list_elem_of_fmap. by exists c. Qed.

Ltac node_fields := apply modify_kept; intros ?; by repeat split.

Section Operations.
Context (D : BlockNumber -> Prop).

Lemma notifyCommittedProposalIndex_kept i : node_ok D (P.notifyCommittedProposalIndex i).
Proof. unfold P.notifyCommittedProposalIndex. keep_auto. Qed.
Hint Resolve notifyCommittedProposalIndex_kept : keep.
Lemma notifyMaxProposalIndex_kept i : node_ok D (P.notifyMaxProposalIndex i).
Proof. unfold P.notifyMaxProposalIndex. keep_auto. node_fields. Qed.
Hint Resolve notifyMaxProposalIndex_kept : keep.

Lemma addPrePrepareCache_kept m : sane_prePrepare N m -> node_ok D (P.addPrePrepareCache m).
Proof. intros Hm. unfold P.addPrePrepareCache, P.addCache. keep_auto. Qed.
Lemma addPrepareCache_kept m :
  is_Some (PBFTMessage.consensusProposal m) -> node_ok D (P.addPrepareCache m).
Proof. intros Hm. unfold P.addPrepareCache, P.addCache. auto with keep. Qed.
Lemma addCommitReq_kept m : node_ok D (P.addCommitReq m).
Proof. unfold P.addCommitReq, P.addCache. auto with keep. Qed.
Lemma addCheckPointMsg_kept m :
  is_Some (PBFTMessage.consensusProposal m) -> node_ok D (P.addCheckPointMsg m).
Proof. intros Hm. unfold P.addCheckPointMsg, P.addCache. auto with keep. Qed.
Lemma setCheckPointProposal_kept p : node_ok D (P.setCheckPointProposal p).
Proof. unfold P.setCheckPointProposal. auto with keep. Qed.

(** *** The commit queue *)
Lemma notifyToSealNextBlock_kept p : node_ok D (P.notifyToSealNextBlock p).
Proof.
  unfold P.notifyToSealNextBlock. keep_auto. apply on_config_kept, config_modify.
  intros c. by repeat split.
Qed.
Hint Resolve notifyToSealNextBlock_kept : keep.
Lemma applyStateMachine_kept p q : node_ok D (P.applyStateMachine p q).
Proof. unfold P.applyStateMachine. keep_auto. Qed.
Lemma getAppliedCheckPointProposal_kept i : node_ok D (P.getAppliedCheckPointProposal i).
Proof. unfold P.getAppliedCheckPointProposal. keep_auto. Qed.
Lemma onApplyFinished_kept b p q : node_ok D (P.onApplyFinished b p q).
Proof. unfold P.onApplyFinished. keep_auto. Qed.
Hint Resolve applyStateMachine_kept getAppliedCheckPointProposal_kept : keep.
Lemma tryToApplyCommitQueue_kept : node_ok D P.tryToApplyCommitQueue.
Proof. unfold P.tryToApplyCommitQueue. keep_auto; node_fields. Qed.
Hint Resolve tryToApplyCommitQueue_kept : keep.
Lemma updateCommitQueue_kept p : node_ok D (P.updateCommitQueue p).
Proof. unfold P.updateCommitQueue. keep_auto; node_fields. Qed.
Hint Resolve updateCommitQueue_kept : keep.

(** An operation on a cache whose answer [true] promises something of the cache. *)
Lemma promised_kept i P (m : Eff Event C.frame bool) (k : bool -> Eff Event P.t unit) :
  promises N P m -> D i -> node_ok D (k false) ->
  (forall s this, sane_node N D s -> P.m_caches s !! i = Some this -> P this ->
     wp no_fault (k true s) (kept (sane_event N) (sane_node N D))) ->
  node_ok D (ret ← P.on_cache i m; k ret).
Proof.
  intros Hm Hi Hf Ht s Hs. apply wp_bind_kept.
  eapply wp_mono; [apply (on_cache_wp D i m s (fun r this => r = inl true -> P this)); [done..|]|].
  { intros this _ Hk. apply Hm. split; [by destruct Hs|done]. }
  intros [b|x] s1 e1 [[H1 (this & Hthis & Hp)] Hv]; (split; [done|]); [|exact H1].
  destruct b; [by eapply Ht; [..|apply Hp]|by apply Hf].
Qed.

Lemma commitPrecommit_wp i s this :
  sane_node N D s -> P.m_caches s !! i = Some this -> precommitted this ->
  wp no_fault (P.commitPrecommit i s) (kept (sane_event N) (sane_node N D)).
Proof.
  intros Hs Hthis [m Hm]. unfold P.commitPrecommit. apply wp_bind. simpl. rewrite Hthis. simpl.
  rewrite Hm. apply wp_bind. simpl.
  destruct (sk_precommit _ _ (sn_caches _ _ _ Hs _ _ Hthis) _ Hm) as [(p & -> & _) _].
  eapply wp_mono; [by apply updateCommitQueue_kept|by intros].
Qed.

Lemma eraseExecutedProposal_kept h : node_ok D (P.eraseExecutedProposal h).
Proof. node_fields. Qed.
Lemma clearExpiredExecutingProposal_kept : node_ok D P.clearExpiredExecutingProposal.
Proof. unfold P.clearExpiredExecutingProposal. keep_auto. node_fields. Qed.
Lemma eraseCommittedProposalList_kept i : node_ok D (P.eraseCommittedProposalList i).
Proof. node_fields. Qed.

(** *** Proposals of peers *)
Lemma loadAndVerifyProposal_kept n p r :
  is_Some n -> node_ok D (P.loadAndVerifyProposal n p r).
Proof. intros Hn. unfold P.loadAndVerifyProposal. keep_auto. Qed.
Hint Resolve loadAndVerifyProposal_kept : keep.
Lemma initState_kept l n : is_Some n -> node_ok D (P.initState l n).
Proof. intros Hn. unfold P.initState. keep_auto. Qed.
Lemma onProposalVerified_kept e v n p r :
  is_Some n -> node_ok D (P.onProposalVerified e v n p r).
Proof.
  intros Hn. unfold P.onProposalVerified. keep_auto; apply on_config_kept, config_modify;
    intros c; by repeat split.
Qed.

(** *** Stable checkpoints *)
Lemma tryToCommitStableCheckPoint_kept : node_ok D P.tryToCommitStableCheckPoint.
Proof.
  unfold P.tryToCommitStableCheckPoint. keep_auto; [|node_fields].
  apply modify_kept. intros s. by destruct (P.dropCommitted _ _ _).
Qed.
Hint Resolve tryToCommitStableCheckPoint_kept : keep.
Lemma updateStableCheckPointQueue_kept p : node_ok D (P.updateStableCheckPointQueue p).
Proof. unfold P.updateStableCheckPointQueue. keep_auto. node_fields. Qed.
Lemma shouldRequestCheckPoint_kept m : node_ok D (P.shouldRequestCheckPoint m).
Proof. unfold P.shouldRequestCheckPoint. keep_auto. node_fields. Qed.
End Operations.
Hint Resolve notifyCommittedProposalIndex_kept notifyMaxProposalIndex_kept
  addPrePrepareCache_kept addPrepareCache_kept addCommitReq_kept addCheckPointMsg_kept
  setCheckPointProposal_kept onApplyFinished_kept tryToApplyCommitQueue_kept updateCommitQueue_kept
  eraseExecutedProposal_kept clearExpiredExecutingProposal_kept eraseCommittedProposalList_kept
  loadAndVerifyProposal_kept initState_kept onProposalVerified_kept
  tryToCommitStableCheckPoint_kept updateStableCheckPointQueue_kept shouldRequestCheckPoint_kept : keep.

Lemma checkAndPreCommit_kept D : node_ok D P.checkAndPreCommit.
Proof.
  unfold P.checkAndPreCommit. apply node_bind_get. intros s Hs. apply keeps_for_each.
  intros i Hi%in_caches. eapply promised_kept; [apply checkAndPreCommit_ok|done|apply keeps_ret|].
  intros s' this H1 Hthis Hp. by eapply commitPrecommit_wp.
Qed.

(** The caches collected as stable have a checkpoint, also at the end of the loop. *)
Definition stable_at (s : P.t) (i : BlockNumber) : Prop :=
  exists this, P.m_caches s !! i = Some this /\ has_checkpoint this.
Definition stays_stable (s s' : P.t) : Prop := forall i, stable_at s i -> stable_at s' i.

Lemma on_cache_stays {A} i (m : Eff Event C.frame A) s :
  (forall f, has_checkpoint (C.f_this f) ->
     wp any_fault (m f) (fun _ f' _ => has_checkpoint (C.f_this f'))) ->
  wp any_fault (P.on_cache i m s) (fun _ s' _ => stays_stable s s').
Proof.
  intros Hm. unfold P.on_cache. destruct (P.m_caches s !! i) as [this|] eqn:E; [|done].
  specialize (Hm (C.Frame (P.m_config s) this)). cbn [C.f_this] in Hm.
  assert (Hput : forall f, (has_checkpoint this -> has_checkpoint (C.f_this f)) ->
    stays_stable s (s <| P.m_config := C.f_config f |>
      <| P.m_caches := <[ i := C.f_this f ]> (P.m_caches s) |>)).
  { intros f Hf j (this' & Hj & Hp). unfold stable_at. simpl.
    destruct (decide (j = i)) as [->|Hne].
    - rewrite lookup_insert_eq. eexists. split; [done|]. apply Hf. congruence.
    - rewrite lookup_insert_ne by done. eauto. }
  destruct (m _); simpl in *; [by apply Hput..|done].
Qed.

Lemma checkpoint_stays f :
  has_checkpoint (C.f_this f) ->
  wp any_fault (C.checkAndCommitStableCheckPoint f) (fun _ f' _ => has_checkpoint (C.f_this f')).
Proof.
  intros Hf. unfold C.checkAndCommitStableCheckPoint. apply wp_bind. simpl.
  destruct (_ || _); [done|]. apply wp_bind.
  destruct (C.m_checkpointProposal (C.f_this f)) as [p|]; [|done]. simpl. apply wp_bind.
  pose proof (setSignatureList_pure p (C.m_checkpointCacheList (C.f_this f)) f) as Hp.
  destruct (C.setSignatureList _ _ f) as [p' f1 e1|x f1 e1|]; [|by destruct Hp as (_ & _ & ? & ?)|done].
  destruct Hp as (-> & _ & _). simpl. apply wp_bind. simpl. apply wp_bind.
  unfold C.committedIndex, PBFTConfig.committedIndex, zoom, mbind, eff_bind, asks. simpl.
  destruct (PBFTConfig.committedProposal _); simpl; [by eexists|done].
Qed.

Lemma collectStable_wp D l s :
  sane_node N D s -> (forall i, i ∈ l -> D i) ->
  wp no_fault (P.collectStable l s) (fun r s' es => (sane_node N D s' /\ stays_stable s s' /\
    forall l', r = inl l' -> forall i, i ∈ l' -> stable_at s' i) /\ Forall (sane_event N) es).
Proof.
  revert s. induction l as [|i l IH]; intros s Hs Hl; simpl.
  { split; [|constructor]. split; [done|]. split; [by intros j|].
    intros l' [= <-] j. by intros ?%elem_of_nil. }
  apply (wp_bind_post _ _ _ (fun r s1 => sane_node N D s1 /\ stays_stable s s1 /\
    (r = inl true -> stable_at s1 i))).
  { eapply wp_mono.
    - apply wp_both; [|apply on_cache_stays, checkpoint_stays].
      apply (on_cache_wp D i _ s (fun r this => r = inl true -> has_checkpoint this)); [done| |].
      + apply Hl. by constructor.
      + intros this _ Hk. apply checkAndCommitStableCheckPoint_ok. split; [by destruct Hs|done].
    - intros r s1 e1 [[[H1 (this & Hthis & Hp)] Hv] Hst]. split; [|done]. split; [done|].
      split; [done|]. intros Hr. exists this. auto. }
  { by intros x s1 (H1 & Hst & _). }
  intros b s1 (H1 & Hst & Hb).
  apply (wp_bind_post _ _ _ (fun r s2 => sane_node N D s2 /\ stays_stable s1 s2 /\
    forall l', r = inl l' -> forall j, j ∈ l' -> stable_at s2 j)).
  { apply IH; [done|]. intros j Hj. apply Hl. by constructor. }
  { intros x s2 (H2 & Hst2 & _). split; [done|]. split; [|done]. intros j Hj. by apply Hst2, Hst. }
  intros l1 s2 (H2 & Hst2 & Hl1). split; [|constructor]. split; [done|].
  split; [intros j Hj; by apply Hst2, Hst|].
  intros l' [= <-]. destruct b; [|by apply Hl1].
  intros j [->|Hj]%elem_of_cons; [by apply Hst2, Hb|by eapply Hl1].
Qed.

Definition same_caches (s s' : P.t) (es : list Event) : Prop := P.m_caches s' = P.m_caches s.
#[local] Instance same_caches_transition : Transition same_caches.
Proof. split; [done|]. unfold same_caches. congruence. Qed.

Lemma updateStableCheckPointQueue_caches p :
  respects any_fault same_caches (P.updateStableCheckPointQueue p).
Proof.
  unfold P.updateStableCheckPointQueue, P.tryToCommitStableCheckPoint. eff_auto; try by intros s.
  - intros s. unfold P.committedIndex, PBFTConfig.committedIndex, zoom, mbind, eff_bind, asks. simpl.
    by destruct (PBFTConfig.committedProposal _).
  - intros s. unfold modify, same_caches. simpl. by destruct (P.dropCommitted _ _ _).
Qed.

Lemma checkAndCommitStableCheckPoint_kept D : node_ok D P.checkAndCommitStableCheckPoint.
Proof.
  unfold P.checkAndCommitStableCheckPoint. apply node_bind_get. intros s0 _ s Hs. apply wp_bind_kept.
  eapply wp_mono; [apply (collectStable_wp _ _ s Hs), in_caches|].
  intros [l|x] s1 e1 [(H1 & _ & Hl) Hv]; (split; [done|]); [|exact H1].
  specialize (Hl l eq_refl). clear Hs.
  revert s1 H1 Hl. induction l as [|i l IH]; intros s1 H1 Hl; [by split|]. simpl. apply wp_bind_kept.
  apply wp_bind. simpl. destruct (Hl i ltac:(by constructor)) as (this & Hthis & [p Hp]).
  rewrite Hthis. simpl. rewrite Hp.
  eapply wp_mono.
  { apply wp_both; [by apply updateStableCheckPointQueue_kept|apply updateStableCheckPointQueue_caches]. }
  intros [[]|x] s2 e2 [[H2 V2] Hsame]; (split; [done|]); [|exact H2].
  apply IH; [done|]. intros j Hj. unfold stable_at. rewrite Hsame.
  apply Hl. by constructor.
Qed.

(** ** View changes *)
Notation prepared_ok := (Forall (sane_prepared N)).

(** A view change that may be collected. *)
Record collectable (v : ViewChangeMsg.t) : Prop := {
  cl_committed : is_Some (ViewChangeMsg.committedProposal v);
  cl_prepared : prepared_ok (ViewChangeMsg.preparedProposals v)
}.

Lemma addViewChangeReq_kept D v : collectable v -> node_ok D (P.addViewChangeReq v).
Proof.
  intros [Hc Hp]. unfold P.addViewChangeReq. apply keeps_bind_get. intros s Hs.
  destruct (_ ≫= _); [apply keeps_ret|].
  destruct (PBFTConfig.getConsensusNodeByIndex _ _) as [node|] eqn:En; [|apply keeps_ret].
  pose proof (member_of_node N _ _ _ (sn_config _ _ _ Hs) ltac:(apply u64_is_u64) En) as Hmem.
  keep_auto; try node_fields.
  - apply keeps_modify. intros s0 [H1 H2 H3 H4]. split; simpl; try done.
    intros w l i m Hl Hm. destruct (decide (w = ViewChangeMsg.view v)) as [->|Hne].
    + rewrite lookup_insert_eq in Hl. injection Hl as <-.
      destruct (decide (i = ViewChangeMsg.generatedFrom v)) as [->|Hne].
      * rewrite lookup_insert_eq in Hm. injection Hm as <-. by split.
      * rewrite lookup_insert_ne in Hm by done.
        destruct (P.m_viewChangeCache s0 !! ViewChangeMsg.view v) as [l|] eqn:El; [by eapply H3|].
        simpl in Hm; by rewrite lookup_empty in Hm.
    + rewrite lookup_insert_ne in Hl by done. by eapply H3.
  - match goal with H : _ ∈ _ |- _ => apply list_elem_of_In, (proj1 (Forall_forall _ _) Hp) in H; by destruct H end.
Qed.

Lemma mergePrepared_sane n i acc m :
  member N i -> Z.of_nat N < two64 -> map_Forall (fun _ => sane_prepared N) acc ->
  sane_prepared N m -> map_Forall (fun _ => sane_prepared N) (P.mergePrepared n i acc m).
Proof.
  intros Hi HN Hacc Hm. unfold P.mergePrepared. destruct (_ <? n); [done|].
  destruct (acc !! PBFTMessage.index m) as [q|] eqn:E.
  - destruct (negb _ || negb _); [|done]. destruct (_ <? _); [|done]. by apply map_Forall_insert_2.
  - apply map_Forall_insert_2; [|done]. destruct Hm as [Hp _ Hf Hb]. split; [exact Hp| |exact Hf|exact Hb].
    unfold PBFTMessage.generatedFrom, PBFTMessage.setGeneratedFrom, BaseMessage.generatedFrom. simpl.
    rewrite u64_i64, u64_id; [done|]. destruct Hi. unfold is_u64. lia.
Qed.

Lemma collectPrepared_sane n (l : gmap Z ViewChangeMsg.t) :
  Z.of_nat N < two64 -> map_Forall (fun _ => sane_viewChange N) l ->
  map_Forall (fun _ => sane_prepared N) (P.collectPrepared n l).
Proof.
  intros HN Hl. unfold P.collectPrepared.
  assert (Hin : Forall (fun kv => sane_viewChange N (snd kv)) (in_order l)).
  { apply Forall_forall. intros [i v] Hv%list_elem_of_In%elem_of_in_order. by apply (Hl i). }
  assert (H0 : map_Forall (fun _ => sane_prepared N) (∅ : gmap Z PBFTMessage.t)) by apply map_Forall_empty.
  revert H0. generalize (∅ : gmap Z PBFTMessage.t).
  induction Hin as [|[i v] l' [Hf _ Hp] _ IH]; intros acc Hacc; simpl in *; [done|]. apply IH.
  revert acc Hacc. induction Hp as [|m l0 Hm _ IH0]; intros acc Hacc; simpl; [done|].
  apply IH0. by apply mergePrepared_sane.
Qed.

(** The pre-prepares of a new view have proposals and senders. *)
Notation reproposed m := (sane_reproposal N (PBFTMessage.encodeHashFields m)).

Lemma populateWith_reproposed p v view time i :
  Z.of_nat N < two64 -> member N i -> reproposed (populateWith PrePreparePacket p v view time i).
Proof.
  intros HN [Hi1 Hi2].
  assert (Hf : member N (PBFTMessage.generatedFrom (populateWith PrePreparePacket p v view time i))).
  { unfold PBFTMessage.generatedFrom, BaseMessage.generatedFrom. simpl.
    rewrite u64_i64, u64_id; [by split|]. unfold is_u64. lia. }
  split; [|exact Hf|done]. split; [by exists p|]. by intros b [= <-].
Qed.

Lemma prePreparesFor_wp D c acc l s :
  sane_node N D s -> member N (PBFTConfig.nodeIndex c) -> Z.of_nat N < two64 ->
  map_Forall (fun _ => sane_prepared N) acc ->
  exists r, P.prePreparesFor c acc l s = Done r s [] /\ Forall (fun m => reproposed m) r.
Proof.
  intros Hs Hi HN Hacc. induction l as [|n l (r & E & Hr)]; simpl; [by eexists|].
  assert (Hone : exists m, P.prePrepareFor c acc n s = Done m s [] /\ reproposed m).
  { unfold P.prePrepareFor. unfold mbind, eff_bind. destruct (acc !! n) as [m|] eqn:En.
    - destruct (Hacc n m En) as [[p Hp] Hf _ _]. rewrite Hp. simpl. eexists. split; [done|].
      by apply populateWith_reproposed.
    - simpl. eexists. split; [done|]. by apply populateWith_reproposed. }
  destruct Hone as (m & Em & Hm). unfold mbind, eff_bind. rewrite Em, E. simpl.
  eexists. split; [done|]. by constructor.
Qed.

Lemma leaderAfterViewChange_returns c :
  sane_config N c -> exists b, PBFTConfig.leaderAfterViewChange c = Done b c [] /\
    (b = true -> member N (PBFTConfig.nodeIndex c)).
Proof.
  intros Hc. pose proof (sc_num _ _ Hc) as Hn. pose proof (sc_some _ _ Hc) as HN.
  unfold PBFTConfig.leaderAfterViewChange, PBFTConfig.leaderIndexInNewViewPeriod,
    PBFTConfig.leaderIndexInNewViewPeriod_at, PBFTConfig.leader_of, mbind, eff_bind. simpl.
  pose proof (sc_period _ _ Hc). rewrite Hn.
  destruct (Z.eqb_spec (PBFTConfig.m_leaderSwitchPeriod c) 0), (Z.eqb_spec (Z.of_nat N) 0);
    simpl; try lia.
  eexists. split; [done|]. intros ->%Z.eqb_eq. apply Z.mod_pos_bound. lia.
Qed.

(** The view changes that a new view carries. *)
Lemma cache_wire (l : gmap Z ViewChangeMsg.t) :
  map_Forall (fun _ => sane_viewChange N) l -> Forall (viewChange_wire N) (in_order l).*2.
Proof.
  intros Hl. apply Forall_forall. intros v ([i v'] & -> & Hv%elem_of_in_order)%list_elem_of_In%list_elem_of_fmap.
  destruct (Hl i v' Hv) as [_ Hc Hp]. split; [exact Hc|].
  eapply Forall_impl; [|exact Hp]. by intros m [].
Qed.

Definition enterable (o : option NewViewMsg.t) : Prop :=
  forall m, o = Some m -> Forall (sane_reproposal N) (NewViewMsg.prePrepareList m).

Lemma committedIndex_returns D s :
  sane_node N D s -> exists n, P.committedIndex s = Done n s [].
Proof.
  intros Hs. unfold P.committedIndex, PBFTConfig.committedIndex, zoom, mbind, eff_bind, asks. simpl.
  destruct (committed_some N _ (sn_config _ _ _ Hs)) as [p ->]. simpl. exists (PBFTProposal.index p).
  by destruct s.
Qed.

Lemma checkAndTryIntoNewView_wp D s :
  sane_node N D s ->
  wp no_fault (P.checkAndTryIntoNewView s) (fun r s' es => (sane_node N D s' /\
    forall o, r = inl o -> enterable o) /\ Forall (sane_event N) es).
Proof.
  intros Hs. unfold P.checkAndTryIntoNewView.
  assert (HN : Z.of_nat N < two64).
  { pose proof (sc_some _ _ (sn_config _ _ _ Hs)). unfold NON_CONSENSUS_NODE, two64 in *. lia. }
  assert (Hnone : wp no_fault (Done None s []) (fun (r : option NewViewMsg.t + exn) s' es =>
    (sane_node N D s' /\ forall o, r = inl o -> enterable o) /\ Forall (sane_event N) es)).
  { split; [|constructor]. split; [done|]. by intros o [= <-] m. }
  apply wp_bind. destruct (committedIndex_returns D s Hs) as [n ->]. simpl. apply wp_bind. simpl.
  destruct (_ <? _); [exact Hnone|]. apply wp_bind.
  destruct (leaderAfterViewChange_returns _ (sn_config _ _ _ Hs)) as (b & Eb & Hb).
  assert (Hblocked : exists blocked, (if P.m_newViewGenerated s then mret true
    else leader ← zoom P.m_config PBFTConfig.leaderAfterViewChange; mret (negb leader)
    : Eff Event P.t bool) s = Done blocked s [] /\
    (blocked = false -> member N (PBFTConfig.nodeIndex (P.m_config s)))).
  { destruct (P.m_newViewGenerated s); [by eexists|]. unfold zoom, mbind, eff_bind. rewrite Eb. simpl.
    eexists. split; [by destruct s|]. intros Hneg%negb_false_iff. by apply Hb. }
  destruct Hblocked as (blocked & -> & Hmem). simpl. destruct blocked; [exact Hnone|].
  destruct (P.m_viewChangeWeight s !! _); [|exact Hnone].
  destruct (_ <? _); [exact Hnone|]. apply wp_bind.
  destruct (committed_some N _ (sn_config _ _ _ Hs)) as [p ->]. simpl. apply wp_bind.
  unfold P.generatePrePrepareMsg. apply wp_bind. simpl. apply wp_bind.
  destruct (committedIndex_returns D s Hs) as [n' ->]. simpl.
  set (cache := default ∅ (P.m_viewChangeCache s !! _)).
  assert (Hcache : map_Forall (fun _ => sane_viewChange N) cache).
  { intros i v. unfold cache. destruct (P.m_viewChangeCache s !! _) as [l|] eqn:E; simpl.
    - by apply (sn_viewChanges _ _ _ Hs _ _ _ _ E).
    - by rewrite lookup_empty. }
  match goal with |- context [P.collectPrepared ?a cache] =>
    pose proof (collectPrepared_sane a cache HN Hcache) as Hacc end.
  match goal with |- context [P.prePreparesFor ?c ?acc ?l s] =>
    destruct (prePreparesFor_wp D c acc l s Hs (Hmem eq_refl) HN Hacc) as (r & -> & Hr) end.
  assert (Hrs : Forall (sane_reproposal N) (PBFTMessage.encodeHashFields <$> r)) by by apply Forall_fmap.
  simpl. split; [split; [destruct Hs; by split|by intros o [= <-] m [= <-]]|].
  constructor; [|constructor]. split; [by apply cache_wire|exact Hrs].
Qed.

Lemma checkAndTryIntoNewView_kept D : node_ok D P.checkAndTryIntoNewView.
Proof.
  intros s Hs. eapply wp_mono; [by apply checkAndTryIntoNewView_wp|]. by intros r s1 e1 [[] Hv].
Qed.

Lemma checkAndTryIntoNewView_yields D : yields (sane_node N D) P.checkAndTryIntoNewView enterable.
Proof.
  intros s Hs. pose proof (checkAndTryIntoNewView_wp D s Hs) as H.
  destruct (P.checkAndTryIntoNewView s); [|done..]. simpl in H. by apply H.
Qed.

Lemma tryToFillProposal_kept D m :
  is_Some (PBFTMessage.consensusProposal m) -> node_ok D (P.tryToFillProposal m).
Proof.
  intros Hm. unfold P.tryToFillProposal. apply keeps_bind_get. intros s Hs.
  destruct (_ ≫= C.m_precommit) as [q|] eqn:E; [|apply keeps_ret].
  apply bind_Some in E as (this & Hthis & Hq). keep_auto.
  destruct (sk_precommit _ _ (sn_caches _ _ _ Hs _ _ Hthis) _ Hq) as [(p & -> & _) _]. by eexists.
Qed.

Lemma tryToFillProposal_yields D m :
  sane_reproposal N m ->
  yields (sane_node N D) (P.tryToFillProposal m) (fun o => forall m', o = Some m' -> sane_reproposal N m').
Proof.
  intros [[(p & Hp & Hh) Hf] Hm Hb]. unfold P.tryToFillProposal. apply yields_bind_get. intros s _.
  destruct (_ ≫= C.m_precommit) as [q|]; [|by apply yields_ret].
  destruct (_ && _); [|by apply yields_ret].
  apply yields_bind_deref. intros q' _. apply yields_bind_deref. intros p' Hp'. apply yields_ret.
  rewrite Hp in Hp'. injection Hp' as <-. intros m' [= <-].
  split; [|exact Hm|exact Hb]. split; [|exact Hf]. by eexists.
Qed.

Lemma tryToTriggerFastViewChange_kept D : node_ok D P.tryToTriggerFastViewChange.
Proof.
  unfold P.tryToTriggerFastViewChange. keep_auto. apply on_config_kept, config_modify.
  intros c. by repeat split.
Qed.

(** *** Prepared proposals that are checked *)
Lemma proofWeight_kept D c p l w :
  balanced p -> Forall (fun k => (k < PBFTProposal.signatureProofSize p)%nat) l ->
  node_ok D (P.proofWeight c p l w).
Proof.
  intros Hp Hl. revert w. induction Hl as [|k l Hk _ IH]; intros w; simpl; [apply keeps_ret|].
  destruct (signatureProof_balanced p k Hp Hk) as [x ->]. keep_auto.
Qed.

Lemma checkPrecommitMsg_kept D m : checkable m -> node_ok D (P.checkPrecommitMsg m).
Proof.
  intros Hm. unfold P.checkPrecommitMsg, P.checkPrecommitWeight. keep_auto.
  match goal with H : Some _ = Some _ |- _ => injection H as <- end.
  apply proofWeight_kept; [by apply Hm|]. apply Forall_seq. lia.
Qed.

Lemma checkPrecommitMsg_yields D m :
  yields (sane_node N D) (P.checkPrecommitMsg m)
    (fun b => b = true -> is_Some (PBFTMessage.consensusProposal m)).
Proof.
  unfold P.checkPrecommitMsg. apply yields_bind_get. intros s _.
  destruct (_ && _); [by apply yields_ret|].
  destruct (PBFTMessage.consensusProposal m); [|by apply yields_ret].
  eapply yields_mono; [apply yields_any|]. by intros b _ _.
Qed.

(** *** Cleaning up *)
Lemma removeInvalidViewChange_kept D v n : node_ok D (P.removeInvalidViewChange v n).
Proof.
  unfold P.removeInvalidViewChange, P.reCalculateViewChangeWeight. keep_auto; [|node_fields].
  apply keeps_modify. intros s [H1 H2 H3 H4]. split; simpl; try done.
  intros w l i m. rewrite lookup_fmap. intros (l0 & Hl%map_lookup_filter_Some & ->)%fmap_Some.
  intros [Hm _]%map_lookup_filter_Some. by eapply H3; [apply Hl|].
Qed.
Lemma removeInvalidRecoverCache_kept D v : node_ok D (P.removeInvalidRecoverCache v).
Proof. node_fields. Qed.
Hint Resolve removeInvalidViewChange_kept removeInvalidRecoverCache_kept : keep.

Lemma resetCacheAfterViewChange_kept D v n : node_ok D (P.resetCacheAfterViewChange v n).
Proof.
  unfold P.resetCacheAfterViewChange. apply node_bind_get. intros s Hs. keep_auto; [|node_fields].
  apply on_cache_kept; [auto with keep|]. by apply in_caches.
Qed.
Hint Resolve resetCacheAfterViewChange_kept : keep.

Lemma addRecoverReqCache_kept D m : node_ok D (P.addRecoverReqCache m).
Proof. unfold P.addRecoverReqCache. keep_auto; node_fields. Qed.

Lemma resetNewViewState_sane v c : sane_config N c -> sane_config N (PBFTConfig.resetNewViewState v c).
Proof.
  revert c. apply config_modify. intros c.
  unfold PBFTConfig.resetNewViewState, PBFTConfig.resetTimer, PBFTConfig.freshTimer.
  destruct (v <? PBFTConfig.m_view c); [by repeat split|].
  destruct (negb _); simpl;
    repeat split; simpl; match goal with |- context [if ?b then _ else _] => by destruct b end.
Qed.

Lemma checkAndTryToRecover_kept D : node_ok D P.checkAndTryToRecover.
Proof.
  unfold P.checkAndTryToRecover. keep_auto; [|node_fields].
  apply on_config_kept. intros c. apply resetNewViewState_sane.
Qed.

(** Where caches are removed. *)
Definition nowhere (i : BlockNumber) : Prop := False.

Lemma removeConsensusedCache_kept v n : node_ok nowhere (P.removeConsensusedCache v n).
Proof.
  unfold P.removeConsensusedCache. keep_auto; [|node_fields].
  apply keeps_modify. intros s [H1 H2 H3 H4]. split; simpl; try done.
  intros i this [Hi _]%map_lookup_filter_Some. by eapply H2.
Qed.

Lemma removeFutureCache_kept n i : node_ok nowhere (P.removeFutureCache n i).
Proof.
  unfold P.removeFutureCache. keep_auto.
  apply keeps_modify. intros s' [H1 H2 H3 H4]. split; simpl; try done.
  intros j this [_ Hj]%lookup_delete_Some. by eapply H2.
Qed.
Hint Resolve removeFutureCache_kept : keep.

Lemma removeFutureProposals_kept : node_ok nowhere P.removeFutureProposals.
Proof. unfold P.removeFutureProposals. keep_auto. node_fields. Qed.

(** *** The timer *)
Lemma anyInConsensus_kept D l : (forall i, i ∈ l -> D i) -> node_ok D (P.anyInConsensus l).
Proof.
  induction l as [|i l IH]; intros Hl; simpl; [apply keeps_ret|]. apply keeps_bind.
  - apply on_cache_kept; [auto with keep|]. apply Hl. by constructor.
  - intros b. destruct (negb b); [apply keeps_ret|]. apply IH. intros j Hj. apply Hl. by constructor.
Qed.

Definition only_fuel (f : fault) : Prop := f = OutOfFuel.

Lemma tryTriggerFastViewChange_kept D handler fuel l :
  node_ok D handler ->
  keeps only_fuel (sane_event N) (sane_node N D) (PBFTConfig.tryTriggerFastViewChange P.m_config handler fuel l).
Proof.
  intros Hh. revert l. induction fuel as [|fuel IH]; intros l; simpl; [by intros s Hs|].
  keep_auto; apply keeps_faultless; auto with keep.
Qed.

Lemma freshTimer_sane c : sane_config N c -> sane_config N (PBFTConfig.freshTimer c).
Proof.
  revert c. apply config_modify. intros c. unfold PBFTConfig.freshTimer.
  destruct (_ <? _); by repeat split.
Qed.

Lemma resetTimer_fuel D handler :
  (forall D, node_ok D handler) -> keeps only_fuel (sane_event N) (sane_node N D) (P.resetTimer handler).
Proof.
  intros Hh. unfold P.resetTimer.
  assert (H : forall s0, keeps only_fuel (sane_event N) (sane_node N (fun i => is_Some (P.m_caches s0 !! i)))
    (inConsensus ← P.anyInConsensus (in_order (P.m_caches s0)).*1;
     if inConsensus : bool then
       s ← get;
       when (negb (PBFTTimer.running (PBFTConfig.m_timer (P.m_config s)))) (P.on_timer PBFTTimer.start)
     else
       P.on_config PBFTConfig.freshTimer ;;
       leader ← zoom P.m_config PBFTConfig.getLeader;
       s ← get;
       _ ← PBFTConfig.tryTriggerFastViewChange P.m_config handler (P.fastViewChangeFuel s) leader;
       mret tt)).
  { intros s0. apply keeps_bind.
    - apply keeps_faultless, anyInConsensus_kept. intros i. apply in_caches.
    - intros [|]; keep_auto;
        first [by apply tryTriggerFastViewChange_kept | apply keeps_faultless; auto with keep].
      apply on_config_kept. intros c. apply freshTimer_sane. }
  intros s Hs. apply wp_bind. simpl. eapply keeps_impl; [apply H| |].
  - destruct Hs. by split.
  - intros s' [H1 H2 H3 H4]. split; try done. intros i Hi. apply H4. by apply Hs.
Qed.
End SaneNode.

#[export] Hint Resolve node_config on_timer_kept committedIndex_kept resetTxsFlag_kept
  ensured_kept notifyCommittedProposalIndex_kept notifyMaxProposalIndex_kept
  addPrePrepareCache_kept addPrepareCache_kept addCommitReq_kept
  addCheckPointMsg_kept setCheckPointProposal_kept notifyToSealNextBlock_kept
  applyStateMachine_kept getAppliedCheckPointProposal_kept onApplyFinished_kept
  tryToApplyCommitQueue_kept updateCommitQueue_kept eraseExecutedProposal_kept
  clearExpiredExecutingProposal_kept eraseCommittedProposalList_kept loadAndVerifyProposal_kept
  initState_kept onProposalVerified_kept tryToCommitStableCheckPoint_kept
  updateStableCheckPointQueue_kept shouldRequestCheckPoint_kept checkAndPreCommit_kept
  checkAndCommitStableCheckPoint_kept addViewChangeReq_kept checkAndTryIntoNewView_kept tryToFillProposal_kept
  tryToTriggerFastViewChange_kept proofWeight_kept checkPrecommitMsg_kept
  removeInvalidViewChange_kept removeInvalidRecoverCache_kept resetCacheAfterViewChange_kept
  addRecoverReqCache_kept checkAndTryToRecover_kept removeConsensusedCache_kept
  removeFutureCache_kept removeFutureProposals_kept : keep.
