(* ===== verification/FaultFree.v ===== *)
(** FaultFree: a node does not crash.  From a sane state no input makes the engine reach a
    null pointer, an index out of range, a division by zero, a failed assertion or an
    endless fast view change - provided that the packets it decodes have the pointers and
    the lists that the code takes for granted; and two packets that do not, which crash
    every node that handles them. *)
From S2P Require Import Prelude Types Timer Validator Config Cache Processor LogSync Engine.
From S2P Require Import Quorum ConfigFacts CacheFacts Steps Node Refine Impl Behaviour FastView Sane SaneNode.

Section FaultFree.
Context `{Ext : Externals} (N : nat).
Notation config_ok := (keeps no_fault (sane_event N) (sane_config N)).
Notation node_ok D := (keeps no_fault (sane_event N) (sane_node N D)).
Notation prepared_ok := (Forall (sane_prepared N)).
Notation reproposals_ok := (Forall (sane_reproposal N)).

Section Handlers.
Context (D : BlockNumber -> Prop).

Lemma engine_committedIndex_kept : node_ok D E.committedIndex.
Proof. apply committedIndex_kept. Qed.
Hint Resolve engine_committedIndex_kept : keep.

Lemma isSyncingHigher_kept : node_ok D E.isSyncingHigher.
Proof. unfold E.isSyncingHigher. keep_auto. Qed.
Lemma broadcast_kept m : sane_msg N m -> node_ok D (E.broadcast m).
Proof. intros Hm. unfold E.broadcast. keep_auto. Qed.
Hint Resolve isSyncingHigher_kept broadcast_kept : keep.

(** ** Pre-prepare and prepare *)
Lemma broadcastPrepareMsg_kept m :
  is_Some (PBFTMessage.consensusProposal m) -> node_ok D (E.broadcastPrepareMsg m).
Proof.
  intros Hm. unfold E.broadcastPrepareMsg. keep_auto.
Qed.
Hint Resolve broadcastPrepareMsg_kept : keep.

Lemma prePrepare_proposal m : sane_prePrepare N m -> is_Some (PBFTMessage.consensusProposal m).
Proof. intros [(p & Hp & _) _]. by exists p. Qed.
Hint Resolve prePrepare_proposal : keep.

Lemma acceptPrePrepare_kept m : sane_prePrepare N m -> node_ok D (E.acceptPrePrepare m).
Proof. intros Hm. pose proof (prePrepare_proposal m Hm). unfold E.acceptPrePrepare. keep_auto. Qed.
Hint Resolve acceptPrePrepare_kept : keep.

Lemma valid_proposal c m : E.checkPBFTMsgState c m = VALID -> is_Some (PBFTMessage.consensusProposal m).
Proof. unfold E.checkPBFTMsgState. destruct (PBFTMessage.consensusProposal m); [by eexists|done]. Qed.

Lemma prePrepare_valid s m :
  E.checkPrePrepareMsg s m = VALID -> is_Some (PBFTMessage.consensusProposal m).
Proof.
  unfold E.checkPrePrepareMsg. destruct (E.checkPBFTMsgState _ _) eqn:E; [|done].
  intros _. by eapply valid_proposal.
Qed.

Lemma pbftMsg_valid s m : E.checkPBFTMsg s m = VALID -> is_Some (PBFTMessage.consensusProposal m).
Proof.
  unfold E.checkPBFTMsg. destruct (E.checkPBFTMsgState _ _) eqn:E; [|done].
  intros _. by eapply valid_proposal.
Qed.

Lemma sane_prePrepare_wire m : sane_prePrepare N m -> prePrepare_wire N m.
Proof. intros [(p & Hp & Hh) Hf]. split; [|exact Hf]. intros q Hq. congruence. Qed.

Lemma wire_valid s m :
  prePrepare_wire N m -> E.checkPrePrepareMsg s m = VALID -> sane_prePrepare N m.
Proof.
  intros [Hh Hf] Hv. destruct (prePrepare_valid s m Hv) as [p Hp].
  split; [|exact Hf]. exists p. auto.
Qed.
Hint Resolve sane_prePrepare_wire : keep.

Lemma handlePrePrepareMsg_kept m v g c :
  prePrepare_wire N m -> node_ok D (E.handlePrePrepareMsg m v g c).
Proof.
  intros Hm. unfold E.handlePrePrepareMsg. keep_auto.
  - eapply acceptPrePrepare_kept, wire_valid; [exact Hm|eassumption].
  - by eapply prePrepare_valid.
  - apply node_config, verifyProposal_config. eapply wire_valid; [exact Hm|eassumption].
Qed.
Hint Resolve handlePrePrepareMsg_kept : keep.

Lemma onPrePrepareVerified_kept e v m g :
  sane_prePrepare N m -> node_ok D (E.onPrePrepareVerified e v m g).
Proof. intros Hm. unfold E.onPrePrepareVerified. keep_auto. Qed.

(** ** The leader's own proposals *)
Lemma resetSealedTxs_kept m :
  is_Some (PBFTMessage.consensusProposal m) -> node_ok D (E.resetSealedTxs m).
Proof. intros Hm. unfold E.resetSealedTxs. keep_auto. Qed.

Lemma encoded_prePrepare k m :
  member N (PBFTMessage.generatedFrom m) -> sane_prePrepare N m ->
  sane_prePrepare N (PBFTMessage_encode k m).
Proof. intros Hf [Hp _]. split; [exact Hp|]. by intros b [= <-]. Qed.

Lemma same_message_from m p :
  E.same_message m p = true -> PBFTMessage.generatedFrom p = PBFTMessage.generatedFrom m /\
    PBFTMessage.packetType p = PBFTMessage.packetType m.
Proof.
  unfold E.same_message. rewrite !andb_true_iff, bool_decide_eq_true, !Z.eqb_eq.
  by intros [[[-> ->] _] _].
Qed.

Lemma encodeHandled_kept m : member N (PBFTMessage.generatedFrom m) -> node_ok D (E.encodeHandled m).
Proof.
  intros Hm. unfold E.encodeHandled. apply keeps_bind_get. intros s Hs.
  destruct (E.P.m_caches s !! _) as [c|] eqn:Ec; [|apply keeps_ret].
  apply keeps_bind; [|intros; apply keeps_ret]. apply keeps_modify.
  pose proof (sn_caches _ _ _ Hs _ _ Ec) as [K1 K2 K3 K4 K5 K6 K7].
  intros s0 [H1 H2 H3 H4]. split; simpl; try done.
  - intros i this. destruct (decide (i = PBFTMessage.index m)) as [->|Hne];
      [rewrite lookup_insert_eq|rewrite lookup_insert_ne by done; apply H2].
    intros [= <-]. split; simpl; try done.
    + intros q (p & Hp & ->)%fmap_Some. destruct (E.same_message m p) eqn:Es; [|by apply K5].
      apply encoded_prePrepare; [|by apply K5]. by rewrite (proj1 (same_message_from m p Es)).
    + intros q (p & Hp & ->)%fmap_Some. destruct (K6 p Hp) as [Hq [p' Hp']]. rewrite Hp'.
      split; [by destruct (E.same_message m p)|by eexists].
  - intros i Hi. destruct (decide (i = PBFTMessage.index m)) as [->|Hne];
      [rewrite lookup_insert_eq; by eexists|rewrite lookup_insert_ne by done; by apply H4].
Qed.

(** The packet that the leader sends. *)
Lemma encodeHandled_yields m :
  sane_prePrepare N m -> member N (PBFTMessage.generatedFrom m) ->
  PBFTMessage.packetType m = PrePreparePacket ->
  yields (sane_node N D) (E.encodeHandled m) (fun m' => sane_msg N (MPBFT m')).
Proof.
  intros Hm Hf Ht. unfold E.encodeHandled.
  assert (Hwire : forall k p, sane_prePrepare N p -> member N (PBFTMessage.generatedFrom p) ->
    PBFTMessage.packetType p = PrePreparePacket -> sane_msg N (MPBFT (PBFTMessage_encode k p))).
  { intros k p Hp Hpf Hpt. unfold sane_msg. simpl. rewrite Hpt.
    by apply sane_prePrepare_wire, encoded_prePrepare. }
  intros s Hs. unfold mbind, eff_bind. cbn [get].
  destruct (E.P.m_caches s !! _) as [c|] eqn:Ec; [|by apply Hwire]. cbn [modify mret eff_ret].
  destruct (C.m_prePrepare c) as [p|] eqn:Ep; [|by apply Hwire].
  destruct (E.same_message m p) eqn:Es; [|by apply Hwire].
  destruct (same_message_from m p Es) as [Ef Et]. apply Hwire; [|by rewrite Ef|by rewrite Et].
  by apply (sk_prePrepare _ _ (sn_caches _ _ _ Hs _ _ Ec)).
Qed.

(** The leader of an index is a node. *)
Lemma leaderIndex_member i : yields (sane_node N D) (zoom P.m_config (PBFTConfig.leaderIndex i)) (member N).
Proof.
  intros s Hs. pose proof (sn_config _ _ _ Hs) as Hc. pose proof (sc_num _ _ Hc) as Hn.
  pose proof (sc_some _ _ Hc).
  unfold zoom, PBFTConfig.leaderIndex, PBFTConfig.leader_of, mbind, eff_bind. simpl.
  destruct (_ || _); simpl; [done|]. rewrite Hn. apply Z.mod_pos_bound. lia.
Qed.

Lemma onRecvProposal_kept b d i h : node_ok D (E.onRecvProposal b d i h).
Proof.
  unfold E.onRecvProposal. case_bool_decide; [apply keeps_ret|].
  apply keeps_bind; [auto with keep|intros n]. apply keeps_bind_get. intros s Hs.
  destruct (i <=? _); [keep_auto|]. destruct (_ || _); [apply keeps_ret|].
  eapply keeps_bind_yields; [auto with keep|apply leaderIndex_member|]. intros l Hl.
  destruct (Z.eqb_spec l (PBFTConfig.nodeIndex (E.config_of s))) as [->|]; simpl; [|keep_auto].
  destruct (PBFTConfig.m_timeoutState _); [keep_auto|].
  set (p := PBFTProposal.create <| PBFTProposal.data := d |> <| PBFTProposal.index := i |>
    <| PBFTProposal.hash := h |> <| PBFTProposal.sealerId := _ |> <| PBFTProposal.systemProposal := b |>).
  set (m := populateWith _ p _ _ _ _).
  assert (Hm : sane_prePrepare N m) by (split; [by exists p|done]).
  assert (Hf : member N (PBFTMessage.generatedFrom m)).
  { unfold m, PBFTMessage.generatedFrom, BaseMessage.generatedFrom. simpl. rewrite u64_i64, u64_id; [done|].
    pose proof (sc_some _ _ (sn_config _ _ _ Hs)). destruct Hl. unfold is_u64, two64, NON_CONSENSUS_NODE in *.
    lia. }
  pose proof (encodeHandled_yields m Hm Hf eq_refl) as Hy.
  pose proof (encodeHandled_kept m Hf). pose proof (resetSealedTxs_kept m (prePrepare_proposal m Hm)).
  clearbody m. apply keeps_bind; [auto with keep|intros ret]. destruct ret; [|auto].
  eapply keeps_bind_yields; [done|exact Hy|]. intros m' Hm'. by apply broadcast_kept.
Qed.

Lemma handlePrepareMsg_kept m : node_ok D (E.handlePrepareMsg m).
Proof. unfold E.handlePrepareMsg. keep_auto. apply addPrepareCache_kept. by eapply pbftMsg_valid. Qed.

(** ** Entering a new view *)
Lemma reachNewView_kept v : node_ok D (E.reachNewView v).
Proof. unfold E.reachNewView. keep_auto. apply on_config_kept. intros c. apply resetNewViewState_sane. Qed.

Lemma requestPBFTData_kept n r k :
  is_Some n -> sane_event N (RequestPBFTData n r k) ->
  node_ok D (PBFTLogSync.requestPBFTData n r k).
Proof.
  intros Hn Hk. unfold PBFTLogSync.requestPBFTData. apply keeps_bind; [by apply keeps_emit|].
  intros []. keep_auto.
Qed.

Lemma requestPrecommitData_kept n m :
  is_Some n -> sane_prePrepare N m -> node_ok D (PBFTLogSync.requestPrecommitData n m).
Proof. intros Hn Hm. apply requestPBFTData_kept; [done|by split]. Qed.
Hint Resolve reachNewView_kept requestPrecommitData_kept : keep.

Lemma reHandlePrePrepare_kept m : sane_reproposal N m -> node_ok D (E.reHandlePrePrepare m).
Proof.
  intros Hm. pose proof (sr_prePrepare _ _ Hm) as Hp. pose proof (prePrepare_proposal m Hp).
  unfold E.reHandlePrePrepare. apply keeps_bind_deref; [done|intros p _].
  destruct (negb _); [keep_auto|].
  eapply keeps_bind_yields; [auto with keep|by apply tryToFillProposal_yields|].
  intros [m'|] Hm'; [pose proof (sr_prePrepare _ _ (Hm' m' eq_refl)); keep_auto|].
  keep_auto. apply (node_of_list N); [by eapply sn_config|exact (sr_from _ _ Hm)].
Qed.

Lemma reHandlePrePrepareProposals_kept n :
  reproposals_ok (NewViewMsg.prePrepareList n) -> node_ok D (E.reHandlePrePrepareProposals n).
Proof.
  intros Hn. unfold E.reHandlePrePrepareProposals. keep_auto.
  - apply reHandlePrePrepare_kept. apply (proj1 (Forall_forall _ _) Hn). by apply list_elem_of_In.
  - apply on_config_kept, config_modify. intros c. by repeat split.
Qed.

(** ** View changes *)
Lemma populateCommitted_some c :
  sane_config N c -> is_Some (PBFTConfig.populateCommittedProposal c).
Proof.
  intros [(p & Hp & Hb) _ _ _ _ _ _]. unfold PBFTConfig.populateCommittedProposal. rewrite Hp.
  destruct (populateProposal_balanced p true true Hb) as (q & -> & _). by eexists.
Qed.

Lemma withoutData_prepared s : sane_node N D s -> prepared_ok (P.preCommitCachesWithoutData s).
Proof.
  intros Hs. apply Forall_forall. intros m Hm%list_elem_of_In.
  apply list_elem_of_omap in Hm as ([i this] & Hin%elem_of_in_order & Hm).
  by apply (sk_withoutData _ _ (sn_caches _ _ _ Hs i this Hin)).
Qed.

(** A view change of this node can be collected and sent. *)
Definition sendable (v : ViewChangeMsg.t) : Prop :=
  forall k, collectable N (encode_viewChange k v) /\ sane_msg N (MViewChange (encode_viewChange k v)).

Lemma generateViewChange_returns s :
  sane_node N D s -> exists v, E.generateViewChange s = Done v s [] /\ sendable v.
Proof.
  intros Hs. pose proof (sn_config _ _ _ Hs) as Hc.
  destruct (committed_some N _ Hc) as [p Hp]. destruct (populateCommitted_some _ Hc) as [q Hq].
  unfold E.generateViewChange, mbind, eff_bind. simpl. unfold E.config_of.
  change (E.P.m_config s) with (P.m_config s). rewrite Hp, Hq. simpl.
  pose proof (withoutData_prepared s Hs) as Hw.
  eexists. split; [done|]. intros k. split; (split; [by eexists|]); simpl; [exact Hw|].
  eapply Forall_impl; [|exact Hw]. by intros m [].
Qed.

Lemma generateViewChange_kept : node_ok D E.generateViewChange.
Proof. intros s Hs. destruct (generateViewChange_returns s Hs) as (v & -> & _). by split. Qed.
Lemma generateViewChange_yields : yields (sane_node N D) E.generateViewChange sendable.
Proof. intros s Hs. by destruct (generateViewChange_returns s Hs) as (v & -> & Hv). Qed.

Lemma collectOwnViewChange_kept v : collectable N v -> node_ok D (E.collectOwnViewChange v).
Proof.
  intros Hv. unfold E.collectOwnViewChange. apply keeps_bind; [auto with keep|intros []].
  eapply keeps_bind_yields; [auto with keep|apply checkAndTryIntoNewView_yields|].
  intros [n|] Hn; [|apply keeps_ret]. by apply reHandlePrePrepareProposals_kept, Hn.
Qed.

Lemma sendViewChange_kept n : node_ok D (E.sendViewChange n).
Proof.
  unfold E.sendViewChange.
  eapply keeps_bind_yields; [apply generateViewChange_kept|apply generateViewChange_yields|].
  intros v Hv. apply keeps_bind_get. intros s _.
  destruct (Hv (PBFTConfig.nodeID (E.config_of s))) as [Hc Hm].
  apply keeps_bind; [by apply keeps_emit|]. intros []. by apply collectOwnViewChange_kept.
Qed.

Lemma broadcastViewChangeReq_kept : node_ok D E.broadcastViewChangeReq.
Proof.
  unfold E.broadcastViewChangeReq.
  eapply keeps_bind_yields; [apply generateViewChange_kept|apply generateViewChange_yields|].
  intros v Hv. apply keeps_bind_get. intros s _.
  destruct (Hv (PBFTConfig.nodeID (E.config_of s))) as [Hc Hm].
  apply keeps_bind; [by apply broadcast_kept|]. intros []. by apply collectOwnViewChange_kept.
Qed.

Lemma sendRecoverResponse_kept n : is_Some n -> node_ok D (E.sendRecoverResponse n).
Proof. intros Hn. unfold E.sendRecoverResponse. keep_auto. Qed.
Hint Resolve sendViewChange_kept broadcastViewChangeReq_kept sendRecoverResponse_kept : keep.

Lemma resetTimeoutState_sane b c : sane_config N c -> sane_config N (PBFTConfig.resetTimeoutState b c).
Proof. revert c. apply config_modify. intros c. by destruct b; repeat split. Qed.

Lemma triggerTimeout_kept b : node_ok D (E.triggerTimeout b).
Proof.
  unfold E.triggerTimeout. keep_auto. apply on_config_kept. intros c. apply resetTimeoutState_sane.
Qed.
Hint Resolve triggerTimeout_kept : keep.

Lemma checkPrepared_kept l : Forall checkable l -> node_ok D (E.checkPrepared l).
Proof. induction 1 as [|m l Hm _ IH]; simpl; keep_auto. Qed.

Lemma checkPrepared_yields l :
  Forall checkable l -> yields (sane_node N D) (E.checkPrepared l)
    (fun b => b = true -> Forall (fun m => is_Some (PBFTMessage.consensusProposal m)) l).
Proof.
  induction 1 as [|m l Hm _ IH]; simpl; [by apply yields_ret|].
  eapply yields_bind; [apply keeps_faultless; by apply checkPrecommitMsg_kept|apply checkPrecommitMsg_yields|].
  intros b Hb. destruct b; simpl; [|by apply yields_ret].
  eapply yields_mono; [exact IH|]. intros b Hl Eb. constructor; [by apply Hb|by apply Hl].
Qed.

(** The node answers a view change that has a sender. *)
Ltac known_sender := try (match goal with H : _ && bool_decide (is_Some ?n) = true |- _ =>
  apply sendRecoverResponse_kept; apply andb_true_iff in H as [_ H]; exact (bool_decide_eq_true_1 _ H)
end).

Lemma isValidViewChangeMsg_kept n v b :
  is_Some (ViewChangeMsg.committedProposal v) -> Forall checkable (ViewChangeMsg.preparedProposals v) ->
  node_ok D (E.isValidViewChangeMsg n v b).
Proof.
  intros Hc Hp. pose proof (checkPrepared_kept _ Hp). unfold E.isValidViewChangeMsg.
  keep_auto; known_sender.
  all: match goal with H : sane_node _ _ ?s |- is_Some (PBFTConfig.committedProposal (E.config_of ?s)) =>
    apply (committed_some N), (sn_config _ _ _ H) end.
Qed.

Lemma isValidViewChangeMsg_yields n v b :
  Forall checkable (ViewChangeMsg.preparedProposals v) ->
  yields (sane_node N D) (E.isValidViewChangeMsg n v b) (fun valid => valid = true ->
    Forall (fun m => is_Some (PBFTMessage.consensusProposal m)) (ViewChangeMsg.preparedProposals v)).
Proof.
  intros Hp. unfold E.isValidViewChangeMsg.
  eapply yields_bind; [apply keeps_faultless; auto with keep|apply yields_any|]. intros n' _.
  apply yields_bind_deref. intros p _. apply yields_bind_get. intros s _.
  destruct (_ <? n'); [by apply yields_ret|].
  eapply yields_bind; [apply keeps_faultless; keep_auto; known_sender|apply yields_any|].
  intros [] _. apply yields_bind_get. intros s1 _. destruct (_ <? _); [by apply yields_ret|].
  apply yields_bind_deref. intros q _. destruct (_ && _); [by apply yields_ret|].
  eapply yields_bind; [apply keeps_faultless; by apply checkPrepared_kept|by apply checkPrepared_yields|].
  intros ok Hok. destruct ok; simpl; [|by apply yields_ret]. destruct b; simpl; [|apply yields_ret; auto].
  destruct (E.checkSignature _ _); apply yields_ret; auto.
Qed.

Lemma wire_checkable l : Forall (prepared_wire N) l -> Forall checkable l.
Proof. apply Forall_impl. by intros m []. Qed.

Lemma wire_collectable v :
  viewChange_wire N v ->
  Forall (fun m => is_Some (PBFTMessage.consensusProposal m)) (ViewChangeMsg.preparedProposals v) ->
  collectable N v.
Proof.
  intros [Hc Hp] Hs. split; [done|]. revert Hp Hs. generalize (ViewChangeMsg.preparedProposals v).
  induction 1 as [|m l (Hb & Hm & Hf) _ IH]; intros Hs; [constructor|].
  inversion_clear Hs. constructor; [by split|auto].
Qed.

(** The end of a handler that has collected a view change. *)
Lemma enterNewView_kept :
  node_ok D (newViewMsg ← P.checkAndTryIntoNewView;
    match newViewMsg with
    | Some newViewMsg => E.reHandlePrePrepareProposals newViewMsg ;; mret true
    | None => mret true
    end).
Proof.
  eapply keeps_bind_yields; [auto with keep|apply checkAndTryIntoNewView_yields|].
  intros [n|] Hn; [|apply keeps_ret].
  apply keeps_bind; [by apply reHandlePrePrepareProposals_kept, Hn|]. intros []. apply keeps_ret.
Qed.

Lemma handleViewChangeMsg_kept v : viewChange_wire N v -> node_ok D (E.handleViewChangeMsg v).
Proof.
  intros Hv. pose proof (wire_checkable _ (vw_prepared _ _ Hv)) as Hp.
  unfold E.handleViewChangeMsg. eapply keeps_bind_yields.
  - apply isValidViewChangeMsg_kept; [apply Hv|exact Hp].
  - by apply isValidViewChangeMsg_yields.
  - intros valid Hvalid. destruct valid; simpl; [|apply keeps_ret].
    pose proof (wire_collectable v Hv (Hvalid eq_refl)).
    pose proof enterNewView_kept. keep_auto.
Qed.

Lemma viewChangeWeight_kept n l w : Forall (viewChange_wire N) l -> node_ok D (E.viewChangeWeight n l w).
Proof.
  intros Hl. revert w. induction Hl as [|v l Hv _ IH]; intros w; simpl; [apply keeps_ret|].
  pose proof (isValidViewChangeMsg_kept n v true (vw_committed _ _ Hv) (wire_checkable _ (vw_prepared _ _ Hv))).
  keep_auto.
Qed.

Lemma handleNewViewMsg_kept n :
  Forall (viewChange_wire N) (NewViewMsg.viewChangeMsgList n) -> reproposals_ok (NewViewMsg.prePrepareList n) ->
  node_ok D (E.handleNewViewMsg n).
Proof.
  intros Hv Hp. pose proof (reHandlePrePrepareProposals_kept n Hp).
  pose proof (fun w => viewChangeWeight_kept (NewViewMsg.from n) _ w Hv).
  unfold E.handleNewViewMsg, E.isValidNewViewMsg. keep_auto.
Qed.

(** ** Commit, checkpoint and time-out *)
Lemma config_racing c : sane_config N c -> racing c.
Proof.
  intros Hc. pose proof (sc_some _ _ Hc). pose proof (sc_num _ _ Hc) as Hn.
  split; rewrite Hn; [unfold NON_CONSENSUS_NODE, two64 in *; lia|]. intros Hcons.
  by apply (sc_index _ _ Hc).
Qed.
End Handlers.
Hint Resolve engine_committedIndex_kept isSyncingHigher_kept broadcast_kept handlePrepareMsg_kept
  handlePrePrepareMsg_kept handleViewChangeMsg_kept handleNewViewMsg_kept
  triggerTimeout_kept sendRecoverResponse_kept : keep.

(** The fast view change neither faults nor runs for ever. *)
Lemma resetTimer_kept D : node_ok D (P.resetTimer E.fastViewChangeHandler).
Proof.
  intros s Hs. pose proof (sn_config _ _ _ Hs) as Hc.
  pose proof (resetTimer_fuel N D E.fastViewChangeHandler
    (fun D => triggerTimeout_kept D false) s Hs) as H1.
  assert (H2 : wp not_fuel (P.resetTimer E.fastViewChangeHandler s) (fun _ _ _ => True)).
  { eapply wp_mono; [apply resetTimer_ends|done]; [by apply config_racing|].
    by rewrite (sc_num _ _ Hc), (sc_list _ _ Hc). }
  destruct (P.resetTimer _ s); simpl in *; [done..|]. by apply H2.
Qed.
Hint Resolve resetTimer_kept : keep.

Section MoreHandlers.
Context (D : BlockNumber -> Prop).

Lemma checkAndCommit_kept : node_ok D (P.checkAndCommit E.fastViewChangeHandler).
Proof.
  unfold P.checkAndCommit. apply node_bind_get. intros s Hs. apply keeps_bind.
  - apply keeps_for_each. intros i Hi%in_caches.
    apply (promised_kept N _ i precommitted C.checkAndCommit
      (fun ret => when ret (P.commitPrecommit i ;; P.on_timer PBFTTimer.restart ;;
         P.on_config PBFTConfig.resetToView))); [apply checkAndCommit_ok|done|apply keeps_ret|].
    intros s' this H1 Hthis Hp. simpl. apply wp_bind_kept.
    eapply wp_mono; [by eapply commitPrecommit_wp|].
    intros [[]|x] s2 e2 [H2 V2]; (split; [done|]); [|exact H2].
    apply (keeps_bind (C := no_fault)
      (I := sane_node N (fun i => is_Some (P.m_caches s !! i)))); [auto with keep| |exact H2].
    intros []. apply on_config_kept, config_modify. intros c. by repeat split.
  - intros []. auto with keep.
Qed.
Hint Resolve checkAndCommit_kept : keep.

Lemma handleCommitMsg_kept m : node_ok D (E.handleCommitMsg m).
Proof. unfold E.handleCommitMsg. keep_auto. Qed.

Lemma proposalSignature_some c i p : E.checkProposalSignature c i p = true -> is_Some p.
Proof. destruct p; [by eexists|done]. Qed.

Lemma requestCommittedProposals_kept n i o :
  is_Some n -> node_ok D (PBFTLogSync.requestCommittedProposals n i o).
Proof. intros Hn. by apply requestPBFTData_kept. Qed.
Hint Resolve requestCommittedProposals_kept : keep.

Lemma handleCheckPointMsg_kept m :
  is_Some (PBFTMessage.from m) -> node_ok D (E.handleCheckPointMsg m).
Proof.
  intros Hn. unfold E.handleCheckPointMsg. keep_auto. apply addCheckPointMsg_kept.
  by eapply proposalSignature_some, negb_false_iff.
Qed.

Lemma handleRecoverResponse_kept m : node_ok D (E.handleRecoverResponse m).
Proof. unfold E.handleRecoverResponse. keep_auto. Qed.
Lemma handleRecoverRequest_kept m :
  is_Some (PBFTMessage.from m) -> node_ok D (E.handleRecoverRequest m).
Proof. intros Hn. unfold E.handleRecoverRequest. keep_auto. Qed.
Hint Resolve handleCommitMsg_kept handleCheckPointMsg_kept handleRecoverResponse_kept
  handleRecoverRequest_kept : keep.

Lemma handleMsg_kept m : sane_msg N m -> is_Some (msg_from m) -> node_ok D (E.handleMsg m).
Proof.
  unfold E.handleMsg, E.ignore, sane_msg. intros Hm Hn.
  destruct (msg_packetType m), m as [m|v|n|r]; try done; keep_auto.
  apply handleNewViewMsg_kept; apply Hm.
Qed.

Lemma onTimeout_kept : node_ok D E.onTimeout.
Proof. unfold E.onTimeout. keep_auto. Qed.

Lemma onProposalApplied_kept b p q : node_ok D (E.onProposalApplied b p q).
Proof.
  unfold E.onProposalApplied, E.onProposalApplyFailed, E.onProposalApplySuccess. keep_auto.
Qed.

Lemma sendCommittedProposalResponse_kept l : node_ok D (E.sendCommittedProposalResponse l).
Proof. unfold E.sendCommittedProposalResponse. keep_auto. Qed.
Hint Resolve sendCommittedProposalResponse_kept : keep.
Lemma onGetCommittedProposals_kept l : node_ok D (E.onGetCommittedProposals l).
Proof. unfold E.onGetCommittedProposals. keep_auto. Qed.
Lemma onReceiveCommittedProposalRequest_kept r :
  node_ok D (E.onReceiveCommittedProposalRequest (MRequest r)).
Proof. unfold E.onReceiveCommittedProposalRequest. keep_auto. Qed.
Lemma fetchPrecommitData_wire s i h v k :
  sane_node N D s -> P.fetchPrecommitData s i h = Some v ->
  sane_msg N (MViewChange (encode_viewChange k
    (v <| ViewChangeMsg.packetType := PreparedProposalResponse |>))).
Proof.
  intros Hs. unfold P.fetchPrecommitData. destruct (_ ≫= C.m_precommit) as [m|] eqn:E; [|done].
  destruct (negb _); [done|]. intros [= <-].
  apply bind_Some in E as (this & Hthis & Hm).
  destruct (sk_precommit _ _ (sn_caches _ _ _ Hs _ _ Hthis) _ Hm) as [(p & Hp & Hb) _].
  split; [done|]. repeat constructor. intros q Hq. congruence.
Qed.

Lemma onReceivePrecommitRequest_kept r : node_ok D (E.onReceivePrecommitRequest (MRequest r)).
Proof.
  unfold E.onReceivePrecommitRequest. apply keeps_bind_get. intros s Hs.
  destruct (P.fetchPrecommitData s _ _) as [v|] eqn:E; [|apply keeps_ret].
  apply keeps_emit. by eapply fetchPrecommitData_wire.
Qed.

(** ** Responses of peers *)
Lemma decode_kept d : node_ok D (PBFTLogSync.decode d).
Proof. unfold PBFTLogSync.decode. keep_auto. Qed.
Lemma decode_sane d : sane_wire N d -> yields (sane_node N D) (PBFTLogSync.decode d) (sane_msg N).
Proof. intros Hd. unfold PBFTLogSync.decode. destruct d; apply yields_ret || done; [|exact Hd]. by split. Qed.
Hint Resolve decode_kept : keep.

Lemma onRecvCommittedProposalsResponse_kept e n d i o :
  is_Some n -> sane_wire N d -> node_ok D (PBFTLogSync.onRecvCommittedProposalsResponse e n d i o).
Proof.
  intros Hn Hd. unfold PBFTLogSync.onRecvCommittedProposalsResponse. destruct e; [keep_auto|].
  assert (H : node_ok D (response ← PBFTLogSync.decode d;
    if bool_decide (msg_packetType response <> CommittedProposalResponse) then mret tt
    else match response with
         | MPBFT proposalResponse =>
             P.initState (PBFTMessage.proposals proposalResponse) n ;; log_deref INFO n
         | _ => crash NullDeref
         end)).
  { eapply keeps_bind_yields; [auto with keep|by apply decode_sane|]. intros m Hm.
    case_bool_decide as Ht; [apply keeps_ret|].
    unfold sane_msg in Hm. rewrite Ht in Hm. destruct m; try done. keep_auto. }
  clear Hd. destruct d; first [exact H|apply keeps_ret].
Qed.

Lemma onRecvPrecommitResponse_kept e n d m :
  is_Some n -> sane_wire N d -> sane_prePrepare N m ->
  node_ok D (E.onRecvPrecommitResponse e n d m).
Proof.
  intros Hn Hd Hp. unfold E.onRecvPrecommitResponse, PBFTLogSync.onRecvPrecommitResponse.
  apply keeps_bind; [keep_auto|intros _].
  eapply keeps_bind_yields; [auto with keep|by apply decode_sane|]. intros r Hr.
  case_bool_decide as Ht; [apply keeps_ret|].
  unfold sane_msg in Hr. rewrite Ht in Hr. destruct r as [|v| |]; try done. destruct Hr as [Hl Hc].
  destruct (ViewChangeMsg.preparedProposals v) as [|q [|? ?]]; try done.
  apply Forall_inv in Hc. apply keeps_bind; [by apply keeps_ret|intros _].
  apply keeps_bind_deref; [by eexists|intros q' [= <-]]. keep_auto; [by apply prePrepare_proposal|].
  match goal with H : PBFTMessage.consensusProposal m = Some ?a |- _ => rename a into p, H into Hm end.
  apply handlePrePrepareMsg_kept, sane_prePrepare_wire. destruct Hp as [(p' & Hp' & Hh) Hf].
  split; [|exact Hf]. rewrite Hm in Hp'. injection Hp' as <-. by eexists.
Qed.

Lemma onCheckPointTimeout_kept i : D i -> node_ok D (P.onCheckPointTimeout i).
Proof.
  intros Hi. unfold P.onCheckPointTimeout. apply keeps_bind_get. intros s _.
  apply on_cache_kept; [|done]. apply onCheckPointTimeout_ok. intros j. keep_auto.
Qed.
End MoreHandlers.

(** ** A block is committed *)
Lemma finalizeConsensus_kept cfg b :
  sane_ledger N cfg -> node_ok nowhere (E.finalizeConsensus cfg b).
Proof.
  intros Hl. unfold E.finalizeConsensus. keep_auto.
Qed.

Lemma asyncNotifyNewBlock_kept cfg :
  sane_ledger N cfg -> node_ok nowhere (E.asyncNotifyNewBlock cfg).
Proof.
  intros Hl. pose proof (finalizeConsensus_kept cfg true Hl). unfold E.asyncNotifyNewBlock. keep_auto.
Qed.
End FaultFree.

#[export] Hint Resolve engine_committedIndex_kept isSyncingHigher_kept onRecvProposal_kept
  onPrePrepareVerified_kept onTimeout_kept onProposalApplied_kept onGetCommittedProposals_kept
  onReceiveCommittedProposalRequest_kept onReceivePrecommitRequest_kept
  onRecvCommittedProposalsResponse_kept onRecvPrecommitResponse_kept
  finalizeConsensus_kept asyncNotifyNewBlock_kept : keep.
