(* ===== verification/Boot.v ===== *)
(** Boot: [PBFTImpl] as the object the other services hold - starting and stopping, the
    queries about its state, [init] with what the storage has kept - and the state that
    [init] leaves, on which the theorems about runs start. *)
From S2P Require Import Prelude Types Protobuf Codec Blocks Timer Validator Config Cache Processor LogSync Engine Impl.
From S2P Require Import Storage Quorum BlockValidator ConfigFacts CacheFacts Steps Node Growth Refine.
From S2P Require Import Behaviour Invariants Votes Safety Agreement Certificates.

(** * The object *)
Module Service.
Module E := PBFTEngine.

(** [asyncGetConsensusStatus]: the fields of the answer. *)
Record Status : Type := mkStatus {
  nodeID : NodeID; index : IndexType; leaderIndex : IndexType; consensusNodesNum : Z;
  maxFaultyQuorum : Z; minRequiredQuorum : Z; isConsensusNode : bool; blockNumber : BlockNumber;
  hash : HashType; timeout : bool; changeCycle : Z; view : ViewType; connectedNodeList : Z;
  consensusNodeList : list (NodeID * Z * Z)
}.

Record t : Type := mk { m_pbftEngine : E.t; m_running : bool }.
#[global] Instance eta_t : Eta t := fun r => mk (m_pbftEngine r) (m_running r).

Definition create (_pbftEngine : E.t) : t := mk _pbftEngine false.
Definition pbftConfig (s : t) : PBFTConfig.t := config_of (m_pbftEngine s).

Section Methods.
Context `{Ext : Externals} `{Bl : Blocks}.
Notation M := (Eff Event t).

Definition start : M unit :=
  s ← get;
  if m_running s then mret tt
  else zoom m_pbftEngine E.start ;; modify (fun s => s <| m_running := true |>).

(** The validator of blocks has a thread pool and no state to stop. *)
Definition stop : M unit :=
  s ← get;
  if negb (m_running s) then mret tt
  else zoom m_pbftEngine E.stop ;; modify (fun s => s <| m_running := false |>).

Definition asyncGetPBFTView (s : t) : ViewType := PBFTConfig.m_view (pbftConfig s).
Definition consensusNodes (s : t) : list ConsensusNode.t :=
  PBFTConfig.consensusNodeList (pbftConfig s).
Definition nodeIndex (s : t) : IndexType := PBFTConfig.nodeIndex (pbftConfig s).

(** Entry [i] of the node list in the status. *)
Definition node_entry (i : nat) (node : ConsensusNode.t) : NodeID * Z * Z :=
  (ConsensusNode.nodeID node, ConsensusNode.weight node, Z.of_nat i).

Definition asyncGetConsensusStatus : Eff Event PBFTConfig.t Status :=
  config ← get;
  leader ← PBFTConfig.getLeader;
  committed ← deref (PBFTConfig.committedProposal config);
  mret (mkStatus (PBFTConfig.nodeID config) (PBFTConfig.nodeIndex config) leader
    (PBFTConfig.consensusNodesNum config) (PBFTConfig.m_maxFaultyQuorum config)
    (PBFTConfig.m_minRequiredQuorum config) (PBFTConfig.isConsensusNode config)
    (PBFTProposal.index committed) (PBFTProposal.hash committed)
    (PBFTConfig.m_timeoutState config) (PBFTTimer.m_changeCycle (PBFTConfig.m_timer config))
    (PBFTConfig.m_view config)
    (Z.of_nat (size (PBFTConfig.m_connectedNodeList config)))
    (imap node_entry (PBFTConfig.consensusNodeList config))).

Definition asyncCheckBlock (_block : FullBlock)
    : Eff BlockValidator.Call PBFTConfig.t unit := BlockValidator.asyncCheckBlock _block.
End Methods.

(** The registrations, which the node makes before [init]. *)
Definition registerSealProposalNotifier (c : PBFTConfig.t) : PBFTConfig.t :=
  c <| PBFTConfig.m_sealProposalNotifier := true |>.
Definition registerStateNotifier (c : PBFTConfig.t) : PBFTConfig.t :=
  c <| PBFTConfig.m_stateNotifier := true |>.
Definition registerNewBlockNotifier (c : PBFTConfig.t) : PBFTConfig.t :=
  c <| PBFTConfig.m_newBlockNotifier := true |>.
Definition registerSealerResetNotifier (c : PBFTConfig.t) : PBFTConfig.t :=
  c <| PBFTConfig.m_sealerResetNotifier := true |>.
End Service.

Module PBFTFactory.
(** [createPBFT]: the engine for the key pair, and the storage, whose table is created
    first; [table] is the answer to that, [None] for no error. *)
Definition createPBFT `{Ext : Externals} `{Bl : Blocks} (_keyPair : NodeID) (table : option bool)
    : Eff LedgerStorage.Call LedgerStorage.t Service.t :=
  LedgerStorage.createKVTable table ;;
  let pbftConfig := PBFTConfig.create _keyPair in
  let pbftEngine := PBFTEngine.create pbftConfig in
  modify LedgerStorage.registerFinalizeHandler ;;
  mret (Service.create pbftEngine).
End PBFTFactory.

(** * Computations that return *)
Section Returns.
Context {E S : Type}.

Definition completes {A} (o : outcome E S A) (Q : A -> S -> Prop) : Prop :=
  match o with Done a s _ => Q a s | _ => False end.

Lemma completes_bind {A B} (m : Eff E S A) (k : A -> Eff E S B) s Q :
  completes (m s) (fun a s1 => completes (k a s1) Q) -> completes ((m ≫= k) s) Q.
Proof.
  unfold mbind, eff_bind. destruct (m s) as [a s1 e1| |]; [|done..]. simpl.
  by destruct (k a s1).
Qed.

Lemma completes_mono {A} (o : outcome E S A) (Q Q' : A -> S -> Prop) :
  completes o Q -> (forall a s, Q a s -> Q' a s) -> completes o Q'.
Proof. destruct o; simpl; auto. Qed.

(** What a relation that [m] respects says of its result. *)
Lemma completes_respects {A} R (m : Eff E S A) s (Q : A -> S -> Prop) :
  respects any_fault R m -> completes (m s) Q ->
  completes (m s) (fun a s' => Q a s' /\ exists es, R s s' es).
Proof. intros H. specialize (H s). destruct (m s); simpl in *; eauto. Qed.
End Returns.

Lemma completes_zoom {E S T A} (proj : S -> T) `{!Settable proj} (m : Eff E T A) s Q :
  completes (m (proj s)) (fun a t => Q a (s <| proj := t |>)) -> completes (zoom proj m s) Q.
Proof. unfold zoom. destruct (m (proj s)); simpl; auto. Qed.


(** * What [init] leaves *)
Section Initial.
Context `{Ext : Externals}.
Import PBFTConfig.

(** The sealer can be notified: the leader is defined and a block is committed. *)
Record ready (c : t) : Prop := {
  ready_committed : is_Some (committedProposal c);
  ready_period : m_leaderSwitchPeriod c <> 0;
  ready_nodes : consensusNodesNum c <> 0
}.

Lemma committedIndex_exact c q (Q : Z -> t -> Prop) :
  committedProposal c = Some q -> Q (PBFTProposal.index q) c -> completes (committedIndex c) Q.
Proof. intros Hq HQ. unfold committedIndex, mbind, eff_bind. simpl. by rewrite Hq. Qed.

Lemma committedIndex_completes c (Q : Z -> t -> Prop) :
  is_Some (committedProposal c) -> (forall n, Q n c) -> completes (committedIndex c) Q.
Proof. intros [p Hp] HQ. by apply (committedIndex_exact c p). Qed.

Lemma leaderIndex_completes i c (Q : Z -> t -> Prop) :
  ready c -> (forall n, Q n c) -> completes (leaderIndex i c) Q.
Proof.
  intros [_ Hp Hn] HQ. unfold leaderIndex, leader_of, mbind, eff_bind. simpl.
  rewrite (proj2 (Z.eqb_neq _ _) Hp), (proj2 (Z.eqb_neq _ _) Hn). simpl. apply HQ.
Qed.

Lemma asyncNotifySealProposal_completes i j m r c :
  completes (asyncNotifySealProposal i j m r c) (fun _ c' => c' = c).
Proof.
  unfold asyncNotifySealProposal, mbind, eff_bind. simpl.
  destruct (negb _); [done|]. by destruct (_ <? _).
Qed.

Lemma notifySealer_completes i b c :
  ready c -> completes (notifySealer i b c) (fun _ _ => True).
Proof.
  intros H. unfold notifySealer. apply completes_bind. cbn [completes get].
  apply completes_bind. apply leaderIndex_completes; [done|]. intros n.
  destruct (negb (n =? _)); [done|]. destruct (negb (canHandleNewProposal c)); [done|].
  destruct b.
  { apply completes_bind. by eapply completes_mono; [apply asyncNotifySealProposal_completes|]. }
  cbv zeta. destruct (_ <=? m_sealEndIndex c); [done|]. destruct (_ <? Z.max _ _); [done|].
  apply completes_bind, committedIndex_completes; [apply H|]. intros k.
  destruct (_ && _); [done|].
  apply completes_bind. by eapply completes_mono; [apply asyncNotifySealProposal_completes|].
Qed.

Lemma reNotifySealer_completes i c :
  ready c -> completes (reNotifySealer i c) (fun _ _ => True).
Proof.
  intros H. unfold reNotifySealer. apply completes_bind. cbn [completes get].
  destruct (_ <=? i); [done|]. apply completes_bind, committedIndex_completes; [apply H|].
  intros k. destruct (i <? k); [done|]. apply completes_bind. cbn [completes modify].
  apply notifySealer_completes. by destruct H.
Qed.

Lemma notifyResetSealing_completes i c :
  is_Some (committedProposal c) -> completes (notifyResetSealing i c) (fun _ _ => True).
Proof.
  intros [p Hp]. destruct (notifyResetSealing_done i c p Hp) as (c' & es & -> & _). done.
Qed.

(** The same with what [config_step] says. *)
Lemma completes_evolves {A} (m : Eff Event t A) c :
  respects any_fault config_step m -> completes (m c) (fun _ _ => True) ->
  completes (m c) (fun _ c' => evolves c c').
Proof.
  intros Hr H. eapply completes_mono; [by apply (completes_respects config_step)|].
  by intros a c' [_ [es [He _]]].
Qed.

(** What later changes of the configuration keep of the node list and the marks. *)
Record settled (c c' : t) : Prop := {
  st_list : consensusNodeList c' = consensusNodeList c;
  st_num : consensusNodesNum c' = consensusNodesNum c;
  st_index : nodeIndex c' = nodeIndex c;
  st_id : nodeID c' = nodeID c;
  st_committed : committedProposal c' = committedProposal c;
  st_progressed : progressedIndex c' = progressedIndex c;
  st_quorum : m_minRequiredQuorum c' = m_minRequiredQuorum c;
  st_faulty : m_maxFaultyQuorum c' = m_maxFaultyQuorum c;
  st_expected : m_expectedCheckPoint c <= m_expectedCheckPoint c';
  st_low : m_lowWaterMark c' = m_lowWaterMark c \/ progressedIndex c <= m_lowWaterMark c'
}.

Lemma settled_refl c : settled c c.
Proof. split; auto; lia. Qed.

Lemma settled_trans c1 c2 c3 : settled c1 c2 -> settled c2 c3 -> settled c1 c3.
Proof. intros [] []. split; [congruence..|lia|intuition congruence]. Qed.

Lemma evolves_settled c c' : evolves c c' -> settled c c'.
Proof.
  intros [B F M L P V W X]. unfold progressedIndex, committedProposal in *.
  split; unfold consensusNodeList, consensusNodesNum, nodeIndex, nodeID, committedProposal,
    progressedIndex; by rewrite ?B.
Qed.

Lemma settled_ready c c' : settled c c' -> ready c -> m_leaderSwitchPeriod c' <> 0 -> ready c'.
Proof. intros [] [] H. split; congruence. Qed.

Lemma evolves_ready c c' : evolves c c' -> ready c -> ready c'.
Proof.
  intros H Hr. apply (settled_ready c); [by apply evolves_settled|done|].
  rewrite (ev_period _ _ H). apply Hr.
Qed.

(** A configuration that has no block and no node list yet. *)
Record blank (c : t) : Prop := {
  bl_committed : committedProposal c = None;
  bl_list : consensusNodeList c = [];
  bl_progressed : progressedIndex c = 0;
  bl_expected : m_expectedCheckPoint c = 0;
  bl_low : m_lowWaterMark c = 0
}.

(** The block and the node list that the ledger names. *)
Definition block_of (cfg : LedgerConfig.t) : PBFTProposal.t :=
  PBFTProposal.create <| PBFTProposal.index := LedgerConfig.blockNumber cfg |>
                      <| PBFTProposal.hash := LedgerConfig.hash cfg |>.
Definition nodes_of (cfg : LedgerConfig.t) : list ConsensusNode.t :=
  merge_sort ConsensusConfig.node_le (LedgerConfig.consensusNodeList cfg).

(** The node list is installed. *)
Lemma first_nodes l c :
  l <> [] -> consensusNodeList c = [] ->
  completes (ConsensusConfig.setConsensusNodeList base updateQuorum l c) (fun sorted c' =>
    sorted = merge_sort ConsensusConfig.node_le l /\
    exists d, c' = updateQuorum d /\ consensusNodeList d = sorted /\
      consensusNodesNum d = Z.of_nat (length l) /\
      nodeIndex d = ConsensusConfig.index_from 0 (nodeID c) sorted /\ nodeID d = nodeID c /\
      committedProposal d = committedProposal c /\ progressedIndex d = progressedIndex c /\
      m_expectedCheckPoint d = m_expectedCheckPoint c /\ m_lowWaterMark d = m_lowWaterMark c).
Proof.
  intros Hl Hc. unfold ConsensusConfig.setConsensusNodeList. rewrite bool_decide_false by done.
  set (sorted := merge_sort ConsensusConfig.node_le l).
  assert (Hlen : length sorted = length l) by (unfold sorted; by rewrite (merge_sort_Permutation _ l)).
  apply completes_bind. cbn [completes get].
  unfold consensusNodeList in Hc. rewrite Hc. unfold ConsensusConfig.compareConsensusNode.
  rewrite (proj2 (Nat.eqb_neq (length sorted) (length []))) by (rewrite Hlen; by destruct l).
  cbn [negb]. do 3 (apply completes_bind; cbn [completes modify]).
  cbn [completes mret eff_ret]. split; [done|].
  eexists. split; [reflexivity|]. rewrite <- Hlen. by repeat split.
Qed.

Definition initialised (cfg : LedgerConfig.t) (c c' : t) : Prop :=
  consensusNodeList c' = nodes_of cfg /\
  consensusNodesNum c' = Z.of_nat (length (LedgerConfig.consensusNodeList cfg)) /\
  nodeIndex c' = ConsensusConfig.index_from 0 (nodeID c) (nodes_of cfg) /\
  nodeID c' = nodeID c /\ committedProposal c' = Some (block_of cfg) /\
  progressedIndex c' = LedgerConfig.blockNumber cfg + 1 /\ marks c' /\ exists d, consensusNodeList d = nodes_of cfg /\
    m_minRequiredQuorum c' = m_minRequiredQuorum (updateQuorum d) /\
    m_maxFaultyQuorum c' = m_maxFaultyQuorum (updateQuorum d).

(** Installing the first block. *)
Lemma first_block cfg c :
  blank c -> 0 <= LedgerConfig.blockNumber cfg ->
  let n := LedgerConfig.blockNumber cfg in
  let c' := setCommittedProposal (block_of cfg) c in
  consensusNodeList c' = [] /\ nodeID c' = nodeID c /\ committedProposal c' = Some (block_of cfg) /\
  progressedIndex c' = n + 1 /\ m_expectedCheckPoint c' = n + 1 /\ m_lowWaterMark c' = n + 1.
Proof.
  intros [Hc Hl Hp He Hw] Hn n c'.
  destruct (setCommittedProposal_fields (block_of cfg) c) as (F1 & F2 & F3 & F4 & _).
  change (PBFTProposal.index (block_of cfg)) with n in *. rewrite Hp in F2. rewrite He in F3.
  rewrite Hw in F4. fold c' in F1, F2, F3, F4. split.
  { rewrite <- Hl. unfold c', setCommittedProposal, ConsensusConfig.setCommittedProposal,
      consensusNodeList. cbn -[Z.ltb]. by repeat (destruct (_ <? _); cbn -[Z.ltb]). }
  split.
  { unfold c', setCommittedProposal, ConsensusConfig.setCommittedProposal, nodeID. cbn -[Z.ltb].
    by repeat (destruct (_ <? _); cbn -[Z.ltb]). }
  split; [done|]. rewrite F2, F3, F4. unfold n in *. lia.
Qed.

Lemma settled_initialised cfg c c1 c2 :
  settled c1 c2 -> initialised cfg c c1 -> initialised cfg c c2.
Proof.
  intros [] (H1 & H2 & H3 & H4 & H5 & H9 & [M1 M2 M3] & d & H6 & H7 & H8).
  repeat (split; [congruence|]). split.
  - split; unfold committed_index in *; rewrite ?st_committed0, ?st_progressed0; [done|lia|].
    destruct st_low0; lia.
  - exists d. split; [done|]. split; congruence.
Qed.

Lemma setConsensusNodeList_first cfg c0 c :
  LedgerConfig.consensusNodeList cfg <> [] -> 0 <= LedgerConfig.blockNumber cfg ->
  blank c0 -> c = (setCommittedProposal (block_of cfg) c0) <| base :=
    (base (setCommittedProposal (block_of cfg) c0))
      <| ConsensusConfig.m_blockTxCountLimit := LedgerConfig.blockTxCountLimit cfg |> |> ->
  completes (setConsensusNodeList (LedgerConfig.consensusNodeList cfg) c)
    (fun _ c' => initialised cfg c0 c').
Proof.
  intros Hl Hn Hb ->. destruct (first_block cfg c0 Hb Hn) as (F1 & F2 & F3 & F4 & F5 & F6).
  set (c1 := setCommittedProposal (block_of cfg) c0) in *. clearbody c1.
  set (c := c1 <| base := _ |>).
  assert (G : consensusNodeList c = [] /\ nodeID c = nodeID c1 /\
    committedProposal c = committedProposal c1 /\ progressedIndex c = progressedIndex c1 /\
    m_expectedCheckPoint c = m_expectedCheckPoint c1 /\ m_lowWaterMark c = m_lowWaterMark c1)
    by done.
  destruct G as (G1 & G2 & G3 & G4 & G5 & G6). clearbody c.
  unfold setConsensusNodeList. apply completes_bind.
  eapply completes_mono; [by apply first_nodes|].
  intros sorted c2 (-> & d & -> & D1 & D2 & D3 & D4 & D5 & D6 & D7 & D8).
  assert (Hi : initialised cfg c0 (updateQuorum d)).
  { assert (M : marks (updateQuorum d)).
    { split; unfold committed_index; change (committedProposal (updateQuorum d)) with
        (committedProposal d); change (progressedIndex (updateQuorum d)) with (progressedIndex d);
        change (m_expectedCheckPoint (updateQuorum d)) with (m_expectedCheckPoint d);
        change (m_lowWaterMark (updateQuorum d)) with (m_lowWaterMark d);
        rewrite ?D5, ?G3, ?F3, ?D6, ?D7, ?D8, ?G4, ?G5, ?G6, ?F4, ?F5, ?F6; simpl; lia. }
    split; [exact D1|]. split; [exact D2|].
    split; [change (nodeIndex d = ConsensusConfig.index_from 0 (nodeID c0) (nodes_of cfg));
      by rewrite D3, G2, F2|].
    split; [change (nodeID d = nodeID c0); congruence|].
    split; [change (committedProposal d = Some (block_of cfg)); congruence|].
    split; [change (progressedIndex d = LedgerConfig.blockNumber cfg + 1); congruence|].
    split; [exact M|]. by exists d. }
  generalize dependent (updateQuorum d). intros e Hi. clear D1 D2 D3 D4 D5 D6 D7 D8.
  apply completes_bind. cbn [completes get].
  destruct (negb _); [exact Hi|]. apply completes_bind.
  destruct (committedProposal e) as [q|] eqn:Eq; [|exact Hi].
  eapply completes_mono.
  { apply completes_evolves; [apply notifyResetSealing_step; exact I|].
    apply notifyResetSealing_completes. by eexists. }
  intros [] c3 Hev. eapply settled_initialised; [by apply evolves_settled|exact Hi].
Qed.

(** The configuration on the ledger's block, with the ledger's switch period. *)
Definition on_ledger (cfg : LedgerConfig.t) (c c' : t) : Prop :=
  initialised cfg c c' /\ m_leaderSwitchPeriod c' = LedgerConfig.leaderSwitchPeriod cfg.

Lemma settled_on_ledger cfg c0 c c' :
  settled c c' -> m_leaderSwitchPeriod c' = m_leaderSwitchPeriod c ->
  on_ledger cfg c0 c -> on_ledger cfg c0 c'.
Proof. intros H Hp [Hi Hq]. split; [by eapply settled_initialised|congruence]. Qed.

Lemma evolves_on_ledger cfg c0 c c' : evolves c c' -> on_ledger cfg c0 c -> on_ledger cfg c0 c'.
Proof.
  intros H. apply settled_on_ledger; [by apply evolves_settled|apply (ev_period _ _ H)].
Qed.

Lemma on_ledger_ready cfg c0 c :
  LedgerConfig.consensusNodeList cfg <> [] -> LedgerConfig.leaderSwitchPeriod cfg <> 0 ->
  on_ledger cfg c0 c -> ready c.
Proof.
  intros Hl Hp [(_ & Hnum & _ & _ & Hc & _) Hq]. split.
  - rewrite Hc. by eexists.
  - by rewrite Hq.
  - rewrite Hnum. by destruct (LedgerConfig.consensusNodeList cfg).
Qed.

Lemma setLeaderSwitchPeriod_completes cfg c0 c :
  initialised cfg c0 c ->
  completes (setLeaderSwitchPeriod (LedgerConfig.leaderSwitchPeriod cfg) c)
    (fun _ c' => on_ledger cfg c0 c').
Proof.
  intros Hi. unfold setLeaderSwitchPeriod. apply completes_bind. cbn [completes get].
  destruct (Z.eqb_spec (LedgerConfig.leaderSwitchPeriod cfg) (m_leaderSwitchPeriod c)); [by split|].
  apply completes_bind. cbn [completes modify]. apply completes_bind. cbn [completes get].
  set (c1 := c <| m_leaderSwitchPeriod := _ |>).
  assert (Hi1 : initialised cfg c0 c1).
  { eapply settled_initialised; [|exact Hi]. split; simpl; auto; lia. }
  eapply completes_mono.
  { apply completes_evolves; [apply notifyResetSealing_step; exact I|].
    apply notifyResetSealing_completes. destruct Hi1 as (_ & _ & _ & _ & -> & _). by eexists. }
  intros [] c2 Hev. by apply (evolves_on_ledger cfg c0 c1).
Qed.

(** Tasks that change nothing of this. *)
Lemma completes_when cfg c0 b (m : Eff Event t unit) c :
  on_ledger cfg c0 c -> completes (m c) (fun _ c' => on_ledger cfg c0 c') ->
  completes (when b m c) (fun _ c' => on_ledger cfg c0 c').
Proof. by destruct b. Qed.

Lemma finish_reset cfg c0 c :
  LedgerConfig.consensusNodeList cfg <> [] -> LedgerConfig.leaderSwitchPeriod cfg <> 0 ->
  on_ledger cfg c0 c ->
  completes ((c ← get;
      when (negb (m_timeoutState c))
        (when (m_waitResealUntil c =? LedgerConfig.blockNumber cfg)
           (reNotifySealer (Z.max (sealStartIndex c) (m_waitResealUntil c + 1))) ;;
         c ← get;
         notifySealer (sealStartIndex c) false)) c) (fun _ c' => on_ledger cfg c0 c').
Proof.
  intros Hl Hp Ho. apply completes_bind. cbn [completes get]. apply completes_when; [done|].
  apply completes_bind. eapply completes_mono with (Q := fun _ c' => on_ledger cfg c0 c').
  { apply completes_when; [done|]. eapply completes_mono.
    - apply completes_evolves; [apply reNotifySealer_step; intros; exact I|].
      apply reNotifySealer_completes. by eapply on_ledger_ready.
    - intros [] c1 Hev. by eapply evolves_on_ledger. }
  intros [] c1 H1. apply completes_bind. cbn [completes get]. eapply completes_mono.
  - apply completes_evolves; [apply notifySealer_step; intros; exact I|].
    apply notifySealer_completes. by eapply on_ledger_ready.
  - intros [] c2 Hev. by eapply evolves_on_ledger.
Qed.

Lemma resetConfig_completes cfg b c :
  blank c -> 0 <= LedgerConfig.blockNumber cfg ->
  LedgerConfig.consensusNodeList cfg <> [] -> LedgerConfig.leaderSwitchPeriod cfg <> 0 ->
  completes (resetConfig cfg b c) (fun _ c' => on_ledger cfg c c').
Proof.
  intros Hb Hn Hl Hp. unfold resetConfig. apply completes_bind. cbn [completes get].
  rewrite (bl_committed _ Hb). rewrite Z.ltb_irrefl, andb_false_r.
  do 2 (apply completes_bind; cbn [completes modify]). fold (block_of cfg). apply completes_bind.
  eapply completes_mono; [by apply (setConsensusNodeList_first cfg c)|]. intros l c1 H1.
  apply completes_bind. eapply completes_mono; [exact (setLeaderSwitchPeriod_completes cfg c c1 H1)|].
  clear c1 H1. intros [] c1 H1. apply completes_bind. cbn [completes modify].
  assert (H2 : on_ledger cfg c (resetTimer c1)).
  { eapply settled_on_ledger; [| |exact H1]; unfold resetTimer, freshTimer; destruct (0 <? _);
      first [done | split; simpl; auto; lia]. }
  generalize dependent (resetTimer c1). clear c1 H1. intros c1 H1.
  apply completes_bind, completes_zoom. cbn [completes emit TxsValidator.updateValidatorConfig].
  assert (E : c1 <| m_validator := m_validator c1 |> = c1) by by destruct c1. rewrite E. clear E.
  apply completes_bind. cbn [completes get]. apply completes_bind.
  eapply completes_mono; [apply (completes_when cfg c); [exact H1|exact H1]|]. intros [] c2 H2.
  apply completes_bind. eapply completes_mono; [apply (completes_when cfg c); [exact H2|exact H2]|]. intros [] c3 H3.
  destruct (_ <? _).
  - apply completes_bind. cbn [completes modify]. set (c4 := c3 <| m_timeoutState := true |> <| base := _ |>).
    assert (H4 : on_ledger cfg c c4).
    { eapply settled_on_ledger; [| |exact H3]; [split; simpl; auto; lia|done]. }
    eapply completes_mono.
    + apply completes_evolves; [apply notifyResetSealing_step; exact I|].
      apply notifyResetSealing_completes. destruct H4 as [(_ & _ & _ & _ & -> & _) _]. by eexists.
    + intros [] c5 Hev. by eapply evolves_on_ledger.
  - apply completes_bind. eapply completes_mono with (Q := fun _ c' => on_ledger cfg c c').
    + apply completes_when; [done|]. cbn [completes modify].
      eapply settled_on_ledger; [| |exact H3]; [split; simpl; auto; lia|done].
    + intros [] c4 H4. by apply finish_reset.
Qed.

(** ** The proposals that the storage has kept *)
Lemma asyncResetTxsFlag_completes d b v :
  is_Some (createBlock d) -> completes (TxsValidator.asyncResetTxsFlag d b v) (fun _ _ => True).
Proof.
  intros [block Hd]. unfold TxsValidator.asyncResetTxsFlag, TxsValidator.insertResettingProposal.
  rewrite Hd. destruct b; [|done].
  apply completes_bind, completes_bind. cbn [completes get]. by case_bool_decide.
Qed.

Lemma resetTxs_completes d b c :
  is_Some (createBlock d) ->
  completes (zoom m_validator (TxsValidator.asyncResetTxsFlag d b) c) (fun _ c' => evolves c c').
Proof.
  intros Hd. apply completes_evolves; [apply resetTxs_step|]. apply completes_zoom.
  eapply completes_mono; [by apply asyncResetTxsFlag_completes|done].
Qed.

(** Only the configuration changes, as [evolves] says. *)
Definition reconfigured (s s' : P.t) : Prop :=
  exists c', s' = s <| P.m_config := c' |> /\ evolves (P.m_config s) c'.

Lemma reconfigured_refl s : reconfigured s s.
Proof. exists (P.m_config s). split; [by destruct s|apply evolves_refl]. Qed.

Lemma reconfigured_trans s1 s2 s3 : reconfigured s1 s2 -> reconfigured s2 s3 -> reconfigured s1 s3.
Proof.
  intros (c2 & -> & H2) (c3 & -> & H3). exists c3. split; [done|].
  exact (proj1 (transition_trans (R := config_step) _ _ _ [] [] (conj H2 (Forall_nil_2 _))
    (conj H3 (Forall_nil_2 _)))).
Qed.

Lemma zoom_reconfigured {A} (m : Eff Event t A) s :
  completes (m (P.m_config s)) (fun _ c' => evolves (P.m_config s) c') ->
  completes (zoom P.m_config m s) (fun _ s' => reconfigured s s').
Proof.
  intros H. apply completes_zoom. eapply completes_mono; [exact H|]. intros a c' Hc. by exists c'.
Qed.

Lemma initState_completes q ps from s :
  committedProposal (P.m_config s) = Some q ->
  Forall (fun p => PBFTProposal.index q < PBFTProposal.index p ->
    is_Some (createBlock (PBFTProposal.data p))) ps ->
  completes (P.initState ps from s) (fun _ s' => reconfigured s s').
Proof.
  unfold P.initState. intros Hc Hps. revert s Hc. induction Hps as [|p ps Hp _ IH]; intros s Hc;
    cbn [for_each].
  { apply reconfigured_refl. }
  apply completes_bind.
  eapply completes_mono with (Q := fun _ s' => reconfigured s s').
  2:{ intros [] s1 H1. eapply completes_mono; [apply IH|].
      - destruct H1 as (c1 & -> & Hev). unfold committedProposal. simpl. by rewrite (ev_base _ _ Hev).
      - intros [] s2 H2. by eapply reconfigured_trans. }
  apply completes_bind. unfold P.committedIndex. apply completes_zoom.
  apply (committedIndex_exact _ q); [done|].
  assert (s <| P.m_config := P.m_config s |> = s) as -> by by destruct s.
  destruct (Z.leb_spec (PBFTProposal.index p) (PBFTProposal.index q)); [apply reconfigured_refl|].
  apply completes_bind.
  eapply completes_mono; [by apply zoom_reconfigured, resetTxs_completes, Hp|].
  intros [] s1 H1. unfold P.loadAndVerifyProposal. cbn [Z.ltb Z.compare].
  eapply completes_mono with (Q := fun _ s' => reconfigured s1 s').
  - apply zoom_reconfigured, completes_evolves; [apply verifyProposal_step|]. by apply completes_zoom.
  - intros [] s2 H2. by eapply reconfigured_trans.
Qed.
End Initial.

(** A ledger configuration that a node can start on. *)
Record usable `{Ext : Externals} (cfg : LedgerConfig.t) : Prop := {
  us_number : 0 <= LedgerConfig.blockNumber cfg;
  us_nodes : LedgerConfig.consensusNodeList cfg <> [];
  us_count : Z.of_nat (length (LedgerConfig.consensusNodeList cfg)) < NON_CONSENSUS_NODE;
  us_period : LedgerConfig.leaderSwitchPeriod cfg <> 0;
  us_weights : forall node, node ∈ LedgerConfig.consensusNodeList cfg -> 0 < ConsensusNode.weight node;
  us_total : foldr (fun node acc => ConsensusNode.weight node + acc) 0 (nodes_of cfg) < two64
}.

(** What the storage has kept to start on: the last proposal is not behind the ledger's
    block, and the data of those past it are blocks. *)
Record resumable `{Ext : Externals} (cfg : LedgerConfig.t) (ps : option (list PBFTProposal.t))
    : Prop := {
  rs_last : forall l p, ps = Some l -> l !! pred (length l) = Some p ->
    LedgerConfig.blockNumber cfg <= PBFTProposal.index p;
  rs_blocks : Forall (fun p => LedgerConfig.blockNumber cfg < PBFTProposal.index p ->
    is_Some (createBlock (PBFTProposal.data p))) (default [] ps)
}.

Section Established.
Context `{Ext : Externals} (cfg : LedgerConfig.t) (Hcfg : usable cfg).

Lemma nodes_of_elem node : node ∈ nodes_of cfg <-> node ∈ LedgerConfig.consensusNodeList cfg.
Proof. unfold nodes_of. by rewrite (merge_sort_Permutation _ (LedgerConfig.consensusNodeList cfg)). Qed.

Lemma nodes_of_length : length (nodes_of cfg) = length (LedgerConfig.consensusNodeList cfg).
Proof. unfold nodes_of. by rewrite (merge_sort_Permutation _ (LedgerConfig.consensusNodeList cfg)). Qed.

Lemma usable_wf c :
  PBFTConfig.consensusNodeList c = nodes_of cfg -> wf_nodes c /\ 0 < total_weight c.
Proof using Hcfg.
  intros Hl. split; [split|].
  - intros node. rewrite Hl, nodes_of_elem. intros Hn%(us_weights _ Hcfg). lia.
  - unfold total_weight. rewrite Hl. apply (us_total _ Hcfg).
  - unfold total_weight. rewrite Hl.
    assert (Hw : forall node, node ∈ nodes_of cfg -> 0 < ConsensusNode.weight node).
    { intros node. rewrite nodes_of_elem. apply (us_weights _ Hcfg). }
    pose proof nodes_of_length as Hlen. pose proof (us_nodes _ Hcfg) as Hne.
    destruct (nodes_of cfg) as [|n l]; [by destruct (LedgerConfig.consensusNodeList cfg)|].
    simpl. assert (0 < ConsensusNode.weight n) by (apply Hw; left).
    assert (Hpos : forall node, node ∈ l -> 0 < ConsensusNode.weight node) by (intros ??; apply Hw; by right).
    clear -H Hpos. assert (0 <= foldr (fun node acc => ConsensusNode.weight node + acc) 0 l); [|lia].
    induction l as [|m l IH]; simpl; [lia|].
    assert (0 < ConsensusNode.weight m) by (apply Hpos; left).
    specialize (IH ltac:(intros ??; apply Hpos; by right)). lia.
Qed.

Lemma initialised_knows_itself c c' : initialised cfg c c' -> knows_itself c'.
Proof using Hcfg.
  intros (Hl & _ & Hi & Hid & _) node Hn. rewrite Hi, <- Hid in Hn. rewrite <- Hid in Hi.
  pose proof nodes_of_length as Hlen. pose proof (us_count _ Hcfg) as Hc.
  destruct (index_from_spec (PBFTConfig.nodeID c') (nodes_of cfg) 0)
    as [[E _]|(Hr & node' & Hlk & Hk & _)]; [lia|rewrite Hlen; lia| |].
  - rewrite E, u64_id in Hn by done. unfold PBFTConfig.getConsensusNodeByIndex,
      ConsensusConfig.getConsensusNodeByIndex in Hn. fold (PBFTConfig.consensusNodeList c') in Hn.
    rewrite Hl, Hlen in Hn. by rewrite (proj2 (Z.ltb_ge _ _)) in Hn by lia.
  - rewrite u64_id in Hn by (unfold is_u64, two64, NON_CONSENSUS_NODE in *; lia).
    apply getConsensusNodeByIndex_lookup in Hn; [|lia]. rewrite Hl in Hn.
    rewrite Z.sub_0_r in Hlk. congruence.
Qed.

Lemma initialised_quorum c c' : initialised cfg c c' -> quorum_set c'.
Proof using Hcfg.
  intros (Hl & _ & _ & _ & _ & _ & _ & d & Hd & Hm & Hf).
  destruct (usable_wf d Hd) as [Hwf Hpos]. destruct (updateQuorum_set d Hwf Hpos) as [Q1 Q2].
  assert (Ht : total_weight c' = total_weight (PBFTConfig.updateQuorum d)).
  { unfold total_weight. change (PBFTConfig.consensusNodeList (PBFTConfig.updateQuorum d)) with
      (PBFTConfig.consensusNodeList d). by rewrite Hl, Hd. }
  split; rewrite Ht; congruence.
Qed.

(** The engine on the ledger's block with the ledger's period, and nothing collected. *)
Definition booted (c0 : PBFTConfig.t) (e : E.t) : Prop :=
  E.m_msgQueue e = [] /\ P.m_caches (E.m_cacheProcessor e) = ∅ /\
  P.m_viewChangeCache (E.m_cacheProcessor e) = ∅ /\
  P.m_stableCheckPointQueue (E.m_cacheProcessor e) = [] /\
  on_ledger cfg c0 (P.m_config (E.m_cacheProcessor e)).

Lemma booted_config c0 e c' :
  settled (P.m_config (E.m_cacheProcessor e)) c' ->
  PBFTConfig.m_leaderSwitchPeriod c' =
    PBFTConfig.m_leaderSwitchPeriod (P.m_config (E.m_cacheProcessor e)) -> booted c0 e ->
  booted c0 (e <| E.m_cacheProcessor := (E.m_cacheProcessor e) <| P.m_config := c' |> |>).
Proof.
  intros Hs Hp (H1 & H2 & H3 & H4 & Ho). do 4 (split; [done|]). by eapply settled_on_ledger.
Qed.

Lemma unchanged (e : E.t) :
  e <| E.m_cacheProcessor := (E.m_cacheProcessor e) <| P.m_config :=
    (P.m_config (E.m_cacheProcessor e)) <| PBFTConfig.m_validator :=
      PBFTConfig.m_validator (P.m_config (E.m_cacheProcessor e)) |> |> |> = e.
Proof. destruct e as [[[]]]. reflexivity. Qed.

Lemma init_completes ps c0 e :
  E.m_msgQueue e = [] -> E.m_cacheProcessor e = P.create (P.m_config (E.m_cacheProcessor e)) ->
  P.m_config (E.m_cacheProcessor e) = c0 -> blank c0 -> resumable cfg ps ->
  completes (PBFTImpl.init cfg ps e) (fun _ e' => booted c0 e').
Proof using Hcfg.
  intros Hq Hcr Hc0 Hb Hps. unfold PBFTImpl.init, PBFTImpl.on_config, PBFTImpl.on_processor.
  apply completes_bind, completes_zoom, completes_zoom, completes_zoom. cbn [completes emit TxsValidator.init
    TxsValidator.asyncResetTxPool]. rewrite unchanged.
  apply completes_bind, completes_zoom, completes_zoom. rewrite Hc0.
  eapply completes_mono; [apply resetConfig_completes; [done|apply Hcfg..]|].
  intros [] c1 Ho. set (e1 := e <| E.m_cacheProcessor := _ |>).
  assert (H1 : booted c0 e1).
  { split; [exact Hq|]. split; [exact (f_equal P.m_caches Hcr)|].
    split; [exact (f_equal P.m_viewChangeCache Hcr)|].
    split; [exact (f_equal P.m_stableCheckPointQueue Hcr)|exact Ho]. }
  clearbody e1. clear c1 Ho. apply completes_bind.
  eapply completes_mono with (Q := fun _ e2 => booted c0 e2).
  2:{ intros [] e2 H2. apply completes_zoom, completes_zoom. cbn [completes modify].
      apply booted_config; [|done..]. split; simpl; auto; lia. }
  destruct ps as [l|]; [|exact H1].
  destruct (l !! pred (length l)) as [p|] eqn:Ep; [|exact H1].
  pose proof (rs_last _ _ Hps l p eq_refl Ep).
  apply completes_bind. cbn [completes get]. apply completes_bind, completes_zoom.
  eapply completes_mono.
  { apply (initState_completes (block_of cfg)); [|exact (rs_blocks _ _ Hps)].
    by destruct H1 as (_ & _ & _ & _ & (_ & _ & _ & _ & -> & _) & _). }
  intros [] s2 (c2 & -> & Hev). apply completes_zoom, completes_zoom. cbn [completes modify].
  set (e2 := e1 <| E.m_cacheProcessor := _ |>).
  assert (H2 : booted c0 e2) by by apply booted_config; [apply evolves_settled|apply (ev_period _ _ Hev)|].
  clearbody e2. clear Hev. apply booted_config; [|done..].
  destruct H2 as (_ & _ & _ & _ & (_ & _ & _ & _ & _ & Hprog & _) & _).
  split; simpl; auto; try lia.
Qed.
End Established.

(** C30: the state that [init] leaves is the one the theorems about runs start from.  On a
    ledger configuration with a non-empty node list of positive weights, whatever
    notifiers are registered and whatever proposals the storage has kept - the last of them
    not below the ledger's block, and those above it with data that are blocks -, [init] ends without an exception; the node stands on the ledger's
    block, with the sorted node list, its own index in it and the quorum of the total
    weight, and its caches and queues satisfy the invariants of the protocol. *)
Theorem init_establishes `{Ext : Externals} cfg stateProposals c0 :
  usable cfg -> blank c0 -> resumable cfg stateProposals ->
  exists e es,
    PBFTImpl.init cfg stateProposals (PBFTEngine.create c0) = Done tt e es /\
    fresh (nodes_of cfg) (PBFTConfig.nodeIndex (config_of e)) e /\
    attested (nodes_of cfg) (PBFTEngine.m_cacheProcessor e) /\
    sound (PBFTEngine.m_cacheProcessor e) /\ safe (PBFTEngine.m_cacheProcessor e) /\
    PBFTConfig.committedProposal (config_of e) = Some (block_of cfg) /\
    PBFTConfig.nodeIndex (config_of e) =
      ConsensusConfig.index_from 0 (PBFTConfig.nodeID c0) (nodes_of cfg).
Proof.
  intros Hcfg Hb Hps.
  assert (Hb' : blank (c0 <| PBFTConfig.m_fastViewChangeHandler := true |>
    <| PBFTConfig.m_timeoutState := true |>)) by by destruct Hb.
  pose proof (init_completes cfg Hcfg stateProposals _ (PBFTEngine.create c0) eq_refl eq_refl eq_refl
    Hb' Hps) as Hr.
  destruct (PBFTImpl.init cfg stateProposals (PBFTEngine.create c0)) as [[] e es| |]; [|done|done].
  destruct Hr as (Hq & Hc & _ & Hst & Hi & _). exists e, es. split; [done|].
  pose proof (initialised_knows_itself cfg Hcfg _ _ Hi) as Hself.
  pose proof (initialised_quorum cfg Hcfg _ _ Hi) as Hquo.
  destruct Hi as (Hl & _ & Hx & _ & Hcom & _ & Hm & _).
  destruct (usable_wf cfg Hcfg _ Hl) as [Hwf Hpos].
  assert (Hall : forall I, all_caches I (PBFTEngine.m_cacheProcessor e)).
  { intros I i c Hic. by rewrite Hc, lookup_empty in Hic. }
  split; [split; [exact Hq|exact Hc|exact Hm|exact Hl|exact Hwf|exact Hpos|exact Hquo|done]|].
  split.
  { split; [split; [exact Hl|exact Hwf|apply Hall]|exact Hself|apply Hall|]. by rewrite Hst. }
  split; [split; [exact Hm|apply Hall]|]. split; [split; [exact Hm|apply Hall]|].
  split; [exact Hcom|exact Hx].
Qed.

(** The four nodes of weight 1 on block 0, with the proposals 1 and 2 in the storage. *)
Example init_establishes_witness :
  let _ := Demo.externals in
  let cfg := LedgerConfig.mk 0 7 1000 1 [ConsensusNode.mk 4 1; ConsensusNode.mk 2 1;
    ConsensusNode.mk 1 1; ConsensusNode.mk 3 1] [] in
  let proposal n := PBFTProposal.create <| PBFTProposal.index := n |> in
  exists e es,
    PBFTImpl.init cfg (Some [proposal 1; proposal 2])
      (PBFTEngine.create (PBFTConfig.create 3)) = Done tt e es /\
    PBFTConfig.nodeIndex (config_of e) = 2.
Proof.
  intros Ext cfg proposal.
  assert (Hu : usable (Ext := Ext) cfg).
  { split; [vm_compute; congruence|done|vm_compute; congruence|done| |vm_compute; congruence].
    apply list.Forall_forall. repeat constructor; vm_compute; congruence. }
  destruct (init_establishes (Ext := Ext) cfg (Some [proposal 1; proposal 2])
    (PBFTConfig.create 3) Hu) as (e & es & Hi & _ & _ & _ & _ & _ & Hx).
  - by split.
  - split; [intros l p [= <-] [= <-]; vm_compute; congruence|by repeat constructor; eexists].
  - exists e, es. split; [exact Hi|]. rewrite Hx. vm_compute. reflexivity.
Defined.
