(* ===== verification/NoCrash.v ===== *)
(** NoCrash: the whole node.  A node that starts sane and whose inputs are sane when they
    are handled is never stopped by a fault, and the packets that do stop a node. *)
From S2P Require Import Prelude Types Timer Validator Config Cache Processor LogSync Engine.
From S2P Require Import Quorum ConfigFacts CacheFacts Steps Node Growth Refine Impl Behaviour Sane SaneNode FaultFree Boot.

Section NoCrash.
Context `{Ext : Externals} (N : nat).
Notation node_ok D := (keeps no_fault (sane_event N) (sane_node N D)).

(** A packet that waits to be handled: the peer it comes from is known. *)
Definition queued (m : Msg) : Prop := sane_msg N m /\ is_Some (msg_from m).

(** The engine object: its cache processor and the waiting packets. *)
Definition sane_engine (e : E.t) : Prop :=
  sane_node N nowhere (E.m_cacheProcessor e) /\ Forall queued (E.m_msgQueue e).
Notation engine_ok := (keeps no_fault (sane_event N) sane_engine).

Lemma zoom_engine {A} (m : Eff Event P.t A) :
  node_ok nowhere m -> engine_ok (zoom E.m_cacheProcessor m).
Proof. intros Hm. apply (keeps_zoom _ (sane_node N nowhere)); [done|by intros e []|by intros e s []]. Qed.

Lemma config_engine {A} (m : Eff Event PBFTConfig.t A) :
  keeps no_fault (sane_event N) (sane_config N) m -> engine_ok (PBFTImpl.on_config m).
Proof. intros Hm. by apply zoom_engine, node_config. Qed.
Hint Resolve zoom_engine config_engine : keep.

Lemma pushMsg_engine m : queued m -> engine_ok (E.pushMsg m).
Proof.
  intros Hm. apply keeps_modify. intros e [He Hq]. split; [done|]. simpl.
  apply Forall_app. split; [done|]. by constructor.
Qed.
Hint Resolve pushMsg_engine : keep.

Lemma setFrom_queued n m : is_Some n -> sane_msg N m -> queued (E.setFrom n m).
Proof.
  intros Hn Hm. split; [revert Hm|by destruct m].
  unfold sane_msg. destruct m as [m|v|n0|r]; simpl.
  - destruct (PBFTMessage.packetType m); try done. by intros [].
  - destruct (ViewChangeMsg.packetType v); try done. by intros [].
  - by destruct (NewViewMsg.packetType n0).
  - by destruct (PBFTRequest.packetType r).
Qed.

Lemma sane_request m :
  sane_msg N m -> bool_decide (msg_packetType m = CommittedProposalRequest) ||
    bool_decide (msg_packetType m = PreparedProposalRequest) = true -> exists r, m = MRequest r.
Proof.
  unfold sane_msg. rewrite orb_true_iff, !bool_decide_eq_true. intros Hm [E|E]; rewrite E in Hm;
    destruct m; try done; by eexists.
Qed.

(** ** The network's callback and the worker *)
Lemma onReceivePBFTMessage_engine e n d :
  is_Some n -> sane_wire N d -> engine_ok (E.onReceivePBFTMessage e n d).
Proof.
  intros Hn Hd. unfold E.onReceivePBFTMessage. apply keeps_try_catch; [|intros x; apply keeps_ret].
  apply keeps_bind_get. intros s Hs. destruct e; [apply keeps_ret|].
  destruct (negb _); [apply keeps_ret|].
  apply keeps_bind_yields with (P := sane_msg N).
  - apply zoom_engine, decode_kept.
  - intros s' [Hs' _]. pose proof (decode_sane N nowhere d Hd _ Hs'). unfold zoom.
    by destruct (PBFTLogSync.decode _ _).
  - intros m Hm%(setFrom_queued n _ Hn). destruct (_ || _) eqn:Et; [|by apply pushMsg_engine].
    apply keeps_emit. apply sane_request; [apply Hm|done].
Qed.

Lemma executeWorker_engine : engine_ok E.executeWorker.
Proof.
  unfold E.executeWorker. apply keeps_bind_get. intros e [_ He].
  destruct (negb _); [apply keeps_ret|].
  apply keeps_bind; [apply zoom_engine; auto with keep|intros syncing].
  destruct syncing; [apply keeps_ret|].
  destruct (E.m_msgQueue e) as [|m rest] eqn:Eq; [apply keeps_ret|].
  inversion_clear He as [|? ? Hm Hrest]. apply keeps_bind.
  { apply keeps_modify. by intros e' [Hn _]. }
  intros []. pose proof (fun D => handleMsg_kept N D m (proj1 Hm) (proj2 Hm)). pose proof (pushMsg_engine m Hm). keep_auto.
Qed.

(** ** Inputs *)

(** What an input must be like: the packets are sane and the front service names the peer
    they come from, a verified pre-prepare has a proposal of its hash, the ledger has [N]
    consensus nodes, the timer of a checkpoint belongs to a cache that is there.
    Everything else is free. *)
Definition sane_input (e : E.t) (i : PBFTImpl.input) : Prop :=
  match i with
  | PBFTImpl.ConsensusMessage _ n d
  | PBFTImpl.CommittedProposalsResponse _ n d _ _ => is_Some n /\ sane_wire N d
  | PBFTImpl.PrecommitResponse _ n d m =>
      is_Some n /\ sane_wire N d /\ sane_prePrepare N m
  | PBFTImpl.ProposalVerified _ _ n _ _ => is_Some n
  | PBFTImpl.PrePrepareVerified _ _ m _ => sane_prePrepare N m
  | PBFTImpl.NotifyNewBlockSynced cfg | PBFTImpl.StableCheckPointCommitted cfg => sane_ledger N cfg
  | PBFTImpl.PeerRequest m => exists r, m = MRequest r
  | PBFTImpl.CheckPointTimeout i => is_Some (P.m_caches (E.m_cacheProcessor e) !! i)
  | _ => True
  end.

(** Every input of a run is sane when it is handled. *)
Fixpoint inputs_sane (l : list PBFTImpl.input) (e : E.t) : Prop :=
  match l with
  | [] => True
  | i :: l =>
      sane_input e i /\
      match PBFTImpl.handle i e with
      | Done _ e' _ | Threw _ e' _ => inputs_sane l e'
      | Crashed _ => True
      end
  end.

(** Inputs that are sane in every state. *)
Lemma inputs_sane_static l e : Forall (fun i => forall e, sane_input e i) l -> inputs_sane l e.
Proof.
  intros H. revert e. induction H as [|i l Hi _ IH]; intros e; simpl; [done|].
  split; [apply Hi|]. by destruct (PBFTImpl.handle i e).
Qed.

Lemma config_field f :
  (forall c, sane_config N c -> sane_config N (f c)) -> engine_ok (PBFTImpl.on_config (modify f)).
Proof. intros H. by apply config_engine, keeps_modify. Qed.

Lemma checkPointTimeout_engine i e :
  sane_engine e -> is_Some (P.m_caches (E.m_cacheProcessor e) !! i) ->
  wp no_fault (PBFTImpl.handle (PBFTImpl.CheckPointTimeout i) e) (kept (sane_event N) sane_engine).
Proof.
  intros [[H1 H2 H3 _] Hq] Hi. cbn [PBFTImpl.handle]. unfold PBFTImpl.on_processor, zoom.
  assert (Hs : sane_node N (fun j => j = i) (E.m_cacheProcessor e)) by (split; [done..|by intros j ->]).
  pose proof (onCheckPointTimeout_kept N (fun j => j = i) i eq_refl _ Hs) as Hw.
  destruct (P.onCheckPointTimeout i _); simpl in *; [..|done];
    destruct Hw as [Hw Hv]; (split; [|exact Hv]); (split; [by eapply sane_node_weaken; [|exact Hw]|done]).
Qed.

Lemma handle_sane i e :
  sane_engine e -> sane_input e i ->
  wp no_fault (PBFTImpl.handle i e) (kept (sane_event N) sane_engine).
Proof.
  intros He Hi. destruct i; cbn [PBFTImpl.handle sane_input] in *;
    try (by apply checkPointTimeout_engine);
    match goal with |- wp _ (?m e) _ => enough (engine_ok m) as Hm by (by apply Hm) end;
    unfold PBFTImpl.asyncSubmitProposal, PBFTImpl.asyncNotifyNewBlock, PBFTImpl.on_processor,
      PBFTImpl.notifyHighestSyncingNumber, PBFTImpl.asyncNoteUnSealedTxsSize,
      PBFTImpl.notifyConnectedNodes; auto with keep;
    try (apply config_field, config_modify; intros c; by repeat split).
  - destruct Hi. by apply onReceivePBFTMessage_engine.
  - apply config_field, config_modify. intros c. unfold PBFTConfig.setUnSealedTxsSize.
    by destruct (_ && _).
  - unfold PBFTImpl.E.workerStep. apply keeps_try_catch; [apply executeWorker_engine|].
    intros x. apply keeps_ret.
  - destruct Hi as [r ->]. case_bool_decide; auto with keep.
  - destruct Hi. auto with keep.
  - destruct Hi as (? & ? & ?). auto with keep.
Qed.

Lemma run_sane l e :
  sane_engine e -> inputs_sane l e ->
  exists e' es, PBFTImpl.run l e = Some (e', es) /\ sane_engine e' /\ Forall (sane_event N) es.
Proof.
  revert e. induction l as [|i l IH]; intros e He; cbn [PBFTImpl.run inputs_sane].
  { intros _. by exists e, []. }
  intros [Hi Hl]. pose proof (handle_sane i e He Hi) as Hh.
  destruct (PBFTImpl.handle i e) as [a e1 es1|x e1 es1|]; [..|done]; destruct Hh as [H1 V1];
    destruct (IH e1 H1 Hl) as (e2 & es2 & -> & H2 & V2); eexists _, _;
    (split; [done|]); (split; [done|by apply Forall_app]).
Qed.
End NoCrash.

(** ** The node that [init] leaves *)
Section Booted.
Context `{Ext : Externals} (cfg : LedgerConfig.t) (Hcfg : usable cfg).
Notation N := (length (LedgerConfig.consensusNodeList cfg)).

Lemma usable_count : 0 < Z.of_nat N < NON_CONSENSUS_NODE.
Proof using Hcfg.
  split; [|apply (us_count _ Hcfg)]. pose proof (us_nodes _ Hcfg).
  destruct (LedgerConfig.consensusNodeList cfg); simpl; [done|lia].
Qed.

Lemma on_ledger_sane c0 c :
  0 < LedgerConfig.leaderSwitchPeriod cfg -> on_ledger cfg c0 c -> sane_config N c.
Proof using Hcfg.
  intros Hp [(Hl & Hn & Hx & Hid & Hc & _ & _ & d & _ & Hq & _) Hs]. pose proof usable_count as HN.
  split.
  - rewrite Hc. eexists. split; [done|]. unfold balanced. simpl. lia.
  - by rewrite Hs.
  - by rewrite Hl, nodes_of_length.
  - exact Hn.
  - exact HN.
  - unfold PBFTConfig.isConsensusNode, ConsensusConfig.isConsensusNode.
    fold (PBFTConfig.nodeIndex c). rewrite Hx.
    destruct (index_from_spec (PBFTConfig.nodeID c0) (nodes_of cfg) 0)
      as [[-> _]|[Hr _]]; [lia|rewrite nodes_of_length; lia|done|].
    intros _. rewrite nodes_of_length in Hr. exact Hr.
  - rewrite Hq. apply updateQuorum_positive.
Qed.

Lemma booted_sane c0 e :
  0 < LedgerConfig.leaderSwitchPeriod cfg -> booted cfg c0 e -> sane_engine N e.
Proof using Hcfg.
  intros Hp (Hq & Hc & Hv & _ & Ho). split; [|by rewrite Hq].
  split; [by eapply on_ledger_sane|..|done].
  - intros i this. by rewrite Hc, lookup_empty.
  - intros v l k m. by rewrite Hv, lookup_empty.
Qed.
End Booted.

(** C7: a node that is initialised on a usable ledger, with stored proposals whose data are
    blocks, and handles sane inputs is never
    stopped.  Sane are packets and callbacks with a sender, packets with the signers and
    consensus nodes that the code takes for granted ([sane_wire]), callbacks that carry a message of
    the same kind, timeouts of caches that exist, and ledger configurations with the same number of consensus nodes and a
    positive leader period.  The node meets no null pointer, no index out of range, no failed assertion, no division by
    zero and no endless loop, however many sane inputs there are and in which
    order they come; and the state it ends in is sane again. *)
Theorem started_node_never_faults `{Ext : Externals} cfg stateProposals c0 :
  usable cfg -> 0 < LedgerConfig.leaderSwitchPeriod cfg -> blank c0 ->
  resumable cfg stateProposals ->
  let N := length (LedgerConfig.consensusNodeList cfg) in
  exists e es,
    PBFTImpl.init cfg stateProposals (PBFTEngine.create c0) = Done tt e es /\
    forall l, inputs_sane N l e ->
      exists e' es', PBFTImpl.run l e = Some (e', es') /\
        sane_engine N e' /\ Forall (sane_event N) es'.
Proof.
  intros Hcfg Hp Hb Hps N.
  assert (Hb' : blank (c0 <| PBFTConfig.m_fastViewChangeHandler := true |>
    <| PBFTConfig.m_timeoutState := true |>)) by by destruct Hb.
  pose proof (init_completes cfg Hcfg stateProposals _ (PBFTEngine.create c0) eq_refl eq_refl eq_refl
    Hb' Hps) as Hr.
  destruct (PBFTImpl.init cfg stateProposals (PBFTEngine.create c0)) as [[] e es| |]; [|done|done].
  exists e, es. split; [done|]. intros l Hl. apply run_sane; [|exact Hl].
  by eapply booted_sane.
Qed.
