(* ===== verification/Malformed.v ===== *)
(** Malformed: packets of other nodes.  What the codec guarantees of every packet it
    decodes, so that only the lists in it are left to assume; and a packet with a
    malformed list that stops any node that handles it. *)
From S2P Require Import Prelude Types Protobuf Codec CodecFacts Timer Validator Config Cache Processor LogSync Engine.
From S2P Require Import Quorum ConfigFacts CacheFacts Steps Refine Impl Behaviour Sane SaneNode FaultFree NoCrash.

(** ** What is left to assume of a decoded packet *)
Section Decoded.
Context `{Ext : Externals} `{Pb : Protobuf} (N : nat).

Definition prepared_content (m : PBFTMessage.t) : Prop :=
  checkable m /\ member N (PBFTMessage.generatedFrom m).

(** Only what pre-prepares and prepared proposals say of the proposal they carry. *)
Definition listed (m : Msg) : Prop :=
  match m with
  | MPBFT m => Types.PBFTMessage.packetType m = PrePreparePacket -> prePrepare_wire N m
  | MViewChange v =>
      if bool_decide (ViewChangeMsg.packetType v = ViewChangePacket)
      then Forall prepared_content (ViewChangeMsg.preparedProposals v)
      else length (ViewChangeMsg.preparedProposals v) = 1%nat /\
        Forall checkable (ViewChangeMsg.preparedProposals v)
  | MNewView n =>
      Forall (fun v => Forall prepared_content (ViewChangeMsg.preparedProposals v))
        (NewViewMsg.viewChangeMsgList n) /\
      Forall (fun m => sane_prePrepare N m /\ member N (PBFTMessage.generatedFrom m))
        (NewViewMsg.prePrepareList n)
  | MRequest _ => True
  end.

(** A message inside a packet: its base message is the one in its hash fields. *)
Definition from_fields (m : PB.PBFTMessage.t) : Prop :=
  PBFTMessage.base (PB.PBFTMessage.contents m) =
    default BaseMessage.empty (PBFTMessage.hashFieldsData (PB.PBFTMessage.contents m)).
Definition complete_object (v : PB.PBFTViewChangeMsg.t) : Prop :=
  is_Some (PB.PBFTViewChangeMsg.m_committedProposal v) /\
  Forall from_fields (PB.PBFTViewChangeMsg.m_preparedProposalList v).

Lemma of_raw_from_fields raw m : PB.PBFTMessage.of_raw raw = Some m -> from_fields m.
Proof.
  unfold PB.PBFTMessage.of_raw, PB.PBFTMessage.deserializeToObject, PB.PBFTBaseMessage.decode.
  intros (b & (r & Hr & [= <-])%bind_Some & [= <-])%bind_Some.
  unfold from_fields, PB.PBFTMessage.contents. simpl. by rewrite Hr.
Qed.

Lemma of_raws_from_fields raws l : mapM PB.PBFTMessage.of_raw raws = Some l -> Forall from_fields l.
Proof.
  intros H%mapM_Some. induction H as [|r m rs ms Hm _ IH]; constructor; [|exact IH].
  by eapply of_raw_from_fields.
Qed.

Lemma deserialize_complete raw m v :
  PB.PBFTViewChangeMsg.deserializeToObject raw m = Some v -> complete_object v.
Proof.
  unfold PB.PBFTViewChangeMsg.deserializeToObject. intros (l & Hl & [= <-])%bind_Some.
  split; [by eexists|]. by eapply of_raws_from_fields.
Qed.

Lemma decoded_viewChange b v :
  PB.PBFTMessageFactoryImpl.createViewChangeMsg b = Some v -> complete_object v.
Proof.
  unfold PB.PBFTMessageFactoryImpl.createViewChangeMsg, PB.PBFTViewChangeMsg.decode.
  intros (raw & _ & (v' & Hv & [= <-])%bind_Some)%bind_Some. by apply deserialize_complete in Hv.
Qed.

Lemma decoded_newView b n :
  PB.PBFTMessageFactoryImpl.createNewViewMsg b = Some n ->
  Forall complete_object (PB.PBFTNewViewMsg.m_viewChangeList n) /\
  Forall from_fields (PB.PBFTNewViewMsg.m_prePrepareList n).
Proof.
  unfold PB.PBFTMessageFactoryImpl.createNewViewMsg, PB.PBFTNewViewMsg.decode,
    PB.PBFTNewViewMsg.deserializeToObject.
  intros (raw & _ & (l & Hl & (p & Hp & [= <-])%bind_Some)%bind_Some)%bind_Some. simpl.
  split; [|by eapply of_raws_from_fields].
  apply mapM_Some in Hl. clear Hp. induction Hl as [|r v rs vs Hv _ IH]; constructor; [|exact IH].
  by apply deserialize_complete in Hv.
Qed.

(** With that, what is listed is all that is needed. *)
Lemma prepared_object m :
  from_fields m -> prepared_content (PB.PBFTMessage.contents m) ->
  prepared_wire N (PB.PBFTMessage.contents m).
Proof.
  unfold from_fields. generalize (PB.PBFTMessage.contents m). intros m' Hb [Hc Hm].
  split; [exact Hc|]. split; [exact Hm|]. intros b Hf. rewrite Hf in Hb. simpl in Hb.
  unfold PBFTMessage.generatedFrom in Hm. by rewrite Hb in Hm.
Qed.

Lemma prepared_objects l :
  Forall from_fields l -> Forall prepared_content (PB.PBFTMessage.contents <$> l) ->
  Forall (prepared_wire N) (PB.PBFTMessage.contents <$> l).
Proof.
  induction 1 as [|m l Hm _ IH]; simpl; intros Hl; [constructor|].
  inversion_clear Hl. constructor; [by apply prepared_object|auto].
Qed.

Lemma viewChange_object v :
  complete_object v ->
  Forall prepared_content (ViewChangeMsg.preparedProposals (PB.PBFTViewChangeMsg.contents v)) ->
  viewChange_wire N (PB.PBFTViewChangeMsg.contents v).
Proof.
  intros [[c Hc] Hf] Hl. split; [simpl; rewrite Hc; by eexists|]. by apply prepared_objects.
Qed.

Lemma prePrepare_objects l :
  Forall from_fields l ->
  Forall (fun m => sane_prePrepare N m /\ member N (PBFTMessage.generatedFrom m))
    (PB.PBFTMessage.contents <$> l) ->
  Forall (sane_reproposal N) (PB.PBFTMessage.contents <$> l).
Proof.
  induction 1 as [|m l Hm _ IH]; simpl; intros Hl; [constructor|].
  inversion_clear Hl as [|? ? [Hp Hg] Hl']. constructor; [by split|auto].
Qed.

(** The objects behind a packet of each type. *)
Definition typed (p : PacketType) (o : PB.PBFTCodec.message) : Prop :=
  match p, o with
  | ViewChangePacket, PB.PBFTCodec.OViewChange v => complete_object v
  | PreparedProposalResponse, PB.PBFTCodec.OViewChange v => True
  | NewViewPacket, PB.PBFTCodec.ONewView n =>
      Forall complete_object (PB.PBFTNewViewMsg.m_viewChangeList n) /\
      Forall from_fields (PB.PBFTNewViewMsg.m_prePrepareList n)
  | (CommittedProposalRequest | PreparedProposalRequest), PB.PBFTCodec.ORequest r => True
  | (PrePreparePacket | PreparePacket | CommitPacket | CheckPoint | RecoverRequest
     | RecoverResponse | CommittedProposalResponse), PB.PBFTCodec.OPBFT m => True
  | _, _ => False
  end.

Lemma decodePayload_kind p b o : PB.PBFTCodec.decodePayload p b = Some o -> typed p o.
Proof.
  destruct p; cbn [PB.PBFTCodec.decodePayload]; intros (m & Hm & ->)%fmap_Some; try exact I;
    [by apply decoded_viewChange in Hm|by apply decoded_newView in Hm].
Qed.

Lemma on_base_typed f p o : typed p o -> typed p (PB.PBFTCodec.on_base f o).
Proof. by destruct o. Qed.

Lemma signed_typed h b p o :
  typed p o ->
  typed p (PB.PBFTCodec.setSignatureData b (PB.PBFTCodec.setSignatureDataHash h o)).
Proof. by destruct o. Qed.

Lemma typed_sane p o :
  PB.PBFTCodec.packetType o = p -> typed p o -> listed (PB.PBFTCodec.contents o) ->
  sane_msg N (PB.PBFTCodec.contents o).
Proof.
  intros <- Ht. destruct o as [m|v|n|r]; unfold sane_msg, PB.PBFTCodec.packetType in *; simpl in *.
  - destruct (PB.PBFTBaseMessage.m_packetType _); try done. intros Hl. by apply Hl.
  - destruct (PB.PBFTBaseMessage.m_packetType _); try done; simpl in *.
    intros Hl. by apply viewChange_object.
  - destruct (PB.PBFTBaseMessage.m_packetType _); try done. simpl in *. intros [Hv Hp].
    destruct Ht as [Ht Hf]. split; [|by apply prePrepare_objects]. clear Hp Hf.
    induction Ht as [|v l Hc _ IH]; simpl in *; [constructor|].
    inversion_clear Hv. constructor; [by apply viewChange_object|by apply IH].
  - by destruct (PB.PBFTBaseMessage.m_packetType _).
Qed.
End Decoded.

(** C24: the codec and the engine fit together: a packet that the codec decodes has the
    dynamic type and the pointers that the engine's handler of its packet type takes for
    granted.  Of the assumptions on packets under which a node never faults, only those
    on the pre-prepares and prepared proposals in a packet are left. *)
Theorem decoded_packets_are_typed `{Ext : Externals} `{Pb : Protobuf} N data o :
  PB.PBFTCodec.decode data = inl o -> listed N (PB.PBFTCodec.contents o) ->
  sane_msg N (PB.PBFTCodec.contents o).
Proof.
  unfold PB.PBFTCodec.decode. destruct (decodePBObject _) as [raw|]; [|done].
  destruct (PB.PBFTCodec.packet_of_code _) as [p|]; [|done].
  destruct (PB.PBFTCodec.decodePayload p _) as [m|] eqn:Em; [|done].
  apply decodePayload_kind in Em. intros [= <-]. apply (typed_sane N p).
  - by destruct (_ && _), m.
  - apply on_base_typed. destruct (_ && _); [by apply signed_typed|exact Em].
Qed.

(** A view change of node 2 that names its committed block and no prepared proposal. *)
Example decoded_packets_are_typed_witness :
  let _ := Demo.externals in let _ := PBDemo.protobuf in
  let o := PB.PBFTCodec.OViewChange (PB.PBFTViewChangeMsg.setCommittedProposal
    PB.PBFTProposal.create PB.PBFTViewChangeMsg.create) in
  exists o', PB.PBFTCodec.decode (fst (PB.PBFTCodec.encode 2 o 0)) = inl o' /\
    PB.PBFTCodec.packetType o' = ViewChangePacket /\ sane_msg 4 (PB.PBFTCodec.contents o').
Proof.
  intros Ext Pb o.
  assert (Ho : transmittable o).
  { split; [reflexivity|]. split; [apply built_synced; repeat constructor|].
    split; [by intros p [= <-]|]. split; [done|apply Forall_nil_2]. }
  pose proof (encode_decode 2 0 o Ho) as Hd.
  assert (Hl : listed 4 (PB.PBFTCodec.contents (received (snd (PB.PBFTCodec.encode 2 o 0))))).
  { apply Forall_nil_2. }
  assert (Ht : PB.PBFTCodec.packetType (received (snd (PB.PBFTCodec.encode 2 o 0))) = ViewChangePacket)
    by reflexivity.
  destruct (PB.PBFTCodec.encode 2 o 0) as [data sent]. simpl in Hl, Ht.
  exists (received sent). split; [exact Hd|]. split; [exact Ht|].
  exact (decoded_packets_are_typed 4 data _ Hd Hl).
Defined.

(** ** A view change that stops a node *)
Section Poison.
Context `{Ext : Externals} (N : nat).

(** A view change with a committed block ahead of the node's, and a first prepared proposal
    that has a signature and no signer.  Nothing is asked of its sender and its signature. *)
Record poisonous (c : PBFTConfig.t) (v : ViewChangeMsg.t) : Prop := {
  po_type : ViewChangeMsg.packetType v = ViewChangePacket;
  po_committed : exists p, ViewChangeMsg.committedProposal v = Some p /\
    committed_index c < PBFTProposal.index p;
  po_view : PBFTConfig.m_view c <= ViewChangeMsg.view v;
  po_toView : PBFTConfig.m_toView c <= u64 (ViewChangeMsg.view v + 1);
  po_prepared : exists m p, head (ViewChangeMsg.preparedProposals v) = Some m /\
    PBFTMessage.view m <= PBFTConfig.m_view c /\
    PBFTMessage.consensusProposal m = Some p /\
    PBFTProposal.nodeList p = [] /\ PBFTProposal.signatureList p <> []
}.

(** A consensus node that takes messages: not behind in synchronisation, nothing waiting. *)
Record attentive (e : E.t) : Prop := {
  at_consensus : PBFTConfig.isConsensusNode (config_of e) = true;
  at_synced : PBFTConfig.syncingHighestNumber (config_of e) <
    committed_index (config_of e) + PBFTConfig.m_warterMarkLimit (config_of e);
  at_queue : E.m_msgQueue e = []
}.

Lemma committedIndex_value (s : P.t) p :
  PBFTConfig.committedProposal (P.m_config s) = Some p ->
  P.committedIndex s = Done (PBFTProposal.index p) s [].
Proof.
  intros Hp. unfold P.committedIndex, PBFTConfig.committedIndex, zoom, mbind, eff_bind, asks. simpl.
  rewrite Hp. simpl. by destruct s.
Qed.

Lemma proofWeight_unsigned c p (s : P.t) :
  PBFTProposal.nodeList p = [] -> PBFTProposal.signatureList p <> [] ->
  P.proofWeight c p (seq 0 (PBFTProposal.signatureProofSize p)) 0 s = Crashed OutOfRange.
Proof.
  intros Hn Hs. unfold PBFTProposal.signatureProofSize.
  destruct (PBFTProposal.signatureList p) as [|b l] eqn:E; [done|]. simpl.
  unfold PBFTProposal.signatureProof. by rewrite E, Hn.
Qed.

Lemma handlePoison v (s : P.t) p0 :
  PBFTConfig.committedProposal (P.m_config s) = Some p0 -> poisonous (P.m_config s) v ->
  E.handleViewChangeMsg v s = Crashed OutOfRange.
Proof.
  intros Hp [_ (q & Hq & Hi) Hv Ht (m & p & Hm & Hmv & Hp' & Hn & Hs)].
  unfold committed_index in Hi. rewrite Hp in Hi. simpl in Hi.
  unfold E.handleViewChangeMsg, E.isValidViewChangeMsg, E.committedIndex. unfold mbind, eff_bind.
  rewrite (committedIndex_value s p0 Hp), Hq. simpl. rewrite (proj2 (Z.ltb_ge _ _)) by lia.
  unfold E.config_of. change (E.P.m_config s) with (P.m_config s).
  rewrite (proj2 (Z.ltb_ge _ _) Hv), (proj2 (Z.ltb_ge _ _) Ht). simpl.
  change (E.P.m_config s) with (P.m_config s). rewrite (proj2 (Z.ltb_ge _ _) Hv), Hp. simpl.
  rewrite (proj2 (Z.eqb_neq _ _)) by lia. simpl.
  destruct (ViewChangeMsg.preparedProposals v) as [|m' l]; [done|]. injection Hm as ->. simpl.
  unfold P.checkPrecommitMsg, P.checkPrecommitWeight, mbind, eff_bind. simpl.
  rewrite (proj2 (Z.ltb_ge _ _) Hmv), andb_false_r, Hp'. simpl.
  by rewrite proofWeight_unsigned.
Qed.

(** The packet is queued, with the node that it came from. *)
Lemma receivePoison from v e :
  attentive e -> ViewChangeMsg.packetType v = ViewChangePacket ->
  PBFTImpl.handle (PBFTImpl.ConsensusMessage false from (Packet (MViewChange v))) e =
    Done tt (e <| E.m_msgQueue := [MViewChange (v <| ViewChangeMsg.from := from |>)] |>) [].
Proof.
  intros [Hc _ Hq] Ht. unfold config_of in Hc. cbn [PBFTImpl.handle].
  unfold E.onReceivePBFTMessage, try_catch, mbind, eff_bind. simpl. rewrite Hc. simpl.
  unfold zoom. simpl. rewrite Ht. simpl. unfold E.pushMsg, modify. simpl. rewrite Hq.
  by destruct e.
Qed.

Lemma workPoison v e p0 :
  PBFTConfig.isConsensusNode (config_of e) = true ->
  PBFTConfig.syncingHighestNumber (config_of e) <
    committed_index (config_of e) + PBFTConfig.m_warterMarkLimit (config_of e) ->
  E.m_msgQueue e = [MViewChange v] ->
  PBFTConfig.committedProposal (config_of e) = Some p0 -> poisonous (config_of e) v ->
  PBFTImpl.handle PBFTImpl.Worker e = Crashed OutOfRange.
Proof.
  intros Hc Hs Hq Hp Hv. unfold config_of in *. cbn [PBFTImpl.handle].
  unfold PBFTImpl.E.workerStep, E.executeWorker, try_catch, mbind, eff_bind. simpl. rewrite Hc.
  simpl. unfold zoom, E.isSyncingHigher, E.committedIndex, mbind, eff_bind. simpl.
  rewrite (committedIndex_value _ p0 Hp). simpl.
  unfold committed_index in Hs. rewrite Hp in Hs. simpl in Hs.
  unfold E.config_of. change (E.P.m_config (E.m_cacheProcessor e)) with (P.m_config (E.m_cacheProcessor e)).
  rewrite (proj2 (Z.ltb_lt _ _) Hs). simpl. rewrite Hq. simpl.
  assert (Hh : E.handleMsg (MViewChange v) (E.m_cacheProcessor e) = Crashed OutOfRange).
  { unfold E.handleMsg, E.ignore. simpl. rewrite (po_type _ _ Hv). unfold mbind, eff_bind.
    by rewrite (handlePoison v _ p0 Hp Hv). }
  rewrite (po_type _ _ Hv). destruct (PBFTConfig.m_timeoutState _); simpl; by rewrite Hh.
Qed.
End Poison.

(** C8: one packet stops any node that takes messages.  A view change that names a block
    ahead of the node's and carries a prepared proposal with a signature but without a
    signer makes the worker that handles it read past the end of the list of signers -
    before the signature of the view change is checked, so that the packet needs no key of
    a consensus node. *)
Theorem malformed_view_change_stops_node `{Ext : Externals} N e from v :
  sane_engine N e -> attentive e -> poisonous (config_of e) v ->
  PBFTImpl.run [PBFTImpl.ConsensusMessage false from (Packet (MViewChange v)); PBFTImpl.Worker] e = None.
Proof.
  intros [Hs _] Ha Hv. destruct (committed_some N _ (sn_config _ _ _ Hs)) as [p0 Hp0].
  cbn [PBFTImpl.run]. rewrite receivePoison; [|done|apply Hv].
  rewrite (workPoison (v <| ViewChangeMsg.from := from |>) _ p0); [done|apply Ha|apply Ha|done|done|].
  by destruct Hv.
Qed.
