(* ===== verification/Network.v ===== *)
(** Network: nodes that run this code and send to each other.  Packets may be lost,
    delayed, duplicated and reordered; callbacks may come late or never.  No node faults:
    what a node sends is what the others take for granted. *)
From S2P Require Import Prelude Types Protobuf Codec CodecFacts Timer Validator Config Cache Processor LogSync Engine.
From S2P Require Import Quorum ConfigFacts CacheFacts Steps Refine Impl Behaviour Sane SaneNode FaultFree Boot NoCrash.

(** ** A packet on its way

    Decoding loses the sender of a message, and in the messages inside a view change or a
    new view their packet type and signature hash; the base message of these is read from
    their hash fields ([CodecFacts.received]). *)
Definition embedded_msg (m : PBFTMessage.t) : PBFTMessage.t :=
  m <| PBFTMessage.base := default BaseMessage.empty (PBFTMessage.hashFieldsData m) |>
    <| PBFTMessage.packetType := PrePreparePacket |> <| PBFTMessage.from := None |>
    <| PBFTMessage.signatureDataHash := 0 |>.
Definition embedded_view (v : ViewChangeMsg.t) : ViewChangeMsg.t :=
  v <| ViewChangeMsg.packetType := ViewChangePacket |> <| ViewChangeMsg.from := None |>
    <| ViewChangeMsg.committedProposal :=
         Some (default PBFTProposal.create (ViewChangeMsg.committedProposal v)) |>
    <| ViewChangeMsg.preparedProposals := embedded_msg <$> ViewChangeMsg.preparedProposals v |>.
Definition as_received (m : Msg) : Msg :=
  match m with
  | MPBFT m => MPBFT (m <| PBFTMessage.from := None |>)
  | MViewChange v =>
      MViewChange (embedded_view v <| ViewChangeMsg.packetType := ViewChangeMsg.packetType v |>)
  | MNewView n =>
      MNewView (n <| NewViewMsg.from := None |>
        <| NewViewMsg.viewChangeMsgList := embedded_view <$> NewViewMsg.viewChangeMsgList n |>
        <| NewViewMsg.prePrepareList := embedded_msg <$> NewViewMsg.prePrepareList n |>)
  | MRequest r => MRequest (r <| PBFTRequest.from := None |>)
  end.

Section Codec.
Context `{Ext : Externals} `{Pb : Protobuf}.

Lemma contents_embedded m :
  PB.PBFTMessage.contents (embedded m) = embedded_msg (PB.PBFTMessage.contents m).
Proof.
  destruct m as [b h d c l s]. unfold embedded_msg, PB.PBFTMessage.contents, embedded, fields_base.
  simpl. destruct (decodePBObject h) as [raw|]; simpl; [|done].
  by rewrite of_raw_fields.
Qed.

Lemma contents_embedded_list (l : list PB.PBFTMessage.t) :
  PB.PBFTMessage.contents <$> (embedded <$> l) = embedded_msg <$> (PB.PBFTMessage.contents <$> l).
Proof. rewrite <- !list_fmap_compose. apply list_fmap_ext. intros i m _. apply contents_embedded. Qed.

Lemma contents_embedded_view v :
  PB.PBFTViewChangeMsg.contents (embedded_viewChange v) =
    embedded_view (PB.PBFTViewChangeMsg.contents v).
Proof.
  unfold PB.PBFTViewChangeMsg.contents, embedded_view. destruct v as [[] c l a]. simpl.
  rewrite contents_embedded_list. by destruct c.
Qed.

Lemma contents_embedded_views (l : list PB.PBFTViewChangeMsg.t) :
  PB.PBFTViewChangeMsg.contents <$> (embedded_viewChange <$> l) =
    embedded_view <$> (PB.PBFTViewChangeMsg.contents <$> l).
Proof.
  rewrite <- !list_fmap_compose. apply list_fmap_ext. intros i m _. apply contents_embedded_view.
Qed.

(** What the receiver of [o] works with is [as_received] of what the sender worked with. *)
Lemma contents_received o :
  PB.PBFTCodec.contents (received o) = as_received (PB.PBFTCodec.contents o).
Proof.
  destruct o as [m|v|n|r]; unfold received, PB.PBFTCodec.contents, as_received; simpl.
  - by destruct m as [[] ? ? ? ? ?].
  - f_equal. unfold PB.PBFTViewChangeMsg.contents, embedded_view. destruct v as [[] c l a]. simpl.
    rewrite contents_embedded_list. by destruct c.
  - f_equal. unfold PB.PBFTNewViewMsg.contents. destruct n as [[] vs l ? ?]. simpl.
    by rewrite contents_embedded_list, contents_embedded_views.
  - by destruct r as [[] ?].
Qed.
End Codec.

Section Sane.
Context `{Ext : Externals} (N : nat) (HN : 0 < Z.of_nat N).

(** The sender that is read from the hash fields. *)
Lemma sane_fields_from m : sane_fields N m -> member N (PBFTMessage.generatedFrom (embedded_msg m)).
Proof using HN.
  unfold sane_fields, PBFTMessage.generatedFrom. simpl. destruct (PBFTMessage.hashFieldsData m) as [b|].
  - intros H. by apply H.
  - intros _. split; [done|exact HN].
Qed.

Lemma sane_embedded m : prepared_wire N m -> prepared_wire N (embedded_msg m).
Proof using HN. intros (Hc & _ & Hf). split; [exact Hc|]. split; [by apply sane_fields_from|exact Hf]. Qed.

Lemma sane_embedded_reproposal m : sane_reproposal N m -> sane_reproposal N (embedded_msg m).
Proof.
  intros [[(p & Hp & Hh) Hf] Hg Hb]. split; [split; [exists p; split; [exact Hp|]|exact Hf]|..|done].
  - unfold PBFTMessage.hash in *. simpl. by rewrite <- Hb.
  - unfold PBFTMessage.generatedFrom in *. simpl. by rewrite <- Hb.
Qed.

Lemma sane_embedded_view v : viewChange_wire N v -> viewChange_wire N (embedded_view v).
Proof using HN.
  intros [_ Hp]. split; [by eexists|]. simpl. apply Forall_fmap.
  eapply Forall_impl; [|exact Hp]. apply sane_embedded.
Qed.

Lemma sane_as_received m : sane_msg N m -> sane_msg N (as_received m).
Proof using HN.
  destruct m as [m|v|n|r]; unfold sane_msg; simpl.
  - destruct (PBFTMessage.packetType m); try done. by intros [].
  - destruct (ViewChangeMsg.packetType v); try done.
    + intros Hv. by apply sane_embedded_view in Hv as [].
    + intros [Hl Hc]. rewrite length_fmap. split; [done|]. apply Forall_fmap.
      eapply Forall_impl; [|exact Hc]. by intros m Hm.
  - destruct (NewViewMsg.packetType n); try done. intros [Hv Hp]. split; apply Forall_fmap.
    + eapply Forall_impl; [|exact Hv]. apply sane_embedded_view.
    + eapply Forall_impl; [|exact Hp]. apply sane_embedded_reproposal.
  - done.
Qed.

(** ** The network *)
Record network : Type := Network {
  net_nodes : list E.t;
  net_log : list (nat * Event)  (* what each node has emitted, oldest first *)
}.

(** The packets of an event. *)
Definition carries (e : Event) (m : Msg) : Prop :=
  match e with
  | SendMessageByNodeIDs _ m' | SendMessageByNodeID _ m' | SendResponse (Some m') => m = m'
  | RequestPBFTData _ req _ => m = MRequest req
  | _ => False
  end.

(** A packet that a node has sent, as it is received; where it was sent to does not matter. *)
Definition in_flight (log : list (nat * Event)) (d : Wire) : Prop :=
  match d with
  | Packet m => exists k e m0, (k, e) ∈ log /\ carries e m0 /\ m = as_received m0
  | _ => True
  end.

(** What may happen to node [k] in state [e]: a packet arrives that some node has sent, from
    whatever peer the front service names, a service answers a request that the node has made, the node calls itself back, the
    ledger reports a configuration of [N] nodes; the timers, the clock and the calls of
    the other services are free. *)
Definition caused (log : list (nat * Event)) (k : nat) (e : E.t) (i : PBFTImpl.input) : Prop :=
  match i with
  | PBFTImpl.ConsensusMessage _ n d
  | PBFTImpl.CommittedProposalsResponse _ n d _ _ => is_Some n /\ in_flight log d
  | PBFTImpl.ProposalVerified _ _ n _ _ => is_Some n
  | PBFTImpl.PrecommitResponse _ n d m =>
      is_Some n /\ in_flight log d /\
      exists from req, (k, RequestPBFTData from req (OnRecvPrecommitResponse m)) ∈ log
  | PBFTImpl.PrePrepareVerified _ _ m g =>
      exists from p, (k, VerifyProposal from p (OnPrePrepareVerified m g)) ∈ log
  | PBFTImpl.PeerRequest m => (k, EnqueueRequest m) ∈ log
  | PBFTImpl.NotifyNewBlockSynced cfg | PBFTImpl.StableCheckPointCommitted cfg => sane_ledger N cfg
  | PBFTImpl.CheckPointTimeout i => is_Some (P.m_caches (E.m_cacheProcessor e) !! i)
  | _ => True
  end.

(** One input after the other, each at a node; [None] is a fault. *)
Definition net_step (k : nat) (i : PBFTImpl.input) (n : network) : option network :=
  match net_nodes n !! k with
  | None => Some n
  | Some e =>
      match PBFTImpl.handle i e with
      | Done _ e' es | Threw _ e' es =>
          Some (Network (<[ k := e' ]> (net_nodes n)) (net_log n ++ (pair k <$> es)))
      | Crashed _ => None
      end
  end.
Fixpoint net_run (l : list (nat * PBFTImpl.input)) (n : network) : option network :=
  match l with
  | [] => Some n
  | (k, i) :: l => n' ← net_step k i n; net_run l n'
  end.

(** Every input of a schedule is caused when it happens. *)
Fixpoint schedule_ok (l : list (nat * PBFTImpl.input)) (n : network) : Prop :=
  match l with
  | [] => True
  | (k, i) :: l =>
      (forall e, net_nodes n !! k = Some e -> caused (net_log n) k e i) /\
      (forall n', net_step k i n = Some n' -> schedule_ok l n')
  end.

Record sane_network (n : network) : Prop := {
  nn_nodes : Forall (sane_engine N) (net_nodes n);
  nn_log : Forall (fun ke => sane_event N (snd ke)) (net_log n)
}.

Lemma logged n k e : sane_network n -> (k, e) ∈ net_log n -> sane_event N e.
Proof. intros [_ Hl] Hin. exact (proj1 (Forall_forall _ _) Hl (k, e) (proj1 (list_elem_of_In _ _) Hin)). Qed.

Lemma carried_sane e m : sane_event N e -> carries e m -> sane_msg N m.
Proof.
  destruct e as [| |[]|? ? []| | | | | | | | | | | | | | | | | |]; simpl; try done; intros H ->;
    first [exact H | exact (proj1 H)].
Qed.

Lemma in_flight_sane n d : sane_network n -> in_flight (net_log n) d -> sane_wire N d.
Proof using HN.
  intros Hn. destruct d as [| |m]; [done..|]. intros (k & e & m0 & Hin & Hc & ->).
  apply sane_as_received. eapply carried_sane; [by eapply logged|exact Hc].
Qed.

(** An input that is caused is sane. *)
Lemma caused_sane n k e i : sane_network n -> caused (net_log n) k e i -> sane_input N e i.
Proof using HN.
  intros Hn. destruct i; cbn [caused sane_input]; try done;
    try (intros [? ?]; split; [done|by apply (in_flight_sane n)]).
  - intros Hin. exact (logged _ _ _ Hn Hin).
  - intros (from & p & Hin). exact (logged _ _ _ Hn Hin).
  - intros (Hs & Hd & from & req & Hin). split; [exact Hs|]. split; [by apply (in_flight_sane n)|].
    exact (proj2 (logged _ _ _ Hn Hin)).
Qed.

Lemma net_step_sane k i n :
  sane_network n -> (forall e, net_nodes n !! k = Some e -> caused (net_log n) k e i) ->
  exists n', net_step k i n = Some n' /\ sane_network n'.
Proof using HN.
  intros Hn Hi. unfold net_step. destruct (net_nodes n !! k) as [e|] eqn:Ek; [|by eexists].
  assert (He : sane_engine N e).
  { apply (proj1 (list.Forall_lookup _ _) (nn_nodes _ Hn) k e Ek). }
  pose proof (handle_sane N i e He (caused_sane n k e i Hn (Hi e eq_refl))) as Hh.
  assert (Hnext : forall e' es, sane_engine N e' -> Forall (sane_event N) es ->
    sane_network (Network (<[ k := e' ]> (net_nodes n)) (net_log n ++ (pair k <$> es)))).
  { intros e' es H1 H2. destruct Hn as [Hns Hl]. split; simpl.
    - by apply list.Forall_insert.
    - apply Forall_app. split; [done|]. by apply Forall_fmap. }
  destruct (PBFTImpl.handle i e) as [a e' es|x e' es|]; [..|done]; destruct Hh as [H1 H2];
    (eexists; split; [done|by apply Hnext]).
Qed.

Lemma net_run_sane l n :
  sane_network n -> schedule_ok l n -> exists n', net_run l n = Some n' /\ sane_network n'.
Proof using HN.
  revert n. induction l as [|[k i] l IH]; intros n Hn; cbn [net_run schedule_ok].
  { intros _. by exists n. }
  intros [Hi Hl]. destruct (net_step_sane k i n Hn Hi) as (n1 & E & H1). rewrite E.
  apply IH; [done|by apply Hl].
Qed.
End Sane.

(** A node that has been initialised on [cfg]. *)
Definition started `{Ext : Externals} (cfg : LedgerConfig.t) (e : E.t) : Prop :=
  exists c0 stateProposals es,
    blank c0 /\
    resumable cfg stateProposals /\
    PBFTImpl.init cfg stateProposals (PBFTEngine.create c0) = Done tt e es.

Lemma started_sane `{Ext : Externals} cfg e :
  usable cfg -> 0 < LedgerConfig.leaderSwitchPeriod cfg -> started cfg e ->
  sane_engine (length (LedgerConfig.consensusNodeList cfg)) e.
Proof.
  intros Hcfg Hp (c0 & ps & es & Hb & Hps & Hi). eapply booted_sane; [done..|].
  assert (Hb' : blank (c0 <| PBFTConfig.m_fastViewChangeHandler := true |>
    <| PBFTConfig.m_timeoutState := true |>)) by by destruct Hb.
  pose proof (init_completes cfg Hcfg ps _ (PBFTEngine.create c0) eq_refl eq_refl eq_refl
    Hb' Hps) as Hr. by rewrite Hi in Hr.
Qed.

(** C6: nodes that run this code do not crash each other.  In a network of nodes that
    were initialised on one usable ledger and whose later ledger configurations keep the
    number of consensus nodes, where every packet a node receives has been
    sent by some node of the network and comes with a sender - the front service passes no
    null pointer - and every callback answers a request of the node
    itself, no node ever faults - however the network loses, delays, duplicates, reorders
    or misdirects the packets, whatever the timers do, and whatever the sealer, the
    executor, the transaction pool and the storage answer and when.  Nothing is assumed of
    the content of the packets: that what a node sends is what the others take for
    granted is part of the invariant. *)
Theorem network_never_faults `{Ext : Externals} cfg nodes l :
  usable cfg -> 0 < LedgerConfig.leaderSwitchPeriod cfg -> Forall (started cfg) nodes ->
  let N := length (LedgerConfig.consensusNodeList cfg) in
  schedule_ok N l (Network nodes []) ->
  exists n, net_run l (Network nodes []) = Some n /\ Forall (sane_engine N) (net_nodes n).
Proof.
  intros Hcfg Hp Hn N Hl. destruct (net_run_sane N (proj1 (usable_count cfg Hcfg)) l (Network nodes [])) as (n & Hr & Hs).
  - split; [|constructor]. eapply Forall_impl; [|exact Hn]. intros e He. by apply started_sane.
  - exact Hl.
  - exists n. split; [exact Hr|apply Hs].
Qed.
