(* ===== verification/Restart.v ===== *)
(** Restart: a node that starts again on the table it has written asks for the
    verification of exactly the proposals it had committed after the ledger's block. *)
From stdpp Require Import strings.
From S2P Require Import Prelude Types Protobuf Codec Blocks Timer Validator Config Cache Processor LogSync Engine Impl.
From S2P Require Import Storage StorageFacts Quorum ConfigFacts Steps Behaviour Agreement Boot.

(** The proposals whose verification is requested. *)
Definition verification (e : Event) : option PBFTProposal.t :=
  match e with VerifyProposal _ p _ => Some p | _ => None end.
Definition verifications (es : list Event) : list PBFTProposal.t := omap verification es.

Lemma verifications_app es es' :
  verifications (es ++ es') = verifications es ++ verifications es'.
Proof. apply omap_app. Qed.

Section Silent.
Context `{Ext : Externals}.

(** Computations that request no verification. *)
Definition silent {S} (s s' : S) (es : list Event) : Prop := verifications es = [].
#[local] Instance silent_transition {S} : Transition (silent (S := S)).
Proof.
  split; [done|]. intros s1 s2 s3 e1 e2 H1 H2. unfold silent in *.
  by rewrite verifications_app, H1, H2.
Qed.

Lemma silent_emit {S} e : verification e = None -> respects any_fault (silent (S := S)) (emit e).
Proof. intros H s. simpl. unfold silent, verifications. simpl. by rewrite H. Qed.

Lemma silent_modify {S} (f : S -> S) : respects any_fault silent (modify f).
Proof. done. Qed.

Lemma silent_zoom {S T A} (proj : S -> T) `{!Settable proj} (m : Eff Event T A) :
  respects any_fault silent m -> respects any_fault silent (zoom proj m).
Proof. intros H. by eapply respects_zoom. Qed.

Hint Resolve silent_modify : eff.
Ltac silent := eff_auto; try (by apply silent_emit).

Lemma notifySealer_silent i b : respects any_fault silent (PBFTConfig.notifySealer i b).
Proof.
  unfold PBFTConfig.notifySealer, PBFTConfig.leaderIndex, PBFTConfig.leader_of,
    PBFTConfig.committedIndex, PBFTConfig.asyncNotifySealProposal. silent.
Qed.

Lemma notifyResetSealing_silent o : respects any_fault silent (PBFTConfig.notifyResetSealing o).
Proof. unfold PBFTConfig.notifyResetSealing, PBFTConfig.committedIndex. silent. Qed.

Lemma resetConfig_silent cfg b : respects any_fault silent (PBFTConfig.resetConfig cfg b).
Proof.
  unfold PBFTConfig.resetConfig, PBFTConfig.setConsensusNodeList,
    ConsensusConfig.setConsensusNodeList, PBFTConfig.setLeaderSwitchPeriod,
    PBFTConfig.reNotifySealer, PBFTConfig.committedIndex, TxsValidator.updateValidatorConfig.
  silent; try apply notifyResetSealing_silent; try apply notifySealer_silent.
Qed.

(** Marking transactions requests nothing and keeps the committed block. *)
Lemma resetTxsFlag_keeps d b :
  respects any_fault (fun s s' es => verifications es = [] /\
    PBFTConfig.base (P.m_config s') = PBFTConfig.base (P.m_config s)) (P.resetTxsFlag d b).
Proof.
  unfold P.resetTxsFlag. eapply respects_zoom with
    (RT := fun c c' es => verifications es = [] /\ PBFTConfig.base c' = PBFTConfig.base c); [|done].
  eapply respects_zoom with (RT := silent); [|done].
  unfold TxsValidator.asyncResetTxsFlag, TxsValidator.insertResettingProposal. silent.
Qed.

(** Every proposal above the committed block is verified, in order. *)
Lemma initState_verifies ps from s q :
  PBFTConfig.committedProposal (P.m_config s) = Some q ->
  Forall (fun p => PBFTProposal.index q < PBFTProposal.index p) ps ->
  wp any_fault (P.initState ps from s) (fun r _ es =>
    (exists a, r = inl a) -> verifications es = ps).
Proof.
  unfold P.initState. intros Hq H. revert s Hq.
  induction H as [|p ps Hp _ IH]; intros s Hq; cbn [for_each]; [done|].
  apply wp_bind. apply wp_bind. unfold P.committedIndex, PBFTConfig.committedIndex, zoom, mbind, eff_bind.
  simpl. rewrite Hq. simpl. rewrite (proj2 (Z.leb_gt _ _)) by done.
  assert (s <| P.m_config := P.m_config s |> = s) as -> by by destruct s.
  pose proof (resetTxsFlag_keeps (PBFTProposal.data p) true s) as Hr.
  destruct (P.resetTxsFlag (PBFTProposal.data p) true s) as [[] s1 e1|x s1 e1|]; simpl in Hr |- *;
    [|by intros [? ?]|done].
  destruct Hr as [He Hb].
  set (s2 := s1 <| P.m_config := _ |>).
  assert (Hq2 : PBFTConfig.committedProposal (P.m_config s2) = Some q).
  { unfold PBFTConfig.committedProposal in *. simpl. by rewrite Hb. }
  clearbody s2. eapply wp_mono; [by apply IH|]. intros r s3 e3 H3 Ha.
  rewrite verifications_app, (H3 Ha), verifications_app, He. done.
Qed.

(** The low water mark stays, or becomes [w]. *)
Definition low_at (w : BlockNumber) (c c' : PBFTConfig.t) (es : list Event) : Prop :=
  PBFTConfig.m_lowWaterMark c' = PBFTConfig.m_lowWaterMark c \/ PBFTConfig.m_lowWaterMark c' = w.
#[local] Instance low_at_transition w : Transition (low_at w).
Proof. split; [by left|]. unfold low_at. intros c1 c2 c3 _ _ [H1|H1] [H2|H2]; rewrite ?H2; auto. Qed.

Lemma low_emit w e : respects any_fault (low_at w) (emit e).
Proof. intros c. by left. Qed.

Lemma low_modify w f :
  (forall c, low_at w c (f c) []) -> respects any_fault (low_at w) (modify f).
Proof. intros H c. apply H. Qed.

Lemma low_zoom {T A} w (proj : PBFTConfig.t -> T) `{!Settable proj} (m : Eff Event T A) :
  (forall c x, PBFTConfig.m_lowWaterMark (c <| proj := x |>) = PBFTConfig.m_lowWaterMark c) ->
  respects any_fault (low_at w) (zoom proj m).
Proof.
  intros H c. unfold zoom. destruct (m (proj c)); simpl; [left; apply H|left; apply H|exact I].
Qed.

Lemma resetConfig_low cfg b :
  respects any_fault (low_at (LedgerConfig.blockNumber cfg + 1)) (PBFTConfig.resetConfig cfg b).
Proof.
  unfold PBFTConfig.resetConfig, PBFTConfig.setConsensusNodeList,
    ConsensusConfig.setConsensusNodeList, PBFTConfig.setLeaderSwitchPeriod,
    PBFTConfig.reNotifySealer, TxsValidator.updateValidatorConfig,
    PBFTConfig.notifySealer, PBFTConfig.notifyResetSealing, PBFTConfig.leaderIndex,
    PBFTConfig.leader_of, PBFTConfig.asyncNotifySealProposal, PBFTConfig.committedIndex.
  eff_auto; try apply low_emit; try (apply low_zoom; intros; reflexivity).
  all: apply low_modify; intros c; unfold low_at.
  all: try (by left).
  - destruct (setCommittedProposal_fields (block_of cfg) c) as (_ & _ & _ & Hl & _).
    fold (block_of cfg). rewrite Hl. change (PBFTProposal.index (block_of cfg)) with
      (LedgerConfig.blockNumber cfg). lia.
  - left. unfold PBFTConfig.resetTimer, PBFTConfig.freshTimer. by destruct (0 <? PBFTConfig.m_unsealedTxsSize _).
Qed.

(** What [init] requests, and where it leaves the low water mark. *)
Definition first_index (cfg : LedgerConfig.t) (ps : option (list PBFTProposal.t)) : BlockNumber :=
  match default [] ps !! pred (length (default [] ps)) with
  | Some p => PBFTProposal.index p + 1
  | None => LedgerConfig.blockNumber cfg + 1
  end.

Lemma init_verifies cfg (Hcfg : usable cfg) ps c0 :
  blank c0 ->
  Forall (fun p => LedgerConfig.blockNumber cfg < PBFTProposal.index p) (default [] ps) ->
  wp any_fault (PBFTImpl.init cfg ps (E.create c0)) (fun r e es => (exists a, r = inl a) ->
    verifications es = default [] ps /\
    PBFTConfig.m_lowWaterMark (config_of e) = first_index cfg ps).
Proof.
  intros Hb Hall.
  assert (Hb' : blank (c0 <| PBFTConfig.m_fastViewChangeHandler := true |>
    <| PBFTConfig.m_timeoutState := true |>)) by by destruct Hb.
  unfold PBFTImpl.init, PBFTImpl.on_config, PBFTImpl.on_processor.
  set (e0 := E.create c0). set (c1 := P.m_config (E.m_cacheProcessor e0)).
  pose proof (resetConfig_silent cfg false c1) as Hs.
  pose proof (resetConfig_low cfg false c1) as Hw.
  pose proof (us_number _ Hcfg) as Hn.
  pose proof (resetConfig_completes cfg false c1 Hb' Hn (us_nodes _ Hcfg) (us_period _ Hcfg)) as Hr.
  assert (H0 : zoom E.m_cacheProcessor (zoom P.m_config (zoom PBFTConfig.m_validator
    TxsValidator.init)) e0 = Done tt e0 [ResetTxPool]).
  { unfold zoom. cbn [TxsValidator.init TxsValidator.asyncResetTxPool emit].
    by rewrite (unchanged e0). }
  apply wp_bind. rewrite H0. cbn [wp]. clear H0.
  apply wp_bind. unfold zoom at 1. unfold zoom at 1. fold c1.
  destruct (PBFTConfig.resetConfig cfg false c1) as [[] c2 e1|x c2 e1|]; [|done|done].
  simpl in Hs, Hw, Hr |- *. destruct Hr as [(_ & _ & _ & _ & Hc2 & Hp2 & [_ Hm2] & _) _].
  assert (Hlow : PBFTConfig.m_lowWaterMark c2 = LedgerConfig.blockNumber cfg + 1).
  { destruct Hw as [Hw|Hw]; [|exact Hw]. rewrite (bl_low _ Hb' : PBFTConfig.m_lowWaterMark c1 = 0) in Hw. lia. }
  clear Hw Hm2 Hp2. unfold first_index.
  destruct ps as [l|]; [simpl; destruct (l !! pred (length l)) as [p|] eqn:Ep|].
  2:{ apply lookup_ge_None in Ep. destruct l; [|simpl in Ep; lia].
      simpl. intros _. rewrite app_nil_r. split; [exact Hs|exact Hlow]. }
  2:{ simpl. intros _. rewrite app_nil_r. split; [exact Hs|exact Hlow]. }
  apply wp_bind. apply wp_bind. simpl. apply wp_bind.
  set (s2 := _ <| P.m_config := c2 |>).
  assert (H2 : PBFTConfig.committedProposal (P.m_config s2) = Some (block_of cfg)) by exact Hc2.
  pose proof (initState_verifies l (Some (PBFTConfig.nodeID c2)) s2 _ H2 Hall) as Hv.
  unfold zoom. simpl.
  change (PBFTCacheProcessor.initState l (Some (PBFTConfig.nodeID c2)) s2) with
    (P.initState l (Some (PBFTConfig.nodeID c2)) s2).
  destruct (P.initState l _ s2) as [u s3 e3|x s3 e3|]; simpl in Hv |- *; [|by intros [? ?]|done].
  intros Ha. rewrite app_nil_r, !verifications_app, Hs.
  rewrite (Hv (ex_intro _ u eq_refl)). split; [by rewrite app_nil_r|done].
Qed.
End Silent.

(** ** The proposals of the table *)

(** The loaded proposals as [init] reads them. *)
Definition loaded (r : option (list PB.PBFTProposal.t)) : option (list PBFTProposal.t) :=
  match r with Some l => Some (PB.PBFTProposal.contents <$> l) | None => None end.

Lemma last_index (l : list PBFTProposal.t) i n p :
  i < n -> PBFTProposal.index <$> l = seqZ (i + 1) (n - i) -> l !! pred (length l) = Some p ->
  PBFTProposal.index p = n.
Proof.
  intros Hlt Hl Hp. assert (Hx : (PBFTProposal.index <$> l) !! pred (length l) = Some (PBFTProposal.index p))
    by by rewrite list_lookup_fmap, Hp.
  assert (Hlen : length l = Z.to_nat (n - i)).
  { by rewrite <- (length_fmap PBFTProposal.index), Hl, length_seqZ. }
  rewrite Hl in Hx. apply lookup_seqZ in Hx as [-> _]. rewrite Hlen. lia.
Qed.

Section Recovered.
Context `{Ext : Externals} `{Pb : Protobuf} `{Bl : Blocks}.

(** They can be resumed. *)
Lemma resumable_table c cfg l :
  let stable := LedgerConfig.blockNumber cfg in
  let n := Table.recorded (Table.db c) in
  stable < n -> Table.index_of <$> l = seqZ (stable + 1) (n - stable) ->
  Forall (fun p => Table.accepted p (Table.submitted c)) l ->
  Forall (fun p => is_Some (createBlock (PBFTProposal.data (PB.PBFTProposal.contents p))))
    (Table.submitted c) ->
  let ps := PB.PBFTProposal.contents <$> l in
  resumable cfg (Some ps) /\ Forall (fun p => stable < PBFTProposal.index p) ps.
Proof.
  intros stable n Hlt Hl Ha Hblocks ps.
  assert (Hi : PBFTProposal.index <$> ps = seqZ (stable + 1) (n - stable)).
  { rewrite <- Hl. unfold ps. by rewrite <- list_fmap_compose. }
  assert (Habove : Forall (fun p => stable < PBFTProposal.index p) ps).
  { apply list.Forall_forall. intros p Hp.
    assert (Hx : PBFTProposal.index p ∈ seqZ (stable + 1) (n - stable)).
    { rewrite <- Hi. by apply list_elem_of_fmap_2. }
    apply elem_of_seqZ in Hx. lia. }
  split; [split|exact Habove].
  - intros l' p [= <-] Hp. rewrite (last_index _ _ _ _ Hlt Hi Hp).
    fold stable. lia.
  - simpl. apply list.Forall_fmap. eapply list.Forall_impl; [exact Ha|].
    intros p (l1 & l2 & E & _) _. rewrite E, list.Forall_app in Hblocks.
    destruct Hblocks as [_ Hp]. by inversion Hp.
Qed.
End Recovered.

(** C31: a restart takes up what was committed.  On a table that the node has written by any
    sequence of commits, failures and removals, with blocks in the proposals it was given,
    [loadState] answers and [init] with that answer ends, both without an exception.  If
    the table has every index from the ledger's block to the recorded maximum, [init]
    requests the verification of exactly the proposals with these indices, in order - each
    the one that was committed first for its index; a verified proposal goes to the commit
    queue - and raises the low water mark above them, so that no other proposal is accepted
    for their indices.  If an index is missing, nothing is requested and the low water mark
    is right above the ledger's block. *)
Theorem restart_resumes `{Ext : Externals} `{Pb : Protobuf} `{Bl : Blocks} c cfg c0 :
  rtc Table.step Table.init c -> usable cfg -> blank c0 ->
  Forall (fun p => is_Some (createBlock (PBFTProposal.data (PB.PBFTProposal.contents p))))
    (Table.submitted c) ->
  let stable := LedgerConfig.blockNumber cfg in
  let n := Table.recorded (Table.db c) in
  exists r s calls e es,
    Table.recover (Table.db c) stable = Done r s calls /\
    PBFTImpl.init cfg (loaded r) (PBFTEngine.create c0) = Done tt e es /\
    ((stable < n /\ (forall z, stable < z <= n -> is_Some (Table.db c !! print_int z)) /\
      (exists l, r = Some l /\ Forall (fun p => Table.accepted p (Table.submitted c)) l /\
        verifications es = PB.PBFTProposal.contents <$> l) /\
      PBFTProposal.index <$> verifications es = seqZ (stable + 1) (n - stable) /\
      PBFTConfig.m_lowWaterMark (config_of e) = n + 1) \/
     ((n <= stable \/ exists z, stable < z <= n /\ Table.db c !! print_int z = None) /\
      verifications es = [] /\ PBFTConfig.m_lowWaterMark (config_of e) = stable + 1)).
Proof.
  intros Hc Hcfg Hb Hblocks stable n.
  pose proof (us_number _ Hcfg) as Hpos.
  destruct (Table.recovered c stable (Table.steps_faithful _ Hc) Hpos) as (r & s & calls & E & Hr).
  set (ps := loaded r).
  assert (Hps : resumable cfg ps /\
    Forall (fun p => stable < PBFTProposal.index p) (default [] ps)).
  { destruct Hr as [(Hlt & _ & l & -> & Hl & Ha)|[_ ->]]; [|by repeat constructor].
    by apply (resumable_table c cfg l). }
  destruct Hps as [Hps Habove].
  assert (Hb' : blank (c0 <| PBFTConfig.m_fastViewChangeHandler := true |>
    <| PBFTConfig.m_timeoutState := true |>)) by by destruct Hb.
  pose proof (init_completes cfg Hcfg ps _ (E.create c0) eq_refl eq_refl eq_refl Hb' Hps) as Hret.
  pose proof (init_verifies cfg Hcfg ps c0 Hb Habove) as Hver.
  change PBFTEngine.create with E.create.
  destruct (PBFTImpl.init cfg ps (E.create c0)) as [[] e es|x e es|] eqn:Ei; [|done|done].
  destruct (Hver (ex_intro _ tt eq_refl)) as [Hv Hlow]. clear Hret Hver.
  exists r, s, calls, e, es. split; [exact E|]. split; [exact Ei|]. rewrite Hv, Hlow.
  destruct Hr as [(Hlt & Hall & l & -> & Hl & Ha)|[Hm ->]]; [left|right; by split].
  assert (Hi : PBFTProposal.index <$> (PB.PBFTProposal.contents <$> l) = seqZ (stable + 1) (n - stable)).
  { etransitivity; [|exact Hl]. by rewrite <- list_fmap_compose. }
  split; [exact Hlt|]. split; [exact Hall|]. split; [by exists l|]. split; [exact Hi|].
  unfold first_index. simpl. destruct (_ !! _) as [p|] eqn:El.
  - by rewrite (last_index _ _ _ _ Hlt Hi El).
  - apply lookup_ge_None in El. apply (f_equal length) in Hi.
    rewrite length_fmap, length_seqZ in Hi. lia.
Qed.

(** The table of [TableDemo], on which proposal 1 was written. *)
Example restart_resumes_witness :
  let _ := Demo.externals in let _ := PBDemo.protobuf in let _ := BlockDemo.blocks in
  let cfg := LedgerConfig.mk 0 7 1000 1 [ConsensusNode.mk 1 1; ConsensusNode.mk 2 1] [] in
  exists ps s calls e es,
    Table.recover (Table.db TableDemo.written) 0 = Done (Some ps) s calls /\
    PBFTImpl.init cfg (Some (PB.PBFTProposal.contents <$> ps))
      (PBFTEngine.create (PBFTConfig.create 1)) = Done tt e es /\
    PBFTProposal.index <$> verifications es = [1].
Proof.
  intros Ext Pb Bl cfg.
  assert (Hu : usable (Ext := Ext) cfg).
  { split; [vm_compute; congruence|done|vm_compute; congruence|done| |vm_compute; congruence].
    apply list.Forall_forall. repeat constructor; vm_compute; congruence. }
  destruct (restart_resumes (Ext := Ext) (Pb := Pb) (Bl := Bl) TableDemo.written cfg
    (PBFTConfig.create 1) TableDemo.written_reachable Hu) as
    (r & s & calls & e & es & H1 & H2 & [(_ & _ & (l & -> & _ & H3) & H4 & _)|[[Hle|(z & Hz & Hn)] _]]).
  - by split.
  - by repeat constructor; eexists.
  - exists l, s, calls, e, es. split; [exact H1|]. split; [exact H2|exact H4].
  - exfalso. revert Hle. vm_compute. congruence.
  - exfalso. assert (z = 1) as ->.
    { assert (0 < z <= 1) by (vm_cast_no_check Hz). lia. }
    revert Hn. vm_compute. congruence.
Defined.
