(* ===== verification/PrePrepare.v ===== *)
(** PrePrepare: when the engine takes up a pre-prepare - from the network, from a new view or
    once it has been verified -, what it does then, and what it does with one that it
    rejects. *)
From S2P Require Import Prelude Types Timer Validator Config Cache Processor LogSync Engine.
From S2P Require Import Quorum ConfigFacts Steps Node Refine Boot Sane SaneNode FaultFree.

(** ** The requests that a node broadcasts *)
Definition broadcasts (t : PacketType) (es : list Event) : list PBFTMessage.t :=
  omap (fun e =>
    match e with
    | SendMessageByNodeIDs _ (MPBFT m) =>
        if bool_decide (PBFTMessage.packetType m = t) then Some m else None
    | _ => None
    end) es.

Lemma broadcasts_app t es es' : broadcasts t (es ++ es') = broadcasts t es ++ broadcasts t es'.
Proof. apply omap_app. Qed.

Lemma quiet_broadcasts t es : Forall (fun e => quiet e = true) es -> broadcasts t es = [].
Proof. induction 1 as [|e es He _ IH]; [done|]. by destruct e. Qed.

(** ** What does not touch the votes *)
Section Votes.
Context `{Ext : Externals}.

Definition key_of (m : PBFTMessage.t) : HashType * ViewType :=
  (PBFTMessage.hash m, PBFTMessage.view m).

(** The pre-prepare is for the same hash and view, and the prepare requests are the same. *)
Definition same_votes (this this' : C.t) : Prop :=
  key_of <$> C.m_prePrepare this' = key_of <$> C.m_prePrepare this /\
  C.m_prepareCacheList this' = C.m_prepareCacheList this.

Definition frame_votes (f f' : C.frame) (es : list Event) : Prop :=
  broadcasts PreparePacket es = [] /\ same_votes (C.f_this f) (C.f_this f').
Definition node_votes (s s' : P.t) (es : list Event) : Prop :=
  broadcasts PreparePacket es = [] /\
  forall i this, P.m_caches s !! i = Some this ->
    exists this', P.m_caches s' !! i = Some this' /\ same_votes this this'.
Definition no_prepare {S} (s s' : S) (es : list Event) : Prop := broadcasts PreparePacket es = [].

Lemma same_votes_refl this : same_votes this this.
Proof. done. Qed.
Lemma same_votes_trans a b c : same_votes a b -> same_votes b c -> same_votes a c.
Proof. intros [H1 H2] [H3 H4]. by split; etransitivity. Qed.

#[local] Instance frame_votes_transition : Transition frame_votes.
Proof.
  split; [done|]. intros f1 f2 f3 e1 e2 [H1 H2] [H3 H4]. split.
  - by rewrite broadcasts_app, H1, H3.
  - by eapply same_votes_trans.
Qed.
#[global] Instance node_votes_transition : Transition node_votes.
Proof.
  split; [intros s; split; [done|intros i this Hi; by exists this]|].
  intros s1 s2 s3 e1 e2 [H1 H2] [H3 H4]. split; [by rewrite broadcasts_app, H1, H3|].
  intros i a (b & Hb & Hab)%H2. destruct (H4 i b Hb) as (c & Hc & Hbc). exists c.
  split; [done|]. by eapply same_votes_trans.
Qed.
#[local] Instance no_prepare_transition {S} : Transition (no_prepare (S := S)).
Proof.
  split; [done|]. intros s1 s2 s3 e1 e2 H1 H2. unfold no_prepare. by rewrite broadcasts_app, H1, H2.
Qed.

Lemma frame_same g : (forall this, same_votes this (g this)) -> respects any_fault frame_votes (C.set_this g).
Proof. intros H f. split; [done|apply H]. Qed.

Lemma intoPrecommit_votes : respects any_fault frame_votes C.intoPrecommit.
Proof.
  intros f. eapply wp_mono; [apply intoPrecommit_spec|].
  intros r f' es (_ & -> & _ & q & p & signed & without & data & Hq & _ & _ & _ & _ & Hf).
  split; [done|]. rewrite Hf. split; [|done]. simpl. by rewrite Hq.
Qed.

Lemma addCommitCache_votes m : respects any_fault frame_votes (C.addCommitCache m).
Proof.
  intros f. unfold C.addCommitCache. simpl. destruct (C.addCache _ _ _ _ _). by split.
Qed.

Lemma checkAndCommit_votes : respects any_fault frame_votes C.checkAndCommit.
Proof. unfold C.checkAndCommit. eff_auto. by apply frame_same. Qed.

Hint Resolve intoPrecommit_votes addCommitCache_votes checkAndCommit_votes : eff.
Lemma checkAndPreCommit_votes : respects any_fault frame_votes C.checkAndPreCommit.
Proof.
  unfold C.checkAndPreCommit. eff_auto; [by intros f|by apply frame_same].
Qed.

Lemma on_cache_votes {A} i (m : Eff Event C.frame A) :
  respects any_fault frame_votes m -> respects any_fault node_votes (P.on_cache i m).
Proof.
  intros Hm s. unfold P.on_cache. destruct (P.m_caches s !! i) as [this|] eqn:Ei; [|exact I].
  specialize (Hm (C.Frame (P.m_config s) this)).
  assert (H : forall f es, frame_votes (C.Frame (P.m_config s) this) f es ->
    node_votes s (put_frame s i f) es).
  { intros f es [He Hf]. split; [exact He|]. intros j that Hj. unfold put_frame. simpl.
    destruct (decide (j = i)) as [->|Hne].
    - rewrite lookup_insert_eq. rewrite Ei in Hj. injection Hj as <-. by eexists.
    - rewrite lookup_insert_ne by done. by exists that. }
  destruct (m _) as [a f es|x f es|]; [by apply H|by apply H|exact I].
Qed.

(** What changes neither the caches nor sends a prepare request. *)
Lemma zoom_votes {A} (m : Eff Event PBFTConfig.t A) :
  respects any_fault no_prepare m -> respects any_fault node_votes (zoom P.m_config m).
Proof.
  intros Hm. eapply respects_zoom; [exact Hm|]. intros s c es He. split; [exact He|].
  intros i this Hi. by exists this.
Qed.

Lemma modify_votes f :
  (forall s, P.m_caches (f s) = P.m_caches s) -> respects any_fault node_votes (modify f).
Proof. intros H s. split; [done|]. intros i this Hi. exists this. by rewrite H. Qed.

Lemma emit_votes e : broadcasts PreparePacket [e] = [] -> respects any_fault node_votes (emit e).
Proof. intros H s. split; [exact H|]. intros i this Hi. by exists this. Qed.

Lemma notifySealer_votes i b : respects any_fault no_prepare (PBFTConfig.notifySealer i b).
Proof.
  eapply respects_weaken; [by apply notifySealer_step|]. intros c c' es [_ H].
  by apply quiet_broadcasts.
Qed.

Lemma commitPrecommit_votes i : respects any_fault node_votes (P.commitPrecommit i).
Proof.
  unfold P.commitPrecommit, P.updateCommitQueue, P.notifyMaxProposalIndex,
    P.notifyCommittedProposalIndex, P.tryToApplyCommitQueue, P.getAppliedCheckPointProposal,
    P.applyStateMachine, P.notifyToSealNextBlock, P.on_timer, P.on_config, P.committedIndex,
    PBFTConfig.committedIndex.
  eff_auto; first [by apply emit_votes | by apply modify_votes | apply zoom_votes].
  all: first [apply notifySealer_votes | by eff_auto].
Qed.

Hint Resolve checkAndPreCommit_votes on_cache_votes commitPrecommit_votes : eff.
Lemma node_checkAndPreCommit_votes : respects any_fault node_votes P.checkAndPreCommit.
Proof. unfold P.checkAndPreCommit. eff_auto. Qed.
End Votes.

(** ** Taking up a pre-prepare *)
Section Accept.
Context `{Ext : Externals}.

(** The prepare request of the node for a pre-prepare of the proposal [p]. *)
Definition prepare_of (c : PBFTConfig.t) (m : PBFTMessage.t) (p : PBFTProposal.t) : PBFTMessage.t :=
  PBFTMessage_encode (PBFTConfig.nodeID c) (PBFTMessage.setIndex (PBFTMessage.index m)
    (populateSigned PreparePacket PBFTConfig.c_pbftMsgDefaultVersion (PBFTConfig.m_view c)
       (PBFTConfig.utcTime c) (PBFTConfig.nodeIndex c) p (PBFTConfig.nodeID c) true)).

(** A cache keeps its pre-prepare once it is stable or has executed another proposal. *)
Definition takes (this : C.t) (m : PBFTMessage.t) : bool :=
  negb (C.m_stableCommitted this) &&
  match C.m_checkpointProposal this, C.m_prePrepare this with
  | Some _, Some q =>
      match PBFTMessage.consensusProposal m, PBFTMessage.consensusProposal q with
      | Some p, Some p' => PBFTProposal.hash p =? PBFTProposal.hash p'
      | _, _ => false
      end
  | _, _ => true
  end.
Definition with_prePrepare (this : C.t) (m : PBFTMessage.t) : C.t :=
  if takes this m then this <| C.m_prePrepare := Some m |> else this.

(** The cache with the vote [x] collected. *)
Definition with_prepare (c : PBFTConfig.t) (this : C.t) (x : PBFTMessage.t) : C.t :=
  let lw := C.addCache c (C.m_index this) (C.m_prepareCacheList this) (C.m_prepareReqWeight this) x in
  this <| C.m_prepareCacheList := lw.1 |>
       <| C.m_prepareReqWeight := log_access (PBFTMessage.hash x) lw.2 |>.

Definition has_proposal (o : option PBFTMessage.t) : Prop :=
  forall q, o = Some q -> is_Some (PBFTMessage.consensusProposal q).

Lemma addPrePrepareCache_exact m f :
  is_Some (PBFTMessage.consensusProposal m) -> has_proposal (C.m_prePrepare (C.f_this f)) ->
  C.addPrePrepareCache m f = Done tt (f <| C.f_this := with_prePrepare (C.f_this f) m |>) [].
Proof.
  intros [p Hp] Hq. unfold C.addPrePrepareCache, with_prePrepare, takes. rewrite bind_get, Hp.
  destruct f as [c this]. simpl in *. destruct (C.m_stableCommitted this); simpl; [done|].
  destruct (C.m_checkpointProposal this); [destruct (C.m_prePrepare this) as [q|]|];
    unfold mbind, eff_bind; simpl; try by destruct (logged INFO).
  destruct (Hq q eq_refl) as [p' ->]. simpl.
  destruct (PBFTProposal.hash p =? PBFTProposal.hash p'); simpl; [by destruct (logged INFO)|done].
Qed.

Lemma resetTxsFlag_done d f s b :
  createBlock d = Some b ->
  exists v es, P.resetTxsFlag d f s =
      Done tt (s <| P.m_config := (P.m_config s) <| PBFTConfig.m_validator := v |> |>) es /\
    Forall (fun e => quiet e = true) es.
Proof.
  intros Hb. unfold P.resetTxsFlag, zoom.
  pose proof (asyncResetTxsFlag_quiet (C := any_fault) d f (PBFTConfig.m_validator (P.m_config s))) as Hq.
  pose proof (asyncResetTxsFlag_completes d f (PBFTConfig.m_validator (P.m_config s))
    ltac:(by exists b)) as Hc.
  destruct (TxsValidator.asyncResetTxsFlag d f _) as [[] v es| |]; [|done|done].
  exists v, es. by split.
Qed.

Lemma ensureCache_done i s :
  P.ensureCache i s = Done tt (s <| P.m_caches := <[ i := new_cache s i ]> (P.m_caches s) |>) [].
Proof.
  unfold P.ensureCache, new_cache. rewrite bind_get. destruct (P.m_caches s !! i) as [c|] eqn:Ec; [|done].
  simpl. rewrite insert_id by done. by destruct s.
Qed.

(** [addCache] with a handler that changes the cache only. *)
Lemma addCache_done m (h : PBFTMessage.t -> Eff Event C.frame unit) g s :
  let i := PBFTMessage.index m in
  h m (C.Frame (P.m_config s) (new_cache s i)) =
    Done tt (C.Frame (P.m_config s) (g (new_cache s i))) [] ->
  P.addCache m h s = Done tt (s <| P.m_caches := <[ i := g (new_cache s i) ]> (P.m_caches s) |>) [].
Proof.
  intros i Hh. unfold P.addCache. unfold mbind, eff_bind. rewrite ensureCache_done. fold i.
  unfold P.on_cache. simpl. rewrite lookup_insert_eq, Hh. simpl. rewrite insert_insert_eq.
  by destruct s.
Qed.

(** What has happened when the two rounds of [checkAndPreCommit] begin. *)
Record voted (s : P.t) (m : PBFTMessage.t) (p : PBFTProposal.t) (s' : P.t) : Prop := {
  vo_config : exists v t, P.m_config s' =
    (P.m_config s) <| PBFTConfig.m_validator := v |> <| PBFTConfig.m_timer := t |>;
  vo_executing : P.m_executingProposals s' = P.m_executingProposals s;
  vo_caches : P.m_caches s' = <[ PBFTMessage.index m :=
    with_prepare (P.m_config s) (with_prePrepare (new_cache s (PBFTMessage.index m)) m)
      (prepare_of (P.m_config s) m p) ]> (P.m_caches s)
}.

Definition counting : Eff Event P.t unit := P.checkAndPreCommit ;; P.checkAndPreCommit.

Lemma notifyMaxProposalIndex_done i s :
  exists n es, P.notifyMaxProposalIndex i s = Done tt (s <| P.m_maxNotifyIndex := n |>) es /\
    Forall (fun e => quiet e = true) es.
Proof.
  unfold P.notifyMaxProposalIndex, P.notifyCommittedProposalIndex, mbind, eff_bind. simpl.
  destruct (_ <? i); simpl.
  - destruct (P.m_committedProposalNotifier s); simpl; eexists i, _; (split; [reflexivity|]);
      by repeat constructor.
  - exists (P.m_maxNotifyIndex s), []. split; [by destruct s|constructor].
Qed.

Lemma new_cache_at s s' i :
  P.m_config s' = P.m_config s -> P.m_caches s' = P.m_caches s -> new_cache s' i = new_cache s i.
Proof. unfold new_cache. by intros -> ->. Qed.

(** Collecting the own request and sending it. *)
Lemma broadcastPrepareMsg_counts m p s :
  PBFTMessage.consensusProposal m = Some p ->
  let x := prepare_of (P.m_config s) m p in
  let i := PBFTMessage.index m in
  E.broadcastPrepareMsg m s =
    (emit (SendMessageByNodeIDs (PBFTConfig.consensusNodeIDList (P.m_config s)) (MPBFT x)) ;;
     P.checkAndPreCommit)
      (s <| P.m_caches := <[ i := with_prepare (P.m_config s) (new_cache s i) x ]> (P.m_caches s) |>).
Proof.
  intros Hp x i. unfold E.broadcastPrepareMsg. rewrite bind_get, Hp.
  unfold P.addPrepareCache, E.broadcast, E.config_of. change (E.P.m_config s) with (P.m_config s).
  unfold mbind, eff_bind. simpl.
  rewrite (addCache_done x C.addPrepareCache (fun this => with_prepare (P.m_config s) this x)).
  - simpl. by destruct (P.checkAndPreCommit _).
  - unfold C.addPrepareCache, modify, with_prepare. simpl. by destruct (C.addCache _ _ _ _ _).
Qed.

Lemma acceptPrePrepare_counts s m p b :
  PBFTMessage.consensusProposal m = Some p -> createBlock (PBFTProposal.data p) = Some b ->
  has_proposal (C.m_prePrepare (new_cache s (PBFTMessage.index m))) ->
  exists s' e, voted s m p s' /\
    broadcasts PreparePacket e = [prepare_of (P.m_config s) m p] /\
    forall C Q, wp C (counting s') (fun r s2 es => Q r s2 (e ++ es)) -> wp C (E.acceptPrePrepare m s) Q.
Proof.
  intros Hp Hb Hq. destruct (resetTxsFlag_done _ true s _ Hb) as (v & e1 & E1 & Q1).
  set (i := PBFTMessage.index m) in *. set (s1 := s <| P.m_config := _ |>) in E1.
  set (this := with_prePrepare (new_cache s i) m).
  assert (E2 : P.addCache m C.addPrePrepareCache s1 =
    Done tt (s1 <| P.m_caches := <[ i := this ]> (P.m_caches s1) |>) []).
  { apply (addCache_done m C.addPrePrepareCache (fun this => with_prePrepare this m)).
    by apply addPrePrepareCache_exact; [exists p|]. }
  set (s2 := s1 <| P.m_caches := _ |>) in E2.
  destruct (notifyMaxProposalIndex_done i s2) as (n & e3 & E3 & Q3).
  set (s3 := s2 <| P.m_maxNotifyIndex := n |>) in E3.
  set (s4 := s3 <| P.m_config := PBFTConfig.on_timer PBFTTimer.restart (P.m_config s3) |>).
  set (x := prepare_of (P.m_config s) m p).
  set (s5 := s4 <| P.m_caches := <[ i := with_prepare (P.m_config s) this x ]> (P.m_caches s) |>).
  assert (E5 : E.broadcastPrepareMsg m s4 =
    (emit (SendMessageByNodeIDs (PBFTConfig.consensusNodeIDList (P.m_config s)) (MPBFT x)) ;;
     P.checkAndPreCommit) s5).
  { rewrite (broadcastPrepareMsg_counts m p s4 Hp).
    change (prepare_of (P.m_config s4) m p) with x. f_equal. unfold s5. fold i.
    assert (new_cache s4 i = this) as ->.
    { unfold new_cache. simpl. by rewrite lookup_insert_eq. }
    unfold s4, s3, s2, s1. simpl. by rewrite insert_insert_eq. }
  exists s5, (e1 ++ e3 ++ [SendMessageByNodeIDs (PBFTConfig.consensusNodeIDList (P.m_config s)) (MPBFT x)]).
  split; [|split].
  - split; [by eexists _, _|done|done].
  - rewrite !broadcasts_app, (quiet_broadcasts _ _ Q1), (quiet_broadcasts _ _ Q3). done.
  - intros C Q HQ. unfold E.acceptPrePrepare. rewrite Hp.
    assert (E4 : (P.addPrePrepareCache m s1) = Done tt s3 e3).
    { unfold P.addPrePrepareCache, mbind, eff_bind. rewrite E2. fold i. by rewrite E3. }
    apply wp_bind. cbn [deref mret eff_ret wp]. apply wp_bind.
    change (E.P.resetTxsFlag) with P.resetTxsFlag. rewrite E1. cbn [wp]. apply wp_bind.
    change (E.P.addPrePrepareCache) with P.addPrePrepareCache. rewrite E4. cbn [wp].
    assert (Et : E.P.on_timer PBFTTimer.restart s3 = Done tt s4 []) by reflexivity.
    apply wp_bind. rewrite Et. cbn [wp]. apply wp_bind. rewrite E5.
    unfold counting, mbind, eff_bind in *. cbn [emit]. change E.P.checkAndPreCommit with P.checkAndPreCommit.
    destruct (P.checkAndPreCommit s5) as [[] s6 e6|y s6 e6|]; simpl in HQ |- *; [| |exact HQ].
    + destruct (P.checkAndPreCommit s6); simpl in HQ |- *; [| |exact HQ];
        rewrite <- !(assoc_L (++)) in HQ; exact HQ.
    + rewrite <- !(assoc_L (++)) in HQ. exact HQ.
Qed.

(** Counting throws nothing. *)
Lemma on_cache_nothrow {A} i (m : Eff Event C.frame A) : nothrow m -> nothrow (P.on_cache i m).
Proof.
  intros Hm s. unfold P.on_cache. destruct (P.m_caches s !! i) as [this|]; [|done].
  specialize (Hm (C.Frame (P.m_config s) this)). by destruct (m _).
Qed.

Lemma appendProofs_nothrow l p : nothrow (C.appendProofs l p).
Proof.
  revert p. induction l as [|[k m] l IH]; intros p; simpl; [by intros ?|].
  apply nothrow_bind; [apply nothrow_deref|]. intros q. apply IH.
Qed.

Lemma frame_checkAndPreCommit_nothrow : nothrow C.checkAndPreCommit.
Proof.
  unfold C.checkAndPreCommit, C.intoPrecommit, C.setSignatureList, assert_, C.checkAndCommit.
  repeat first [apply appendProofs_nothrow | progress nothrow_auto].
Qed.

Lemma commitPrecommit_nothrow i : nothrow (P.commitPrecommit i).
Proof.
  unfold P.commitPrecommit, P.updateCommitQueue, P.notifyMaxProposalIndex,
    P.notifyCommittedProposalIndex, P.tryToApplyCommitQueue, P.getAppliedCheckPointProposal,
    P.applyStateMachine, P.on_timer, P.on_config, P.committedIndex, PBFTConfig.committedIndex.
  repeat first [apply notifyToSealNextBlock_nothrow | progress nothrow_auto].
Qed.

Lemma counting_nothrow : nothrow counting.
Proof.
  assert (H : nothrow P.checkAndPreCommit).
  { unfold P.checkAndPreCommit. apply nothrow_bind; [by intros ?|intros s].
    apply nothrow_for_each. intros i.
    apply nothrow_bind; [apply on_cache_nothrow, frame_checkAndPreCommit_nothrow|intros b].
    apply nothrow_when, commitPrecommit_nothrow. }
  by apply nothrow_bind.
Qed.

Lemma counting_votes : respects any_fault node_votes counting.
Proof.
  unfold counting. apply respects_bind; [apply _| |intros _]; apply node_checkAndPreCommit_votes.
Qed.

(** The node has taken up the pre-prepare: it sends one prepare request, for the proposal in
    its current view; the cache of the index holds the pre-prepare (unless it keeps the one
    it has decided) and has collected the request. *)
Record taken_up (s : P.t) (m : PBFTMessage.t) (p : PBFTProposal.t) (s' : P.t) (es : list Event)
    : Prop := {
  tu_prepares : broadcasts PreparePacket es = [prepare_of (P.m_config s) m p];
  tu_cache : exists this', P.m_caches s' !! PBFTMessage.index m = Some this' /\
    same_votes (with_prepare (P.m_config s) (with_prePrepare (new_cache s (PBFTMessage.index m)) m)
      (prepare_of (P.m_config s) m p)) this'
}.

Lemma acceptPrePrepare_taken N D s m p b :
  sane_node N D s -> sane_prePrepare N m ->
  PBFTMessage.consensusProposal m = Some p -> createBlock (PBFTProposal.data p) = Some b ->
  exists s' es, E.acceptPrePrepare m s = Done tt s' es /\ sane_node N D s' /\ taken_up s m p s' es.
Proof.
  intros Hs Hm Hp Hb.
  assert (Hq : has_proposal (C.m_prePrepare (new_cache s (PBFTMessage.index m)))).
  { unfold new_cache. destruct (P.m_caches s !! PBFTMessage.index m) as [this|] eqn:Ec; [|done].
    intros q Hq. destruct (sk_prePrepare _ _ (sn_caches _ _ _ Hs _ _ Ec) q Hq) as [(p' & Hp' & _) _].
    by exists p'. }
  destruct (acceptPrePrepare_counts s m p b Hp Hb Hq) as (s1 & e & [_ _ Hc] & He & Hwp).
  assert (Hr : wp any_fault (E.acceptPrePrepare m s) (fun r s' es => r = inl tt /\ taken_up s m p s' es)).
  { apply Hwp. apply wp_nothrow; [apply counting_nothrow|].
    eapply wp_mono; [apply counting_votes|]. intros [[]|x] s' es [H1 H2]; [|done].
    split; [done|]. split; [by rewrite broadcasts_app, He, H1|]. apply H2. rewrite Hc. apply lookup_insert_eq. }
  pose proof (acceptPrePrepare_kept N D m Hm s Hs) as Hk.
  destruct (E.acceptPrePrepare m s) as [[] s' es|x s' es|]; [|by destruct Hr|done].
  exists s', es. split; [done|]. split; [apply Hk|apply Hr].
Qed.
End Accept.

Section Admission.
Context `{Ext : Externals}.

(** The converse of [checkPrePrepareMsg_acceptable], with the two bounds it leaves out. *)
Lemma checkPrePrepareMsg_iff s m :
  let c := P.m_config s in
  E.checkPrePrepareMsg s m = VALID <->
  acceptable c (new_cache s (PBFTMessage.index m)) m /\
  PBFTMessage.index m < PBFTConfig.highWaterMark c /\
  PBFTConfig.syncingHighestNumber c < PBFTMessage.index m.
Proof.
  intros c. split.
  - intros H. split; [by apply checkPrePrepareMsg_acceptable|]. revert H.
    unfold E.checkPrePrepareMsg, E.checkPBFTMsgState, E.config_of. fold c.
    destruct (PBFTMessage.consensusProposal m); [|done].
    destruct (_ <? PBFTConfig.m_lowWaterMark c); [done|].
    destruct (_ <? PBFTConfig.m_expectedCheckPoint c); [done|].
    destruct (Z.leb_spec (PBFTConfig.highWaterMark c) (PBFTMessage.index m)); [done|].
    destruct (Z.leb_spec (PBFTMessage.index m) (PBFTConfig.syncingHighestNumber c)); [done|lia].
  - intros ([[p Hp] Hlow Hexp Hview Hpre Hcom] & Hhigh & Hsync).
    unfold E.checkPrePrepareMsg, E.checkPBFTMsgState, E.config_of. fold c. rewrite Hp.
    rewrite !(proj2 (Z.ltb_ge _ _)), !(proj2 (Z.leb_gt _ _)) by done. simpl.
    unfold P.existPrePrepare, P.conflictWithProcessedReq, P.conflictWithPrecommitReq.
    unfold new_cache in *. destruct (P.m_caches s !! PBFTMessage.index m) as [this|]; [|done].
    simpl in *. fold c. unfold C.existPrePrepare, C.conflictWithProcessedReq, C.conflictWithPrecommitReq.
    rewrite (proj2 (Z.ltb_ge _ _)) by done.
    assert (Hcommit : (match C.m_precommit this with
      | Some precommit => if PBFTMessage.index precommit <? PBFTConfig.progressedIndex c then false
        else (PBFTMessage.index m =? PBFTMessage.index precommit) &&
          negb (PBFTMessage.hash m =? PBFTMessage.hash precommit)
      | None => false end) = false).
    { destruct (C.m_precommit this) as [q|]; [|done].
      destruct (Z.ltb_spec (PBFTMessage.index q) (PBFTConfig.progressedIndex c)) as [|Hq]; [done|].
      destruct (Z.eqb_spec (PBFTMessage.index m) (PBFTMessage.index q)) as [Hi|]; [|done].
      by rewrite (Hcom q eq_refl Hq Hi), Z.eqb_refl. }
    rewrite Hcommit. destruct (C.m_prePrepare this) as [q|]; [|done].
    specialize (Hpre q eq_refl).
    rewrite (proj2 (Z.leb_gt (PBFTMessage.view m) _)), andb_false_r by done.
    rewrite (proj2 (Z.ltb_ge (PBFTMessage.view m) _)) by lia.
    by rewrite (proj2 (Z.eqb_neq (PBFTMessage.view m) _)) by lia.
Qed.

(** What a pre-prepare must be to be taken up: one from the network ([fromNewView] is false)
    comes from the leader of its index, [needCheck] asks for its signature and [needVerify]
    for a node whose transactions can be asked for. *)
Record admissible (needVerify fromNewView needCheck : bool) (s : P.t) (m : PBFTMessage.t) : Prop := {
  ad_synced : PBFTConfig.syncingHighestNumber (P.m_config s) <
    committed_index (P.m_config s) + PBFTConfig.m_warterMarkLimit (P.m_config s);
  ad_executing : P.m_executingProposals s !! PBFTMessage.hash m = None;
  ad_acceptable : acceptable (P.m_config s) (new_cache s (PBFTMessage.index m)) m;
  ad_high : PBFTMessage.index m < PBFTConfig.highWaterMark (P.m_config s);
  ad_syncing : PBFTConfig.syncingHighestNumber (P.m_config s) < PBFTMessage.index m;
  ad_leader : fromNewView = false -> PBFTConfig.leaderIndex (PBFTMessage.index m) (P.m_config s) =
    Done (PBFTMessage.generatedFrom m) (P.m_config s) [];
  ad_signature : fromNewView = false -> needCheck = true ->
    E.checkSignature (P.m_config s) m = VALID;
  ad_known : needVerify = true ->
    is_Some (PBFTConfig.getConsensusNodeByIndex (P.m_config s) (PBFTMessage.generatedFrom m))
}.

Lemma checkSignature_node c m :
  E.checkSignature c m = VALID ->
  exists node, PBFTConfig.getConsensusNodeByIndex c (PBFTMessage.generatedFrom m) = Some node.
Proof.
  unfold E.checkSignature, msg_generatedFrom. simpl.
  change (BaseMessage.generatedFrom (PBFTMessage.base m)) with (PBFTMessage.generatedFrom m).
  destruct (PBFTConfig.getConsensusNodeByIndex c (PBFTMessage.generatedFrom m)); [eauto|done].
Qed.

Lemma isSyncingHigher_done s :
  is_Some (PBFTConfig.committedProposal (P.m_config s)) ->
  E.isSyncingHigher s = Done (negb (PBFTConfig.syncingHighestNumber (P.m_config s) <?
    committed_index (P.m_config s) + PBFTConfig.m_warterMarkLimit (P.m_config s))) s [].
Proof.
  intros [q Hq]. unfold E.isSyncingHigher, E.committedIndex, P.committedIndex,
    PBFTConfig.committedIndex, zoom, mbind, eff_bind, committed_index. simpl. rewrite Hq. simpl.
  by destruct s.
Qed.

Lemma leaderIndex_done i c :
  ready c -> exists l, PBFTConfig.leaderIndex i c = Done l c [].
Proof.
  intros [_ Hp Hn]. unfold PBFTConfig.leaderIndex, PBFTConfig.leader_of, mbind, eff_bind. simpl.
  rewrite (proj2 (Z.eqb_neq _ _) Hp), (proj2 (Z.eqb_neq _ _) Hn). by eexists.
Qed.

(** Asking the sealer again changes the sealing window only. *)
Lemma notifySealer_done s i b :
  ready (P.m_config s) ->
  exists s' es, zoom P.m_config (PBFTConfig.notifySealer i b) s = Done tt s' es /\
    reconfigured s s' /\ Forall (fun e => quiet e = true) es.
Proof.
  intros Hr. pose proof (notifySealer_completes i b _ Hr) as H.
  pose proof (notifySealer_step (C := any_fault) I I i b (P.m_config s)) as Hs.
  unfold zoom. destruct (PBFTConfig.notifySealer i b (P.m_config s)) as [[] c' es| |]; [|done|done].
  simpl in Hs. destruct Hs as [He Hes]. eexists _, es. split; [reflexivity|]. split; [|done].
  by exists c'.
Qed.

(** A rejected pre-prepare: nothing happens, but for an invalid signature the sealer is
    asked again. *)
Definition turned_down (fromNewView needCheck : bool) (s : P.t) (m : PBFTMessage.t) (s' : P.t)
    (es : list Event) : Prop :=
  (s' = s /\ es = []) \/
  (fromNewView = false /\ needCheck = true /\ E.checkSignature (P.m_config s) m = INVALID /\
   reconfigured s s' /\ Forall (fun e => quiet e = true) es).

(** What is left to do with an admissible one. *)
Definition take_up (needVerify fromNewView : bool) (s : P.t) (m : PBFTMessage.t)
    (o : outcome Event P.t bool) : Prop :=
  if needVerify then
    exists node p,
      PBFTConfig.getConsensusNodeByIndex (P.m_config s) (PBFTMessage.generatedFrom m) = Some node /\
      PBFTMessage.consensusProposal m = Some p /\
      o = Done true s [VerifyProposal (Some (ConsensusNode.nodeID node)) p
            (OnPrePrepareVerified m fromNewView)]
  else o = (E.acceptPrePrepare m ;; mret true) s.

(** The check of the sender and of its signature. *)
Definition from_leader (g c : bool) (s : P.t) (m : PBFTMessage.t) : Prop :=
  (g = false -> PBFTConfig.leaderIndex (PBFTMessage.index m) (P.m_config s) =
     Done (PBFTMessage.generatedFrom m) (P.m_config s) []) /\
  (g = false -> c = true -> E.checkSignature (P.m_config s) m = VALID).

Definition leader_check (g c : bool) (s : P.t) (m : PBFTMessage.t) : Eff Event P.t bool :=
  if g then mret true
  else
    expectedLeader ← zoom P.m_config (PBFTConfig.leaderIndex (PBFTMessage.index m));
    if negb (expectedLeader =? PBFTMessage.generatedFrom m) then mret false
    else if c then
      match E.checkSignature (E.config_of s) m with
      | INVALID =>
          zoom P.m_config (PBFTConfig.notifySealer (PBFTMessage.index m) true) ;; mret false
      | VALID => mret true
      end
    else mret true.

Lemma leader_check_verdict g c s m :
  ready (P.m_config s) ->
  (leader_check g c s m s = Done true s [] /\ from_leader g c s m) \/
  (exists s' es, leader_check g c s m s = Done false s' es /\ ~ from_leader g c s m /\
     turned_down g c s m s' es).
Proof.
  intros Hr. unfold leader_check. destruct g; [left; by repeat split|].
  destruct (leaderIndex_done (PBFTMessage.index m) _ Hr) as [l Hl].
  unfold mbind, eff_bind. unfold zoom at 1 3. rewrite Hl. simpl.
  assert (s <| P.m_config := P.m_config s |> = s) as -> by by destruct s.
  destruct (Z.eqb_spec l (PBFTMessage.generatedFrom m)) as [->|Hne]; simpl.
  2:{ right. exists s, []. split; [done|]. split; [|by left]. intros [Hlead _].
      specialize (Hlead eq_refl). congruence. }
  destruct c; [|left; repeat split; by auto].
  unfold E.config_of. destruct (E.checkSignature (P.m_config s) m) eqn:Es.
  - left. repeat split; by auto.
  - destruct (notifySealer_done s (PBFTMessage.index m) true Hr) as (s' & es & E' & Hre & Hes).
    right. exists s', es. change E.P.m_config with P.m_config. rewrite E'. simpl. rewrite !app_nil_r.
    split; [done|]. split; [intros [_ Hsig]; specialize (Hsig eq_refl eq_refl); congruence|].
    right. by repeat split.
Qed.

(** The outcomes that the theorem below allows. *)
Definition verdict (v g c : bool) (s : P.t) (m : PBFTMessage.t) (o : outcome Event P.t bool)
    : Prop :=
  (admissible v g c s m /\ take_up v g s m o) \/
  (~ admissible v g c s m /\ exists s' es, o = Done false s' es /\ turned_down g c s m s' es).

Lemma rejected v g c s m : ~ admissible v g c s m -> verdict v g c s m (Done false s []).
Proof. intros H. right. split; [done|]. exists s, []. split; [done|]. by left. Qed.

Lemma outcome_nil {S A} (o : outcome Event S A) :
  match o with
  | Done b s2 e2 => Done b s2 ([] ++ e2)
  | Threw x s2 e2 => Threw x s2 ([] ++ e2)
  | Crashed f => Crashed f
  end = o.
Proof. by destruct o. Qed.

Lemma handlePrePrepareMsg_verdict v g c s m :
  ready (P.m_config s) -> verdict v g c s m (E.handlePrePrepareMsg m v g c s).
Proof.
  intros Hr. unfold E.handlePrePrepareMsg. unfold mbind at 1, eff_bind at 1.
  rewrite (isSyncingHigher_done s (ready_committed _ Hr)). cbn [mbind eff_bind get].
  destruct (Z.ltb_spec (PBFTConfig.syncingHighestNumber (P.m_config s))
    (committed_index (P.m_config s) + PBFTConfig.m_warterMarkLimit (P.m_config s)))
    as [Hsync|Hsync]; simpl; [|apply rejected; intros []; lia].
  rewrite outcome_nil. unfold mbind at 1, eff_bind at 1. cbn [get]. rewrite outcome_nil.
  destruct (P.m_executingProposals s !! PBFTMessage.hash m) as [n|] eqn:Ex; simpl.
  { apply rejected. intros []. congruence. }
  destruct (E.checkPrePrepareMsg s m) eqn:Ec.
  2:{ apply rejected. intros [_ _ Ha Hh Hy _ _ _].
      by rewrite (proj2 (checkPrePrepareMsg_iff s m) (conj Ha (conj Hh Hy))) in Ec. }
  apply checkPrePrepareMsg_iff in Ec as (Ha & Hh & Hy).
  pose proof (acc_proposal _ _ _ Ha) as [p Hp].
  unfold mbind at 1, eff_bind at 1. fold (leader_check g c s m).
  destruct (leader_check_verdict g c s m Hr) as [[-> [Hl Hs]]|(s' & es & -> & Hn & Ht)].
  2:{ right. split; [intros []; by apply Hn|]. exists s', es. simpl. by rewrite app_nil_r. }
  rewrite outcome_nil. simpl. change (E.config_of s) with (P.m_config s).
  destruct v; simpl; [|left; split; [by constructor|done]].
  destruct (PBFTConfig.getConsensusNodeByIndex _ _) as [node|] eqn:En.
  2:{ apply rejected. intros [_ _ _ _ _ _ _ Hk]. destruct (Hk eq_refl). congruence. }
  left. split; [by constructor|]. exists node, p. split; [done|]. split; [done|].
  rewrite Hp. unfold mbind, eff_bind, zoom. simpl. by destruct s as [[]].
Qed.
End Admission.


(** What [acceptPrePrepare] does with the data of the proposal. *)
Lemma acceptPrePrepare_undecodable `{Ext : Externals} s m p :
  PBFTMessage.consensusProposal m = Some p -> createBlock (PBFTProposal.data p) = None ->
  E.acceptPrePrepare m s = Threw DecodeException s [].
Proof.
  intros Hp Hb. unfold E.acceptPrePrepare. rewrite Hp. unfold mbind, eff_bind. simpl.
  unfold E.P.resetTxsFlag, P.resetTxsFlag, zoom, TxsValidator.asyncResetTxsFlag.
  unfold mbind, eff_bind. simpl. rewrite Hb. simpl. by destruct s as [[]].
Qed.

Lemma sane_ready N c : sane_config N c -> ready c.
Proof.
  intros [[p [Hp _]] Hper _ Hn Hs _ _]. split; [by exists p|lia|rewrite Hn; lia].
Qed.

(** C29: the admission of a pre-prepare in a node without a fault: from the network, from a
    new view, in the answer of the own sealer, before and after its verification.  The
    message is admitted exactly when the node is not syncing, the proposal is not being
    executed, its index lies between the water marks and above the expected checkpoint
    and the block being synced, its view is current and above that of the cached
    pre-prepare, and it does not contradict a precommitted proposal; outside a new view
    also its sender must be the leader of its index and, where the caller asks for it,
    the signature must verify; and where its transactions must be verified first, the sender
    must be in the node list.  In that case an admitted message
    changes nothing and the proposal is sent to the verifier.  Otherwise the node takes it
    up ([taken_up]): it stores the pre-prepare - unless the cache has decided or executed
    another proposal - and broadcasts one prepare request for the
    proposal, in its current view, which it collects itself; a proposal whose data are no
    block ends in an exception that changes nothing.  A rejected message changes nothing,
    except that an invalid signature makes the node ask its sealer for a proposal again. *)
Theorem prePrepare_verdict `{Ext : Externals} N D s m verify newView checked :
  sane_node N D s -> prePrepare_wire N m ->
  let o := PBFTEngine.handlePrePrepareMsg m verify newView checked s in
  (admissible verify newView checked s m ->
    exists p, PBFTMessage.consensusProposal m = Some p /\
    if verify then
      exists node, PBFTConfig.getConsensusNodeByIndex (PBFTCacheProcessor.m_config s)
          (PBFTMessage.generatedFrom m) = Some node /\
        o = Done true s [VerifyProposal (Some (ConsensusNode.nodeID node)) p
              (OnPrePrepareVerified m newView)]
    else if createBlock (PBFTProposal.data p) is Some _ then
      exists s' es, o = Done true s' es /\ sane_node N D s' /\ taken_up s m p s' es
    else o = Threw DecodeException s []) /\
  (~ admissible verify newView checked s m ->
    exists s' es, o = Done false s' es /\ turned_down newView checked s m s' es).
Proof.
  intros Hs Hm o. pose proof (sane_ready N _ (sn_config _ _ _ Hs)) as Hr.
  destruct (handlePrePrepareMsg_verdict verify newView checked s m Hr) as [[Ha Ht]|[Hn Ht]];
    (split; [|done || by intros []]); [|done].
  intros _. pose proof (acc_proposal _ _ _ (ad_acceptable _ _ _ _ _ Ha)) as [p Hp].
  exists p. split; [exact Hp|]. unfold take_up in Ht. change PBFTEngine.handlePrePrepareMsg with E.handlePrePrepareMsg in o.
  destruct verify.
  - destruct Ht as (node & q & Hnode & Hq & Ho). exists node. split; [exact Hnode|].
    fold o in Ho. rewrite Ho. congruence.
  - fold o in Ht. rewrite Ht. unfold mbind, eff_bind.
    destruct (createBlock (PBFTProposal.data p)) as [b|] eqn:Hb.
    + assert (Hsm : sane_prePrepare N m).
      { destruct Hm as [Hh Hf]. split; [|exact Hf]. exists p. auto. }
      destruct (acceptPrePrepare_taken N D s m p b Hs Hsm Hp Hb) as (s' & es & -> & Hk & Htu).
      simpl. exists s', es. rewrite app_nil_r. done.
    + by rewrite (acceptPrePrepare_undecodable s m p Hp Hb).
Qed.
