(* ===== verification/NewView.v ===== *)
(** NewView: what the leader of a new view proposes - for every index between the highest
    committed and the highest prepared one, a prepared proposal of the collected view
    changes, or an empty block where there is none -, which of two conflicting prepared
    proposals it takes, and what the other nodes check of it. *)
From S2P Require Import Prelude Types Timer Validator Config Cache Processor LogSync Engine.
From S2P Require Import Quorum ConfigFacts CacheFacts Steps Node Growth Refine Sane SaneNode FaultFree.

Lemma Forall2_weaken_in {A B} (R R' : A -> B -> Prop) l k :
  Forall2 R l k -> (forall x y, x ∈ l -> R x y -> R' x y) -> Forall2 R' l k.
Proof.
  induction 1 as [|x y l k Hxy _ IH]; intros Hw; constructor; [by apply Hw; [constructor|]|].
  apply IH. intros x' y' Hx'. apply Hw. by constructor.
Qed.

Lemma Forall2_elem_l {A B} (R : A -> B -> Prop) l k x :
  Forall2 R l k -> x ∈ l -> exists y, y ∈ k /\ R x y.
Proof.
  intros H [n Hn]%list_elem_of_lookup. destruct (Forall2_lookup_l _ _ _ _ _ H Hn) as (y & Hy & Hxy).
  exists y. split; [by eapply list_elem_of_lookup_2|done].
Qed.

Section NewView.
Context `{Ext : Externals}.

(** The prepared proposals of the view changes, in the order the code visits them, each
    with the sender of its view change. *)
Definition visited (cache : gmap Z ViewChangeMsg.t) : list (IndexType * PBFTMessage.t) :=
  (in_order cache).*2 ≫= fun v =>
    pair (ViewChangeMsg.generatedFrom v) <$> ViewChangeMsg.preparedProposals v.

(** [m] is a prepared proposal of index [i] in one of the view changes. *)
Definition prepared_at (cache : gmap Z ViewChangeMsg.t) (i : BlockNumber) (m : PBFTMessage.t) : Prop :=
  PBFTMessage.index m = i /\
  exists k v, cache !! k = Some v /\ m ∈ ViewChangeMsg.preparedProposals v.

(** Every prepared proposal of hash [h] is of a higher view than the others. *)
Definition newest (cache : gmap Z ViewChangeMsg.t) (i : BlockNumber) (h : HashType) : Prop :=
  forall m m', prepared_at cache i m -> prepared_at cache i m' ->
    PBFTMessage.hash m = h -> PBFTMessage.hash m' <> h -> PBFTMessage.view m' < PBFTMessage.view m.

(** ** One index of the collected proposals *)

(** What one prepared proposal does to the entry of its index. *)
Definition merge (o : option PBFTMessage.t) (km : IndexType * PBFTMessage.t)
    : option PBFTMessage.t :=
  match o with
  | None => Some (PBFTMessage.setGeneratedFrom km.1 km.2)
  | Some q =>
      if negb (PBFTMessage.hash q =? PBFTMessage.hash km.2) &&
         (PBFTMessage.view q <? PBFTMessage.view km.2)
      then Some km.2 else Some q
  end.

(** The entries are filed under their index. *)
Definition filed (acc : gmap Z PBFTMessage.t) : Prop :=
  forall i m, acc !! i = Some m -> PBFTMessage.index m = i.

Lemma mergePrepared_filed lo k acc m : filed acc -> filed (P.mergePrepared lo k acc m).
Proof.
  intros H i q. unfold P.mergePrepared. destruct (_ <? lo); [apply H|].
  assert (Hins : forall q', PBFTMessage.index q' = PBFTMessage.index m ->
    <[ PBFTMessage.index m := q' ]> acc !! i = Some q -> PBFTMessage.index q = i).
  { intros q' Hq'. destruct (decide (i = PBFTMessage.index m)) as [->|Hne].
    - rewrite lookup_insert_eq. by intros [= <-].
    - rewrite lookup_insert_ne by done. apply H. }
  destruct (acc !! PBFTMessage.index m); [|by apply Hins].
  destruct (negb _ || negb _); [|apply H]. destruct (_ <? _); [by apply Hins|apply H].
Qed.

Lemma mergePrepared_lookup lo k acc m i :
  filed acc -> lo <= i ->
  P.mergePrepared lo k acc m !! i =
  if PBFTMessage.index m =? i then merge (acc !! i) (k, m) else acc !! i.
Proof.
  intros Hf Hlo. unfold P.mergePrepared. destruct (Z.eqb_spec (PBFTMessage.index m) i) as [<-|Hne].
  - rewrite (proj2 (Z.ltb_ge _ _) Hlo).
    destruct (acc !! PBFTMessage.index m) as [q|] eqn:E; simpl; [|by rewrite lookup_insert_eq].
    rewrite (Hf _ _ E), Z.eqb_refl. simpl.
    destruct (negb _); simpl; [|done]. destruct (_ <? _); [by rewrite lookup_insert_eq|done].
  - destruct (_ <? lo); [done|].
    destruct (acc !! PBFTMessage.index m); [|by rewrite lookup_insert_ne].
    destruct (negb _ || negb _); [|done]. destruct (_ <? _); [by rewrite lookup_insert_ne|done].
Qed.

(** The prepared proposals of index [i]. *)
Definition at_index (i : BlockNumber) (l : list (IndexType * PBFTMessage.t)) :=
  filter (fun km : IndexType * PBFTMessage.t => PBFTMessage.index km.2 = i) l.

Lemma collect_lookup lo i l acc :
  filed acc -> lo <= i ->
  fold_left (fun acc km => P.mergePrepared lo km.1 acc km.2) l acc !! i =
  fold_left merge (at_index i l) (acc !! i).
Proof.
  intros Hf Hlo. revert acc Hf. induction l as [|[k m] l IH]; intros acc Hf; simpl; [done|].
  rewrite IH by by apply mergePrepared_filed. rewrite mergePrepared_lookup by done.
  unfold at_index. rewrite filter_cons. simpl.
  destruct (Z.eqb_spec (PBFTMessage.index m) i); [by rewrite decide_True|by rewrite decide_False].
Qed.

Lemma collectPrepared_lookup lo cache i :
  lo <= i -> P.collectPrepared lo cache !! i = fold_left merge (at_index i (visited cache)) None.
Proof.
  intros Hlo. rewrite <- (lookup_empty (M := gmap Z) i), <- (collect_lookup lo) by (done || by intros ??[]%lookup_empty_Some).
  f_equal. unfold P.collectPrepared, visited. generalize (in_order cache) (∅ : gmap Z PBFTMessage.t).
  intros l. induction l as [|[k v] l IH]; intros acc; simpl; [done|].
  rewrite fold_left_app, IH. f_equal. revert acc.
  induction (ViewChangeMsg.preparedProposals v) as [|m ms IHm]; intros acc; simpl; [done|]. apply IHm.
Qed.

Lemma elem_of_at_index cache i k m :
  (k, m) ∈ at_index i (visited cache) -> prepared_at cache i m.
Proof.
  unfold at_index, visited, prepared_at. rewrite list_elem_of_filter, list_elem_of_bind.
  intros [Hi (v & Hm & ([k' v'] & -> & Hv%elem_of_in_order)%list_elem_of_fmap)].
  apply list_elem_of_fmap in Hm as (m' & [= _ <-] & Hm). split; [done|]. by exists k', v'.
Qed.

Lemma prepared_at_visited cache i m :
  prepared_at cache i m -> exists k, (k, m) ∈ at_index i (visited cache).
Proof.
  intros (Hi & k & v & Hv & Hm). exists (ViewChangeMsg.generatedFrom v).
  unfold at_index, visited. rewrite list_elem_of_filter. split; [done|]. apply list_elem_of_bind.
  exists v. split; [|apply list_elem_of_fmap; by exists (k, v); rewrite elem_of_in_order].
  apply list_elem_of_fmap. by exists m.
Qed.

(** The entry is one of the prepared proposals, but for its [generatedFrom]. *)
Definition same_proposal (q m : PBFTMessage.t) : Prop :=
  PBFTMessage.hash q = PBFTMessage.hash m /\ PBFTMessage.view q = PBFTMessage.view m /\
  PBFTMessage.consensusProposal q = PBFTMessage.consensusProposal m.

Lemma merge_fold l o q :
  fold_left merge l o = Some q ->
  (exists q0, o = Some q0 /\ same_proposal q q0) \/ exists k m, (k, m) ∈ l /\ same_proposal q m.
Proof.
  revert o. induction l as [|[k m] l IH]; intros o; simpl; [intros ->; left; by exists q|].
  intros [(q0 & E & Hq)|(k' & m' & Hin & Hq)]%IH.
  - destruct o as [q1|]; simpl in E.
    + destruct (_ && _); injection E as <-; [|left; by exists q1].
      right. exists k, m. split; [constructor|done].
    + injection E as <-. right. exists k, m. split; [constructor|exact Hq].
  - right. exists k', m'. split; [by constructor|done].
Qed.

Lemma merge_fold_none l : fold_left merge l None = None -> l = [].
Proof.
  destruct l as [|[k m] l]; [done|]. simpl.
  assert (H : forall o, is_Some o -> is_Some (fold_left merge l o)); [|].
  { induction l as [|km l IH]; intros o [q ->]; simpl; [by eexists|]. apply IH.
    unfold merge. destruct (_ && _); by eexists. }
  intros E. destruct (H (Some (PBFTMessage.setGeneratedFrom k m)) ltac:(by eexists)) as [q Hq].
  by rewrite E in Hq.
Qed.

(** A hash that is newer wherever it occurs is what remains. *)
Definition newer (h : HashType) (l : list PBFTMessage.t) : Prop :=
  forall m m', m ∈ l -> m' ∈ l -> PBFTMessage.hash m = h -> PBFTMessage.hash m' <> h ->
    PBFTMessage.view m' < PBFTMessage.view m.

Lemma merge_fold_newest h l q0 q :
  fold_left merge l (Some q0) = Some q -> newer h (q0 :: l.*2) ->
  (exists m, m ∈ q0 :: l.*2 /\ PBFTMessage.hash m = h) -> PBFTMessage.hash q = h.
Proof.
  revert q0. induction l as [|[k m] l IH]; intros q0; simpl.
  { intros [= <-] _ (m & ->%list_elem_of_singleton & Hm). exact Hm. }
  intros E Hn (m0 & H0 & Hh). pose proof (Hn m q0) as Hm. pose proof (Hn q0 m) as Hq.
  set (q1 := if negb (PBFTMessage.hash q0 =? PBFTMessage.hash m) &&
    (PBFTMessage.view q0 <? PBFTMessage.view m) then m else q0).
  assert (E1 : fold_left merge l (Some q1) = Some q) by (unfold q1; by destruct (_ && _)).
  assert (Hsub : forall m', m' ∈ q1 :: l.*2 -> m' ∈ q0 :: m :: l.*2).
  { unfold q1. destruct (_ && _); set_solver. }
  apply (IH q1 E1).
  { intros m1 m2 H1 H2. apply Hn; by apply Hsub. }
  assert (Hor : m0 ∈ l.*2 \/ m0 = q0 \/ m0 = m).
  { rewrite !elem_of_cons in H0. tauto. }
  destruct Hor as [Hin|Hor]; [exists m0; split; [by constructor|done]|].
  exists q1. split; [constructor|]. specialize (Hm ltac:(set_solver) ltac:(set_solver)).
  specialize (Hq ltac:(set_solver) ltac:(set_solver)). unfold q1.
  destruct (Z.eqb_spec (PBFTMessage.hash q0) (PBFTMessage.hash m)) as [He|Hne]; simpl.
  { destruct Hor as [->| ->]; congruence. }
  destruct (Z.ltb_spec (PBFTMessage.view q0) (PBFTMessage.view m)), Hor as [->| ->]; try done.
  - specialize (Hq Hh ltac:(congruence)). lia.
  - specialize (Hm Hh ltac:(congruence)). lia.
Qed.

(** What the collected proposals say about index [i]. *)
Lemma collectPrepared_none lo cache i :
  lo <= i -> P.collectPrepared lo cache !! i = None -> forall m, ~ prepared_at cache i m.
Proof.
  intros Hlo. rewrite collectPrepared_lookup by done. intros E%merge_fold_none m Hm.
  destruct (prepared_at_visited _ _ _ Hm) as [k Hk]. rewrite E in Hk. by apply not_elem_of_nil in Hk.
Qed.

Lemma collectPrepared_some lo cache i q :
  lo <= i -> P.collectPrepared lo cache !! i = Some q ->
  exists m, prepared_at cache i m /\ same_proposal q m.
Proof.
  intros Hlo. rewrite collectPrepared_lookup by done.
  intros [(q0 & [=] & _)|(k & m & Hm%elem_of_at_index & Hq)]%merge_fold. by exists m.
Qed.

Lemma collectPrepared_newest lo cache i q h m :
  lo <= i -> P.collectPrepared lo cache !! i = Some q -> newest cache i h ->
  prepared_at cache i m -> PBFTMessage.hash m = h -> PBFTMessage.hash q = h.
Proof.
  intros Hlo. rewrite collectPrepared_lookup by done. intros E Hn Hm Hh.
  destruct (prepared_at_visited _ _ _ Hm) as [k Hk].
  pose proof (elem_of_at_index cache i) as Hat. revert E Hk Hat.
  destruct (at_index i (visited cache)) as [|[k0 m0] l]; intros E Hk Hat;
    [by apply not_elem_of_nil in Hk|]. simpl in E.
  assert (Hin : forall x, x ∈ PBFTMessage.setGeneratedFrom k0 m0 :: l.*2 ->
    exists y, prepared_at cache i y /\ PBFTMessage.hash x = PBFTMessage.hash y /\
      PBFTMessage.view x = PBFTMessage.view y).
  { intros x [->|([k' m'] & -> & Hx)%list_elem_of_fmap]%elem_of_cons.
    - exists m0. split; [|done]. apply (Hat k0). constructor.
    - exists m'. split; [|done]. apply (Hat k'). by constructor. }
  apply (merge_fold_newest h l _ _ E).
  - intros x x' (y & Hy & Ey & Evy)%Hin (y' & Hy' & Ey' & Evy')%Hin Hx Hx'.
    rewrite Evy, Evy'. apply Hn; congruence.
  - apply elem_of_cons in Hk as [[= -> ->]|Hk].
    + eexists. split; [constructor|exact Hh].
    + exists m. split; [|done]. constructor. apply list_elem_of_fmap. by exists (k, m).
Qed.

(** ** The new view *)

(** This node leads the view it is moving to. *)
Definition leads (c : PBFTConfig.t) : bool :=
  PBFTConfig.nodeIndex c =?
  u64 (u64 (PBFTConfig.progressedIndex c) / PBFTConfig.m_leaderSwitchPeriod c + PBFTConfig.m_toView c)
    mod PBFTConfig.consensusNodesNum c.

(** The view changes collected for that view, and whether the time has come. *)
Definition collected_for (s : P.t) : gmap Z ViewChangeMsg.t :=
  default ∅ (P.m_viewChangeCache s !! PBFTConfig.m_toView (P.m_config s)).
Definition enter_ready (s : P.t) : bool :=
  let c := P.m_config s in
  negb (committed_index c <? PBFTConfig.syncingHighestNumber c) &&
  negb (P.m_newViewGenerated s) && leads c &&
  match P.m_viewChangeWeight s !! PBFTConfig.m_toView c with
  | Some weight => PBFTConfig.m_minRequiredQuorum c <=? weight
  | None => false
  end.

(** The indices that the new view proposes: above the committed index that
    [m_maxCommittedIndex] records for the view, up to the prepared index that
    [m_maxPrecommitIndex] records; the node's own numbers where nothing is recorded.
    [addViewChangeReq] records the highest numbers of the view changes that it adds, but the
    tables are cleared when a view is entered and when a block is committed, while the view
    changes of later views stay cached ([reset_forgets_prepared_proposals]). *)
Definition recorded_committed (s : P.t) : BlockNumber :=
  default (committed_index (P.m_config s))
    (P.m_maxCommittedIndex s !! PBFTConfig.m_toView (P.m_config s)).
Definition recorded_prepared (s : P.t) : BlockNumber :=
  default (PBFTConfig.progressedIndex (P.m_config s))
    (P.m_maxPrecommitIndex s !! PBFTConfig.m_toView (P.m_config s)).
Definition reproposed_indices (s : P.t) : list BlockNumber :=
  seqZ (recorded_committed s + 1) (recorded_prepared s - recorded_committed s).

(** A pre-prepare of the new view with proposal [p]. *)
Definition proposed (c : PBFTConfig.t) (m : PBFTMessage.t) (p : PBFTProposal.t) : Prop :=
  PBFTMessage.packetType m = PrePreparePacket /\
  PBFTMessage.view m = u64 (PBFTConfig.m_toView c) /\
  PBFTMessage.consensusProposal m = Some p /\
  PBFTMessage.hash m = PBFTProposal.hash p /\ PBFTMessage.index m = PBFTProposal.index p.

Definition empty_block (c : PBFTConfig.t) (i : BlockNumber) : PBFTProposal.t :=
  TxsValidator.generateEmptyProposal i (PBFTConfig.nodeIndex c).

(** The pre-prepare for index [i], from the collected proposals [acc]. *)
Definition prePrepare_of (c : PBFTConfig.t) (acc : gmap Z PBFTMessage.t) (i : BlockNumber)
    (m : PBFTMessage.t) : Prop :=
  exists p, proposed c m p /\
    match acc !! i with
    | Some q => PBFTMessage.consensusProposal q = Some p
    | None => p = empty_block c i
    end.

(** [p], the proposal for index [i], is a prepared one - of the hash that is newest wherever
    it is prepared, if there is such a hash -, or the empty block if none is prepared. *)
Definition chosen (c : PBFTConfig.t) (cache : gmap Z ViewChangeMsg.t) (i : BlockNumber)
    (p : PBFTProposal.t) : Prop :=
  ((forall q, ~ prepared_at cache i q) /\ p = empty_block c i) \/
  exists q, prepared_at cache i q /\ PBFTMessage.consensusProposal q = Some p /\
    forall h q', newest cache i h -> prepared_at cache i q' -> PBFTMessage.hash q' = h ->
      PBFTMessage.hash q = h.

Definition reproposes (c : PBFTConfig.t) (cache : gmap Z ViewChangeMsg.t) (i : BlockNumber)
    (m : PBFTMessage.t) : Prop :=
  exists p, proposed c m p /\ chosen c cache i p.

Lemma prePrepare_of_reproposes c lo cache i m :
  lo <= i -> prePrepare_of c (P.collectPrepared lo cache) i m -> reproposes c cache i m.
Proof.
  intros Hi (p & Hm & Hp). exists p. split; [exact Hm|].
  destruct (P.collectPrepared lo cache !! i) as [q|] eqn:Eq.
  - right. destruct (collectPrepared_some lo cache i q Hi Eq) as (q0 & Hq0 & Hh & _ & Hpq).
    exists q0. split; [done|]. split; [congruence|]. intros h q' Hn Hq' Hh'. rewrite <- Hh.
    by apply (collectPrepared_newest lo cache i q h q' Hi Eq Hn).
  - left. split; [|done]. by apply (collectPrepared_none lo).
Qed.

Context (N : nat).

Lemma prePreparesFor_run (c : PBFTConfig.t) acc l s :
  map_Forall (fun _ => sane_prepared N) acc ->
  exists r, P.prePreparesFor c acc l s = Done r s [] /\
    Forall2 (prePrepare_of c acc) l (PBFTMessage.encodeHashFields <$> r).
Proof.
  intros Hacc. induction l as [|i l (r & E & Hr)]; simpl; [by exists []; split; constructor|].
  assert (Hone : exists m, P.prePrepareFor c acc i s = Done m s [] /\
    prePrepare_of c acc i (PBFTMessage.encodeHashFields m)).
  { unfold P.prePrepareFor, mbind, eff_bind, prePrepare_of, proposed.
    destruct (acc !! i) as [q|] eqn:Eq.
    - destruct (Hacc i q Eq) as [[p Hp] _ _]. rewrite Hp. simpl. eexists. split; [done|].
      exists p. split; [|done]. split; [done|]. by split; [apply u64_i64|].
    - simpl. eexists. split; [done|]. eexists. split; [|done]. split; [done|].
      by split; [apply u64_i64|]. }
  destruct Hone as (m & Em & Hm). unfold mbind, eff_bind. rewrite Em, E. simpl.
  exists (m :: r). split; [done|]. by constructor.
Qed.

(** The steps of [checkAndTryIntoNewView] on a sane node. *)
Lemma committedIndex_run D s :
  sane_node N D s -> P.committedIndex s = Done (committed_index (P.m_config s)) s [].
Proof.
  intros Hs. unfold P.committedIndex, PBFTConfig.committedIndex, zoom, mbind, eff_bind, asks. simpl.
  unfold committed_index. destruct (committed_some N _ (sn_config _ _ _ Hs)) as [p ->]. simpl.
  by destruct s.
Qed.

Lemma leaderAfterViewChange_run D s :
  sane_node N D s ->
  zoom P.m_config PBFTConfig.leaderAfterViewChange s = Done (leads (P.m_config s)) s [].
Proof.
  intros Hs. pose proof (sn_config _ _ _ Hs) as Hc. pose proof (sc_num _ _ Hc) as Hn.
  pose proof (sc_some _ _ Hc). pose proof (sc_period _ _ Hc).
  unfold PBFTConfig.leaderAfterViewChange, PBFTConfig.leaderIndexInNewViewPeriod,
    PBFTConfig.leaderIndexInNewViewPeriod_at, PBFTConfig.leader_of, zoom, mbind, eff_bind, leads. simpl.
  destruct (Z.eqb_spec (PBFTConfig.m_leaderSwitchPeriod (P.m_config s)) 0),
    (Z.eqb_spec (PBFTConfig.consensusNodesNum (P.m_config s)) 0); simpl; try lia.
  by destruct s.
Qed.

(** The proposals collected for the new view. *)
Definition collected_proposals (s : P.t) : gmap Z PBFTMessage.t :=
  P.collectPrepared (recorded_committed s) (collected_for s).

Lemma collected_for_sane D s : sane_node N D s -> map_Forall (fun _ => sane_viewChange N) (collected_for s).
Proof.
  intros Hs i v. unfold collected_for. destruct (P.m_viewChangeCache s !! _) as [l|] eqn:E; simpl.
  - by apply (sn_viewChanges _ _ _ Hs _ _ _ _ E).
  - by rewrite lookup_empty.
Qed.

Lemma generatePrePrepareMsg_run D s :
  sane_node N D s ->
  exists r, P.generatePrePrepareMsg (collected_for s) s = Done r s [] /\
    Forall2 (prePrepare_of (P.m_config s) (collected_proposals s)) (reproposed_indices s)
      (PBFTMessage.encodeHashFields <$> r).
Proof.
  intros Hs. pose proof (sc_some _ _ (sn_config _ _ _ Hs)) as HN.
  assert (H64 : NON_CONSENSUS_NODE < two64) by done.
  destruct (prePreparesFor_run (P.m_config s) (collected_proposals s) (reproposed_indices s) s)
    as (r & E & Hr).
  { apply collectPrepared_sane; [lia|]. by apply (collected_for_sane D). }
  exists r. split; [|exact Hr].
  unfold P.generatePrePrepareMsg, mbind, eff_bind. cbn [get]. rewrite (committedIndex_run D) by done.
  fold (recorded_committed s) (recorded_prepared s) (reproposed_indices s) (collected_proposals s).
  by rewrite E.
Qed.

(** A node that is not ready does nothing. *)
Lemma checkAndTryIntoNewView_waits D s :
  sane_node N D s -> enter_ready s = false -> P.checkAndTryIntoNewView s = Done None s [].
Proof.
  intros Hs. unfold enter_ready, P.checkAndTryIntoNewView, mbind, eff_bind.
  rewrite (committedIndex_run D) by done. cbn [get]. destruct (_ <? _); [done|].
  destruct (P.m_newViewGenerated s); [done|]. rewrite (leaderAfterViewChange_run D) by done.
  destruct (leads (P.m_config s)); [|done]. simpl.
  destruct (P.m_viewChangeWeight s !! _) as [w|]; [|done]. intros ->%Z.leb_gt%Z.ltb_lt. done.
Qed.

(** A node that is ready sends the new view. *)
Lemma checkAndTryIntoNewView_enters D s :
  sane_node N D s -> enter_ready s = true ->
  exists m, P.checkAndTryIntoNewView s =
      Done (Some m) (s <| P.m_newViewGenerated := true |>)
        [SendMessageByNodeIDs (PBFTConfig.consensusNodeIDList (P.m_config s)) (MNewView m)] /\
    NewViewMsg.view m = u64 (PBFTConfig.m_toView (P.m_config s)) /\
    NewViewMsg.generatedFrom m = u64 (PBFTConfig.nodeIndex (P.m_config s)) /\
    NewViewMsg.index m = committed_index (P.m_config s) /\
    NewViewMsg.viewChangeMsgList m = (in_order (collected_for s)).*2 /\
    Forall2 (prePrepare_of (P.m_config s) (collected_proposals s)) (reproposed_indices s)
      (NewViewMsg.prePrepareList m).
Proof.
  intros Hs Hr. destruct (generatePrePrepareMsg_run D s Hs) as (r & E & Hl).
  revert Hr. unfold enter_ready, P.checkAndTryIntoNewView, mbind, eff_bind.
  rewrite (committedIndex_run D) by done. cbn [get]. destruct (_ <? _); [done|].
  destruct (P.m_newViewGenerated s); [done|]. rewrite (leaderAfterViewChange_run D) by done.
  destruct (leads (P.m_config s)); [|done]. simpl.
  destruct (P.m_viewChangeWeight s !! _) as [w|]; [|done]. intros ->%Z.leb_le%Z.ltb_ge.
  destruct (committed_some N _ (sn_config _ _ _ Hs)) as [p Hp]. rewrite Hp. cbn [deref mret eff_ret].
  fold (collected_for s). rewrite E. simpl.
  eexists. split; [reflexivity|]. unfold committed_index. rewrite Hp.
  split; [apply u64_i64|]. split; [apply u64_i64|]. by split.
Qed.

(** C5: when and what the leader of a new view proposes.  On a sane node
    [checkAndTryIntoNewView] does nothing unless the node is up to date, has not sent a new
    view yet, leads the view it is moving to and has collected view changes of a quorum for
    it.  Then it sends, once, a new view with all collected view changes and exactly one
    pre-prepare, in order, for every index above the committed index and up to the prepared
    index that are recorded for the view - [m_maxCommittedIndex] and [m_maxPrecommitIndex], the
    highest numbers of the view changes added since these tables were last cleared; where
    nothing has been recorded since, the node's own committed and
    progressed index.  Where the view changes hold a prepared proposal of an index, one
    of them is proposed again - if all that are prepared for one hash are newer than those
    for other hashes, one for this hash - and where they hold none, the empty block. *)
Theorem new_view_verdict D s :
  sane_node N D s ->
  exists o s' es, P.checkAndTryIntoNewView s = Done o s' es /\
  if enter_ready s then
    exists m, o = Some m /\ s' = s <| P.m_newViewGenerated := true |> /\
      es = [SendMessageByNodeIDs (PBFTConfig.consensusNodeIDList (P.m_config s)) (MNewView m)] /\
      NewViewMsg.view m = u64 (PBFTConfig.m_toView (P.m_config s)) /\
      NewViewMsg.generatedFrom m = u64 (PBFTConfig.nodeIndex (P.m_config s)) /\
      NewViewMsg.index m = committed_index (P.m_config s) /\
      NewViewMsg.viewChangeMsgList m = (in_order (collected_for s)).*2 /\
      Forall2 (reproposes (P.m_config s) (collected_for s)) (reproposed_indices s)
        (NewViewMsg.prePrepareList m)
  else o = None /\ s' = s /\ es = [].
Proof.
  intros Hs. destruct (enter_ready s) eqn:Er.
  - destruct (checkAndTryIntoNewView_enters D s Hs Er) as (m & E & Hm).
    destruct Hm as (H1 & H2 & H3 & H4 & Hl).
    do 3 eexists. split; [exact E|]. exists m. do 7 (split; [done|]).
    eapply Forall2_weaken_in; [exact Hl|]. intros i x Hi Hx. apply elem_of_seqZ in Hi.
    apply (prePrepare_of_reproposes _ (recorded_committed s)); [lia|exact Hx].
  - do 3 eexists. split; [by apply (checkAndTryIntoNewView_waits D)|done].
Qed.

(** What the clean-up after a committed block does to the view changes. *)
Definition has_view_change (s : P.t) (v : ViewType) (k : IndexType) (m : ViewChangeMsg.t) : Prop :=
  P.m_viewChangeCache s !! v ≫= (fun cache => cache !! k) = Some m.

Lemma removeConsensusedCache_keeps w n s v k m :
  w < v -> n <= ViewChangeMsg.index m -> has_view_change s v k m ->
  exists s', P.removeConsensusedCache w n s = Done tt s' [] /\ has_view_change s' v k m /\
    P.m_maxCommittedIndex s' = ∅ /\ P.m_maxPrecommitIndex s' = ∅.
Proof.
  intros Hw Hn Hm. eexists. split; [reflexivity|]. split; [|done]. revert Hm.
  unfold has_view_change. simpl. rewrite lookup_fmap.
  destruct (P.m_viewChangeCache s !! v) as [l|] eqn:El; [|done]. intros Hm.
  rewrite (proj2 (map_lookup_filter_Some _ _ _ _)) by (split; [exact El|simpl; lia]). simpl in *.
  apply map_lookup_filter_Some. split; [done|simpl; lia].
Qed.

(** C12: what the leader of a new view loses of the prepared proposals.  When a block is
    committed in view [w], the view changes that have been collected for a later view [v] stay, but the
    numbers recorded from them are cleared; the same view change received again is
    ignored as known and records nothing.  If the node then leads the view [v] and has its quorum,
    it sends a new view that lists this view change but has pre-prepares for its own
    range only, from its committed to its progressed index: proposals that the
    listed view changes prove to be prepared above it are not proposed again. *)
Theorem reset_forgets_prepared_proposals D s w n v k m :
  sane_node N D s -> has_view_change s v k m ->
  ViewChangeMsg.view m = v -> ViewChangeMsg.generatedFrom m = k ->
  w < v -> n <= ViewChangeMsg.index m ->
  exists s', P.removeConsensusedCache w n s = Done tt s' [] /\ has_view_change s' v k m /\
    P.addViewChangeReq m s' = Done tt s' [] /\
    forall c, sane_config N c -> PBFTConfig.m_toView c = v ->
    let s2 := s' <| P.m_config := c |> in
    enter_ready s2 = true ->
    exists nv s3 es, P.checkAndTryIntoNewView s2 = Done (Some nv) s3 es /\
      m ∈ NewViewMsg.viewChangeMsgList nv /\
      Forall2 (reproposes c (collected_for s2))
        (seqZ (committed_index c + 1) (PBFTConfig.progressedIndex c - committed_index c))
        (NewViewMsg.prePrepareList nv).
Proof.
  intros Hs Hm Hv Hk Hw Hn.
  destruct (removeConsensusedCache_keeps w n s v k m Hw Hn Hm) as (s' & E & Hm' & Hc & Hp).
  pose proof (removeConsensusedCache_kept N w n s (sane_node_weaken N D nowhere s ltac:(done) Hs)) as Hk'.
  rewrite E in Hk'. destruct Hk' as [Hs' _].
  exists s'. split; [exact E|]. split; [exact Hm'|]. split.
  { unfold P.addViewChangeReq. rewrite bind_get, Hv, Hk. unfold has_view_change in Hm'. by rewrite Hm'. }
  intros c Hsc Hto s2 Hr.
  assert (Hs2 : sane_node N nowhere s2) by (destruct Hs' as [_ H2 H3 H4]; by split).
  destruct (checkAndTryIntoNewView_enters nowhere s2 Hs2 Hr) as (nv & E2 & _ & _ & _ & Hl & Hf).
  exists nv. do 2 eexists. split; [exact E2|]. split.
  - rewrite Hl. apply list_elem_of_fmap. exists (k, m). split; [done|]. apply elem_of_in_order.
    unfold collected_for. simpl. rewrite Hto. unfold has_view_change in Hm'.
    by destruct (P.m_viewChangeCache s' !! v).
  - assert (Hi : reproposed_indices s2 =
      seqZ (committed_index c + 1) (PBFTConfig.progressedIndex c - committed_index c)).
    { unfold reproposed_indices, recorded_committed, recorded_prepared. simpl.
      by rewrite Hc, Hp, !lookup_empty. }
    rewrite Hi in Hf. eapply Forall2_weaken_in; [exact Hf|]. intros i x Hx Hx'.
    apply elem_of_seqZ in Hx. eapply prePrepare_of_reproposes; [|exact Hx'].
    unfold recorded_committed. simpl. rewrite Hc, lookup_empty. simpl. lia.
Qed.

(** C11: an older proposal can take the place of a newer one.  [generatePrePrepareMsg] ignores
    a prepared proposal whose hash is already recorded for the index, without noting its
    view.  Where view changes report one proposal in an old view, then the same one in a new
    view and then another in a view between the two, the leader proposes the other one
    again, although its view is not the highest. *)
Theorem older_proposal_replaces_newer D s i k1 k2 k3 old new other :
  sane_node N D s -> enter_ready s = true -> recorded_committed s < i <= recorded_prepared s ->
  at_index i (visited (collected_for s)) = [(k1, old); (k2, new); (k3, other)] ->
  PBFTMessage.hash old = PBFTMessage.hash new -> PBFTMessage.hash other <> PBFTMessage.hash new ->
  PBFTMessage.view old < PBFTMessage.view other < PBFTMessage.view new ->
  exists m s' es x p, P.checkAndTryIntoNewView s = Done (Some m) s' es /\
    x ∈ NewViewMsg.prePrepareList m /\ proposed (P.m_config s) x p /\
    PBFTMessage.consensusProposal other = Some p.
Proof.
  intros Hs Hr Hi Hat Ho Hne [Hv _].
  destruct (checkAndTryIntoNewView_enters D s Hs Hr) as (m & E & _ & _ & _ & _ & Hl).
  assert (Hin : i ∈ reproposed_indices s) by (apply elem_of_seqZ; lia).
  destruct (Forall2_elem_l _ _ _ _ Hl Hin) as (x & Hx & p & Hp & Hc).
  do 3 eexists. exists x, p. split; [exact E|]. split; [exact Hx|]. split; [exact Hp|].
  revert Hc. unfold collected_proposals. rewrite collectPrepared_lookup by lia. rewrite Hat.
  simpl. change (PBFTMessage.hash (PBFTMessage.setGeneratedFrom k1 old)) with (PBFTMessage.hash old).
  change (PBFTMessage.view (PBFTMessage.setGeneratedFrom k1 old)) with (PBFTMessage.view old).
  rewrite Ho, Z.eqb_refl. simpl.
  change (PBFTMessage.hash (PBFTMessage.setGeneratedFrom k1 old)) with (PBFTMessage.hash old).
  change (PBFTMessage.view (PBFTMessage.setGeneratedFrom k1 old)) with (PBFTMessage.view old).
  rewrite Ho, (proj2 (Z.eqb_neq _ _)), (proj2 (Z.ltb_lt _ _) Hv) by done. simpl. done.
Qed.
End NewView.

(** ** What the other nodes check *)
Section Check.
Context `{Ext : Externals} (N : nat).

(** A view change without prepared proposals that [s] has no objection to. *)
Record acceptable (s : P.t) (v : ViewChangeMsg.t) : Prop := {
  ac_committed : exists p, ViewChangeMsg.committedProposal v = Some p /\
    committed_index (P.m_config s) <= PBFTProposal.index p /\
    forall q, PBFTConfig.committedProposal (P.m_config s) = Some q ->
      PBFTProposal.index p = PBFTProposal.index q -> PBFTProposal.hash p = PBFTProposal.hash q;
  ac_view : PBFTConfig.m_view (P.m_config s) <= ViewChangeMsg.view v;
  ac_toView : PBFTConfig.m_toView (P.m_config s) <= u64 (ViewChangeMsg.view v + 1);
  ac_prepared : ViewChangeMsg.preparedProposals v = [];
  ac_signature : E.checkSignature (P.m_config s) v = VALID
}.

(** A new view of the leader of its view that lists one view change [k] times. *)
Record lone (s : P.t) (v : ViewChangeMsg.t) (k : nat) (m : NewViewMsg.t) : Prop := {
  lo_leader : NewViewMsg.generatedFrom m =
    u64 (u64 (NewViewMsg.index m + 1) / PBFTConfig.m_leaderSwitchPeriod (P.m_config s) +
         NewViewMsg.view m) mod PBFTConfig.consensusNodesNum (P.m_config s);
  lo_view : PBFTConfig.m_view (P.m_config s) < NewViewMsg.view m;
  lo_list : NewViewMsg.viewChangeMsgList m = replicate k v;
  lo_vote : acceptable s v;
  lo_weight : is_u64 (Z.of_nat k * node_weight (P.m_config s) (ViewChangeMsg.generatedFrom v));
  lo_quorum : PBFTConfig.m_minRequiredQuorum (P.m_config s) <=
    Z.of_nat k * node_weight (P.m_config s) (ViewChangeMsg.generatedFrom v);
  lo_signature : E.checkSignature (P.m_config s) m = VALID
}.

Lemma acceptable_valid D s v from :
  sane_node N D s -> acceptable s v -> E.isValidViewChangeMsg from v true s = Done true s [].
Proof.
  intros Hs [(p & Hp & Hi & Hh) Hv Ht Hpr Hsig].
  destruct (committed_some N _ (sn_config _ _ _ Hs)) as [q Hq].
  assert (Ec : committed_index (P.m_config s) = PBFTProposal.index q)
    by (unfold committed_index; by rewrite Hq).
  unfold E.isValidViewChangeMsg, E.committedIndex, mbind, eff_bind.
  rewrite (committedIndex_run N D) by done. rewrite Hp. cbn [deref mret eff_ret get].
  unfold E.config_of. rewrite (proj2 (Z.ltb_ge _ _) Hi), (proj2 (Z.ltb_ge _ _) Hv).
  rewrite (proj2 (Z.ltb_ge _ _) Ht). cbn [orb andb when mret eff_ret get].
  rewrite (proj2 (Z.ltb_ge _ _) Hv), Hq. cbn [deref mret eff_ret]. rewrite Hpr. simpl.
  replace (_ && _) with false; [by rewrite Hsig|]. symmetry. apply andb_false_iff.
  destruct (Z.eqb_spec (PBFTProposal.index p) (PBFTProposal.index q)) as [He|]; [right|by left].
  by rewrite (Hh q Hq He), Z.eqb_refl.
Qed.

(** A repeated view change weighs as often as it is repeated. *)
Lemma viewChangeWeight_repeated D s v from k w :
  sane_node N D s -> acceptable s v -> is_u64 w ->
  E.viewChangeWeight from (replicate k v) w s =
  Done (Some (u64 (w + Z.of_nat k * node_weight (P.m_config s) (ViewChangeMsg.generatedFrom v)))) s [].
Proof.
  intros Hs Hv. revert w. induction k as [|k IH]; intros w Hw; simpl.
  { by rewrite Z.add_0_r, u64_id. }
  unfold mbind, eff_bind. rewrite (acceptable_valid D) by done. simpl. unfold E.config_of.
  assert (Hsucc : forall z, Z.pos (Pos.of_succ_nat k) * z = z + Z.of_nat k * z) by lia.
  destruct (PBFTConfig.getConsensusNodeByIndex _ _) as [node|] eqn:En.
  - rewrite IH by auto with word. cbn [app]. rewrite u64_add_l, Hsucc.
    unfold node_weight. by rewrite En, Z.add_assoc.
  - rewrite IH by done. cbn [app]. rewrite Hsucc. unfold node_weight. by rewrite En, Z.add_0_l.
Qed.

Lemma lone_valid D s v k m :
  sane_node N D s -> lone s v k m -> E.isValidNewViewMsg m s = Done true s [].
Proof.
  intros Hs [Hl Hv Hlist Hvote Hw Hq Hsig]. pose proof (sn_config _ _ _ Hs) as Hc.
  pose proof (sc_some _ _ Hc). pose proof (sc_num _ _ Hc) as Hn. pose proof (sc_period _ _ Hc).
  unfold E.isValidNewViewMsg, PBFTConfig.leaderIndexInNewViewPeriod_at, PBFTConfig.leader_of, zoom,
    mbind, eff_bind. simpl.
  destruct (Z.eqb_spec (PBFTConfig.m_leaderSwitchPeriod (P.m_config s)) 0),
    (Z.eqb_spec (PBFTConfig.consensusNodesNum (P.m_config s)) 0); simpl; try lia.
  replace (s <| P.m_config := P.m_config s |>) with s by by destruct s.
  rewrite <- Hl, Z.eqb_refl. unfold E.config_of. simpl. rewrite (proj2 (Z.leb_gt _ _) Hv), Hlist.
  rewrite (viewChangeWeight_repeated D) by (done || by vm_compute). rewrite Z.add_0_l, u64_id by done.
  unfold E.config_of.
  by rewrite (proj2 (Z.ltb_ge _ _) Hq), Hsig.
Qed.

(** C10: one view change is enough for a new view, and its proposals are not checked.
    [isValidNewViewMsg] adds the weight of every listed view change without asking whether
    their senders differ or whether they ask for this view, and does not compare the
    pre-prepares with them.  A leader that repeats one acceptable view change - its own, for
    instance - until the weight reaches the quorum moves a node that runs normally to any
    higher view of its own, with any pre-prepares that do not make the node fault. *)
Theorem lone_leader_enters_view s v k m :
  sane_node N nowhere s -> lone s v k m -> Forall (sane_reproposal N) (NewViewMsg.prePrepareList m) ->
  E.isValidNewViewMsg m s = Done true s [] /\
  exists s', final (E.handleNewViewMsg m s) = Some s' /\
    NewViewMsg.view m <= PBFTConfig.m_view (P.m_config s').
Proof.
  intros Hs Hl Hp. pose proof (lone_valid _ s v k m Hs Hl) as Hv. split; [exact Hv|].
  pose proof (reHandlePrePrepareProposals_kept N nowhere m Hp s Hs) as Hk.
  assert (Hgood : good_newView (Pol := any_policy) m) by (apply list.Forall_forall; by intros).
  pose proof (reHandlePrePrepareProposals_enters (Pol := any_policy) m s Hgood) as He.
  unfold E.handleNewViewMsg, mbind, eff_bind. rewrite Hv. simpl.
  destruct (E.reHandlePrePrepareProposals m s) as [[] s' es|x s' es|f]; simpl in *;
    [by exists s'|by exists s'|destruct Hk].
Qed.
End Check.
