(* ===== verification/Progress.v ===== *)
(** Progress: votes decide.  Whatever the order in which the prepare and commit requests
    for a proposal arrive - before or after the pre-prepare, repeated, mixed with others -
    one cache precommits, announces it and reports the decision exactly once, as soon as
    the senders of what has arrived are a quorum. *)
From S2P Require Import Prelude Types Timer Validator Config Cache Processor LogSync Engine.
From S2P Require Import Quorum ConfigFacts CacheFacts Steps Sane.

(** What [handlePrepareMsg] and [handleCommitMsg] do to the cache of a message's index once
    the message has passed their checks. *)
Inductive ballot : Type :=
  | Prepare (m : PBFTMessage.t)
  | Commit (m : PBFTMessage.t).

Section Progress.
Context `{Ext : Externals}.

Definition cast (v : ballot) : Eff Event C.frame bool :=
  match v with
  | Prepare m => C.addPrepareCache m ;; C.checkAndPreCommit
  | Commit m => C.addCommitCache m ;; C.checkAndCommit
  end.

(** A sequence of votes; the answers are the decisions reported to the processor, which puts
    the precommitted proposal into the commit queue at each [true]. *)
Fixpoint cast_all (vs : list ballot) : Eff Event C.frame (list bool) :=
  match vs with
  | [] => mret []
  | v :: vs => b ← cast v; bs ← cast_all vs; mret (b :: bs)
  end.

(** The votes that arrive early, the accepted pre-prepare and the node's own prepare request,
    as [handlePrePrepareMsg] adds them, and the votes that arrive late. *)
Definition election (early : list ballot) (prePrepare own : PBFTMessage.t) (late : list ballot)
    : Eff Event C.frame (list bool) :=
  bs ← cast_all early;
  C.addPrePrepareCache prePrepare ;;
  bs' ← cast_all (Prepare own :: late);
  mret (bs ++ bs').

Context (config : PBFTConfig.t) (i : BlockNumber) (h : HashType).

(** A message for the proposal, from a consensus node. *)
Definition counts (m : PBFTMessage.t) : bool :=
  (PBFTMessage.index m =? i) && (PBFTMessage.hash m =? h) &&
  bool_decide (is_Some (PBFTConfig.getConsensusNodeByIndex config (PBFTMessage.generatedFrom m))).
Definition voter (m : PBFTMessage.t) : gset Z :=
  if counts m then {[ PBFTMessage.generatedFrom m ]} else ∅.

Definition prepared_in (v : ballot) : gset Z :=
  match v with Prepare m => voter m | Commit _ => ∅ end.
Definition committed_in (v : ballot) : gset Z :=
  match v with Prepare _ => ∅ | Commit m => voter m end.

(** The distinct nodes that have voted for the proposal. *)
Definition prepared_by (vs : list ballot) : gset Z := ⋃ (prepared_in <$> vs).
Definition committed_by (vs : list ballot) : gset Z := ⋃ (committed_in <$> vs).

Definition enough (X : gset Z) : bool :=
  PBFTConfig.m_minRequiredQuorum config <=? voters_weight config X.

Definition me : IndexType := PBFTConfig.nodeIndex config.

(** The node's commit request for the proposal, to every consensus node. *)
Definition announced (es : list Event) : Prop :=
  exists m, es = [SendMessageByNodeIDs (PBFTConfig.consensusNodeIDList config) (MPBFT m)] /\
    PBFTMessage.packetType m = CommitPacket /\ PBFTMessage.index m = i /\
    PBFTMessage.hash m = h /\ PBFTMessage.view m = u64 (PBFTConfig.m_view config) /\
    PBFTMessage.generatedFrom m = me.

(** A prepare request has a proposal: its signature goes into the proof. *)
Definition carries (v : ballot) : Prop :=
  match v with Prepare m => is_Some (PBFTMessage.consensusProposal m) | Commit _ => True end.

(** A pre-prepare of the current view for the proposal. *)
Record proposes (m : PBFTMessage.t) : Prop := {
  pr_hash : PBFTMessage.hash m = h;
  pr_view : PBFTMessage.view m = PBFTConfig.m_view config;
  pr_proposal : forall p, PBFTMessage.consensusProposal m = Some p -> PBFTProposal.index p = i
}.

Context (N : nat) (Hconfig : sane_config N config) (Hnodes : wf_nodes config)
  (Hme : PBFTConfig.isConsensusNode config = true).

(** ** The state of the count *)

(** [acc]: the pre-prepare is there; [pre]: precommitted; [dec]: submitted; [P] and [K]: the
    nodes whose prepare and commit requests are cached. *)
Record tally (acc pre dec : bool) (P K : gset Z) (f : C.frame) : Prop := {
  ta_sane : sane_frame N f;
  ta_config : C.f_config f = config;
  ta_index : C.m_index (C.f_this f) = i;
  ta_prepares : wf_collection config i (C.m_prepareCacheList (C.f_this f))
    (C.m_prepareReqWeight (C.f_this f));
  ta_commits : wf_collection config i (C.m_commitCacheList (C.f_this f))
    (C.m_commitReqWeight (C.f_this f));
  ta_P : senders (C.m_prepareCacheList (C.f_this f)) h = P;
  ta_K : senders (C.m_commitCacheList (C.f_this f)) h = K;
  ta_prePrepare : if acc then exists m, C.m_prePrepare (C.f_this f) = Some m /\ proposes m
    else C.m_prePrepare (C.f_this f) = None;
  ta_precommit : bool_decide (is_Some (C.m_precommit (C.f_this f))) = pre;
  ta_precommitted : C.m_precommitted (C.f_this f) = pre;
  ta_submitted : C.m_submitted (C.f_this f) = dec;
  ta_unstable : C.m_stableCommitted (C.f_this f) = false;
  ta_unexecuted : C.m_checkpointProposal (C.f_this f) = None
}.

Lemma create_tally : tally false false false ∅ ∅ (C.Frame config (C.create config i)).
Proof using Hconfig Hnodes.
  assert (Hw : with_proposals ∅) by (intros ???; unfold cached; by rewrite lookup_empty).
  assert (Hc : covered ∅ ∅) by (intros ?; rewrite lookup_empty; simpl; lia).
  split; simpl; try done; by apply empty_wf.
Qed.

(** ** Collecting *)
Lemma addCache_senders l w m l' w' :
  C.addCache config i l w m = (l', w') -> senders l' h = voter m ∪ senders l h.
Proof.
  unfold C.addCache, voter, counts. intros E.
  destruct (Z.eqb_spec (PBFTMessage.index m) i) as [Hi|]; simpl in *;
    [|injection E as <- <-; set_solver].
  destruct (l !! PBFTMessage.hash m ≫= _) as [m0|] eqn:Ec.
  - injection E as <- <-. destruct (Z.eqb_spec (PBFTMessage.hash m) h) as [<-|]; simpl; [|set_solver].
    case_bool_decide; [|set_solver]. assert (PBFTMessage.generatedFrom m ∈ senders l (PBFTMessage.hash m))
      by (apply elem_of_senders; by exists m0). set_solver.
  - destruct (PBFTConfig.getConsensusNodeByIndex _ _) as [node|] eqn:En; injection E as <- <-.
    + rewrite bool_decide_eq_true_2 by done. rewrite andb_true_r.
      unfold senders. destruct (Z.eqb_spec (PBFTMessage.hash m) h) as [<-|Hne].
      * rewrite lookup_insert_eq. simpl. by rewrite dom_insert_L.
      * rewrite lookup_insert_ne by done. set_solver.
    + rewrite bool_decide_eq_false_2 by (by intros []). rewrite andb_false_r. set_solver.
Qed.

Lemma addPrepareCache_tally acc pre dec P K f m :
  tally acc pre dec P K f -> is_Some (PBFTMessage.consensusProposal m) ->
  exists f', C.addPrepareCache m f = Done tt f' [] /\ tally acc pre dec (voter m ∪ P) K f'.
Proof using Hconfig Hnodes Hme.
  intros T Hm. pose proof (addPrepareCache_ok N m Hm f (ta_sane _ _ _ _ _ _ T)) as Hs.
  destruct T as [H1 H2 H3 H4 H5 H6 H7 H8 H9 H10 H11 H12 H13]. revert Hs.
  unfold C.addPrepareCache, modify. rewrite H2, H3. destruct (C.addCache _ _ _ _ m) as [l w] eqn:E.
  intros [Hs _]. eexists. split; [reflexivity|]. split; simpl; try done.
  - apply log_access_wf. pose proof (addCache_wf config i Hnodes _ _ m H4) as Hwf. by rewrite E in Hwf.
  - rewrite (addCache_senders _ _ _ _ _ E). by rewrite H6.
Qed.

Lemma addCommitCache_tally acc pre dec P K f m :
  tally acc pre dec P K f ->
  exists f', C.addCommitCache m f = Done tt f' [] /\ tally acc pre dec P (voter m ∪ K) f'.
Proof using Hconfig Hnodes Hme.
  intros T. pose proof (addCommitCache_ok N m f (ta_sane _ _ _ _ _ _ T)) as Hs.
  destruct T as [H1 H2 H3 H4 H5 H6 H7 H8 H9 H10 H11 H12 H13]. revert Hs.
  unfold C.addCommitCache, modify. rewrite H2, H3. destruct (C.addCache _ _ _ _ m) as [l w] eqn:E.
  intros [Hs _]. eexists. split; [reflexivity|]. split; simpl; try done.
  - apply log_access_wf. pose proof (addCache_wf config i Hnodes _ _ m H5) as Hwf. by rewrite E in Hwf.
  - rewrite (addCache_senders _ _ _ _ _ E). by rewrite H7.
Qed.

Lemma collectEnoughQuorum_enough l w :
  wf_collection config i l w -> C.collectEnoughQuorum config h w = enough (senders l h).
Proof using Hconfig.
  intros Hwf. unfold C.collectEnoughQuorum, enough. rewrite <- (wc_weight _ _ _ _ Hwf).
  pose proof (sc_quorum _ _ Hconfig). destruct (w !! h); simpl; [done|]. symmetry. lia.
Qed.

Lemma collected acc pre dec P K f :
  tally acc pre dec P K f ->
  C.collectEnoughPrepareReq (C.f_config f) (C.f_this f) = acc && enough P /\
  C.collectEnoughCommitReq (C.f_config f) (C.f_this f) = acc && enough K.
Proof using Hconfig.
  intros [H1 H2 H3 H4 H5 H6 H7 H8 H9 H10 H11 H12 H13].
  unfold C.collectEnoughPrepareReq, C.collectEnoughCommitReq, C.checkPrePrepareProposalStatus.
  rewrite H2. destruct acc; [|by rewrite H8]. destruct H8 as (m & -> & [-> -> _]).
  by rewrite Z.eqb_refl, (collectEnoughQuorum_enough _ _ H4), (collectEnoughQuorum_enough _ _ H5), H6, H7.
Qed.

(** ** Deciding *)
Lemma checkAndCommit_tally acc pre dec P K f :
  tally acc pre dec P K f -> (pre = true -> acc = true) ->
  let d := pre && enough K in
  exists f', C.checkAndCommit f = Done (negb dec && d) f' [] /\ tally acc pre (dec || d) P K f'.
Proof using Hconfig.
  intros T Hpre d. destruct (collected _ _ _ _ _ _ T) as [_ Hk].
  unfold C.checkAndCommit. rewrite bind_get, Hk, (ta_submitted _ _ _ _ _ _ T).
  destruct dec; [by exists f|]. pose proof (ta_precommit _ _ _ _ _ _ T) as Hp. unfold d.
  destruct (C.m_precommit (C.f_this f)) as [m|] eqn:Em.
  2:{ rewrite bool_decide_eq_false_2 in Hp by (by intros []). subst pre. by exists f. }
  rewrite bool_decide_eq_true_2 in Hp by done. subst pre. rewrite (Hpre eq_refl) in *. simpl.
  destruct (enough K) eqn:Ek; simpl; [|by exists f].
  destruct (sk_precommit _ _ (proj2 (ta_sane _ _ _ _ _ _ T)) m Em) as [(p & Hm & _) _].
  rewrite bind_log_deref by by exists p. clear p Hm.
  eexists. split; [reflexivity|]. destruct T as [[Hc []] H2 H3 H4 H5 H6 H7 H8 H9 H10 H11 H12 H13].
  by split.
Qed.

(** [intoPrecommit] when the quorum is there. *)
Lemma intoPrecommit_tally P K f :
  tally true false false P K f -> enough P = true ->
  exists f' data without, C.intoPrecommit f = Done tt f' [] /\
    C.m_precommitWithoutData (C.f_this f') = Some data /\
    PBFTMessage.consensusProposal data = Some without /\
    PBFTProposal.index without = i /\ PBFTProposal.hash without = h /\
    tally true true false P K
      (C.Frame (C.f_config f') (C.f_this f' <| C.m_precommitted := true |>)).
Proof using Hconfig.
  intros T He. destruct (collected _ _ _ _ _ _ T) as [Hq _].
  destruct T as [H1 H2 H3 H4 H5 H6 H7 (m & H8 & Hm) H9 H10 H11 H12 H13].
  rewrite He in Hq. destruct (intoPrecommit_ok N f H1 Hq) as (f' & E & [Hc Hk] & _).
  pose proof (intoPrecommit_spec f) as Hin. rewrite E in Hin.
  destruct Hin as (_ & _ & Hc' & q & p & signed & without & data & Hq' & Hp & Hs & Hw & Hd & Hf').
  rewrite H8 in Hq'. injection Hq' as <-. destruct (populateProposal_key _ _ _ _ Hw) as [Hwi Hwh].
  destruct (sk_prePrepare _ _ (proj2 H1) _ H8) as [(p' & Hp' & Hph) _].
  rewrite Hp in Hp'. injection Hp' as <-.
  destruct (setSignatureList_key _ _ _ _ _ _ Hs) as [Hsi Hsh].
  exists f', data, without. split; [done|]. split; [by rewrite Hf'|]. split; [done|].
  destruct Hm as [Hmh Hmv Hmp].
  split; [by rewrite Hwi, Hsi, (Hmp p)|]. split; [by rewrite Hwh, Hsh, Hph|].
  split.
  { split; [done|]. clear -Hk. simpl. by destruct Hk. }
  1: by rewrite <- H2.
  all: rewrite ?Hf'; try done. simpl. eexists. split; [reflexivity|].
  split; [done..|]. simpl. intros p' [= <-]. by rewrite Hsi, (Hmp p).
Qed.

(** The own commit request counts where the node is a consensus node. *)
Definition own (pre : bool) : gset Z := if pre then {[ me ]} else ∅.

Lemma me_member : member N me.
Proof using Hconfig Hme. by apply (sc_index _ _ Hconfig). Qed.

Lemma me_u64 : u64 (i64 me) = me.
Proof using Hconfig Hme.
  rewrite u64_i64. apply u64_id. pose proof me_member as [H1 H2].
  pose proof (sc_some _ _ Hconfig) as H3. assert (NON_CONSENSUS_NODE < two64) by done.
  unfold is_u64. lia.
Qed.

Lemma commitRequest_voter without :
  PBFTProposal.index without = i -> PBFTProposal.hash without = h ->
  voter (commitRequest config without) = {[ me ]}.
Proof using Hconfig Hme.
  intros Hi Hh. unfold voter, counts.
  assert (PBFTMessage.generatedFrom (commitRequest config without) = me) as -> by apply me_u64.
  change (PBFTMessage.index (commitRequest config without)) with (PBFTProposal.index without).
  change (PBFTMessage.hash (commitRequest config without)) with (PBFTProposal.hash without).
  rewrite Hi, Hh, !Z.eqb_refl, bool_decide_eq_true_2; [done|].
  apply (node_of_list N); [done|apply me_member].
Qed.

Lemma commitRequest_announced without :
  PBFTProposal.index without = i -> PBFTProposal.hash without = h ->
  announced [SendMessageByNodeIDs (PBFTConfig.consensusNodeIDList config)
    (MPBFT (commitRequest config without))].
Proof using Hconfig Hme.
  intros Hi Hh. eexists. split; [reflexivity|]. split; [done|]. split; [exact Hi|].
  split; [exact Hh|]. split; [apply u64_i64|apply me_u64].
Qed.

(** A commit request is collected before or after the flag is set. *)
Lemma addCommitCache_flag m f f' :
  C.addCommitCache m (C.Frame (C.f_config f) (C.f_this f <| C.m_precommitted := true |>)) =
    Done tt f' [] ->
  exists f1, C.addCommitCache m f = Done tt f1 [] /\
    C.Frame (C.f_config f1) (C.f_this f1 <| C.m_precommitted := true |>) = f'.
Proof.
  unfold C.addCommitCache, modify. simpl. destruct (C.addCache _ _ _ _ _) as [l w].
  intros [= <-]. by eexists.
Qed.

(** The run of [checkAndPreCommit] that precommits. *)
Lemma checkAndPreCommit_runs f f1 data without f2 b f3 :
  C.m_precommitted (C.f_this f) = false -> C.m_precommit (C.f_this f) = None ->
  C.collectEnoughPrepareReq (C.f_config f) (C.f_this f) = true ->
  C.intoPrecommit f = Done tt f1 [] ->
  C.m_precommitWithoutData (C.f_this f1) = Some data ->
  PBFTMessage.consensusProposal data = Some without ->
  C.addCommitCache (commitRequest (C.f_config f1) without) f1 = Done tt f2 [] ->
  C.checkAndCommit (C.Frame (C.f_config f2) (C.f_this f2 <| C.m_precommitted := true |>)) =
    Done b f3 [] ->
  C.checkAndPreCommit f = Done b f3
    [SendMessageByNodeIDs (PBFTConfig.consensusNodeIDList (C.f_config f1))
       (MPBFT (commitRequest (C.f_config f1) without))].
Proof.
  intros H1 H2 H3 H4 H5 H6 H7 H8. unfold C.checkAndPreCommit, mbind, eff_bind. cbn [get].
  rewrite H1, H2, H3. cbn [mret eff_ret negb]. rewrite H4. cbn [get deref]. rewrite H5.
  cbn [deref mret eff_ret]. rewrite H6. cbn [deref mret eff_ret]. fold (commitRequest (C.f_config f1) without).
  rewrite H7. unfold C.set_this, modify, emit. cbn -[C.checkAndCommit].
  match goal with |- context [C.checkAndCommit ?x] =>
    replace (C.checkAndCommit x) with (Done (E := Event) b f3 []) end.
  reflexivity.
Qed.

Lemma checkAndPreCommit_tally acc pre P K f :
  let dec := pre && enough (own pre ∪ K) in
  let pre' := acc && enough P in
  let dec' := pre' && enough (own pre' ∪ K) in
  tally acc pre dec P (own pre ∪ K) f -> (pre = true -> pre' = true) ->
  exists f' es, C.checkAndPreCommit f = Done (negb dec && dec') f' es /\
    tally acc pre' dec' P (own pre' ∪ K) f' /\
    if negb pre && pre' then announced es else es = [].
Proof using Hconfig Hnodes Hme.
  intros dec pre' dec' T Hpre. pose proof (ta_precommitted _ _ _ _ _ _ T) as Hflag.
  destruct pre eqn:Epre.
  { exists f, []. unfold dec', dec in *. rewrite (Hpre eq_refl) in *. split; [|by split].
    unfold C.checkAndPreCommit, mbind, eff_bind. cbn [get]. rewrite Hflag. by destruct (_ && _). }
  pose proof (ta_precommit _ _ _ _ _ _ T) as Hp. apply bool_decide_eq_false in Hp.
  destruct (C.m_precommit (C.f_this f)) as [m|] eqn:Em; [by destruct Hp|].
  destruct (collected _ _ _ _ _ _ T) as [Hq _]. fold pre' in Hq. unfold dec' in *.
  destruct pre' eqn:Epre'; simpl.
  2:{ exists f, []. split; [|by split]. unfold C.checkAndPreCommit, mbind, eff_bind. cbn [get].
      by rewrite Hflag, Em, Hq. }
  apply andb_true_iff in Epre' as [-> He].
  destruct (intoPrecommit_tally _ _ _ T He) as (f1 & data & without & E1 & Hd & Hw & Hwi & Hwh & T1).
  destruct (addCommitCache_tally _ _ _ _ _ _ (commitRequest config without) T1) as (f2 & E2 & T2).
  destruct (addCommitCache_flag _ _ _ E2) as (f3 & E3 & <-).
  rewrite commitRequest_voter in T2 by done.
  destruct (checkAndCommit_tally _ _ _ _ _ _ T2 (fun _ => eq_refl)) as (f4 & E4 & T4).
  pose proof (ta_config _ _ _ _ _ _ T1) as Hc1. simpl in Hc1, E4, T4.
  change (own false ∪ K) with (∅ ∪ K) in *. rewrite (left_id_L ∅ (∪)) in *.
  exists f4. eexists. split; [|split; [exact T4|]].
  - eapply (checkAndPreCommit_runs f f1 data without f3); try done. by rewrite Hc1.
  - rewrite Hc1. by apply commitRequest_announced.
Qed.

(** ** The outcome *)

(** What the votes of [P] and [K] lead to: the precommit and the decision. *)
Definition precommits (acc : bool) (P : gset Z) : bool := acc && enough P.
Definition decides (acc : bool) (P K : gset Z) : bool :=
  precommits acc P && enough (own (precommits acc P) ∪ K).
Definition settled (acc : bool) (P K : gset Z) (f : C.frame) : Prop :=
  tally acc (precommits acc P) (decides acc P K) P (own (precommits acc P) ∪ K) f.

(** How many decisions were reported. *)
Definition decisions (bs : list bool) : nat := sum_list_with Nat.b2n bs.

(** From the flags [pre] and [dec] to the settled state, with [n] decisions. *)
Record settles (pre dec acc : bool) (P K : gset Z) (n : nat) (f : C.frame) (es : list Event)
    : Prop := {
  se_state : settled acc P K f;
  se_decisions : n = Nat.b2n (negb dec && decides acc P K);
  se_events : if negb pre && precommits acc P then announced es else es = []
}.

Lemma enough_mono X Y : X ⊆ Y -> enough X = true -> enough Y = true.
Proof using Hconfig Hnodes Hme.
  unfold enough. rewrite !Z.leb_le. intros H Hx. etrans; [exact Hx|].
  apply wset_mono; [|done]. by apply node_weight_pos.
Qed.
Lemma precommits_mono acc P P' : P ⊆ P' -> precommits acc P = true -> precommits acc P' = true.
Proof using Hconfig Hnodes Hme.
  unfold precommits. rewrite !andb_true_iff. intros H [-> He]. split; [done|]. by eapply enough_mono.
Qed.
Lemma decides_mono acc P P' K K' :
  P ⊆ P' -> K ⊆ K' -> decides acc P K = true -> decides acc P' K' = true.
Proof using Hconfig Hnodes Hme.
  unfold decides. rewrite !andb_true_iff. intros HP HK [Hp He].
  rewrite (precommits_mono _ _ _ HP Hp). split; [done|]. rewrite Hp in He.
  eapply enough_mono; [|exact He]. set_solver.
Qed.

Lemma cast_prepare acc pre P K m f :
  tally acc pre (pre && enough (own pre ∪ K)) P (own pre ∪ K) f ->
  (pre = true -> precommits acc P = true) -> is_Some (PBFTMessage.consensusProposal m) ->
  exists b f' es, cast (Prepare m) f = Done b f' es /\
    settles pre (pre && enough (own pre ∪ K)) acc (voter m ∪ P) K (Nat.b2n b) f' es.
Proof using Hconfig Hnodes Hme.
  intros T Hpre Hm. destruct (addPrepareCache_tally _ _ _ _ _ _ m T Hm) as (f1 & E1 & T1).
  destruct (checkAndPreCommit_tally _ _ _ _ _ T1) as (f2 & es & E2 & T2 & He).
  { intros H%Hpre. eapply precommits_mono; [|exact H]. set_solver. }
  eexists _, f2, es. split; [|by split].
  unfold cast, mbind, eff_bind. rewrite E1. cbn. by rewrite E2.
Qed.

Lemma cast_settles acc P K v f :
  settled acc P K f -> carries v ->
  exists b f' es, cast v f = Done b f' es /\
    settles (precommits acc P) (decides acc P K) acc (prepared_in v ∪ P) (committed_in v ∪ K)
      (Nat.b2n b) f' es.
Proof using Hconfig Hnodes Hme.
  intros T Hv. destruct v as [m|m]; simpl in *.
  { rewrite (left_id_L ∅ (∪)). by apply cast_prepare. }
  rewrite (left_id_L ∅ _ P).
  destruct (addCommitCache_tally _ _ _ _ _ _ m T) as (f1 & E1 & T1).
  assert (Hacc : precommits acc P = true -> acc = true) by (by intros [? _]%andb_true_iff).
  destruct (checkAndCommit_tally _ _ _ _ _ _ T1 Hacc) as (f2 & E2 & T2).
  assert (Eu : voter m ∪ (own (precommits acc P) ∪ K) = own (precommits acc P) ∪ (voter m ∪ K))
    by set_solver.
  rewrite Eu in *. fold (decides acc P (voter m ∪ K)) in *.
  pose proof (decides_mono acc P P K (voter m ∪ K) ltac:(done) ltac:(set_solver)) as Hd.
  eexists _, f2, []. split; [unfold mbind, eff_bind; rewrite E1; cbn; by rewrite E2|].
  split; [|done|by rewrite andb_negb_l].
  unfold settled. destruct (decides acc P K); [|exact T2]. by rewrite Hd.
Qed.

(** A run is settled where its parts are. *)
Lemma settles_app pre dec acc P K n f es P' K' n' f' es' :
  settles pre dec acc P K n f es ->
  settles (precommits acc P) (decides acc P K) acc P' K' n' f' es' ->
  (pre = true -> precommits acc P = true) -> (dec = true -> decides acc P K = true) ->
  P ⊆ P' -> K ⊆ K' ->
  settles pre dec acc P' K' (n + n') f' (es ++ es').
Proof using Hconfig Hnodes Hme.
  intros [_ Hn He] [H' Hn' He'] Hpre Hdec HP HK. split; [done| |].
  - pose proof (decides_mono acc P P' K K' HP HK). subst n n'.
    by destruct dec, (decides acc P K), (decides acc P' K'); simpl; intuition.
  - pose proof (precommits_mono acc P P' HP) as Hm.
    destruct pre, (precommits acc P), (precommits acc P'); simpl in *; subst;
      rewrite ?app_nil_r; first [done | by specialize (Hpre eq_refl) | by specialize (Hm eq_refl)].
Qed.

Lemma cast_all_settles acc vs P K f :
  settled acc P K f -> Forall carries vs ->
  exists bs f' es, cast_all vs f = Done bs f' es /\
    settles (precommits acc P) (decides acc P K) acc (prepared_by vs ∪ P) (committed_by vs ∪ K)
      (decisions bs) f' es.
Proof using Hconfig Hnodes Hme.
  revert P K f. induction vs as [|v vs IH]; intros P K f T Hvs; simpl.
  - exists [], f, []. split; [done|]. unfold prepared_by, committed_by. simpl.
    rewrite !(left_id_L ∅ (∪)). split; [done| |]; by rewrite andb_negb_l.
  - inversion_clear Hvs as [|? ? Hv Hvs'].
    destruct (cast_settles _ _ _ v f T Hv) as (b & f1 & e1 & E1 & S1).
    destruct (IH _ _ _ (se_state _ _ _ _ _ _ _ _ S1) Hvs') as (bs & f2 & e2 & E2 & S2).
    exists (b :: bs), f2, (e1 ++ e2). split.
    { unfold mbind, eff_bind. rewrite E1, E2. simpl. by rewrite app_nil_r. }
    assert (prepared_by (v :: vs) ∪ P = prepared_by vs ∪ (prepared_in v ∪ P)) as ->
      by (unfold prepared_by; simpl; set_solver).
    assert (committed_by (v :: vs) ∪ K = committed_by vs ∪ (committed_in v ∪ K)) as ->
      by (unfold committed_by; simpl; set_solver).
    eapply settles_app; [exact S1|exact S2| | | |]; try set_solver.
    + apply precommits_mono. set_solver.
    + apply decides_mono; set_solver.
Qed.

(** Until it is executed and decided, a cache takes the pre-prepare. *)
Lemma addPrePrepareCache_undecided m f :
  C.m_stableCommitted (C.f_this f) = false -> C.m_checkpointProposal (C.f_this f) = None ->
  is_Some (PBFTMessage.consensusProposal m) ->
  C.addPrePrepareCache m f =
    Done tt (f <| C.f_this := (C.f_this f) <| C.m_prePrepare := Some m |> |>) [].
Proof.
  intros Hs Hc [p Hp]. unfold C.addPrePrepareCache. rewrite bind_get, Hs, Hc, Hp.
  unfold mbind, eff_bind. simpl. by destruct (logged INFO).
Qed.

Lemma addPrePrepareCache_tally P K f m :
  tally false false false P K f -> sane_prePrepare N m -> proposes m ->
  exists f', C.addPrePrepareCache m f = Done tt f' [] /\ tally true false false P K f'.
Proof.
  intros T Hm Hp. pose proof (addPrePrepareCache_ok N m Hm f (ta_sane _ _ _ _ _ _ T)) as Hs. revert Hs.
  destruct T as [H1 H2 H3 H4 H5 H6 H7 H8 H9 H10 H11 H12 H13].
  rewrite addPrePrepareCache_undecided; [|done..|destruct Hm as [(p & E & _) _]; by exists p].
  intros [Hs _]. eexists. split; [reflexivity|]. split; simpl; try done. by exists m.
Qed.

Lemma election_settles early prePrepare mine late :
  sane_prePrepare N prePrepare -> proposes prePrepare ->
  Forall carries (early ++ Prepare mine :: late) ->
  let votes := early ++ Prepare mine :: late in
  exists bs f' es,
    election early prePrepare mine late (C.Frame config (C.create config i)) = Done bs f' es /\
    settles false false true (prepared_by votes) (committed_by votes) (decisions bs) f' es.
Proof using Hconfig Hnodes Hme.
  intros Hm Hp Hall votes. apply Forall_app in Hall as [He Hall]. inversion_clear Hall as [|? ? Hv Hl].
  assert (T0 : settled false ∅ ∅ (C.Frame config (C.create config i))).
  { unfold settled. simpl. rewrite (left_id_L ∅ (∪)). apply create_tally. }
  destruct (cast_all_settles _ early _ _ _ T0 He) as (bs & f1 & e1 & E1 & [T1 Hn1 He1]).
  destruct (addPrePrepareCache_tally _ _ f1 prePrepare T1 Hm Hp) as (f2 & E2 & T2).
  destruct (cast_prepare true false _ _ mine f2 T2 ltac:(done) Hv) as (b & f3 & e3 & E3 & S3).
  destruct (cast_all_settles _ late _ _ _ (se_state _ _ _ _ _ _ _ _ S3) Hl)
    as (bs' & f4 & e4 & E4 & S4).
  rewrite !(right_id_L ∅ (∪)) in *.
  exists (bs ++ b :: bs'), f4, (e3 ++ e4). split.
  { unfold election, mbind, eff_bind. rewrite E1, E2. cbn [cast_all]. unfold mbind, eff_bind.
    rewrite E3, E4. simpl in He1. subst e1. simpl. by rewrite !app_nil_r. }
  unfold decisions in *. rewrite sum_list_with_app, Hn1. simpl.
  assert (prepared_by votes = prepared_by late ∪ (voter mine ∪ prepared_by early)) as ->.
  { unfold prepared_by, votes. rewrite fmap_app, union_list_app_L. simpl. set_solver. }
  assert (committed_by votes = committed_by late ∪ committed_by early) as ->.
  { unfold committed_by, votes. rewrite fmap_app, union_list_app_L. simpl. set_solver. }
  eapply settles_app; [exact S3|exact S4|done|done|set_solver|set_solver].
Qed.
End Progress.

(** ** The property *)
Section Outcome.
Context `{Ext : Externals}.

(** C4: votes decide exactly once, in whatever order they arrive.  A node accepts a
    pre-prepare of the current view and adds its own prepare request; before and after that,
    prepare and commit requests arrive: for this or another proposal, repeated, from strangers.
    Nothing faults, and with the votes all in, the cache has precommitted exactly when the
    distinct consensus nodes that sent prepare requests for the proposal weigh
    [m_minRequiredQuorum], and is submitted exactly when moreover the senders of commit
    requests, this node included, do.  One decision is reported if it is and none otherwise;
    one commit request is sent if it has precommitted and none otherwise.  None of it depends
    on the order. *)
Theorem votes_decide_once N config i h early prePrepare mine late :
  sane_config N config -> wf_nodes config -> PBFTConfig.isConsensusNode config = true ->
  sane_prePrepare N prePrepare -> proposes config i h prePrepare ->
  Forall carries (early ++ Prepare mine :: late) ->
  let votes := early ++ Prepare mine :: late in
  let precommitted := enough config (prepared_by config i h votes) in
  let decided :=
    precommitted && enough config ({[ me config ]} ∪ committed_by config i h votes) in
  exists bs f es,
    election early prePrepare mine late (C.Frame config (C.create config i)) = Done bs f es /\
    C.m_precommitted (C.f_this f) = precommitted /\
    C.m_submitted (C.f_this f) = decided /\
    decisions bs = Nat.b2n decided /\
    (if precommitted then announced config i h es else es = []).
Proof.
  intros Hc Hn Hme Hs Hp Hv votes precommitted decided.
  destruct (election_settles config i h N Hc Hn Hme early prePrepare mine late Hs Hp Hv)
    as (bs & f & es & E & [T Hd He]).
  exists bs, f, es. split; [exact E|]. unfold settled, decides, precommits, own in *. simpl in *.
  fold votes precommitted in T, Hd, He.
  assert (Hdec : precommitted && enough config ((if precommitted then {[ me config ]} else ∅)
    ∪ committed_by config i h votes) = decided) by (unfold decided; by destruct precommitted).
  rewrite Hdec in T, Hd. split; [apply T|]. split; [apply T|]. by split.
Qed.
End Outcome.
