(* ===== verification/Scenario.v ===== *)
(** Scenario: a concrete network of four nodes and the run in which node 0 accepts a
    proposal of node 1, prepares, commits, executes and checkpoints it, with the
    primitives of [Types.Demo]; the theorems about runs applied to it. *)
From S2P Require Import Prelude Types Timer Validator Config Cache Processor LogSync Engine.
From S2P Require Import Quorum ConfigFacts CacheFacts Steps Node Growth Refine Impl Behaviour Invariants Votes.
From S2P Require Import Safety Agreement Codec Blocks Storage BlockValidator Certificates FastView Boot PrePrepare Sane SaneNode FaultFree NoCrash Malformed NewView Progress.
#[local] Existing Instance Demo.externals.

Definition nodes : list ConsensusNode.t :=
  [ConsensusNode.mk 1 1; ConsensusNode.mk 2 1; ConsensusNode.mk 3 1; ConsensusNode.mk 4 1].
Definition ledger (n h : Z) : LedgerConfig.t := LedgerConfig.mk n h 1000 1 nodes [].

(** The node with key 1, initialised on block 0. *)
Definition state_of {A} (e0 : PBFTEngine.t) (o : outcome Event PBFTEngine.t A) : PBFTEngine.t :=
  match o with Done _ e _ | Threw _ e _ => e | Crashed _ => e0 end.
Definition engine : PBFTEngine.t :=
  let e0 := PBFTEngine.create (PBFTConfig.create 1) in
  state_of e0 ((PBFTImpl.init (ledger 0 7) None ;; PBFTEngine.start) e0).

Definition block : PBFTProposal.t :=
  PBFTProposal.create <| PBFTProposal.index := 1 |> <| PBFTProposal.hash := 42 |>
    <| PBFTProposal.data := [Demo.byte_of 1; Demo.byte_of 42; Demo.byte_of 9] |>.
(** The same block after its execution. *)
Definition executed : PBFTProposal.t := block <| PBFTProposal.hash := 77 |>.

Definition prePrepare : PBFTMessage.t :=
  PBFTMessage_encode 2 (populateWith PrePreparePacket block 0 0 0 1).
Definition from (k : NodeID) (m : PBFTMessage.t) : PBFTImpl.input :=
  PBFTImpl.ConsensusMessage false (Some k) (Packet (MPBFT (PBFTMessage_encode k m))).
Definition vote (t : PacketType) (k : NodeID) (p : PBFTProposal.t) : PBFTImpl.input :=
  from k (populateSigned t 0 0 0 (k - 1) p k true).

(** Up to the checkpoint quorum, and the rest. *)
Definition voting : list PBFTImpl.input := [
  PBFTImpl.ConsensusMessage false (Some 2) (Packet (MPBFT prePrepare)); PBFTImpl.Worker;
  PBFTImpl.PrePrepareVerified false true prePrepare false;
  vote PreparePacket 2 block; vote PreparePacket 3 block; vote PreparePacket 3 block;
  PBFTImpl.Worker; PBFTImpl.Worker; PBFTImpl.Worker;
  vote CommitPacket 2 block; vote CommitPacket 3 block; PBFTImpl.Worker; PBFTImpl.Worker;
  PBFTImpl.ApplyFinished true block executed; PBFTImpl.ProposalApplied true block executed;
  vote CheckPoint 2 executed; vote CheckPoint 4 executed; PBFTImpl.Worker; PBFTImpl.Worker].
Definition whole_run : list PBFTImpl.input :=
  voting ++ [PBFTImpl.StableCheckPointCommitted (ledger 1 77)].

Definition after (l : list PBFTImpl.input) : PBFTEngine.t :=
  match PBFTImpl.run l engine with Some (e, _) => e | None => engine end.
Definition emitted (l : list PBFTImpl.input) : list Event :=
  match PBFTImpl.run l engine with Some (_, es) => es | None => [] end.

Notation config e := (PBFTCacheProcessor.m_config (PBFTEngine.m_cacheProcessor e)).

Lemma voting_runs : PBFTImpl.run voting engine = Some (after voting, emitted voting).
Proof. vm_compute. reflexivity. Qed.

Lemma whole_run_runs : PBFTImpl.run whole_run engine = Some (after whole_run, emitted whole_run).
Proof. vm_compute. reflexivity. Qed.

(** The proposal is committed. *)
Example block_committed :
  committed_index (config engine) = 0 /\ committed_index (config (after whole_run)) = 1.
Proof. vm_compute. split; reflexivity. Qed.

Lemma engine_good `{Pol : Policy} : good_engine engine.
Proof. vm_compute. constructor. Qed.

Lemma engine_sound : sound (PBFTEngine.m_cacheProcessor engine).
Proof.
  split; [split; vm_compute; congruence|]. intros i c H. by vm_compute in H.
Qed.

Lemma engine_fair : fair nodes (PBFTEngine.m_cacheProcessor engine).
Proof.
  split; [reflexivity|split; [|reflexivity]|].
  - apply list.Forall_forall. repeat constructor; vm_compute; congruence.
  - intros i c H. by vm_compute in H.
Qed.

(** Ledger configurations that name the four nodes. *)
Definition same_ledger : LedgerConfig.t -> Prop := same_nodes nodes.

Lemma inputs_ok_any : inputs_ok (Pol := any_policy) whole_run engine.
Proof.
  apply inputs_ok_static. unfold whole_run, voting.
  repeat first [apply Forall_nil_2 | apply Forall_cons_2]; intros c; try exact I; by constructor.
Qed.

Lemma voting_consistent :
  inputs_ok (Pol := consistent_policy same_ledger) voting engine.
Proof.
  apply inputs_ok_static. unfold voting.
  repeat first [apply Forall_nil_2 | apply Forall_cons_2]; intros c;
    first [exact I | left; exact I |
      intros p Hp; vm_compute in Hp; injection Hp as <-; split; reflexivity].
Qed.

(** ** The theorems about runs on this run *)
Example node_refines_steps_witness :
  star (step (Pol := any_policy)) (PBFTEngine.m_cacheProcessor engine)
    (PBFTEngine.m_cacheProcessor (after whole_run)) (emitted whole_run).
Proof.
  apply (node_refines_steps (Pol := any_policy) whole_run);
    [apply engine_good|apply inputs_ok_any|apply whole_run_runs].
Defined.

Example node_only_advances_witness :
  committed_index (config engine) <= committed_index (config (after whole_run)) /\
  marks (config (after whole_run)).
Proof.
  destruct (node_only_advances (Pol := any_policy) whole_run engine (after whole_run)
    (emitted whole_run) engine_good inputs_ok_any whole_run_runs) as (_ & Hc & _ & Hm).
  split; [exact Hc|]. apply Hm. exact (proj1 engine_sound).
Defined.

Example executed_and_committed_in_order_witness :
  exists p, AsyncCommitStableCheckPoint p ∈ emitted whole_run /\
    committed_index (config engine) < PBFTProposal.index p <=
      committed_index (config (after whole_run)) + 1.
Proof.
  assert (Hp : exists p, AsyncCommitStableCheckPoint p ∈ emitted whole_run).
  { eexists. apply (list_elem_of_lookup_2 _ 8). vm_compute. reflexivity. }
  destruct Hp as [p Hp]. exists p. split; [exact Hp|].
  exact (proj2 (executed_and_committed_in_order (Pol := any_policy) whole_run engine
    (after whole_run) (emitted whole_run) engine_good engine_sound inputs_ok_any
    whole_run_runs) p Hp).
Defined.

(** At the end of [voting] the cache of the block reports a checkpoint quorum. *)
Lemma voting_quorum :
  exists this,
    PBFTCacheProcessor.m_caches (PBFTEngine.m_cacheProcessor (after voting)) !! 1 = Some this /\
    PBFTCache.collectEnoughCheckpoint (config (after voting)) this = true /\
    PBFTProposal.hash <$> PBFTCache.m_checkpointProposal this = Some 77.
Proof. eexists. split; [vm_compute; reflexivity|]. vm_compute. split; reflexivity. Qed.

Example quorums_are_distinct_voters_witness :
  exists this p X,
    PBFTCache.m_checkpointProposal this = Some p /\
    supporters (config (after voting)) (PBFTCache.m_checkpointCacheList this)
      (PBFTCache.m_index this) (PBFTProposal.hash p) X.
Proof.
  destruct voting_quorum as (this & Ht & Hq & _). exists this.
  exact (proj2 (proj2 (quorums_are_distinct_voters (Pol := consistent_policy same_ledger) nodes
    voting engine (after voting) (emitted voting) 1 this (fun _ H => H)
    engine_good engine_fair voting_consistent voting_runs Ht)) Hq).
Defined.

(** ** A network: the nodes 0, 1 and 2 run the code, node 3 is silent *)
Definition node (k : IndexType) : PBFTEngine.t :=
  let e0 := PBFTEngine.create (PBFTConfig.create (k + 1)) in
  state_of e0 ((PBFTImpl.init (ledger 0 7) None ;; PBFTEngine.start) e0).

(** The leader submits the block, the others receive it; then every node receives the
    votes of the two others. *)
Definition receives (k : IndexType) : list PBFTImpl.input :=
  (if k =? 1 then [PBFTImpl.SubmitProposal false (PBFTProposal.data block) 1 42]
   else [PBFTImpl.ConsensusMessage false (Some 2) (Packet (MPBFT prePrepare)); PBFTImpl.Worker;
         PBFTImpl.PrePrepareVerified false true prePrepare false]) ++
  concat (map (fun t => concat (map (fun i =>
    if i =? k then [] else [vote t (i + 1) block; PBFTImpl.Worker]) [0; 1; 2]))
    [PreparePacket; CommitPacket]).

Definition reaches (k : IndexType) : PBFTEngine.t :=
  match PBFTImpl.run (receives k) (node k) with Some (e, _) => e | None => node k end.
Definition sends (k : IndexType) : list Event :=
  match PBFTImpl.run (receives k) (node k) with Some (_, es) => es | None => [] end.

Lemma correct_cases k : correct nodes {[ 3 ]} k -> k = 0 \/ k = 1 \/ k = 2.
Proof. intros (Hk & _ & HF). change (Z.of_nat (length nodes)) with 4 in Hk. set_unfold. lia. Qed.

Lemma node_fresh k : k = 0 \/ k = 1 \/ k = 2 -> fresh nodes k (node k).
Proof.
  intros [-> |[-> | ->]]; (split; [reflexivity|reflexivity|split; vm_compute; congruence|
    reflexivity|split; [|reflexivity]|reflexivity|split; reflexivity|reflexivity]);
    apply list.Forall_forall; repeat constructor; vm_compute; congruence.
Qed.

(** A received vote names its proposal, and the commit requests were sent. *)
Lemma vote_ok t i c :
  i = 0 \/ i = 1 \/ i = 2 -> t = PreparePacket \/ t = CommitPacket ->
  input_ok (Pol := network_policy nodes {[ 3 ]} sends) c (vote t (i + 1) block).
Proof.
  intros Hi Ht. split; [by intros p [= <-]|]. intros _. right.
  destruct Hi as [-> |[-> | ->]], Ht as [-> | ->]; vm_compute; constructor.
Qed.

Lemma prePrepare_ok : good (Policy := network_policy nodes {[ 3 ]} sends) prePrepare.
Proof. split; [by intros p [= <-]|done]. Qed.

Lemma receives_ok k :
  inputs_ok (Pol := network_policy nodes {[ 3 ]} sends) (receives k) (node k).
Proof.
  apply inputs_ok_static. unfold receives. apply Forall_app_2.
  - destruct (k =? 1); repeat first [apply Forall_nil_2 | apply Forall_cons_2]; intros c;
      first [exact I | exact prePrepare_ok].
  - cbn [map concat]. repeat apply Forall_app_2; try apply Forall_nil_2;
      (destruct (_ =? k); repeat first [apply Forall_nil_2 | apply Forall_cons_2]; intros c;
       first [exact I | apply vote_ok; auto]).
Qed.

Lemma demo_network : network nodes {[ 3 ]} receives node reaches sends.
Proof.
  split; intros k Hk%correct_cases; [by apply node_fresh|apply receives_ok|].
  destruct Hk as [-> |[-> | ->]]; vm_compute; reflexivity.
Qed.

(** The leader and node 2 have both collected a commit quorum for block 1. *)
Lemma commit_quorum_of k :
  k = 1 \/ k = 2 ->
  exists this q, PBFTCacheProcessor.m_caches (PBFTEngine.m_cacheProcessor (reaches k)) !! 1 = Some this /\
    PBFTCache.m_prePrepare this = Some q /\
    PBFTCache.collectEnoughCommitReq (config_of (reaches k)) this = true.
Proof.
  intros [-> | ->]; (eexists _, _; split; [vm_compute; reflexivity|]);
    (split; [reflexivity|vm_compute; reflexivity]).
Qed.

Lemma correct_node k : k = 1 \/ k = 2 -> correct nodes {[ 3 ]} k.
Proof.
  intros Hk. change (correct nodes {[ 3 ]} k) with
    (0 <= k < 4 /\ is_u64 k /\ (k ∉ ({[ 3 ]} : gset Z))).
  unfold is_u64, two64. split; [lia|]. split; [lia|]. set_unfold. lia.
Qed.

Example agreement_witness :
  exists this this' q q',
    PBFTCacheProcessor.m_caches (PBFTEngine.m_cacheProcessor (reaches 1)) !! 1 = Some this /\
    PBFTCacheProcessor.m_caches (PBFTEngine.m_cacheProcessor (reaches 2)) !! 1 = Some this' /\
    PBFTCache.m_prePrepare this = Some q /\ PBFTCache.m_prePrepare this' = Some q' /\
    PBFTMessage.hash q = PBFTMessage.hash q'.
Proof.
  destruct (commit_quorum_of 1 (or_introl eq_refl)) as (this & q & Hn & Hq & Hc).
  destruct (commit_quorum_of 2 (or_intror eq_refl)) as (this' & q' & Hn' & Hq' & Hc').
  exists this, this', q, q'. split; [exact Hn|]. split; [exact Hn'|]. split; [exact Hq|].
  split; [exact Hq'|].
  refine (agreement nodes {[ 3 ]} receives node reaches sends 1 2 1 this this' q q' demo_network
    _ (correct_node 1 (or_introl eq_refl)) (correct_node 2 (or_intror eq_refl)) Hn Hn' Hq Hq'
    Hc Hc').
  vm_compute. congruence.
Defined.

Lemma node_good `{Pol : Policy} : good_engine (node 0).
Proof. vm_compute. constructor. Qed.

Lemma node_safe : safe (PBFTEngine.m_cacheProcessor (node 0)).
Proof. split; [split; vm_compute; congruence|]. intros i c Hc. by vm_compute in Hc. Qed.

Example commit_lock_witness :
  exists h h', (1, h) ∈ commits (sends 0) /\ (1, h') ∈ commits (sends 0) /\ h = h'.
Proof.
  assert (Hin : (1, 42) ∈ commits (sends 0)) by (vm_compute; constructor).
  exists 42, 42. split; [exact Hin|]. split; [exact Hin|].
  refine (commit_lock (same_nodes nodes) (authentic {[ 3 ]} sends) (receives 0) (node 0) (reaches 0)
    (sends 0) 1 42 42 _ _ (receives_ok 0) _ Hin Hin).
  - apply node_good.
  - exact node_safe.
  - vm_compute. reflexivity.
Defined.

(** ** From the checkpoint quorum to the validator of another node

    The block after its execution, with the header's hash. *)
Definition sealed_block : PBFTProposal.t :=
  executed <| PBFTProposal.data := [Demo.byte_of 1; Demo.byte_of 77; Demo.byte_of 1] |>.
Definition stabilising : list PBFTImpl.input := [
  PBFTImpl.ConsensusMessage false (Some 2) (Packet (MPBFT prePrepare)); PBFTImpl.Worker;
  PBFTImpl.PrePrepareVerified false true prePrepare false;
  vote PreparePacket 2 block; vote PreparePacket 3 block; PBFTImpl.Worker; PBFTImpl.Worker;
  vote CommitPacket 2 block; vote CommitPacket 3 block; PBFTImpl.Worker; PBFTImpl.Worker;
  PBFTImpl.ApplyFinished true block sealed_block;
  PBFTImpl.ProposalApplied true block sealed_block;
  vote CheckPoint 2 sealed_block; vote CheckPoint 4 sealed_block; PBFTImpl.Worker; PBFTImpl.Worker].

Lemma stabilising_consistent :
  inputs_ok (Pol := consistent_policy same_ledger) stabilising engine.
Proof.
  apply inputs_ok_static. unfold stabilising.
  repeat first [apply Forall_nil_2 | apply Forall_cons_2]; intros c;
    first [exact I | left; exact I |
      intros p Hp; vm_compute in Hp; injection Hp as <-; split; reflexivity].
Qed.

Lemma engine_attested : attested nodes (PBFTEngine.m_cacheProcessor engine).
Proof.
  split; [exact engine_fair| | |constructor].
  - intros node Hn. vm_compute in Hn. by injection Hn as <-.
  - intros i c Hc. by vm_compute in Hc.
Qed.

(** The stable checkpoint of the run. *)
Definition stable_block : PB.PBFTProposal.t :=
  PB.PBFTProposal.mk
    (PB.Proposal.setData (PBFTProposal.data sealed_block)
      (PB.Proposal.setHash 77 (PB.Proposal.setIndex 1 PB.Proposal.create)))
    [0; 1; 3] [sign 1 77; sign 2 77; sign 4 77].

Example committed_blocks_are_accepted_witness :
  let _ := BlockDemo.blocks in
  exists h',
    LedgerStorage.asyncCommitStableCheckPoint stable_block LedgerStorage.create =
      Done tt LedgerStorage.create [LedgerStorage.EnqueueCommit h' stable_block] /\
    BlockValidator.checkSignatureList (config (node 2)) h' = true.
Proof.
  intros Bl. pose proof (BlockDemo.block_laws : BlockLaws) as Laws.
  destruct (committed_blocks_are_accepted (Bl := Bl) nodes same_ledger stabilising engine
    (after stabilising) (emitted stabilising) stable_block
    (BlockDemo.mkHeader 1 77 1 [1; 2; 3; 4] [1; 1; 1; 1] [] []) LedgerStorage.create
    (config (node 2))) as (h' & He & _ & _ & _ & Hc).
  - done.
  - intros k h. apply bool_decide_eq_true. reflexivity.
  - reflexivity.
  - exact engine_attested.
  - exact stabilising_consistent.
  - vm_compute. reflexivity.
  - apply (list_elem_of_lookup_2 _ 8). vm_compute. reflexivity.
  - reflexivity.
  - reflexivity.
  - reflexivity.
  - reflexivity.
  - exists h'. split; [exact He|exact Hc].
Defined.

(** ** Node 0 cut off from all the others *)
Definition lonely : P.t :=
  let s := PBFTEngine.m_cacheProcessor engine in
  s <| P.m_config := (P.m_config s) <| PBFTConfig.m_connectedNodeList := {[ 1 ]} |> |>.

Lemma lonely_racing : racing (P.m_config lonely).
Proof. split; [vm_compute; split; congruence|intros _; vm_compute; split; congruence]. Qed.

Example fast_view_change_terminates_witness :
  exists s' k, final (P.resetTimer PBFTEngine.fastViewChangeHandler lonely) = Some s' /\
    0 < k <= 4 /\
    u64 (PBFTConfig.m_toView (P.m_config s')) = u64 (PBFTConfig.m_toView (P.m_config lonely) + k) /\
    stopped (P.m_config s') (lead (P.m_config s')).
Proof.
  pose proof (fast_view_change_terminates lonely lonely_racing eq_refl) as H.
  assert (Hd : exists u s' es, P.resetTimer PBFTEngine.fastViewChangeHandler lonely = Done u s' es).
  { eexists _, _, _. vm_compute. reflexivity. }
  destruct Hd as (u & s' & es & Hd). change PBFTCacheProcessor.resetTimer with P.resetTimer in H.
  assert (Hm : (match P.resetTimer PBFTEngine.fastViewChangeHandler lonely with
    Done _ s _ => u64 (PBFTConfig.m_toView (P.m_config s)) | _ => 0 end) = 3)
    by (vm_compute; reflexivity).
  assert (H0 : u64 (PBFTConfig.m_toView (P.m_config lonely) + 0) = 0) by (vm_compute; reflexivity).
  rewrite Hd in H, Hm. destruct H as (k & Hk & Hv & Hw & Hs).
  assert (Hpos : 0 < k).
  { destruct (Z.eq_dec k 0) as [-> |]; [|lia]. rewrite H0 in Hv. congruence. }
  exists s', k. rewrite Hd. split; [reflexivity|]. split; [split; [exact Hpos|apply Hw; vm_compute; reflexivity]|].
  split; [exact Hv|]. apply Hs; [exact Hpos|by destruct u].
Defined.

(** ** The leader's proposal is admitted, a proposal of another node is not *)
Lemma engine_sane : sane_engine 4 engine.
Proof.
  split; [|constructor]. split; [split|..].
  - eexists. split; [reflexivity|]. unfold balanced. vm_compute. lia.
  - reflexivity.
  - reflexivity.
  - reflexivity.
  - split; reflexivity.
  - intros _. vm_compute. split; congruence.
  - reflexivity.
  - intros i c H. by vm_compute in H.
  - intros v l k m H. by vm_compute in H.
  - done.
Qed.

(** The first pre-prepare of the leader of block 1, for any view and any proposal. *)
Definition offered (p : PBFTProposal.t) (v : ViewType) : PBFTMessage.t :=
  PBFTMessage_encode 2 (populateWith PrePreparePacket p 0 v 0 1).

Lemma offered_wire p v : prePrepare_wire 4 (offered p v).
Proof.
  split; [by intros q [= <-]|]. intros b [= <-]. by vm_compute.
Qed.

(** Another proposal for block 1. *)
Definition rival : PBFTProposal.t :=
  PBFTProposal.create <| PBFTProposal.index := 1 |> <| PBFTProposal.hash := 43 |>
    <| PBFTProposal.data := [Demo.byte_of 1; Demo.byte_of 43; Demo.byte_of 8] |>.

Lemma engine_admits t g c m :
  m = offered block 0 \/ m = offered rival 1 ->
  admissible t g c (PBFTEngine.m_cacheProcessor engine) m.
Proof.
  intros [-> | ->]; (split; [| |split| | | | |]);
    lazymatch goal with
    | |- is_Some _ => eexists; vm_compute; reflexivity
    | |- (_ <= _)%Z => vm_compute; discriminate
    | |- _ = _ -> is_Some _ => intros _; eexists; vm_compute; reflexivity
    | |- _ = _ -> _ = _ -> _ => intros _ _; vm_compute; reflexivity
    | |- _ = _ -> _ => intros _; vm_compute; reflexivity
    | |- forall q, _ => intros q H; vm_compute in H; discriminate
    | |- _ => vm_compute; reflexivity
    end.
Qed.

Example prePrepare_verdict_witness :
  let s := PBFTEngine.m_cacheProcessor engine in
  let m := offered block 0 in
  let other := m <| PBFTMessage.base :=
    (PBFTMessage.base m) <| BaseMessage.raw_generatedFrom := 2 |> |> in
  (exists s' es, PBFTEngine.handlePrePrepareMsg m false false false s = Done true s' es /\
     exists x, broadcasts PreparePacket es = [x] /\ PBFTMessage.hash x = 42) /\
  (exists s' es, PBFTEngine.handlePrePrepareMsg other true false true s = Done false s' es).
Proof.
  intros s m other. split.
  - destruct (prePrepare_verdict 4 nowhere s m false false false (proj1 engine_sane) (offered_wire _ _))
      as [H _].
    destruct (H (engine_admits false false false m (or_introl eq_refl))) as (p & Hp & Ho).
    injection Hp as <-.
    assert (Hb : createBlock (PBFTProposal.data block) <> None) by by vm_compute.
    destruct (createBlock (PBFTProposal.data block)); [|done].
    destruct Ho as (s' & es & Ho & _ & [Hx _]). exists s', es. split; [exact Ho|].
    eexists. split; [exact Hx|reflexivity].
  - assert (Hw : prePrepare_wire 4 other).
    { split; [by intros q [= <-]|]. intros b [= <-]. by vm_compute. }
    destruct (prePrepare_verdict 4 nowhere s other true false true (proj1 engine_sane) Hw) as [_ H].
    destruct H as (s' & es & Ho & _); [|by exists s', es].
    intros [_ _ _ _ _ Hl _ _]. specialize (Hl eq_refl). by vm_compute in Hl.
Defined.

Lemma voting_has_cache :
  exists this, PBFTCacheProcessor.m_caches (PBFTEngine.m_cacheProcessor (after voting)) !! 1 = Some this /\
    PBFTCache.m_prepareReqWeight this !! 42 = Some 3.
Proof. eexists. split; vm_compute; reflexivity. Qed.

Example tables_equal_recount_witness :
  exists this,
    PBFTCacheProcessor.m_caches (PBFTEngine.m_cacheProcessor (after voting)) !! 1 = Some this /\
    default 0 (PBFTCache.recalculateQuorum (config (after voting))
      (PBFTCache.m_prepareCacheList this) !! 42) = 3.
Proof.
  destruct voting_has_cache as (this & Ht & Hw). exists this. split; [exact Ht|].
  destruct (tables_equal_recount (Pol := consistent_policy same_ledger) nodes
    voting engine (after voting) (emitted voting) 1 this (fun _ H => H)
    engine_good engine_fair voting_consistent voting_runs Ht) as [Hp _].
  destruct (Hp 42) as [He _]. rewrite <- He, Hw. reflexivity.
Defined.

(** ** The run neither faults nor could be made to, but for one packet *)
Lemma prePrepare_sane : sane_prePrepare 4 prePrepare.
Proof. split; [by eexists|]. intros b [= <-]. vm_compute. split; congruence. Qed.

Lemma inputs_are_sane e : inputs_sane 4 whole_run e.
Proof.
  apply inputs_sane_static. unfold whole_run, voting.
  repeat first [apply Forall_nil_2 | apply Forall_cons_2]; intros e';
    first [exact I | exact prePrepare_sane | by split
      | split; [by eexists|first [exact I | by split | by apply sane_prePrepare_wire, prePrepare_sane]]].
Qed.

Lemma ledger_usable : usable (ledger 0 7).
Proof.
  split; [vm_compute; congruence|done|vm_compute; congruence|done| |vm_compute; congruence].
  apply list.Forall_forall. repeat constructor; vm_compute; congruence.
Qed.

Example started_node_never_faults_witness :
  exists e es e' es',
    PBFTImpl.init (ledger 0 7) None (PBFTEngine.create (PBFTConfig.create 1)) = Done tt e es /\
    PBFTImpl.run whole_run e = Some (e', es') /\ sane_engine 4 e' /\ Forall (sane_event 4) es'.
Proof.
  destruct (started_node_never_faults (ledger 0 7) None (PBFTConfig.create 1) ledger_usable)
    as (e & es & Hi & Hr); [reflexivity|by split|by split; [|constructor]|].
  destruct (Hr whole_run (inputs_are_sane e)) as (e' & es' & Hrun & Hs).
  exists e, es, e', es'. split; [exact Hi|]. split; [exact Hrun|exact Hs].
Defined.

(** A view change of an outsider for block 5. *)
Definition poison : ViewChangeMsg.t :=
  ViewChangeMsg.create
    <| ViewChangeMsg.packetType := ViewChangePacket |>
    <| ViewChangeMsg.committedProposal := Some (block <| PBFTProposal.index := 5 |>) |>
    <| ViewChangeMsg.preparedProposals := [PBFTMessage.create <| PBFTMessage.consensusProposal :=
         Some (block <| PBFTProposal.signatureList := [[]] |>) |>] |>.

Example malformed_view_change_stops_node_witness :
  PBFTImpl.run [PBFTImpl.ConsensusMessage false (Some 99) (Packet (MViewChange poison));
    PBFTImpl.Worker] engine = None.
Proof.
  apply (malformed_view_change_stops_node 4); [exact engine_sane|split; reflexivity|].
  split; [reflexivity| | | |].
  - eexists. split; [reflexivity|reflexivity].
  - vm_compute. congruence.
  - vm_compute. congruence.
  - eexists _, _. split; [reflexivity|]. split; [vm_compute; congruence|].
    split; [reflexivity|]. split; [reflexivity|done].
Defined.

(** ** Votes that overtake the pre-prepare, and one that comes twice *)
Definition request (t : PacketType) (k : NodeID) : PBFTMessage.t :=
  PBFTMessage_encode k (populateSigned t 0 0 0 (k - 1) block k true).
Definition overtaking : list ballot :=
  [Commit (request CommitPacket 3); Prepare (request PreparePacket 3);
   Prepare (request PreparePacket 3)].
Definition following : list ballot :=
  [Commit (request CommitPacket 2); Prepare (request PreparePacket 4);
   Commit (request CommitPacket 4)].

Example votes_decide_once_witness :
  exists bs f es,
    election overtaking prePrepare (request PreparePacket 1) following
      (C.Frame (config engine) (C.create (config engine) 1)) = Done bs f es /\
    C.m_precommitted (C.f_this f) = true /\ C.m_submitted (C.f_this f) = true /\
    decisions bs = 1%nat /\ announced (config engine) 1 42 es.
Proof.
  apply (votes_decide_once 4 (config engine) 1 42 overtaking prePrepare
    (request PreparePacket 1) following).
  - exact (sn_config _ _ _ (proj1 engine_sane)).
  - exact (fair_nodes _ _ engine_fair).
  - reflexivity.
  - exact prePrepare_sane.
  - split; [reflexivity..|]. by intros p [= <-].
  - repeat constructor; by eexists.
Defined.

(** ** A new view *)

(** The view change of node [i] (key [i + 1]) to view 3, with a prepared proposal. *)
Definition certificate (v : ViewType) (p : PBFTProposal.t) : PBFTMessage.t :=
  populateWith PrePreparePacket p 0 v 0 1.
Definition asks_for (i : IndexType) (m : PBFTMessage.t) : ViewChangeMsg.t :=
  ViewChangeMsg.create
    <| ViewChangeMsg.packetType := ViewChangePacket |>
    <| ViewChangeMsg.base := BaseMessage.create 0 0 7 3 0 i |>
    <| ViewChangeMsg.committedProposal := Some (PBFTProposal.create <| PBFTProposal.hash := 7 |>) |>
    <| ViewChangeMsg.preparedProposals := [m] |>.
(** Node 1 prepared the block in view 0, node 2 in view 2, node 3 the rival in view 1. *)
Definition requests : list ViewChangeMsg.t :=
  [asks_for 1 (certificate 0 block); asks_for 2 (certificate 2 block);
   asks_for 3 (certificate 1 rival)].

Definition moving_to (v : ViewType) (s : P.t) : P.t :=
  s <| P.m_config := (P.m_config s) <| PBFTConfig.m_toView := v |> |>.
Lemma moving_to_sane v s : sane_node 4 nowhere s -> sane_node 4 nowhere (moving_to v s).
Proof.
  intros [H1 H2 H3 H4]. split; try done.
  apply (config_modify 4 (fun c => c <| PBFTConfig.m_toView := v |>)); [|exact H1].
  intros c. by repeat split.
Qed.

(** The node is to lead view 3. *)
Definition expecting : P.t := moving_to 3 (PBFTEngine.m_cacheProcessor engine).
Lemma expecting_sane : sane_node 4 nowhere expecting.
Proof. apply moving_to_sane, (proj1 engine_sane). Qed.

Definition collecting (l : list ViewChangeMsg.t) : P.t :=
  match for_each l P.addViewChangeReq expecting with
  | Done _ s _ | Threw _ s _ => s
  | Crashed _ => expecting
  end.
Definition asked : P.t := collecting requests.

Lemma asks_collectable i v p :
  PBFTProposal.signatureList p = [] -> collectable 4 (asks_for i (certificate v p)).
Proof.
  intros Hp. split; [by eexists|]. apply Forall_cons_2; [|apply Forall_nil_2].
  split; [by eexists|by split|by intros b [=]|].
  intros q [= <-]. unfold balanced. rewrite Hp. simpl. lia.
Qed.

Lemma collecting_sane l : Forall (collectable 4) l -> sane_node 4 nowhere (collecting l).
Proof.
  intros H.
  assert (Hk : keeps no_fault (sane_event 4) (sane_node 4 nowhere)
    (for_each l P.addViewChangeReq)).
  { induction H as [|v l Hv _ IH]; [apply keeps_ret|].
    apply keeps_bind; [by apply addViewChangeReq_kept|]. by intros []. }
  specialize (Hk expecting expecting_sane). unfold collecting. revert Hk.
  generalize (for_each l P.addViewChangeReq expecting). intros [a s es|x s es|f] Hk;
    [exact (proj1 Hk)|exact (proj1 Hk)|destruct Hk].
Qed.

Lemma asked_sane : sane_node 4 nowhere asked.
Proof. apply collecting_sane. apply list.Forall_forall. intros m Hm.
  repeat (apply elem_of_cons in Hm as [-> | Hm]; [by apply asks_collectable|]).
  by apply elem_of_nil in Hm.
Qed.

Lemma asked_ready : enter_ready asked = true.
Proof. vm_compute. reflexivity. Qed.
Lemma asked_indices : reproposed_indices asked = [1].
Proof. vm_compute. reflexivity. Qed.

Example new_view_verdict_witness :
  exists m s' es, P.checkAndTryIntoNewView asked = Done (Some m) s' es /\
    Forall2 (reproposes (P.m_config asked) (collected_for asked)) [1] (NewViewMsg.prePrepareList m).
Proof.
  destruct (new_view_verdict 4 nowhere asked asked_sane) as (o & s' & es & E & H).
  rewrite asked_ready in H. destruct H as (m & Ho & _ & _ & _ & _ & _ & _ & Hl).
  rewrite asked_indices in Hl. exists m, s', es. split; [by rewrite E, Ho|exact Hl].
Defined.

(** Three nodes report a prepared proposal for block 2, and the node cleans up. *)
Definition second : PBFTProposal.t := block <| PBFTProposal.index := 2 |>.
Definition reports : list ViewChangeMsg.t :=
  [asks_for 1 (certificate 0 second); asks_for 2 (certificate 0 second);
   asks_for 3 (certificate 0 second)].
Lemma reports_sane : sane_node 4 nowhere (collecting reports).
Proof. apply collecting_sane. apply list.Forall_forall. intros m Hm.
  repeat (apply elem_of_cons in Hm as [-> | Hm]; [by apply asks_collectable|]).
  by apply elem_of_nil in Hm.
Qed.

Example reset_forgets_prepared_proposals_witness :
  reproposed_indices (collecting reports) = [1; 2] /\
  exists s' nv s3 es, P.removeConsensusedCache 0 0 (collecting reports) = Done tt s' [] /\
    P.checkAndTryIntoNewView s' = Done (Some nv) s3 es /\
    asks_for 1 (certificate 0 second) ∈ NewViewMsg.viewChangeMsgList nv /\
    length (NewViewMsg.prePrepareList nv) = 1%nat.
Proof.
  split; [vm_compute; reflexivity|].
  set (m := asks_for 1 (certificate 0 second)).
  assert (Hm : has_view_change (collecting reports) 3 1 m) by (vm_compute; reflexivity).
  assert (Hn : 0 <= ViewChangeMsg.index m) by (vm_compute; discriminate).
  destruct (reset_forgets_prepared_proposals 4 nowhere (collecting reports) 0 0 3 1 m reports_sane
    Hm eq_refl eq_refl eq_refl Hn) as (s' & E & _ & _ & H).
  assert (Hr : enter_ready s' = true).
  { assert (X : match P.removeConsensusedCache 0 0 (collecting reports) with
      Done _ s _ => enter_ready s | _ => false end = true) by (vm_compute; reflexivity).
    rewrite E in X. exact X. }
  assert (Hc : P.m_config s' = P.m_config (collecting reports)).
  { change (P.m_config (collecting reports)) with
      (match P.removeConsensusedCache 0 0 (collecting reports) with
       Done _ s _ => P.m_config s | _ => P.m_config (collecting reports) end). by rewrite E. }
  assert (Hid : s' <| P.m_config := P.m_config s' |> = s') by by destruct s'.
  destruct (H (P.m_config s')) as (nv & s3 & es & E2 & Hin & Hf).
  - rewrite Hc. exact (sn_config _ _ _ reports_sane).
  - rewrite Hc. vm_compute. reflexivity.
  - by rewrite Hid.
  - exists s', nv, s3, es. rewrite Hid in E2. split; [exact E|]. split; [exact E2|]. split; [exact Hin|].
    apply Forall2_length in Hf. rewrite <- Hf, Hc. vm_compute. reflexivity.
Defined.

Example older_proposal_replaces_newer_witness :
  exists m s' es x p, P.checkAndTryIntoNewView asked = Done (Some m) s' es /\
    x ∈ NewViewMsg.prePrepareList m /\ proposed (P.m_config asked) x p /\ Some rival = Some p.
Proof.
  apply (older_proposal_replaces_newer 4 nowhere asked 1 1 2 3 (certificate 0 block)
    (certificate 2 block) (certificate 1 rival)).
  - exact asked_sane.
  - exact asked_ready.
  - vm_compute. split; congruence.
  - vm_compute. reflexivity.
  - reflexivity.
  - vm_compute. congruence.
  - split; reflexivity.
Defined.

(** A new view of node 2 that lists its own view change three times. *)
Definition own_change : ViewChangeMsg.t :=
  encode_viewChange 3 (ViewChangeMsg.create
    <| ViewChangeMsg.packetType := ViewChangePacket |>
    <| ViewChangeMsg.base := BaseMessage.create 0 0 7 0 0 2 |>
    <| ViewChangeMsg.committedProposal := Some (PBFTProposal.create <| PBFTProposal.hash := 7 |>) |>).
Definition lone_view : NewViewMsg.t :=
  encode_newView 3 (NewViewMsg.create
    <| NewViewMsg.base := BaseMessage.create 0 0 7 1 0 2 |>
    <| NewViewMsg.viewChangeMsgList := replicate 3 own_change |>).

Lemma own_change_acceptable : acceptable (PBFTEngine.m_cacheProcessor engine) own_change.
Proof.
  split; [|vm_compute; congruence|vm_compute; congruence|vm_compute; reflexivity|vm_compute; reflexivity].
  exists (PBFTProposal.create <| PBFTProposal.hash := 7 |>). split; [vm_compute; reflexivity|].
  split; [vm_compute; congruence|]. intros q Hq _. vm_compute in Hq. injection Hq as <-. reflexivity.
Qed.

Lemma lone_view_lone : lone (PBFTEngine.m_cacheProcessor engine) own_change 3 lone_view.
Proof.
  split; [vm_compute; reflexivity|vm_compute; reflexivity|vm_compute; reflexivity|
    exact own_change_acceptable| |vm_compute; congruence|vm_compute; reflexivity].
  split; vm_compute; congruence.
Qed.

Example lone_leader_enters_view_witness :
  PBFTEngine.isValidNewViewMsg lone_view (PBFTEngine.m_cacheProcessor engine) =
    Done true (PBFTEngine.m_cacheProcessor engine) [] /\
  exists s', final (PBFTEngine.handleNewViewMsg lone_view (PBFTEngine.m_cacheProcessor engine)) =
    Some s' /\ NewViewMsg.view lone_view <= PBFTConfig.m_view (P.m_config s').
Proof.
  apply (lone_leader_enters_view 4 (PBFTEngine.m_cacheProcessor engine) own_change 3 lone_view).
  - exact (proj1 engine_sane).
  - exact lone_view_lone.
  - apply Forall_nil_2.
Defined.
