(* ===== verification/NetworkScenario.v ===== *)
(** NetworkScenario: four nodes that talk to each other.  A scheduler that only delivers
    what has been sent, and the run in which node 1 proposes a block and all four nodes
    execute and commit it. *)
From S2P Require Import Prelude Types Timer Validator Config Cache Processor LogSync Engine.
From S2P Require Import Quorum ConfigFacts Steps Refine Impl Behaviour Boot Sane SaneNode FaultFree NoCrash Network Scenario.
#[local] Existing Instance Demo.externals.

(** ** A scheduler *)
Inductive move : Type :=
  | Free (k : nat) (i : PBFTImpl.input)  (* an input without a message *)
  | Deliver (k : nat) (from : option NodeID) (entry : nat)  (* a packet of the log *)
  | Verified (k : nat) (entry : nat).  (* the answer to a request of the log *)

Definition is_free (i : PBFTImpl.input) : bool :=
  match i with
  | PBFTImpl.SubmitProposal _ _ _ _ | PBFTImpl.Worker | PBFTImpl.Timeout | PBFTImpl.Tick _
  | PBFTImpl.ProposalApplied _ _ _ | PBFTImpl.ApplyFinished _ _ _ => true
  | PBFTImpl.StableCheckPointCommitted cfg =>
      Nat.eqb (length (LedgerConfig.consensusNodeList cfg)) 4 &&
      (0 <? LedgerConfig.leaderSwitchPeriod cfg)
  | _ => false
  end.
Definition allowed (mv : move) : bool :=
  match mv with
  | Free _ i => is_free i
  | Deliver _ from _ => bool_decide (is_Some from)
  | Verified _ _ => true
  end.

Definition packet (log : list (nat * Event)) (entry : nat) : Wire :=
  match log !! entry with
  | Some (_, (SendMessageByNodeIDs _ m | SendMessageByNodeID _ m)) => Packet (as_received m)
  | _ => NoData
  end.

Definition planned (n : network) (mv : move) : nat * PBFTImpl.input :=
  match mv with
  | Free k i => (k, i)
  | Deliver k from entry => (k, PBFTImpl.ConsensusMessage false from (packet (net_log n) entry))
  | Verified k entry =>
      (k, match net_log n !! entry with
          | Some (k', VerifyProposal _ _ (OnPrePrepareVerified m g)) =>
              if Nat.eqb k k' then PBFTImpl.PrePrepareVerified false true m g else PBFTImpl.Worker
          | _ => PBFTImpl.Worker
          end)
  end.

Fixpoint plan (l : list move) (n : network) : list (nat * PBFTImpl.input) :=
  match l with
  | [] => []
  | mv :: l =>
      let ki := planned n mv in
      ki :: match net_step ki.1 ki.2 n with Some n' => plan l n' | None => [] end
  end.

Lemma packet_in_flight log entry : in_flight log (packet log entry).
Proof.
  unfold packet. destruct (log !! entry) as [[k e]|] eqn:E; [|done].
  apply list_elem_of_lookup_2 in E.
  destruct e as [dst m|dst m| | | | | | | | | | | | | | | | | | | |]; try done;
    eexists _, _, m; by split; [exact E|].
Qed.

Lemma planned_caused n mv e :
  allowed mv = true -> let '(k, i) := planned n mv in caused 4 (net_log n) k e i.
Proof.
  destruct mv as [k i|k from entry|k entry]; simpl; intros Ha.
  - destruct i; try done. apply andb_true_iff in Ha as [Hl%Nat.eqb_eq Hp%Z.ltb_lt]. by split.
  - split; [by eapply bool_decide_eq_true_1|apply packet_in_flight].
  - destruct (net_log n !! entry) as [[k' ev]|] eqn:E; [|done].
    destruct ev as [| | | |from p []| | | | | | | | | | | | | | | | |]; try done.
    destruct (Nat.eqb_spec k k') as [->|]; [|done].
    exists from, p. by apply list_elem_of_lookup_2 in E.
Qed.

Lemma plan_ok l n : forallb allowed l = true -> schedule_ok 4 (plan l n) n.
Proof.
  revert n. induction l as [|mv l IH]; intros n; [done|].
  cbn [forallb plan]. intros [Ha Hl]%andb_true_iff. pose proof (planned_caused n mv) as Hc.
  destruct (planned n mv) as [k i]. cbn [schedule_ok fst snd]. split.
  - intros e _. by apply Hc.
  - intros n' ->. by apply IH.
Qed.

(** ** A round of the four nodes *)
Definition started_node (k : NodeID) : PBFTEngine.t :=
  let e0 := PBFTEngine.create (PBFTConfig.create k) in
  state_of e0 (PBFTImpl.init (ledger 0 7) None e0).
Definition four : list PBFTEngine.t := [started_node 1; started_node 2; started_node 3; started_node 4].

(** What the services and the network do about entry [entry] of the log: broadcasts reach
    their destinations, where a worker handles them; proposals are verified and executed;
    stable checkpoints are written to the ledger. *)
Definition deliveries (k : nat) (dst : list NodeID) (entry : nat) : list move :=
  concat (map (fun k' =>
    if bool_decide (Z.of_nat k' + 1 ∈ dst)
    then [Deliver k' (Some (Z.of_nat k + 1)) entry; Free k' PBFTImpl.Worker] else [])
    [0; 1; 2; 3]%nat).
Definition react (entry : nat) (ke : nat * Event) : list move :=
  let '(k, e) := ke in
  match e with
  | SendMessageByNodeIDs dst _ => deliveries k dst entry
  | VerifyProposal _ _ _ => [Verified k entry]
  | AsyncApply _ _ p => [Free k (PBFTImpl.ApplyFinished true p executed)]
  | EnqueueProposalApplied ok p q => [Free k (PBFTImpl.ProposalApplied ok p q)]
  | AsyncCommitStableCheckPoint p =>
      [Free k (PBFTImpl.StableCheckPointCommitted
         (ledger (PBFTProposal.index p) (PBFTProposal.hash p)))]
  | _ => []
  end.

(** The entries of the log from [entry] on, one after the other, as long as there are any. *)
Fixpoint gossip (fuel entry : nat) (n : network) : list move :=
  match fuel with
  | O => []
  | S fuel =>
      match net_log n !! entry with
      | None => []
      | Some ke =>
          let moves := react entry ke in
          match net_run (plan moves n) n with
          | Some n' => moves ++ gossip fuel (S entry) n'
          | None => moves
          end
      end
  end.

Definition proposing : move :=
  Free 1 (PBFTImpl.SubmitProposal false (PBFTProposal.data block) 1 42).
Definition run_moves (l : list move) : network :=
  default (Network [] []) (net_run (plan l (Network four [])) (Network four [])).
Definition round : list move := proposing :: gossip 200 0 (run_moves [proposing]).

Definition schedule : list (nat * PBFTImpl.input) := plan round (Network four []).

(** The gossip comes to rest with every node on block 1. *)
Example four_nodes_commit :
  net_log (run_moves round) !! 40%nat = None /\
  map (fun e => committed_index (config_of e)) (net_nodes (run_moves round)) = [1; 1; 1; 1].
Proof. vm_compute. split; reflexivity. Qed.

Lemma node_started k :
  k ∈ [1; 2; 3; 4] -> started (ledger 0 7) (started_node k).
Proof.
  intros Hk. exists (PBFTConfig.create k), None.
  rewrite !elem_of_cons, elem_of_nil in Hk. destruct Hk as [->|[->|[->|[->|[]]]]];
    (eexists; split; [by split|]; split; [by split; [|constructor]|]; vm_compute; reflexivity).
Qed.

Example network_never_faults_witness :
  exists n, net_run schedule (Network four []) = Some n /\ Forall (sane_engine 4) (net_nodes n).
Proof.
  apply (network_never_faults (ledger 0 7)); [apply ledger_usable|reflexivity| |].
  - repeat constructor; apply node_started; rewrite !elem_of_cons; tauto.
  - apply plan_ok. vm_compute. reflexivity.
Defined.
