(* ===== verification/Equivocation.v ===== *)
(** Equivocation: what a faulty leader can make correct nodes do.  A pre-prepare of a
    later view is accepted from the leader of the current view, and the prepare request
    for it carries the current view: a correct node prepares two proposals in one view.
    On a run of four nodes the two proposals are precommitted by two correct nodes. *)
From S2P Require Import Prelude Types Timer Validator Config Cache Processor LogSync Engine.
From S2P Require Import Quorum ConfigFacts CacheFacts Steps Node Growth Refine Impl Behaviour.
From S2P Require Import Boot Sane SaneNode FaultFree PrePrepare Scenario.

Section Twice.
Context `{Ext : Externals}.

Lemma prepare_of_base c m p :
  let x := prepare_of c m p in
  PBFTMessage.index x = PBFTMessage.index m /\ PBFTMessage.hash x = PBFTProposal.hash p /\
  PBFTMessage.view x = u64 (i64 (PBFTConfig.m_view c)) /\
  PBFTMessage.generatedFrom x = u64 (i64 (PBFTConfig.nodeIndex c)).
Proof. simpl. repeat split. Qed.

(** Nothing is left to precommit. *)
Definition waiting (c : PBFTConfig.t) (this : C.t) : Prop :=
  C.m_precommitted this = true \/
  (C.m_precommit this = None /\ C.collectEnoughPrepareReq c this = false).

Lemma for_each_idle {E S A} (f : A -> Eff E S unit) l s :
  (forall x, x ∈ l -> f x s = Done tt s []) -> for_each l f s = Done tt s [].
Proof.
  induction l as [|x l IH]; intros H; simpl; [done|]. unfold mbind, eff_bind.
  rewrite H by (by left). rewrite IH; [done|]. intros y Hy. apply H. by right.
Qed.

Lemma counting_idle s :
  map_Forall (fun _ => waiting (P.m_config s)) (P.m_caches s) -> counting s = Done tt s [].
Proof.
  intros Hw. assert (H : P.checkAndPreCommit s = Done tt s []).
  { unfold P.checkAndPreCommit. rewrite bind_get. apply for_each_idle.
    intros i [[j this] [-> Hj]]%list_elem_of_fmap. apply elem_of_in_order in Hj. simpl.
    unfold mbind, eff_bind, P.on_cache. rewrite Hj. unfold C.checkAndPreCommit. rewrite bind_get. simpl.
    assert (Hs : s <| P.m_config := P.m_config s |> <| P.m_caches := <[ j := this ]> (P.m_caches s) |> = s).
    { destruct s. simpl in *. by rewrite insert_id. }
    specialize (Hw j this Hj) as [-> | [Hp Hc]]; [simpl; by rewrite Hs|].
    destruct (C.m_precommitted this); [simpl; by rewrite Hs|]. rewrite Hp.
    unfold mbind, eff_bind. simpl. rewrite Hc. simpl. by rewrite Hs. }
  unfold counting, mbind, eff_bind. by rewrite !H.
Qed.

Lemma wp_exact {E S A} (o : outcome E S A) a s es :
  wp no_fault o (fun r s' es' => r = inl a /\ s' = s /\ es' = es) -> o = Done a s es.
Proof. destruct o; simpl; [by intros ([= ->] & -> & ->)|by intros (? & _)|done]. Qed.

(** The own prepare request alone is no quorum. *)
Definition small_vote (c : PBFTConfig.t) : Prop :=
  forall node, PBFTConfig.getConsensusNodeByIndex c (u64 (i64 (PBFTConfig.nodeIndex c))) = Some node ->
  u64 (ConsensusNode.weight node) < PBFTConfig.m_minRequiredQuorum c.

Lemma first_vote c i m p :
  small_vote c -> 0 < PBFTConfig.m_minRequiredQuorum c ->
  PBFTProposal.hash p = PBFTMessage.hash m ->
  waiting c (with_prepare c (with_prePrepare (C.create c i) m) (prepare_of c m p)).
Proof.
  intros Hv Hq Hh. right. split; [done|]. unfold C.collectEnoughPrepareReq.
  apply andb_false_iff. right. simpl. unfold C.collectEnoughQuorum.
  set (w := (C.addCache _ _ _ _ _).2).
  assert (Hw : default 0 (w !! PBFTMessage.hash m) < PBFTConfig.m_minRequiredQuorum c).
  { unfold w, C.addCache. destruct (prepare_of_base c m p) as (_ & -> & _ & ->). rewrite Hh.
    destruct (negb _); [exact Hq|].
    destruct (PBFTConfig.getConsensusNodeByIndex _ _) as [node|] eqn:En; [|exact Hq].
    assert (forall h, (∅ : C.CollectionCacheType) !! h = None) as He by (intros; apply lookup_empty).
    rewrite He. simpl. rewrite lookup_insert_eq. by apply Hv. }
  rewrite <- (log_access_default (PBFTMessage.hash (prepare_of c m p)) w) in Hw.
  destruct (log_access _ _ !! _) as [x|]; [by apply Z.leb_gt|done].
Qed.

(** The node after it has accepted the first pre-prepare for an index. *)
Lemma accept_first s m p b :
  let i := PBFTMessage.index m in
  PBFTMessage.consensusProposal m = Some p -> createBlock (PBFTProposal.data p) = Some b ->
  PBFTProposal.hash p = PBFTMessage.hash m ->
  small_vote (P.m_config s) -> 0 < PBFTConfig.m_minRequiredQuorum (P.m_config s) ->
  P.m_caches s !! i = None ->
  map_Forall (fun _ => waiting (P.m_config s)) (P.m_caches s) ->
  exists s' es, E.acceptPrePrepare m s = Done tt s' es /\ voted s m p s' /\
    broadcasts PreparePacket es = [prepare_of (P.m_config s) m p].
Proof.
  intros i Hp Hb Hh Hv Hq Hi Hw.
  assert (Hnew : new_cache s i = C.create (P.m_config s) i) by (unfold new_cache; by rewrite Hi).
  assert (Hnone : has_proposal (C.m_prePrepare (new_cache s i))) by by rewrite Hnew.
  destruct (acceptPrePrepare_counts s m p b Hp Hb Hnone) as (s' & e & Hs' & He & Hwp).
  exists s', e. split; [|done]. apply wp_exact, Hwp. rewrite counting_idle; [simpl; by rewrite app_nil_r|].
  destruct Hs' as [(v & t & Hc) _ Hcaches]. rewrite Hcaches, Hc. fold i. rewrite Hnew.
  apply map_Forall_insert; [done|]. split.
  - pose proof (first_vote (P.m_config s) i m p Hv Hq Hh) as H. exact H.
  - intros j this Hj. exact (Hw j this Hj).
Qed.

(** What an admissible pre-prepare of a higher view meets in that state. *)
Lemma admissible_after v g c s m m' p s' :
  voted s m p s' -> P.m_caches s !! PBFTMessage.index m = None ->
  PBFTMessage.index m' = PBFTMessage.index m -> PBFTMessage.view m < PBFTMessage.view m' ->
  admissible v g c s m' -> admissible v g c s' m'.
Proof.
  intros [(v' & t & Hc) Hex Hcaches] Hi Hidx Hview [].
  split; unfold committed_index, E.checkSignature in *; rewrite ?Hc, ?Hex; try done.
  - rewrite Hidx in *. unfold new_cache at 1. rewrite Hcaches, lookup_insert_eq. simpl.
    unfold new_cache. rewrite Hi. destruct ad_acceptable as [Hp Hlow Hexp Hvw _ _]. split; try done.
    intros q [= <-]. exact Hview.
  - intros Hg. specialize (ad_leader Hg). revert ad_leader.
    unfold PBFTConfig.leaderIndex, PBFTConfig.leader_of, mbind, eff_bind. simpl.
    destruct (_ || _); [done|]. simpl. intros [= E']. f_equal. exact E'.
Qed.

Lemma admissible_verified s m : admissible true false true s m -> admissible false false false s m.
Proof. intros []. by split. Qed.

Lemma handle_verified s m o :
  ready (P.m_config s) -> admissible false false false s m -> E.acceptPrePrepare m s = o ->
  E.handlePrePrepareMsg m false false false s =
    match o with Done _ s' es => Done true s' es | Threw x s' es => Threw x s' es | Crashed f => Crashed f end.
Proof.
  intros Hr Ha <-. destruct (handlePrePrepareMsg_verdict false false false s m Hr) as [[_ Ht]|[Hn _]];
    [|done].
  simpl in Ht. rewrite Ht. unfold mbind, eff_bind.
  destruct (E.acceptPrePrepare m s); simpl; by rewrite ?app_nil_r.
Qed.

Lemma handle_unverified s m :
  ready (P.m_config s) -> admissible true false true s m ->
  exists request, E.handlePrePrepareMsg m true false true s = Done true s [request].
Proof.
  intros Hr Ha. destruct (handlePrePrepareMsg_verdict true false true s m Hr) as [[_ Ht]|[Hn _]];
    [|done].
  destruct Ht as (node & q & _ & _ & ->). by eexists.
Qed.

Lemma wire_sane N m p :
  prePrepare_wire N m -> PBFTMessage.consensusProposal m = Some p -> sane_prePrepare N m.
Proof. intros [Hh Hf] Hp. split; [exists p; auto|exact Hf]. Qed.

Lemma same_leader v c v' c' s m m' :
  admissible v false c s m -> admissible v' false c' s m' ->
  PBFTMessage.index m' = PBFTMessage.index m ->
  PBFTMessage.generatedFrom m = PBFTMessage.generatedFrom m'.
Proof.
  intros [_ _ _ _ _ H1 _ _] [_ _ _ _ _ H2 _ _] Hi. specialize (H1 eq_refl).
  specialize (H2 eq_refl). rewrite Hi in H2. congruence.
Qed.
End Twice.

(** C9: a leader that proposes two blocks for one index makes a correct node prepare both in
    one view, when it puts a higher view into the second pre-prepare.  Let [s] be any state
    of a node that has seen nothing for the index and has nothing left to precommit, let
    its own vote be no quorum, and let both pre-prepares be admissible there: same index,
    different proposals, the second with the higher view - the leader of the index is
    computed from the view of the node, so both come from the same sender.  Once the first is verified the node broadcasts its
    prepare request; the second is still accepted from the network, and once it
    is verified the node broadcasts a second prepare request, with the same
    index, the same view and its own number as the first, but for the other proposal. *)
Theorem equivocating_leader_prepared_twice `{Ext : Externals} N D s m1 m2 p1 p2 b1 b2 :
  sane_node N D s -> prePrepare_wire N m1 -> prePrepare_wire N m2 ->
  PBFTMessage.consensusProposal m1 = Some p1 -> createBlock (PBFTProposal.data p1) = Some b1 ->
  PBFTMessage.consensusProposal m2 = Some p2 -> createBlock (PBFTProposal.data p2) = Some b2 ->
  admissible true false true s m1 -> admissible true false true s m2 ->
  PBFTMessage.index m2 = PBFTMessage.index m1 -> PBFTMessage.view m1 < PBFTMessage.view m2 ->
  PBFTMessage.hash m1 <> PBFTMessage.hash m2 ->
  PBFTCacheProcessor.m_caches s !! PBFTMessage.index m1 = None ->
  map_Forall (fun _ => waiting (PBFTCacheProcessor.m_config s)) (PBFTCacheProcessor.m_caches s) ->
  small_vote (PBFTCacheProcessor.m_config s) ->
  PBFTMessage.generatedFrom m1 = PBFTMessage.generatedFrom m2 /\
  exists s1 es1 x1 s2 es2 x2 request,
    PBFTEngine.handlePrePrepareMsg m1 false false false s = Done true s1 es1 /\
    PBFTEngine.handlePrePrepareMsg m2 true false true s1 = Done true s1 [request] /\
    PBFTEngine.handlePrePrepareMsg m2 false false false s1 = Done true s2 es2 /\
    broadcasts PreparePacket es1 = [x1] /\ broadcasts PreparePacket es2 = [x2] /\
    PBFTMessage.index x1 = PBFTMessage.index x2 /\ PBFTMessage.view x1 = PBFTMessage.view x2 /\
    PBFTMessage.generatedFrom x1 = PBFTMessage.generatedFrom x2 /\
    PBFTMessage.hash x1 = PBFTMessage.hash m1 /\ PBFTMessage.hash x2 = PBFTMessage.hash m2 /\
    PBFTMessage.hash x1 <> PBFTMessage.hash x2.
Proof.
  intros Hs Hm1 Hm2 Hp1 Hb1 Hp2 Hb2 Ha1 Ha2 Hidx Hview Hne Hi Hw Hv.
  split; [by eapply same_leader|].
  pose proof (wire_sane _ _ _ Hm1 Hp1) as Hsm1. pose proof (wire_sane _ _ _ Hm2 Hp2) as Hsm2.
  pose proof (pw_hash _ _ Hm1 p1 Hp1) as Hh1. pose proof (pw_hash _ _ Hm2 p2 Hp2) as Hh2.
  pose proof (sn_config _ _ _ Hs) as Hc.
  destruct (accept_first s m1 p1 b1 Hp1 Hb1 Hh1 Hv (sc_quorum _ _ Hc) Hi Hw)
    as (s1 & es1 & E1 & Hs1 & Hx1).
  assert (Hsane : sane_node N D s1).
  { pose proof (acceptPrePrepare_kept N D m1 Hsm1 s Hs) as Hk. rewrite E1 in Hk. apply Hk. }
  assert (Hr : ready (P.m_config s1)) by apply (sane_ready N), (sn_config _ _ _ Hsane).
  pose proof (admissible_after _ _ _ s m1 m2 p1 s1 Hs1 Hi Hidx Hview Ha2) as Ha.
  destruct (handle_unverified s1 m2 Hr Ha) as [request Hreq].
  destruct (acceptPrePrepare_taken N D s1 m2 p2 b2 Hsane Hsm2 Hp2 Hb2)
    as (s2 & es2 & E2 & _ & [Hx2 _]).
  destruct (prepare_of_base (P.m_config s) m1 p1) as (I1 & J1 & K1 & L1).
  destruct (prepare_of_base (P.m_config s1) m2 p2) as (I2 & J2 & K2 & L2).
  exists s1, es1, (prepare_of (P.m_config s) m1 p1), s2, es2, (prepare_of (P.m_config s1) m2 p2), request.
  split; [exact (handle_verified s m1 _ (sane_ready _ _ Hc) (admissible_verified s m1 Ha1) E1)|].
  split; [exact Hreq|].
  split; [exact (handle_verified s1 m2 _ Hr (admissible_verified s1 m2 Ha) E2)|].
  split; [exact Hx1|]. split; [exact Hx2|].
  destruct Hs1 as [(v & t & Hc1) _ _]. rewrite I1, I2, J1, J2, K1, K2, L1, L2, Hc1.
  repeat split; congruence.
Qed.

(** The node of the scenario, and two proposals for block 1. *)
#[local] Existing Instance Demo.externals.

Example equivocating_leader_prepared_twice_witness :
  let s := PBFTEngine.m_cacheProcessor engine in
  exists s1 es1 x1 s2 es2 x2,
    PBFTEngine.handlePrePrepareMsg (offered block 0) false false false s = Done true s1 es1 /\
    PBFTEngine.handlePrePrepareMsg (offered rival 1) false false false s1 = Done true s2 es2 /\
    broadcasts PreparePacket es1 = [x1] /\ broadcasts PreparePacket es2 = [x2] /\
    PBFTMessage.hash x1 = 42 /\ PBFTMessage.hash x2 = 43.
Proof.
  intros s.
  assert (Hb : forall p, p = block \/ p = rival -> exists b, createBlock (PBFTProposal.data p) = Some b).
  { intros p [-> | ->]; eexists; vm_compute; reflexivity. }
  destruct (Hb block (or_introl eq_refl)) as [b1 Hb1].
  destruct (Hb rival (or_intror eq_refl)) as [b2 Hb2].
  destruct (equivocating_leader_prepared_twice 4 nowhere s (offered block 0) (offered rival 1)
    block rival b1 b2) as (_ & s1 & es1 & x1 & s2 & es2 & x2 & r & H1 & _ & H2 & X1 & X2 & _ & _ & _ & J1 & J2 & _).
  - exact (proj1 engine_sane).
  - apply offered_wire.
  - apply offered_wire.
  - reflexivity.
  - exact Hb1.
  - reflexivity.
  - exact Hb2.
  - apply engine_admits. by left.
  - apply engine_admits. by right.
  - reflexivity.
  - reflexivity.
  - discriminate.
  - vm_compute. reflexivity.
  - intros i this H. vm_compute in H. discriminate.
  - intros node H. vm_compute in H. injection H as <-. vm_compute. reflexivity.
  - by exists s1, es1, x1, s2, es2, x2.
Defined.

(** ** Two nodes precommit different proposals *)
(** The leader, node 1, sends a pre-prepare for view [v]. *)
Definition proposed (p : PBFTProposal.t) (v : ViewType) : list PBFTImpl.input :=
  let m := offered p v in
  [PBFTImpl.ConsensusMessage false (Some 2) (Packet (MPBFT m)); PBFTImpl.Worker;
   PBFTImpl.PrePrepareVerified false true m false].

Definition forwarded (k : NodeID) (m : PBFTMessage.t) : list PBFTImpl.input :=
  [PBFTImpl.ConsensusMessage false (Some k) (Packet (MPBFT m)); PBFTImpl.Worker].

(** What a node sends over a run. *)
Definition sent (l : list PBFTImpl.input) (e : PBFTEngine.t) : list Event :=
  match PBFTImpl.run l e with Some (_, es) => es | None => [] end.

(** Node 2 receives both proposals. *)
Definition both : list PBFTImpl.input := proposed block 0 ++ proposed rival 1.
Definition node2_prepares : list PBFTMessage.t := broadcasts PreparePacket (sent both (node 2)).

(** Nodes 0 and 3 receive one proposal each, the prepares of node 2, and a prepare of
    the leader for the proposal they have. *)
Definition one (p : PBFTProposal.t) : list PBFTImpl.input :=
  proposed p 0 ++ concat (map (forwarded 3) node2_prepares) ++
  [vote PreparePacket 2 p; PBFTImpl.Worker].

(** Nodes 0 and 3 each precommit and broadcast a commit request, for different proposals
    with the same index and view. *)
Example two_nodes_precommit_two_proposals :
  exists c c', broadcasts CommitPacket (sent (one block) (node 0)) = [c] /\
     broadcasts CommitPacket (sent (one rival) (node 3)) = [c'] /\
     PBFTMessage.index c = PBFTMessage.index c' /\ PBFTMessage.view c = PBFTMessage.view c' /\
     PBFTMessage.hash c <> PBFTMessage.hash c'.
Proof.
  eexists _, _. split; [vm_compute; reflexivity|]. split; [vm_compute; reflexivity|].
  vm_compute. repeat split; congruence.
Qed.
