(* ===== verification/Forgery.v ===== *)
(** Forgery: what the signatures of the wire format do not cover.  The packet type is
    outside the signed fields of a consensus message, and a view change may bring the
    hash that its signature is checked against. *)
From S2P Require Import Prelude Types Protobuf Codec CodecFacts.
From S2P Require Import Timer Validator Config Cache Processor LogSync Engine.
From S2P Require Import Quorum ConfigFacts CacheFacts Steps Node Growth Refine Impl Behaviour.
From S2P Require Import Invariants Votes Safety Agreement Boot Sane SaneNode FaultFree Progress PrePrepare Scenario Equivocation.
Import PB.

(** The packets that carry a [PBFTMessage]. *)
Definition carries_message (p : PacketType) : Prop :=
  p ∈ [PrePreparePacket; PreparePacket; CommitPacket; CommittedProposalResponse; CheckPoint;
       RecoverRequest; RecoverResponse].

Lemma carries_commit : carries_message CommitPacket.
Proof. do 2 right. left. Qed.

Section Wire.
Context `{Ext : Externals} `{Pb : Protobuf}.

Lemma carries_payload p d :
  carries_message p ->
  PBFTCodec.decodePayload p d = PBFTCodec.OPBFT <$> PBFTMessageFactoryImpl.createPBFTMsg d /\
  shouldHandleSignature p = false.
Proof. unfold carries_message. rewrite !elem_of_cons, elem_of_nil. intuition (by subst). Qed.

(** A packet with another type in place of its own. *)
Definition retype (p : PacketType) (m : PBFTMessage.t) : PBFTMessage.t :=
  m <| PBFTMessage.base := PBFTBaseMessage.setPacketType p (PBFTMessage.base m) |>.

Lemma decode_OPBFT data m :
  PBFTCodec.decode data = inl (PBFTCodec.OPBFT m) ->
  exists payLoad m0,
    PBFTMessageFactoryImpl.createPBFTMsg payLoad = Some m0 /\
    m = retype (PBFTBaseMessage.m_packetType (PBFTMessage.base m)) m0.
Proof.
  unfold PBFTCodec.decode. destruct (decodePBObject data) as [pb|]; [|done].
  destruct (PBFTCodec.packet_of_code _) as [p|]; [|done].
  destruct (PBFTCodec.decodePayload _ _) as [o|] eqn:Ed; [|done]. intros [= Ho].
  assert (Hc : carries_message p \/ ~ carries_message p).
  { destruct (decide (carries_message p)); auto. }
  destruct Hc as [Hc|Hc].
  - destruct (carries_payload p (RawMessage.payLoad pb) Hc) as [Hp Hs].
    rewrite Hp in Ed. rewrite Hs in Ho.
    destruct (PBFTMessageFactoryImpl.createPBFTMsg _) as [m0|] eqn:Em; [|done].
    injection Ed as <-. injection Ho as <-. by exists (RawMessage.payLoad pb), m0.
  - destruct p; try (exfalso; apply Hc; unfold carries_message; set_solver); simpl in Ed, Ho;
      match type of Ed with _ <$> ?x = _ => destruct x; [|done] end; injection Ed as <-;
      revert Ho; try destruct (bool_decide _); discriminate.
Qed.

Lemma retype_packet data m p :
  PBFTCodec.decode data = inl (PBFTCodec.OPBFT m) -> carries_message p ->
  exists data', PBFTCodec.decode data' = inl (PBFTCodec.OPBFT (retype p m)).
Proof.
  intros Hd Hp. destruct (decode_OPBFT _ _ Hd) as (payLoad & m0 & Hm0 & ->).
  exists (encodePBObject (RawMessage.mk 0 (PBFTCodec.packet_code p) [] payLoad)).
  destruct (carries_payload p payLoad Hp) as [Hf Hs]. rewrite Hm0 in Hf.
  by rewrite (decode_packet _ _ _ _ _ Hf), Hs.
Qed.
End Wire.

(** C27: the signature of a consensus message does not cover its packet type.  Whatever
    packet a node decodes, the same message decodes under any other of the consensus
    packet types, and the signature check answers the same for it: a prepare request
    can be turned into a commit request by whoever receives it. *)
Theorem packet_type_not_signed `{Ext : Externals} `{Pb : Protobuf} (c : PBFTConfig.t) data m p :
  PBFTCodec.decode data = inl (PBFTCodec.OPBFT m) -> carries_message p ->
  exists data' m',
    PBFTCodec.decode data' = inl (PBFTCodec.OPBFT m') /\
    PBFTMessage.contents m' =
      PBFTMessage.contents m <| Types.PBFTMessage.packetType := p |> /\
    PBFTEngine.checkSignature c (PBFTMessage.contents m') =
      PBFTEngine.checkSignature c (PBFTMessage.contents m).
Proof.
  intros Hd Hp. destruct (retype_packet data m p Hd Hp) as [data' Hd'].
  by exists data', (retype p m).
Qed.

(** The view change of node [i] for view [v], with the signature [sig] of [h]. *)
Definition forged (i : IndexType) (v : ViewType) (n : BlockNumber) (h : HashType) (sig : bytes)
    : PBFTViewChangeMsg.t :=
  PBFTViewChangeMsg.mk
    (PBFTBaseMessage.setPacketType ViewChangePacket (PBFTBaseMessage.of_raw
       (RawBaseMessage.mk 0 n [] (i64 v) 0 (i64 i) (hash_data h) sig)))
    (Some (PBFTProposal.of_raw (PBFTRawProposal.mk
       (Some (RawProposal.empty <| RawProposal.index := n |>)) [] []))) [] [].

Lemma forged_transmittable `{Pb : Protobuf} i v n h sig :
  transmittable (PBFTCodec.OViewChange (forged i v n h sig)).
Proof.
  split; [unfold forged; by rewrite of_raw_fields|]. split; [|split; [|done]].
  - apply built_synced. by repeat constructor.
  - intros p [= <-]. apply of_raw_proposal_synced.
Qed.

(** What the receiver reads. *)
Definition forged_contents (i : IndexType) (v : ViewType) (n : BlockNumber) (h : HashType)
    (sig : bytes) : ViewChangeMsg.t :=
  ViewChangeMsg.mk (BaseMessage.mk 0 n 0 (i64 v) 0 (i64 i) h sig) ViewChangePacket None
    (Some (Types.PBFTProposal.create <| Types.PBFTProposal.index := n |>)) [].

Lemma received_forged `{Pb : Protobuf} i v n h sig :
  is_hash h ->
  exists m, received (PBFTCodec.OViewChange (forged i v n h sig)) = PBFTCodec.OViewChange m /\
    PBFTViewChangeMsg.contents m = forged_contents i v n h sig.
Proof.
  intros Hh. eexists. split; [reflexivity|]. unfold forged.
  rewrite of_raw_fields. simpl. rewrite read_hash_data by done. reflexivity.
Qed.

(** The checks of [isValidViewChangeMsg] on it, at a block after the committed one. *)
Lemma isValid_forged `{Ext : Externals} (s : PBFTCacheProcessor.t) local node from i v n h sig :
  is_u64 i -> is_u64 v ->
  PBFTConfig.committedProposal (PBFTCacheProcessor.m_config s) = Some local ->
  PBFTConfig.getConsensusNodeByIndex (PBFTCacheProcessor.m_config s) i = Some node ->
  verify (ConsensusNode.nodeID node) h sig = true ->
  PBFTConfig.m_view (PBFTCacheProcessor.m_config s) <= v ->
  PBFTConfig.m_toView (PBFTCacheProcessor.m_config s) <= u64 (v + 1) ->
  PBFTProposal.index local < n ->
  PBFTEngine.isValidViewChangeMsg from (forged_contents i v n h sig) true s = Done true s [].
Proof.
  intros Hi Hv Hl Hn Hver Hview Hto Hidx.
  assert (Hc : PBFTEngine.checkSignature (PBFTEngine.config_of s) (forged_contents i v n h sig)
    = VALID).
  { unfold PBFTEngine.checkSignature, msg_generatedFrom, BaseMessage.generatedFrom. simpl.
    rewrite u64_i64, u64_id by done. unfold PBFTEngine.config_of. by rewrite Hn, Hver. }
  unfold PBFTEngine.isValidViewChangeMsg. revert Hc. destruct s as [c]. simpl in *. intros Hc.
  unfold PBFTEngine.committedIndex, PBFTEngine.P.committedIndex, PBFTConfig.committedIndex,
    zoom, mbind, eff_bind, asks. simpl. rewrite Hl. simpl.
  assert (ViewChangeMsg.view (forged_contents i v n h sig) = v) as ->.
  { unfold ViewChangeMsg.view, BaseMessage.view. simpl. by rewrite u64_i64, u64_id. }
  rewrite (proj2 (Z.ltb_ge n _)), (proj2 (Z.ltb_ge (u64 _) _)) by lia. simpl.
  rewrite (proj2 (Z.ltb_ge v _)) by done. simpl.
  rewrite (proj2 (Z.ltb_ge v _)) by done. rewrite Hl. simpl.
  rewrite (proj2 (Z.eqb_neq n _)) by lia. simpl. by rewrite Hc.
Qed.

(** C26: one signature of a node, on whatever it was made, suffices to forge its view
    change messages.  A view change that brings a signature of its own in the base
    message is checked against the hash it brings along: for every node, every hash
    the node has signed and every view there are bytes that decode to a view change of
    that node for that view which the receiver accepts as valid. *)
Theorem forged_view_change `{Ext : Externals} `{Pb : Protobuf} (s : PBFTCacheProcessor.t)
    local i node h sig v :
  is_u64 i -> is_u64 v -> is_hash h -> sig <> [] ->
  PBFTConfig.committedProposal (PBFTCacheProcessor.m_config s) = Some local ->
  PBFTConfig.getConsensusNodeByIndex (PBFTCacheProcessor.m_config s) i = Some node ->
  verify (ConsensusNode.nodeID node) h sig = true ->
  PBFTConfig.m_view (PBFTCacheProcessor.m_config s) <= v ->
  PBFTConfig.m_toView (PBFTCacheProcessor.m_config s) <= u64 (v + 1) ->
  exists data m,
    PBFTCodec.decode data = inl (PBFTCodec.OViewChange m) /\
    ViewChangeMsg.generatedFrom (PBFTViewChangeMsg.contents m) = i /\
    ViewChangeMsg.view (PBFTViewChangeMsg.contents m) = v /\
    forall from,
      PBFTEngine.isValidViewChangeMsg from (PBFTViewChangeMsg.contents m) true s = Done true s [].
Proof.
  intros Hi Hv Hh Hsig Hl Hn Hver Hview Hto.
  set (n := PBFTProposal.index local + 1).
  pose proof (encode_decode 0 0 _ (forged_transmittable i v n h sig)) as Hd.
  assert (He : snd (PBFTCodec.encode 0 (PBFTCodec.OViewChange (forged i v n h sig)) 0) =
    PBFTCodec.OViewChange (forged i v n h sig)).
  { unfold PBFTCodec.encode. cbv beta iota delta [PBFTCodec.encodePayload].
    rewrite bool_decide_false, andb_false_r; [done|].
    unfold forged. by rewrite of_raw_fields. }
  destruct (PBFTCodec.encode 0 _ 0) as [data sent]. simpl in He. subst sent.
  destruct (received_forged i v n h sig Hh) as (m & Hm & Hc). rewrite Hm in Hd.
  exists data, m. split; [exact Hd|]. rewrite Hc. unfold forged_contents.
  unfold ViewChangeMsg.generatedFrom, ViewChangeMsg.view, BaseMessage.generatedFrom,
    BaseMessage.view. simpl. rewrite !u64_i64, !u64_id by done.
  split; [done|]. split; [done|].
  intros from. apply (isValid_forged s local node); [done..|]. subst n. lia.
Qed.

(** Node 1, the leader, signed its proposal: with that signature anyone can make node 0
    accept a view change of node 1 for view 9. *)
Example forged_view_change_witness :
  let _ := Demo.externals in let _ := PBDemo.protobuf in
  let s := PBFTEngine.m_cacheProcessor engine in
  exists data m,
    PBFTCodec.decode data = inl (PBFTCodec.OViewChange m) /\
    ViewChangeMsg.generatedFrom (PBFTViewChangeMsg.contents m) = 1 /\
    ViewChangeMsg.view (PBFTViewChangeMsg.contents m) = 9 /\
    forall from,
      PBFTEngine.isValidViewChangeMsg from (PBFTViewChangeMsg.contents m) true s = Done true s [].
Proof.
  intros Ext Pb s.
  apply (forged_view_change (Ext := Ext) (Pb := Pb) s
    (Types.PBFTProposal.create <| Types.PBFTProposal.hash := 7 |>)
    1 (ConsensusNode.mk 2 1) 42 (sign 2 42) 9);
    first [vm_compute; split; congruence | vm_compute; congruence].
Defined.

(** A prepare request and the commit request made of it. *)
Example packet_type_not_signed_witness :
  let _ := Demo.externals in let _ := PBDemo.protobuf in
  let m := retype PreparePacket PBFTMessage.create in
  let data := fst (PBFTCodec.encode 2 (PBFTCodec.OPBFT m) 0) in
  exists data' m',
    PBFTCodec.decode data' = inl (PBFTCodec.OPBFT m') /\
    PBFTBaseMessage.m_packetType (PBFTMessage.base m') = CommitPacket /\
    PBFTEngine.checkSignature (config engine) (PBFTMessage.contents m') =
      PBFTEngine.checkSignature (config engine)
        (PBFTMessage.contents (PBFTMessage.encode 2 m).2).
Proof.
  intros Ext Pb m data.
  assert (Hd : PBFTCodec.decode data = inl (PBFTCodec.OPBFT (PBFTMessage.encode 2 m).2)).
  { apply (encode_decode 2 0 (PBFTCodec.OPBFT m)). split; [reflexivity|].
    split; [apply built_synced; repeat constructor|by split]. }
  destruct (packet_type_not_signed (config engine) data _ CommitPacket Hd carries_commit)
    as (d' & m' & H & Hc & Hs).
  exists d', m'. split; [exact H|]. split; [|exact Hs].
  exact (f_equal Types.PBFTMessage.packetType Hc).
Defined.

(** ** What retyped packets do *)
Section Replay.
Context `{Ext : Externals} `{Pb : Protobuf}.

(** The packet [data] carries the message [m] under the type [p]. *)
Definition carries_as (p : PacketType) (data : bytes) (m : Types.PBFTMessage.t) : Prop :=
  exists o, PBFTCodec.decode data = inl (PBFTCodec.OPBFT o) /\
    PBFTMessage.contents o = m /\ Types.PBFTMessage.packetType m = p.

Definition as_commit (m : Types.PBFTMessage.t) : Types.PBFTMessage.t :=
  m <| Types.PBFTMessage.packetType := CommitPacket |>.

Lemma carried_as_commit p data m :
  carries_as p data m -> exists data', carries_as CommitPacket data' (as_commit m).
Proof.
  intros (o & Hd & <- & _). destruct (retype_packet data o CommitPacket Hd carries_commit) as [data' Hd'].
  exists data', (retype CommitPacket o). done.
Qed.

Lemma all_carried_as_commit p packets ms :
  Forall2 (carries_as p) packets ms ->
  exists packets', Forall2 (carries_as CommitPacket) packets' (map as_commit ms).
Proof.
  induction 1 as [|data m packets ms Hd _ [packets' IH]]; [by exists []|].
  destruct (carried_as_commit p data m Hd) as [data' Hd']. exists (data' :: packets').
  by constructor.
Qed.

Lemma committed_as_prepared c i h ms :
  committed_by c i h (map Commit (map as_commit ms)) = prepared_by c i h (map Prepare ms).
Proof.
  unfold committed_by, prepared_by. f_equal. induction ms as [|m ms IH]; [done|].
  exact (f_equal (cons (voter c i h m)) IH).
Qed.

Lemma no_prepares c i h ms : prepared_by c i h (map Commit ms) = ∅.
Proof.
  unfold prepared_by. apply empty_union_list_L. induction ms as [|m ms IH]; by constructor.
Qed.

Lemma no_commits c i h ms : committed_by c i h (map Prepare ms) = ∅.
Proof.
  unfold committed_by. apply empty_union_list_L. induction ms as [|m ms IH]; by constructor.
Qed.

Lemma by_app c i h vs ws :
  prepared_by c i h (vs ++ ws) = prepared_by c i h vs ∪ prepared_by c i h ws /\
  committed_by c i h (vs ++ ws) = committed_by c i h vs ∪ committed_by c i h ws.
Proof. unfold prepared_by, committed_by. by rewrite !fmap_app, !union_list_app_L. Qed.

(** The prepare requests, and then the same requests as commit requests. *)
Definition replay (ms : list Types.PBFTMessage.t) : list ballot :=
  map Prepare ms ++ map Commit (map as_commit ms).

Lemma replay_votes c i h mine ms :
  let voters := voter c i h mine ∪ prepared_by c i h (map Prepare ms) in
  prepared_by c i h (Prepare mine :: replay ms) = voters /\
  committed_by c i h (Prepare mine :: replay ms) = prepared_by c i h (map Prepare ms).
Proof.
  intros voters. destruct (by_app c i h [Prepare mine] (replay ms)) as [H1 H2].
  destruct (by_app c i h (map Prepare ms) (map Commit (map as_commit ms))) as [H3 H4].
  simpl in H1, H2. fold (replay ms) in H3, H4.
  rewrite H1, H2, H3, H4, no_prepares, no_commits, committed_as_prepared. subst voters.
  unfold prepared_by at 1, committed_by. simpl. split; set_solver.
Qed.
End Replay.

(** C25: a commit quorum out of prepare requests.  Let a node accept a pre-prepare of the
    current view and collect prepare requests whose senders, itself included, weigh
    [m_minRequiredQuorum]; the packets that carried them are [packets].  Then there are
    packets that decode to the same messages as commit requests, the checks of a vote
    answer for each of them what they answer for the prepare request, and once the prepare
    requests and these packets have been collected the proposal is decided: it is submitted, and one
    decision is reported - no other node has made a commit request. *)
Theorem replayed_prepares_commit `{Ext : Externals} `{Pb : Protobuf} N config i h prePrepare mine
    packets ms :
  sane_config N config -> wf_nodes config -> PBFTConfig.isConsensusNode config = true ->
  sane_prePrepare N prePrepare -> proposes config i h prePrepare ->
  is_Some (Types.PBFTMessage.consensusProposal mine) -> voter config i h mine = {[ me config ]} ->
  Forall2 (carries_as PreparePacket) packets ms ->
  Forall (fun m => is_Some (Types.PBFTMessage.consensusProposal m)) ms ->
  enough config ({[ me config ]} ∪ prepared_by config i h (map Prepare ms)) = true ->
  (exists packets', Forall2 (carries_as CommitPacket) packets' (map as_commit ms)) /\
  (forall s m, PBFTEngine.checkPBFTMsg s (as_commit m) = PBFTEngine.checkPBFTMsg s m) /\
  exists bs f es,
    election [] prePrepare mine (replay ms) (PBFTCache.Frame config (PBFTCache.create config i)) =
      Done bs f es /\
    PBFTCache.m_submitted (PBFTCache.f_this f) = true /\ decisions bs = 1%nat.
Proof.
  intros Hc Hn Hme Hs Hp Hmine Hvoter Hpackets Hms Hq.
  split; [by eapply all_carried_as_commit|]. split; [done|].
  assert (Hall : Forall carries (Prepare mine :: replay ms)).
  { constructor; [done|]. apply Forall_app. split.
    - by apply list.Forall_fmap.
    - apply list.Forall_fmap, list.Forall_true. done. }
  destruct (election_settles config i h N Hc Hn Hme [] prePrepare mine (replay ms) Hs Hp Hall)
    as (bs & f & es & E & [T Hd _]).
  exists bs, f, es. split; [exact E|]. destruct (replay_votes config i h mine ms) as [H1 H2].
  assert (Hdec : decides config true (prepared_by config i h (Prepare mine :: replay ms))
    (committed_by config i h (Prepare mine :: replay ms)) = true).
  { unfold decides, precommits. rewrite H1, H2, Hvoter. simpl. unfold own. by rewrite Hq. }
  unfold settled in T. simpl in T, Hd. rewrite Hdec in T, Hd. split; [apply T|exact Hd].
Qed.

(** Nodes 2 and 3 have prepared the leader's proposal for block 1. *)
Definition prepare_packet (k : NodeID) : PBFTMessage.t :=
  PBFTMessage.setConsensusProposal PBFTProposal.create
    (PBFTMessage.create <| PBFTMessage.base :=
      PBFTBaseMessage.setPacketType PreparePacket (PBFTBaseMessage.setIndex 1
        (PBFTBaseMessage.setHash 42 (PBFTBaseMessage.setGeneratedFrom (k - 1)
          PBFTBaseMessage.create))) |>).

Lemma prepare_packet_carried k :
  let _ := Demo.externals in let _ := PBDemo.protobuf in
  carries_as PreparePacket (fst (PBFTCodec.encode k (PBFTCodec.OPBFT (prepare_packet k)) 0))
    (PBFTMessage.contents (PBFTMessage.encode k (prepare_packet k)).2).
Proof.
  intros Ext Pb. set (m := prepare_packet k).
  assert (Ho : transmittable (PBFTCodec.OPBFT m)).
  { split; [reflexivity|]. split; [apply built_synced; repeat constructor; by vm_compute|].
    split; [by intros p [= <-]|apply Forall_nil_2]. }
  exists (PBFTMessage.encode k m).2. split; [exact (encode_decode k 0 _ Ho)|by split].
Qed.

Example replayed_prepares_commit_witness :
  let _ := Demo.externals in let _ := PBDemo.protobuf in
  let message k := PBFTMessage.contents (PBFTMessage.encode k (prepare_packet k)).2 in
  exists bs f es,
    election [] prePrepare (request PreparePacket 1) (replay [message 3; message 4])
      (PBFTCache.Frame (config engine) (PBFTCache.create (config engine) 1)) = Done bs f es /\
    PBFTCache.m_submitted (PBFTCache.f_this f) = true /\ decisions bs = 1%nat.
Proof.
  intros Ext Pb message.
  pose proof (replayed_prepares_commit 4 (config engine) 1 42 prePrepare (request PreparePacket 1)
    (map (fun k => fst (PBFTCodec.encode k (PBFTCodec.OPBFT (prepare_packet k)) 0)) [3; 4])
    [message 3; message 4]) as H.
  apply H; clear H.
  - exact (sn_config _ _ _ (proj1 engine_sane)).
  - exact (fair_nodes _ _ engine_fair).
  - reflexivity.
  - exact prePrepare_sane.
  - split; [reflexivity..|]. by intros p [= <-].
  - by eexists.
  - vm_compute. reflexivity.
  - repeat constructor; apply prepare_packet_carried.
  - repeat constructor; by eexists.
  - vm_compute. reflexivity.
Defined.
